(** * CorpusCompass: the dataset-creation engine

    A shallow embedding of [generate_dataset] and [DCThread.run]
    (src/dataset_creator/DCThread.py) and the properties of the
    annotation statistics, the dataset rows, the one-hot table and the
    cancellation gate that follow from the code.

    Conventions of the embedding:
    - a Python [str] is a [string] (its characters are the code points
      below 256); a Python [int] is a [Z];
    - a Python [dict] is an association list in insertion order
      ([PyDict]), since the order of the keys decides the columns of
      the statistics table; the dictionaries handed to the engine have
      distinct keys;
    - the body of [generate_dataset] runs in the monad [M]: it threads
      the messages sent to the logger and the number of times the stop
      flag was polled, and ends with a value, with [return None]
      ([Cancelled]) or with a raised exception; the stop flag is what
      each poll of [stop_flag.is_set()] sees, since another thread sets
      it;
    - compiled regular expressions are an abstract type with its
      [finditer]; the helpers of [src.dataset_creator.dc_utils] are
      the fields of the record [dc_utils], functions of their
      arguments; those that are handed the logger give their value
      together with the messages that they send to it, which the engine
      adds to the log; progress bars are left out;
    - a pandas DataFrame is its list of labels, which may repeat, and
      its rows.

    The upload helpers [multi_corpus_upload], [open_postprocess] and
    [open_variables] (src/common/c_utils.py) are embedded in the module
    [CUtils], with their own conventions.

    The file has the embedding first, then the vocabulary of the
    properties and the example runs, then the proofs. *)

From Stdlib Require Import String Ascii List ZArith Bool Arith Lia DecimalString
  Sorted.
Import ListNotations.

Local Open Scope string_scope.
Local Open Scope list_scope.

(** ** Python strings *)

Module PyStr.

(** [sep.join(l)] *)
Definition join (sep : string) (l : list string) : string :=
  String.concat sep l.

(** [s.split(c)] for a separator of one character: never empty. *)
Fixpoint split (c : ascii) (s : string) : list string :=
  match s with
  | EmptyString => [""]
  | String a s' =>
      if Ascii.eqb a c then "" :: split c s'
      else match split c s' with
           | [] => [String a ""]
           | h :: t => String a h :: t
           end
  end.

(** [s.split(c)[-1]] *)
Definition last_component (c : ascii) (s : string) : string :=
  last (split c s) "".

(** [s.rsplit(c, 1)]: one element when [c] does not occur, otherwise
    the text before the last [c] and the text after it. *)
Definition rsplit1 (c : ascii) (s : string) : list string :=
  match split c s with
  | [] | [_] => [s]
  | parts => [join (String c "") (removelast parts); last parts ""]
  end.

(** [s.replace(c, "")] for one character [c] *)
Fixpoint remove_char (c : ascii) (s : string) : string :=
  match s with
  | EmptyString => EmptyString
  | String a s' =>
      if Ascii.eqb a c then remove_char c s' else String a (remove_char c s')
  end.

Fixpoint lstrip_p (p : ascii -> bool) (s : string) : string :=
  match s with
  | EmptyString => EmptyString
  | String a s' => if p a then lstrip_p p s' else s
  end.

Fixpoint rstrip_p (p : ascii -> bool) (s : string) : string :=
  match s with
  | EmptyString => EmptyString
  | String a s' =>
      match rstrip_p p s' with
      | EmptyString => if p a then EmptyString else String a EmptyString
      | r => String a r
      end
  end.

Definition strip_p (p : ascii -> bool) (s : string) : string :=
  rstrip_p p (lstrip_p p s).

(** The characters below 256 for which [str.isspace] holds. *)
Definition isspace (a : ascii) : bool :=
  let n := nat_of_ascii a in
  (((9 <=? n) && (n <=? 13)) || ((28 <=? n) && (n <=? 32))
   || (n =? 133) || (n =? 160))%nat.

(** [s.strip()] *)
Definition strip (s : string) : string := strip_p isspace s.

(** [s.strip(c)] for one character [c] *)
Definition strip_char (c : ascii) (s : string) : string :=
  strip_p (Ascii.eqb c) s.

(** [sub in s] *)
Fixpoint contains (sub s : string) : bool :=
  String.prefix sub s ||
  match s with
  | EmptyString => false
  | String _ s' => contains sub s'
  end.

(** [x in l] for a list of strings *)
Definition mem (x : string) (l : list string) : bool :=
  existsb (String.eqb x) l.

(** [sorted(l)] on strings: a stable insertion sort on code points. *)
Fixpoint insert_sorted (x : string) (l : list string) : list string :=
  match l with
  | [] => [x]
  | y :: l' => if String.leb x y then x :: l else y :: insert_sorted x l'
  end.

Definition sorted (l : list string) : list string :=
  fold_right insert_sorted [] l.

(** the distinct elements, in order of first occurrence *)
Fixpoint dedup (l : list string) : list string :=
  match l with
  | [] => []
  | x :: l' => x :: filter (fun y => negb (String.eqb x y)) (dedup l')
  end.

(** [l.remove(x)]: drops the first occurrence, [None] (ValueError)
    when there is none. *)
Fixpoint list_remove (x : string) (l : list string) : option (list string) :=
  match l with
  | [] => None
  | y :: l' =>
      if String.eqb y x then Some l'
      else option_map (cons y) (list_remove x l')
  end.

End PyStr.

(** ** Python dictionaries, in insertion order *)

Module PyDict.

Definition dict (V : Type) := list (string * V).

Section Ops.
Context {V : Type}.

Fixpoint get (k : string) (d : dict V) : option V :=
  match d with
  | [] => None
  | (k', v) :: d' => if String.eqb k' k then Some v else get k d'
  end.

(** [d[k] = v]: in place when the key is there, at the end otherwise *)
Fixpoint set (k : string) (v : V) (d : dict V) : dict V :=
  match d with
  | [] => [(k, v)]
  | (k', v') :: d' =>
      if String.eqb k' k then (k', v) :: d' else (k', v') :: set k v d'
  end.

Definition mem (k : string) (d : dict V) : bool :=
  match get k d with Some _ => true | None => false end.

(** [d.get(k, default)] *)
Definition get_default (k : string) (d : dict V) (default : V) : V :=
  match get k d with Some v => v | None => default end.

Definition keys (d : dict V) : list string := map fst d.
Definition values (d : dict V) : list V := map snd d.

(** [{**a, **b}] *)
Definition merge (a b : dict V) : dict V :=
  fold_left (fun d kv => set (fst kv) (snd kv) d) b a.

End Ops.

End PyDict.


Abbreviation dict := PyDict.dict.

(** The line feed, Python's ["\n"]. *)
Definition nl : string := String (ascii_of_nat 10) EmptyString.

(** [str(n)] for a natural number *)
Definition str_of_nat (n : nat) : string :=
  NilEmpty.string_of_uint (Nat.to_uint n).

(** ** Outcomes, log and the monad of the engine *)

(** The value of a category in a variable dictionary: one token value
    or a list of them. *)
Inductive var_value :=
| VStr (s : string)
| VList (l : list string).

(** The pieces of a formatted message. A percentage [f"{a / b * 100:.2f}"]
    is kept as the two integers it divides. The text [sep.join(s)] of a
    set [s] of strings is kept as the separator and the members of the
    set, sorted: the order in which Python iterates over a set of
    strings, and with it the order of the members in the text, is not
    fixed by the code. *)
Inductive piece :=
| PStr (s : string)
| PInt (z : Z)
| PPercent (num den : Z)
| PValue (v : var_value)
| PJoinedSet (sep : string) (members : list string).

Definition message := list piece.

Inductive level := Info | Warning | Error.

(** What a run has done to the outside so far: how many times it has
    asked [stop_flag.is_set()], and the messages it sent to the logger,
    oldest first. *)
Record world := { polls : nat; log : list (level * message) }.

Inductive exn :=
| ValueError (msg : string)
| KeyError (key : string)
| IndexError
| ZeroDivisionError
| AttributeError (attr : string)
| ReError (pattern : string).

(** How a piece of [generate_dataset] ends: with a value, with
    [return None], or with a raised exception. *)
Inductive result (A : Type) :=
| Val (a : A)
| Cancelled
| Raise (e : exn).

Arguments Val {A} a.
Arguments Cancelled {A}.
Arguments Raise {A} e.

Definition M (A : Type) := world -> result A * world.

Definition ret {A} (a : A) : M A := fun w => (Val a, w).

Definition bind {A B} (m : M A) (f : A -> M B) : M B :=
  fun w =>
    match m w with
    | (Val a, w') => f a w'
    | (Cancelled, w') => (Cancelled, w')
    | (Raise e, w') => (Raise e, w')
    end.

Definition raise {A} (e : exn) : M A := fun w => (Raise e, w).

Definition return_None {A} : M A := fun w => (Cancelled, w).

Declare Scope engine_scope.
Delimit Scope engine_scope with engine.

Notation "x <- c1 ;; c2" := (bind c1 (fun x => c2))
  (at level 61, c1 at next level, right associativity) : engine_scope.
Notation "' pat <- c1 ;; c2" :=
  (bind c1 (fun x => match x with pat => c2 end))
  (at level 61, pat pattern, c1 at next level, right associativity) : engine_scope.
Notation "c1 ;; c2" := (bind c1 (fun _ => c2))
  (at level 61, right associativity) : engine_scope.

Local Open Scope engine_scope.

(** [for x in l: s = body(x, s)] *)
Fixpoint for_each {A S : Type} (l : list A) (body : A -> S -> M S) (s : S) : M S :=
  match l with
  | [] => ret s
  | x :: l' => s' <- body x s ;; for_each l' body s'
  end.

(** [[f(x) for x in l]] for an [f] with effects *)
Fixpoint map_M {A B : Type} (f : A -> M B) (l : list A) : M (list B) :=
  match l with
  | [] => ret []
  | x :: l' => y <- f x ;; ys <- map_M f l' ;; ret (y :: ys)
  end.

(** Lifting of [option]: the exception when there is no value. *)
Definition or_raise {A} (o : option A) (e : exn) : M A :=
  match o with Some a => ret a | None => raise e end.

(** [d[k]] *)
Definition getitem {V} (k : string) (d : dict V) : M V :=
  or_raise (PyDict.get k d) (KeyError k).

(** [d[k1][k2] = x] on a dictionary of dictionaries: the inner
    dictionary is updated in place. *)
Definition setitem2 {V} (k1 k2 : string) (x : V) (d : dict (dict V)) : M (dict (dict V)) :=
  v <- getitem k1 d ;;
  ret (PyDict.set k1 (PyDict.set k2 x v) d).

(** Python's list indexing: a negative index counts from the end. *)
Definition py_index {A} (l : list A) (i : Z) : option nat :=
  let n := Z.of_nat (length l) in
  if (0 <=? i)%Z && (i <? n)%Z then Some (Z.to_nat i)
  else if (i <? 0)%Z && (0 <=? i + n)%Z then Some (Z.to_nat (i + n))
  else None.

(** [l[i]] *)
Definition getidx {A} (l : list A) (i : Z) : M A :=
  match py_index l i with
  | Some n => or_raise (nth_error l n) IndexError
  | None => raise IndexError
  end.

Fixpoint list_update {A} (l : list A) (n : nat) (x : A) : list A :=
  match l, n with
  | [], _ => []
  | _ :: l', O => x :: l'
  | y :: l', S n' => y :: list_update l' n' x
  end.

(** [l[i] = x] *)
Definition setidx {A} (l : list A) (i : Z) (x : A) : M (list A) :=
  match py_index l i with
  | Some n => ret (list_update l n x)
  | None => raise IndexError
  end.

(** [l.index(x)]: the first position of [x], ValueError when absent. *)
Fixpoint list_index (x : string) (l : list string) : option nat :=
  match l with
  | [] => None
  | y :: l' => if String.eqb y x then Some O else option_map S (list_index x l')
  end.

(** [a / b] on integers: the quotient is kept as the pair it divides. *)
Definition true_div (a b : Z) : M (Z * Z) :=
  if (b =? 0)%Z then raise ZeroDivisionError else ret (a, b).

(** *** The logger *)

(** Modelled from the spec: the class [QTextLogger] of [src.common] is
    not among the sources. Section 6 of the specification gives its
    interface: leveled message emission (info, warning, error) and a
    progress sink. Any other attribute of it does not exist, and asking
    for one raises AttributeError. *)
Definition QTextLogger (method : string) : option level :=
  if method =? "info" then Some Info
  else if method =? "warning" then Some Warning
  else if method =? "error" then Some Error
  else None.

(** [logger.method(msg)] *)
Definition logger_call (method : string) (msg : message) : M unit :=
  fun w =>
    match QTextLogger method with
    | Some l => (Val tt, {| polls := polls w; log := log w ++ [(l, msg)] |})
    | None => (Raise (AttributeError method), w)
    end.

(** What a function that is handed the logger gives back: its value
    and the messages that it sent to the logger, oldest first. *)
Definition logging (A : Type) : Type := (A * list (level * message))%type.

(** The call of such a function: its messages are added to the log. *)
Definition with_logger {A} (call : logging A) : M A :=
  fun w => (Val (fst call), {| polls := polls w; log := log w ++ snd call |}).

(** ** Tables *)

Inductive cell :=
| CStr (s : string)
| CInt (z : Z)
| CBool (b : bool)
| CNone.

(** A pandas DataFrame over the default index 0, 1, ...: the labels of
    the columns, which pandas lets repeat, and the rows. *)
Record DataFrame := { columns : list string; data : list (list cell) }.

Module Pandas.

Definition max_width (rows : list (list cell)) : nat :=
  fold_right (fun r m => Nat.max (length r) m) 0 rows.

Definition pad (w : nat) (r : list cell) : list cell :=
  r ++ repeat CNone (w - length r).

(** [pd.DataFrame(data=rows, columns=cols)] for a list of lists: short
    rows are filled with None up to the longest one, whose length must
    be the number of labels; no row at all gives the empty table. *)
Definition make (rows : list (list cell)) (cols : list string) : M DataFrame :=
  match rows with
  | [] => ret {| columns := cols; data := [] |}
  | _ =>
      let w := max_width rows in
      if (w =? length cols)%nat
      then ret {| columns := cols; data := map (pad w) rows |}
      else raise (ValueError "columns passed do not match the passed data")
  end.

(** The cells of the column labelled [label], of the first one when
    the label is repeated, when there is one. *)
Definition values (label : string) (df : DataFrame) : option (list cell) :=
  match list_index label (columns df) with
  | Some i => Some (map (fun r => nth i r CNone) (data df))
  | None => None
  end.

(** The positions of the columns labelled [label]. *)
Definition positions (label : string) (cols : list string) : list nat :=
  filter (fun i => String.eqb (nth i cols "") label) (seq 0 (length cols)).

(** [df[label]]: the columns labelled [label], one (a Series) or, when
    the label is repeated, several (a frame). *)
Definition getitem (label : string) (df : DataFrame) : M (list (list cell)) :=
  match positions label (columns df) with
  | [] => raise (KeyError label)
  | ps => ret (map (fun i => map (fun r => nth i r CNone) (data df)) ps)
  end.

Fixpoint keep_by {A} (keep : list bool) (l : list A) : list A :=
  match keep, l with
  | k :: keep', x :: l' => if k then x :: keep_by keep' l' else keep_by keep' l'
  | _, _ => []
  end.

(** [df.drop(labels, axis=1)] *)
Definition drop (labels : list string) (df : DataFrame) : M DataFrame :=
  match find (fun l => negb (PyStr.mem l (columns df))) labels with
  | Some l => raise (KeyError l)
  | None =>
      let keep := map (fun c => negb (PyStr.mem c labels)) (columns df) in
      ret {| columns := keep_by keep (columns df);
             data := map (keep_by keep) (data df) |}
  end.

Definition cell_text (c : cell) : string :=
  match c with CStr s => s | _ => "" end.

(** The indicator columns of one column: one per distinct value, in
    sorted order, labelled [column:value]. *)
Definition dummies_1d (label : string) (vals : list string) : list (string * list cell) :=
  map (fun v => ((label ++ ":" ++ v)%string, map (fun x => CBool (String.eqb x v)) vals))
      (PyStr.sorted (PyStr.dedup vals)).

Fixpoint transpose_into (n : nat) (cols : list (list cell)) : list (list cell) :=
  match n with
  | O => []
  | S n' => map (fun c => hd CNone c) cols :: transpose_into n' (map (@tl cell) cols)
  end.

(** [pd.get_dummies(df, columns=df.columns, prefix_sep=":")]: the
    columns to encode are [df[df.columns]], where every label selects
    the columns that have it (every column once when the labels are
    distinct), and each of them is replaced by its indicator columns. *)
Definition get_dummies (df : DataFrame) : DataFrame :=
  let n := length (data df) in
  let to_encode := flat_map (fun label => positions label (columns df)) (columns df) in
  let encoded :=
    concat (map (fun i =>
                   dummies_1d (nth i (columns df) "")
                              (map (fun r => cell_text (nth i r CNone)) (data df)))
                to_encode) in
  {| columns := map fst encoded;
     data := transpose_into n (map snd encoded) |}.

(** [df[label] = vals] for a column [vals] over the same index: every
    column labelled [label] is set to it, and it becomes the last column
    when there is none. *)
Definition assign (label : string) (vals : list cell) (df : DataFrame) : DataFrame :=
  match list_index label (columns df) with
  | Some _ =>
      {| columns := columns df;
         data := map (fun rv =>
                        fold_left (fun r i => list_update r i (snd rv))
                                  (positions label (columns df)) (fst rv))
                     (combine (data df) vals) |}
  | None =>
      {| columns := columns df ++ [label];
         data := map (fun rv => fst rv ++ [snd rv]) (combine (data df) vals) |}
  end.

(** [df[label] = selection] where [selection] is what [other[label']]
    gave: a Series is assigned as a column. A frame of several columns
    cannot be set to one label that [df] does not have; the engine sets
    "token" and "context" on the encoded frame, whose labels all have a
    colon, so that only this case of a frame is embedded. *)
Definition setitem (label : string) (selection : list (list cell)) (df : DataFrame)
  : M DataFrame :=
  match selection with
  | [vals] => ret (assign label vals df)
  | [] =>
      raise (ValueError
               ("Cannot set a DataFrame without columns to the column " ++ label))
  | _ =>
      raise (ValueError
               ("Cannot set a DataFrame with multiple columns to the single column "
                ++ label))
  end.

End Pandas.

(** ** The collaborators of the engine *)

(** A match object of the feature-tag pattern: [t.start()], [t.group(0)]
    and [t.group(1)]. *)
Record rmatch := { m_start : nat; m_group0 : string; m_group1 : string }.

(** The functions imported from [src.dataset_creator.dc_utils], whose
    source is not part of the engine's file. [regex] is the type of
    compiled patterns; the optional boolean of [find_repetitions] is its
    keyword argument [check_annotated], [None] when the call leaves it
    to its default. The result of [find_repetitions] is
    [(wild_rep, wild_rep_interest, ann_rep, wna)]. The engine hands the
    logger to [preprocess_corpus], [remove_features] and [get_ngram] as
    their last argument: their result comes with the messages that they
    send to it. *)
Record dc_utils (regex : Type) := {
  preprocess_corpus : string -> string -> regex -> logging (list string);
  get_name : string -> regex -> string;
  check_correct_annotations :
    list rmatch -> string -> string -> list string * string;
  find_repetitions :
    string -> string -> regex -> regex -> list string -> option bool ->
    Z * Z * Z * list string;
  remove_features : string -> regex -> logging (string * list string);
  get_ngram : string -> Z * Z -> nat -> regex -> logging string
}.

Arguments preprocess_corpus {regex}.
Arguments get_name {regex}.
Arguments check_correct_annotations {regex}.
Arguments find_repetitions {regex}.
Arguments remove_features {regex}.
Arguments get_ngram {regex}.

(** The tuple [inputs] of [generate_dataset]. *)
Record inputs := {
  in_square_regex : string;
  in_feat_regex : string;
  in_name_regex : string;
  in_previous_line : bool;
  in_ngram_prev : Z;
  in_ngram_next : Z
}.

(** The four tables of a completed run. *)
Record bundle := {
  dataset : DataFrame;
  annotation_info : DataFrame;
  missed_annotations : DataFrame;
  binary_dataset : DataFrame
}.

(** The per-token statistics: token -> counter name -> count. *)
Definition ann_counter := dict (dict Z).

(** The missing-annotation log: file -> token -> context snippets. *)
Definition na_log := dict (dict (list string)).

(** ** generate_dataset *)

Section Engine.

Context {regex : Type}.

(** [re.compile], [None] for a pattern that does not compile, and
    [pattern.finditer]. *)
Variable re_compile : string -> option regex.
Variable finditer : regex -> string -> list rmatch.

Variable U : dc_utils regex.

(** [stop_flag k] is what the poll number [k] of [stop_flag.is_set()]
    sees. *)
Variable stop_flag : nat -> bool.

(** The checkpoint that every loop of the engine repeats:
    [if stop_flag.is_set(): logger.info(...); return None]. *)
Definition check_stop : M unit :=
  fun w =>
    let w' := {| polls := S (polls w); log := log w |} in
    if stop_flag (polls w)
    then (logger_call "info" [PStr "Dataset generation stopped."] ;; return_None) w'
    else (Val tt, w').

(** What the first part of [generate_dataset] computes once and the
    passes read. *)
Record env := {
  e_square_regex : regex;
  e_feat_regex : regex;
  e_name_regex : regex;
  e_previous_line : bool;
  e_ngram : Z * Z;
  e_corpus_dict : dict (list string);
  e_corpus : list string;
  e_speakers_variables : dict (list string);
  e_speakers_of_interest : list string;
  e_all_speakers_dict : dict (list string);
  e_idv : dict string;
  e_csv_header : list string
}.

Definition compile (pattern : string) : M regex :=
  or_raise (re_compile pattern) (ReError pattern).

(** *** Lines 87-111: the variable dictionaries *)

(** [{**independent_variables, **dependent_variables}] *)
Definition variable_dict_of (independent_variables dependent_variables : dict var_value)
  : dict var_value :=
  PyDict.merge independent_variables dependent_variables.

(** The entries listed after "Duplicates are:". *)
Definition duplicate_variables (independent_variables dependent_variables : dict var_value)
  : dict var_value :=
  filter (fun kv => PyDict.mem (fst kv) independent_variables
                    && PyDict.mem (fst kv) dependent_variables)
         (variable_dict_of independent_variables dependent_variables).

Definition duplicates_message (dups : dict var_value) : message :=
  PStr ("Warning: I have found duplicate variables. I will take the first one"
        ++ nl ++ "Duplicates are:" ++ nl)%string
  :: flat_map (fun kv => [PStr (fst kv); PStr ": "; PValue (snd kv); PStr nl]) dups.

Definition warn_duplicates (independent_variables dependent_variables : dict var_value)
  : M unit :=
  let variable_dict := variable_dict_of independent_variables dependent_variables in
  if negb (length variable_dict
           =? length independent_variables + length dependent_variables)%nat
  then logger_call "warning"
         (duplicates_message (duplicate_variables independent_variables dependent_variables))
  else ret tt.

(** The inverse index [idv]: token value -> category. *)
Definition inverse_index (variable_dict : dict var_value) : dict string :=
  fold_left
    (fun idv kv =>
       match snd kv with
       | VList l => fold_left (fun idv i => PyDict.set i (fst kv) idv) l idv
       | VStr v => PyDict.set v (fst kv) idv
       end)
    variable_dict [].

(** *** Lines 113-128: the header of the dataset *)

Definition csv_header_of (previous_line : bool)
  (independent_variables dependent_variables : dict var_value) : list string :=
  let csv_header :=
    PyStr.sorted (PyDict.keys dependent_variables)
    ++ PyStr.sorted (PyDict.keys independent_variables) in
  let csv_end := ["speaker"; "interlocutor/s"; "file"; "context"; "unk"] in
  let csv_end := if previous_line then "previous line" :: csv_end else csv_end in
  ["token"] ++ csv_header ++ csv_end.

(** *** Lines 33-133: from the inputs to the first checkpoint

    [all_speakers] and [not_in_list] come from Python sets: they are
    kept as the list of their members, and the texts that join them as
    [PJoinedSet]. *)

Definition names_of (name_regex : regex) (paragraphs : list string) : list string :=
  map (fun x => get_name U x name_regex) paragraphs.

Definition all_speakers_dict_of (name_regex : regex) (corpus_dict : dict (list string))
  : dict (list string) :=
  flat_map
    (fun kv =>
       let v := PyStr.dedup (names_of name_regex (snd kv)) in
       if (0 <? length v)%nat then [(fst kv, PyStr.sorted v)] else [])
    corpus_dict.

Definition prepare (i : inputs) (corpus_dict : dict string)
  (speakers_variables : dict (list string))
  (independent_variables dependent_variables : dict var_value) : M env :=
  square_regex <- compile (in_square_regex i) ;;
  feat_regex <- compile (in_feat_regex i) ;;
  name_regex <- compile (in_name_regex i) ;;
  logger_call "info" [PStr "Starting dataset generation"] ;;
  corpus_dict <-
    map_M (fun kv =>
             v <- with_logger (preprocess_corpus U (snd kv) (fst kv) name_regex) ;;
             ret (fst kv, v))
          corpus_dict ;;
  let corpus := concat (PyDict.values corpus_dict) in
  (if (length corpus =? 0)%nat then
     logger_call "error"
       [PStr "All the paragraphs in the corpus have been deleted! You should review your regex rules"] ;;
     raise (ValueError "The corpus is empty!")
   else ret tt) ;;
  let speakers_of_interest := map PyStr.strip (PyDict.keys speakers_variables) in
  logger_call "info"
    [PStr "The selected speakers of interest are: ";
     PStr (PyStr.join ", " speakers_of_interest)] ;;
  let all_speakers :=
    filter (fun x => negb (x =? ""))
           (PyStr.dedup (names_of name_regex corpus)) in
  let all_speakers_dict := all_speakers_dict_of name_regex corpus_dict in
  logger_call "info"
    [PStr "I found the following speakers names: ";
     PJoinedSet ", " (PyStr.sorted all_speakers)] ;;
  (if (0 <? length speakers_of_interest)%nat then
     let not_in_list :=
       filter (fun x => negb (PyStr.mem x speakers_of_interest)) all_speakers in
     if (0 <? length not_in_list)%nat then
       logger_call "warning"
         [PStr "Warning: the following speakers are not in the list of speakers of interest: ";
          PJoinedSet ", " (PyStr.sorted not_in_list)]
     else ret tt
   else ret tt) ;;
  warn_duplicates independent_variables dependent_variables ;;
  let idv :=
    inverse_index (variable_dict_of independent_variables dependent_variables) in
  let csv_header :=
    csv_header_of (in_previous_line i) independent_variables dependent_variables in
  check_stop ;;
  ret {| e_square_regex := square_regex;
         e_feat_regex := feat_regex;
         e_name_regex := name_regex;
         e_previous_line := in_previous_line i;
         e_ngram := (in_ngram_prev i, in_ngram_next i);
         e_corpus_dict := corpus_dict;
         e_corpus := corpus;
         e_speakers_variables := speakers_variables;
         e_speakers_of_interest := speakers_of_interest;
         e_all_speakers_dict := all_speakers_dict;
         e_idv := idv;
         e_csv_header := csv_header |}.

Variable E : env.

(** [whole_corpus = "\n".join(corpus)] *)
Definition whole_corpus : string := PyStr.join nl (e_corpus E).

(** *** Lines 135-163: the inventory of annotated tokens *)

Definition collect_annotations : list string * string :=
  fold_left
    (fun acc kv =>
       let crp := PyStr.join nl (snd kv) in
       let anns := finditer (e_feat_regex E) crp in
       let '(anns, msg) := check_correct_annotations U anns crp (fst kv) in
       (fst acc ++ anns, (snd acc ++ msg ++ nl ++ nl)%string))
    (e_corpus_dict E) ([], "").

(** [x.split(".")[-1].replace("[", "").replace("]", "")] *)
Definition token_of_annotation (x : string) : string :=
  PyStr.remove_char "]" (PyStr.remove_char "[" (PyStr.last_component "." x)).

(** [Counter(annotations)] *)
Definition Counter (l : list string) : dict Z :=
  fold_left
    (fun d x =>
       match PyDict.get x d with
       | Some n => PyDict.set x (n + 1)%Z d
       | None => PyDict.set x 1%Z d
       end)
    l [].

Definition initial_counter : ann_counter :=
  map (fun kv => (fst kv, [("annotated", snd kv)]))
      (Counter (map token_of_annotation (fst collect_annotations))).

Definition count_annotations : M ann_counter :=
  let err_msg := PyStr.strip (snd collect_annotations) in
  (if negb (err_msg =? "") then logger_call "error" [PStr err_msg] else ret tt) ;;
  let annotation_counter := initial_counter in
  logger_call "info"
    [PStr "There is a total of  "; PInt (Z.of_nat (length annotation_counter));
     PStr " unique annotations"] ;;
  ret annotation_counter.

(** *** Lines 165-185: the whole-corpus pass *)

Definition whole_corpus_pass (annotation_counter : ann_counter) : M ann_counter :=
  for_each (PyDict.keys annotation_counter)
    (fun token annotation_counter =>
       v <- getitem token annotation_counter ;;
       let '(wild_rep, wild_rep_interest, ann_rep, _) :=
         find_repetitions U whole_corpus token (e_feat_regex E) (e_name_regex E)
                          (e_speakers_of_interest E) None in
       let total_rep := (wild_rep + ann_rep)%Z in
       annotated <- getitem "annotated" v ;;
       let not_annotated := (total_rep - annotated)%Z in
       annotation_counter <-
         setitem2 token "not annotated" not_annotated annotation_counter ;;
       annotation_counter <-
         setitem2 token "not_annotated_interest" wild_rep_interest annotation_counter ;;
       check_stop ;;
       ret annotation_counter)
    annotation_counter.

(** *** Lines 187-199: the aggregate log line *)

(** [sum([x[k] for x in annotation_counter.values()])] *)
Definition sum_field (k : string) (annotation_counter : ann_counter) : M Z :=
  for_each (PyDict.values annotation_counter)
    (fun x s => v <- getitem k x ;; ret (s + v)%Z) 0%Z.

Definition report (annotation_counter : ann_counter) : M unit :=
  annotated <- sum_field "annotated" annotation_counter ;;
  not_annotated <- sum_field "not annotated" annotation_counter ;;
  not_annotated_interest <- sum_field "not_annotated_interest" annotation_counter ;;
  p_corpus <-
    true_div annotated (Z.of_nat (length (PyStr.split " " whole_corpus))) ;;
  p_interest <- true_div not_annotated_interest not_annotated ;;
  logger_call "info"
    [PStr "There is a total of "; PInt annotated;
     PStr " annotations in the corpus ("; PPercent (fst p_corpus) (snd p_corpus);
     PStr ("% of the corpus)." ++ nl ++ "I found ")%string; PInt not_annotated;
     PStr (" not annotated words that where previously annotated." ++ nl
           ++ "Of those ")%string;
     PInt not_annotated_interest; PStr " (";
     PPercent (fst p_interest) (snd p_interest);
     PStr "%) are produced by a speakers of interest"].

(** *** Lines 201-237: the per-file pass *)

(** The paragraphs of one file spoken by a speaker of interest, joined. *)
Definition interest_text (crp : list string) : string :=
  PyStr.join nl
    (filter (fun x => PyStr.mem (get_name U x (e_name_regex E))
                                (e_speakers_of_interest E))
            crp).

(** The snippets [wna] that [find_repetitions] returns for a token in
    a text, with [check_annotated=False]. *)
Definition snippets (crp token : string) : list string :=
  snd (find_repetitions U crp token (e_feat_regex E) (e_name_regex E)
                        (e_speakers_of_interest E) (Some false)).

Definition record_snippets (path token : string) (wna : list string)
  (not_annotated_log : na_log) : M na_log :=
  if (0 <? length wna)%nat then
    sub <- getitem path not_annotated_log ;;
    let sub := if negb (PyDict.mem token sub) then PyDict.set token [] sub else sub in
    old <- getitem token sub ;;
    ret (PyDict.set path (PyDict.set token (old ++ wna) sub) not_annotated_log)
  else ret not_annotated_log.

Definition per_file_pass (annotation_counter : ann_counter) : M na_log :=
  for_each (e_corpus_dict E)
    (fun kv not_annotated_log =>
       let path := fst kv in
       let crp := interest_text (snd kv) in
       let not_annotated_log := PyDict.set path [] not_annotated_log in
       for_each (PyDict.keys annotation_counter)
         (fun token not_annotated_log =>
            let wna := snippets crp token in
            not_annotated_log <- record_snippets path token wna not_annotated_log ;;
            check_stop ;;
            ret not_annotated_log)
         not_annotated_log)
    [].

(** *** Lines 239-267: the per-speaker pass *)

Definition speaker_corpus (sp : string) : string :=
  PyStr.join nl
    (filter (fun c => get_name U c (e_name_regex E) =? sp) (e_corpus E)).

Definition init_if_absent (token key : string) (annotation_counter : ann_counter)
  : M ann_counter :=
  v <- getitem token annotation_counter ;;
  if negb (PyDict.mem key v)
  then setitem2 token key 0%Z annotation_counter
  else ret annotation_counter.

Definition per_speaker_pass (annotation_counter : ann_counter) : M ann_counter :=
  for_each (PyDict.keys (e_speakers_variables E))
    (fun sp annotation_counter =>
       let sp_corpus := speaker_corpus sp in
       for_each (PyDict.keys annotation_counter)
         (fun token annotation_counter =>
            let '(wild_rep, wild_rep_interest, ann_rep, _) :=
              find_repetitions U sp_corpus token (e_feat_regex E) (e_name_regex E)
                               (e_speakers_of_interest E) None in
            annotation_counter <-
              init_if_absent token (sp ++ " not annotated")%string annotation_counter ;;
            annotation_counter <-
              init_if_absent token (sp ++ " annotated")%string annotation_counter ;;
            annotation_counter <-
              setitem2 token (sp ++ " not annotated")%string wild_rep annotation_counter ;;
            annotation_counter <-
              setitem2 token (sp ++ " annotated")%string ann_rep annotation_counter ;;
            check_stop ;;
            ret annotation_counter)
         annotation_counter)
    annotation_counter.

(** *** Lines 269-281: the totals *)

Definition add_totals (annotation_counter : ann_counter) : M ann_counter :=
  for_each (PyDict.keys annotation_counter)
    (fun token annotation_counter =>
       v <- getitem token annotation_counter ;;
       annotated <- getitem "annotated" v ;;
       not_annotated <- getitem "not annotated" v ;;
       annotation_counter <-
         setitem2 token "total" (annotated + not_annotated)%Z annotation_counter ;;
       for_each (e_speakers_of_interest E)
         (fun speaker annotation_counter =>
            annotation_counter <-
              setitem2 token (speaker ++ " annotated")%string 0%Z annotation_counter ;;
            annotation_counter <-
              setitem2 token (speaker ++ " not annotated")%string 0%Z annotation_counter ;;
            check_stop ;;
            ret annotation_counter)
         annotation_counter)
    annotation_counter.

(** *** Lines 283-375: the main loop *)

(** The rows built so far, header first, and [unk_categories]. *)
Definition table_state : Type := list (list string) * list string.

(** [csv_line[csv_header.index(category)] = value] with
    [category = idv[value]] *)
Definition set_category (value : string) (csv_line : list string) : M (list string) :=
  category <- getitem value (e_idv E) ;;
  cat_idx <- or_raise (list_index category (e_csv_header E))
                      (ValueError "the category is not in list") ;;
  setidx csv_line (Z.of_nat cat_idx) value.

(** Lines 349-358: one dot-component of the tag. *)
Definition set_feature (f : string) (acc : list string * list string)
  : M (list string * list string) :=
  let '(csv_line, unk_categories) := acc in
  if negb (PyDict.mem f (e_idv E)) then
    unk <- getidx csv_line (-1) ;;
    csv_line <- setidx csv_line (-1) (unk ++ f ++ ",")%string ;;
    ret (csv_line, unk_categories ++ [f])
  else
    csv_line <- set_category f csv_line ;;
    ret (csv_line, unk_categories).

(** Lines 330-375: the row of one tag. *)
Definition build_row (file_path : string) (file_speakers : list string)
  (c cur_speaker sp : string) (index : nat) (t : string)
  (unk_categories : list string) : M (list string * list string) :=
  let csv_line := repeat "" (length (e_csv_header E)) in
  let cur_speaker_var := PyDict.get_default cur_speaker (e_speakers_variables E) [] in
  csv_line <- for_each cur_speaker_var set_category csv_line ;;
  let feats := PyStr.rsplit1 "." t in
  text <- getidx feats 1 ;;
  feats <- getidx feats 0 ;;
  context <- with_logger (get_ngram U c (e_ngram E) index (e_square_regex E)) ;;
  ' (csv_line, unk_categories) <-
    for_each (PyStr.split "." feats) set_feature (csv_line, unk_categories) ;;
  speakers <- or_raise (PyStr.list_remove cur_speaker file_speakers)
                       (ValueError "list.remove(x): x not in list") ;;
  csv_line <- setidx csv_line 0 text ;;
  csv_line <- setidx csv_line (-2) context ;;
  csv_line <- setidx csv_line (-3) file_path ;;
  csv_line <- setidx csv_line (-4) (PyStr.join "," speakers) ;;
  csv_line <- setidx csv_line (-5) cur_speaker ;;
  csv_line <- (if e_previous_line E then setidx csv_line (-6) sp else ret csv_line) ;;
  unk <- getidx csv_line (-1) ;;
  csv_line <- setidx csv_line (-1) (PyStr.strip_char "," unk) ;;
  ret (csv_line, unk_categories).

(** Lines 314-375: one match of the feature-tag pattern. *)
Definition process_tag (annotation_counter : ann_counter)
  (file_path : string) (file_speakers : list string)
  (c cur_speaker sp : string) (wrong_tags : list string)
  (m : rmatch) (acc : table_state) : M table_state :=
  let index := m_start m in
  let t := m_group1 m in
  if negb (PyStr.mem (PyStr.last_component "." t) (PyDict.keys annotation_counter)) then
    logger_call "waring"
      [PStr nl; PStr "Skipping '"; PStr t; PStr "' because it is not valid"] ;;
    ret acc
  else if existsb (fun wt => PyStr.contains t wt) wrong_tags then
    logger_call "waring"
      [PStr nl; PStr "Skipping '"; PStr t; PStr "' because it is wrongly formatted"] ;;
    ret acc
  else
    ' (csv_line, unk_categories) <-
      build_row file_path file_speakers c cur_speaker sp index t (snd acc) ;;
    ret (fst acc ++ [csv_line], unk_categories).

(** Lines 293-375: the paragraph [corpus[idx]] of one file. *)
Definition process_paragraph (annotation_counter : ann_counter)
  (file_path : string) (file_speakers : list string) (corpus : list string)
  (idx : nat) (acc : table_state) : M table_state :=
  check_stop ;;
  c <- getidx corpus (Z.of_nat idx) ;;
  let cur_speaker := get_name U c (e_name_regex E) in
  if PyStr.mem cur_speaker (e_speakers_of_interest E) then
    sp <- getidx corpus (Z.of_nat idx - 1) ;;
    ' (clean_p, wrong_tags) <- with_logger (remove_features U c (e_square_regex E)) ;;
    let tags := finditer (e_feat_regex E) c in
    for_each tags
      (process_tag annotation_counter file_path file_speakers c cur_speaker sp wrong_tags)
      acc
  else ret acc.

Definition main_loop (annotation_counter : ann_counter) : M table_state :=
  for_each (e_corpus_dict E)
    (fun kv acc =>
       let file_path := fst kv in
       let corpus := snd kv in
       file_speakers <- getitem file_path (e_all_speakers_dict E) ;;
       for_each (seq 0 (length corpus))
         (process_paragraph annotation_counter file_path file_speakers corpus)
         acc)
    ([e_csv_header E], []).

(** *** Lines 377-401: the statistics and missing-annotation tables *)

(** [annotation_info]: its header and its rows. *)
Definition annotation_info_of (annotation_counter : ann_counter)
  : M (list string * list (list cell)) :=
  first <- or_raise (nth_error (PyDict.values annotation_counter) 0) IndexError ;;
  let header := "token" :: PyDict.keys first in
  ret (header,
       map (fun kv => CStr (fst kv) :: map CInt (PyDict.values (snd kv)))
           annotation_counter).

(** [max(l)] *)
Definition py_max (l : list nat) : M nat :=
  match l with
  | [] => raise (ValueError "max() arg is an empty sequence")
  | x :: l' => ret (fold_left Nat.max l' x)
  end.

(** [[len(x) for sub in not_annotated_log.values() for x in sub.values()]] *)
Definition snippet_counts (not_annotated_log : na_log) : list nat :=
  flat_map (fun sub => map (@length string) (PyDict.values sub))
           (PyDict.values not_annotated_log).

(** [missing_annotations]: [None] is the empty list it starts as,
    otherwise its header and its rows. *)
Definition missing_annotations_of (not_annotated_log : na_log)
  : M (option (list string * list (list cell))) :=
  if (0 <? length not_annotated_log)%nat then
    max_lens <- py_max (snippet_counts not_annotated_log) ;;
    let header :=
      ["file"; "token"]
      ++ map (fun i => ("context " ++ str_of_nat i)%string) (seq 1 max_lens) in
    ret (Some (header,
               flat_map
                 (fun pv =>
                    map (fun tc => CStr (fst pv) :: CStr (fst tc) :: map CStr (snd tc))
                        (snd pv))
                 not_annotated_log))
  else ret None.

(** *** Lines 403-419: the binary dataset *)

Definition string_rows (rows : list (list string)) : list (list cell) :=
  map (map CStr) rows.

(** [csv_file[0]] and [csv_file[1:]] *)
Definition csv_head (csv_file : list (list string)) : M (list string) :=
  or_raise (nth_error csv_file 0) IndexError.

Definition one_hot (csv_file : list (list string)) : M DataFrame :=
  header <- csv_head csv_file ;;
  df <- Pandas.make (string_rows (tl csv_file)) header ;;
  let to_drop := ["context"; "token"; "unk"; "file"] in
  tokens <- Pandas.getitem "token" df ;;
  context <- Pandas.getitem "context" df ;;
  df <- Pandas.drop to_drop df ;;
  let df_encoded := Pandas.get_dummies df in
  df_encoded <- Pandas.setitem "token" tokens df_encoded ;;
  df_encoded <- Pandas.setitem "context" context df_encoded ;;
  ret df_encoded.

(** *** Lines 421-445: the bundle and the unknown categories *)

Definition report_unknown (unk_categories : list string) : M unit :=
  if (0 <? length unk_categories)%nat then
    let unk_categories := PyStr.sorted (PyStr.dedup unk_categories) in
    logger_call "warning"
      [PStr ("I have found several categories not listed in your variable file."
             ++ nl ++ "Following in alphabetical order:")%string] ;;
    for_each (combine (seq 0 (length unk_categories)) unk_categories)
      (fun ic _ =>
         logger_call "warning"
           [PInt (Z.of_nat (fst ic)); PStr " - '"; PStr (snd ic); PStr "'"])
      tt
  else ret tt.

Definition finish (annotation_counter : ann_counter) (not_annotated_log : na_log)
  (acc : table_state) : M bundle :=
  let '(csv_file, unk_categories) := acc in
  ai <- annotation_info_of annotation_counter ;;
  missing_annotations <- missing_annotations_of not_annotated_log ;;
  df_encoded <- one_hot csv_file ;;
  header <- csv_head csv_file ;;
  dataset <- Pandas.make (string_rows (tl csv_file)) header ;;
  annotation_info <- Pandas.make (snd ai) (fst ai) ;;
  ma <- or_raise missing_annotations IndexError ;;
  missed_annotations <- Pandas.make (snd ma) (fst ma) ;;
  report_unknown unk_categories ;;
  ret {| dataset := dataset;
         annotation_info := annotation_info;
         missed_annotations := missed_annotations;
         binary_dataset := df_encoded |}.

(** *** The passes after the first checkpoint, in order *)

(** Lines 135-267: the inventory and the three counting passes. *)
Definition coverage : M (ann_counter * na_log) :=
  annotation_counter <- count_annotations ;;
  annotation_counter <- whole_corpus_pass annotation_counter ;;
  report annotation_counter ;;
  not_annotated_log <- per_file_pass annotation_counter ;;
  annotation_counter <- per_speaker_pass annotation_counter ;;
  ret (annotation_counter, not_annotated_log).

Definition passes : M bundle :=
  counted <- coverage ;;
  annotation_counter <- add_totals (fst counted) ;;
  logger_call "info" [PStr "Starting the main loop"] ;;
  acc <- main_loop annotation_counter ;;
  finish annotation_counter (snd counted) acc.

End Engine.

Arguments check_stop : clear implicits.

Section Run.

Context {regex : Type}.
Variable re_compile : string -> option regex.
Variable finditer : regex -> string -> list rmatch.
Variable U : dc_utils regex.
Variable stop_flag : nat -> bool.

Definition generate_dataset (i : inputs) (corpus_dict : dict string)
  (speakers_variables : dict (list string))
  (independent_variables dependent_variables : dict var_value) : M bundle :=
  E <- prepare re_compile U stop_flag i corpus_dict speakers_variables
               independent_variables dependent_variables ;;
  passes finditer U stop_flag E.

(** The value of [self.results] when [DCThread.run] has finished: the
    bundle, [None], or the error message built from the exception. *)
Inductive results :=
| ResultBundle (b : bundle)
| ResultNone
| ResultError (e : exn).

(** The logger of a thread is a fresh [QTextLogger] and its stop event
    a fresh [threading.Event]. *)
Definition fresh_world : world := {| polls := 0; log := [] |}.

Definition DCThread_run (i : inputs) (corpus_dict : dict string)
  (independent_variables dependent_variables : dict var_value)
  (speakers : dict (list string)) : results :=
  match generate_dataset i corpus_dict speakers
          independent_variables dependent_variables fresh_world with
  | (Val b, _) => ResultBundle b
  | (Cancelled, _) => ResultNone
  | (Raise e, _) => ResultError e
  end.

End Run.

(** ** An instance of the collaborators

    The three patterns of the examples and an implementation of the
    helpers of [dc_utils] for them. *)

Module Sample.

(** The compiled patterns: the exclusion span [\[.*?\]], the feature tag
    [\[\$([^\s\]]+)\]] and the speaker name [^([A-Za-z]+):]. *)
Inductive pattern := SquarePattern | TagPattern | NamePattern.

Definition square_src : string := "\[.*?\]".
Definition tag_src : string := "\[\$([^\s\]]+)\]".
Definition name_src : string := "^([A-Za-z]+):".

Definition re_compile (src : string) : option pattern :=
  if src =? square_src then Some SquarePattern
  else if src =? tag_src then Some TagPattern
  else if src =? name_src then Some NamePattern
  else None.

(** The longest prefix of characters that are neither white space nor a
    closing bracket, and what follows it. *)
Fixpoint tag_body (s : string) : string * string :=
  match s with
  | EmptyString => (EmptyString, EmptyString)
  | String a s' =>
      if PyStr.isspace a || Ascii.eqb a "]" then (EmptyString, s)
      else let (b, r) := tag_body s' in (String a b, r)
  end.

(** The tag that starts at the head of [s], if there is one. *)
Definition tag_at (s : string) : option string :=
  match s with
  | String "[" (String "$" rest) =>
      match tag_body rest with
      | (String a b, String "]" _) => Some (String a b)
      | _ => None
      end
  | _ => None
  end.

(** The matches of the tag pattern from left to right; [skip] counts the
    characters still covered by the last match. *)
Fixpoint scan_tags (skip pos : nat) (s : string) : list rmatch :=
  match s with
  | EmptyString => []
  | String _ s' =>
      match skip with
      | S k => scan_tags k (S pos) s'
      | O =>
          match tag_at s with
          | Some body =>
              {| m_start := pos;
                 m_group0 := ("[$" ++ body ++ "]")%string;
                 m_group1 := body |}
              :: scan_tags (String.length body + 2) (S pos) s'
          | None => scan_tags 0 (S pos) s'
          end
      end
  end.

Definition finditer (p : pattern) (s : string) : list rmatch :=
  match p with
  | TagPattern => scan_tags 0 0 s
  | _ => []
  end.

(** The text with the matches of the tag pattern taken out. *)
Fixpoint without_tags (skip : nat) (s : string) : string :=
  match s with
  | EmptyString => EmptyString
  | String a s' =>
      match skip with
      | S k => without_tags k s'
      | O =>
          match tag_at s with
          | Some body => without_tags (String.length body + 2) s'
          | None => String a (without_tags 0 s')
          end
      end
  end.

(** [s.count(sub)] for a non-empty [sub] *)
Fixpoint count_occ (skip : nat) (sub s : string) : Z :=
  match s with
  | EmptyString => 0%Z
  | String _ s' =>
      match skip with
      | S k => count_occ k sub s'
      | O =>
          if String.prefix sub s
          then (1 + count_occ (String.length sub - 1) sub s')%Z
          else count_occ 0 sub s'
      end
  end.

Definition is_letter (a : ascii) : bool :=
  let n := nat_of_ascii a in
  (((65 <=? n) && (n <=? 90)) || ((97 <=? n) && (n <=? 122)))%nat.

Fixpoint letters (s : string) : string * string :=
  match s with
  | EmptyString => (EmptyString, EmptyString)
  | String a s' =>
      if is_letter a then let (b, r) := letters s' in (String a b, r)
      else (EmptyString, s)
  end.

(** Modelled from the spec: [get_name] is not among the sources; it is
    the speaker-name extractor of section 6, here the group of the name
    pattern, and the empty string when the paragraph has no name. *)
Definition get_name (c : string) (_ : pattern) : string :=
  match letters c with
  | (String a b, String ":" _) => String a b
  | _ => EmptyString
  end.

(** Modelled from the spec: [preprocess_corpus] is not among the
    sources; section 4.1 has it split the text of a file into paragraphs,
    drop those in which the name pattern finds no speaker and log a
    warning that names what it dropped. *)
Definition preprocess_corpus (text key : string) (name_regex : pattern)
  : logging (list string) :=
  let paragraphs := PyStr.split (ascii_of_nat 10) text in
  let dropped := filter (fun p => get_name p name_regex =? "") paragraphs in
  (filter (fun p => negb (get_name p name_regex =? "")) paragraphs,
   match dropped with
   | [] => []
   | _ => [(Warning,
            [PStr key; PStr ": paragraphs without a speaker were dropped: ";
             PStr (PyStr.join " | " dropped)])]
   end).

Definition balanced (s : string) : bool :=
  (count_occ 0 "[" s =? count_occ 0 "]" s)%Z.

(** Modelled from the spec: [check_correct_annotations] is not among the
    sources; section 4.2 has it keep the text of the matches without
    unbalanced brackets and gather the others in one diagnostic per
    file. *)
Definition check_correct_annotations (anns : list rmatch) (crp path : string)
  : list string * string :=
  let texts := map m_group0 anns in
  let wrong := filter (fun x => negb (balanced x)) texts in
  (filter balanced texts,
   match wrong with
   | [] => ""
   | _ => (path ++ ": malformed annotations " ++ PyStr.join ", " wrong)%string
   end).

(** Modelled from the spec: [find_repetitions] is not among the sources;
    section 4.3 has it count the occurrences of the token outside the
    tags, those among them in paragraphs of a speaker of interest, the
    tags that end in the token, and, with [check_annotated=False], give
    the paragraph of every occurrence outside a tag as its snippet. *)
Definition find_repetitions (text token : string) (feat_regex name_regex : pattern)
  (speakers_of_interest : list string) (check_annotated : option bool)
  : Z * Z * Z * list string :=
  let paragraphs := PyStr.split (ascii_of_nat 10) text in
  let wild p := count_occ 0 token (without_tags 0 p) in
  let wild_rep := fold_right (fun p n => (wild p + n)%Z) 0%Z paragraphs in
  let wild_rep_interest :=
    fold_right (fun p n => (wild p + n)%Z) 0%Z
      (filter (fun p => PyStr.mem (get_name p name_regex) speakers_of_interest)
              paragraphs) in
  let ann_rep :=
    Z.of_nat (length (filter
      (fun m => PyStr.last_component "." (m_group1 m) =? token)
      (finditer feat_regex text))) in
  let wna :=
    match check_annotated with
    | Some false =>
        flat_map (fun p => repeat (without_tags 0 p) (Z.to_nat (wild p))) paragraphs
    | _ => []
    end in
  (wild_rep, wild_rep_interest, ann_rep, wna).

(** Modelled from the spec: [remove_features] is not among the sources;
    section 4.5 has it give the paragraph without its tags and the
    malformed fragments, here those with unbalanced brackets, and names
    no message of its own. *)
Definition remove_features (c : string) (square_regex : pattern)
  : logging (string * list string) :=
  ((without_tags 0 c,
    filter (fun x => negb (balanced x)) (map m_group0 (finditer TagPattern c))),
   []).

Definition lastn {A} (n : nat) (l : list A) : list A :=
  rev (firstn n (rev l)).

(** Modelled from the spec: [get_ngram] is not among the sources;
    section 4.5 has it give a bounded window of words around the
    position of the match, and names no message of its own. *)
Definition get_ngram (c : string) (window : Z * Z) (index : nat)
  (square_regex : pattern) : logging string :=
  let before := PyStr.split " " (String.substring 0 index c) in
  let after := PyStr.split " " (String.substring index (String.length c - index) c) in
  (PyStr.join " "
     (lastn (Z.to_nat (fst window)) before ++ firstn (Z.to_nat (snd window)) after),
   []).

Definition utils : dc_utils pattern :=
  Build_dc_utils pattern preprocess_corpus get_name check_correct_annotations
                 find_repetitions remove_features get_ngram.

Definition sample_inputs (previous_line : bool) : inputs :=
  {| in_square_regex := square_src;
     in_feat_regex := tag_src;
     in_name_regex := name_src;
     in_previous_line := previous_line;
     in_ngram_prev := 2;
     in_ngram_next := 2 |}.

(** The flag that nobody sets. *)
Definition never : nat -> bool := fun _ => false.

(** The engine on the sample collaborators. *)
Definition run (stop_flag : nat -> bool) (previous_line : bool)
  (corpus_dict : dict string) (speakers : dict (list string))
  (independent_variables dependent_variables : dict var_value) : results :=
  DCThread_run re_compile finditer utils stop_flag (sample_inputs previous_line)
               corpus_dict independent_variables dependent_variables speakers.

End Sample.


(** * The vocabulary of the properties *)

(** ** The cancellation gate *)

(** A computation respects the gate when every poll it makes but the
    last sees the flag clear, and it ends with [return None] exactly
    when its last poll sees the flag set. *)
Definition gate_ok {A} (stop_flag : nat -> bool) (m : M A) : Prop :=
  forall w r w',
    m w = (r, w') ->
    polls w <= polls w' /\
    (r <> Cancelled ->
     forall k, polls w <= k < polls w' -> stop_flag k = false) /\
    (r = Cancelled ->
     polls w < polls w' /\ stop_flag (pred (polls w')) = true /\
     forall k, polls w <= k < pred (polls w') -> stop_flag k = false).

(** No poll at all. *)
Definition pollfree {A} (m : M A) : Prop :=
  forall w r w', m w = (r, w') -> polls w' = polls w /\ r <> Cancelled.

(** The polls of the stop flag that a run of [DCThread.run] makes. *)
Definition polls_made {regex : Type} (re_compile : string -> option regex)
  (finditer : regex -> string -> list rmatch) (U : dc_utils regex)
  (stop_flag : nat -> bool) (i : inputs) (corpus_dict : dict string)
  (independent_variables dependent_variables : dict var_value)
  (speakers : dict (list string)) : nat :=
  polls (snd (generate_dataset re_compile finditer U stop_flag i corpus_dict
                               speakers independent_variables dependent_variables
                               fresh_world)).

(** ** The inverse index *)

(** [x] is a token value of the category value [v]. *)
Definition value_mem (x : string) (v : var_value) : bool :=
  match v with
  | VStr s => String.eqb s x
  | VList l => PyStr.mem x l
  end.

(** The first and the last category of a dictionary, in its order, that
    declares the token value [x]. *)
Fixpoint first_category (x : string) (vd : dict var_value) : option string :=
  match vd with
  | [] => None
  | (k, v) :: vd' => if value_mem x v then Some k else first_category x vd'
  end.

Fixpoint last_category (x : string) (vd : dict var_value) : option string :=
  match vd with
  | [] => None
  | (k, v) :: vd' =>
      match last_category x vd' with
      | Some c => Some c
      | None => if value_mem x v then Some k else None
      end
  end.

(** The log extended with one message. *)
Definition logged (l : level) (msg : message) (w : world) : world :=
  {| polls := polls w; log := log w ++ [(l, msg)] |}.

(** The log extended with the messages of a helper. *)
Definition logged_all (msgs : list (level * message)) (w : world) : world :=
  {| polls := polls w; log := log w ++ msgs |}.

(** Line 43: the paragraphs that [preprocess_corpus] gives for every
    file, and the messages that it sends to the logger on the way, file
    after file. *)
Definition preprocessed {regex : Type} (U : dc_utils regex) (name_regex : regex)
  (corpus_dict : dict string) : dict (list string) :=
  map (fun kv => (fst kv, fst (preprocess_corpus U (snd kv) (fst kv) name_regex)))
      corpus_dict.

Definition preprocess_messages {regex : Type} (U : dc_utils regex) (name_regex : regex)
  (corpus_dict : dict string) : list (level * message) :=
  flat_map (fun kv => snd (preprocess_corpus U (snd kv) (fst kv) name_regex))
           corpus_dict.

(** ** The columns of a row *)

Section RowVocabulary.

Context {regex : Type}.
Variable E : @env regex.

(** The column that [set_category] writes for a value: the first column
    labelled with the category of the value. *)
Definition column_of (value : string) : option nat :=
  match PyDict.get value (e_idv E) with
  | Some category => list_index category (e_csv_header E)
  | None => None
  end.

Definition writes_column (j : nat) (value : string) : bool :=
  match column_of value with
  | Some c => (c =? j)%nat
  | None => false
  end.

(** The last of the values, in their order, whose column is [j]. *)
Fixpoint last_in_column (j : nat) (values : list string) : option string :=
  match values with
  | [] => None
  | v :: vs =>
      match last_in_column j vs with
      | Some x => Some x
      | None => if writes_column j v then Some v else None
      end
  end.

(** The variable values assigned to a speaker. *)
Definition speaker_values (cur_speaker : string) : list string :=
  PyDict.get_default cur_speaker (e_speakers_variables E) [].

(** The number of fixed columns at the end of a row. *)
Definition trailing_columns : nat := if e_previous_line E then 6 else 5.

End RowVocabulary.

(** The dot-components of a tag before its token text. *)
Definition tag_components (t : string) : list string :=
  PyStr.split "." (nth 0 (PyStr.rsplit1 "." t) "").

(** ** Well-formed tables *)

(** Every row has one cell per column. *)
Definition rectangular (df : DataFrame) : Prop :=
  Forall (fun r => length r = length (columns df)) (data df).

(** ** The one-hot table *)

(** The labels that line 410 lists: their columns are taken out of the
    dataset before the encoding. *)
Definition to_drop : list string := ["context"; "token"; "unk"; "file"].

(** A frame read by columns: the label and the cells of every column,
    from left to right. *)
Definition labelled_columns (df : DataFrame) : list (string * list cell) :=
  map (fun i => (nth i (columns df) "", map (fun r => nth i r CNone) (data df)))
      (seq 0 (length (columns df))).

(** The columns of a frame that stay when the labels of [to_drop] are
    taken out. *)
Definition kept_columns (df : DataFrame) : list (string * list cell) :=
  filter (fun lc => negb (PyStr.mem (fst lc) to_drop)) (labelled_columns df).

(** The columns that are converted: every label of a kept column, in
    turn, selects the kept columns that have it, so that every kept
    column is there once when the labels are distinct. *)
Definition converted_columns (df : DataFrame) : list (string * list cell) :=
  flat_map (fun lc => filter (fun lc' => String.eqb (fst lc') (fst lc)) (kept_columns df))
           (kept_columns df).

(** The indicator columns that replace a column. *)
Definition indicator_columns (lc : string * list cell) : list (string * list cell) :=
  Pandas.dummies_1d (fst lc) (map Pandas.cell_text (snd lc)).

(** ** The missing-annotation log *)

(** The per-file pass finds no snippet: for no file and no token of
    the statistics table does [find_repetitions] return one. *)
Definition no_snippets {regex : Type} (U : dc_utils regex) (E : @env regex)
  (tokens : list string) : Prop :=
  forall kv, In kv (e_corpus_dict E) ->
  forall token, In token tokens ->
    snippets U E (interest_text U E (snd kv)) token = [].

(** Every file of the log has the empty map. *)
Definition all_empty (not_annotated_log : na_log) : Prop :=
  Forall (fun pv => snd pv = []) not_annotated_log.

(** ** The totals *)

(** The counters that the loop of lines 275-277 sets to 0. *)
Definition speaker_columns (speakers_of_interest : list string) : list string :=
  flat_map (fun speaker => [(speaker ++ " annotated")%string;
                            (speaker ++ " not annotated")%string])
           speakers_of_interest.

(** [v[k] = 0] for every [k] of the list, in order. *)
Definition zero_keys (ks : list string) (v : dict Z) : dict Z :=
  fold_left (fun v k => PyDict.set k 0%Z v) ks v.

(** The state of a token when the totals loop has passed it: its total
    is written from the two counters, then the speaker columns are set
    to 0. *)
Definition totalled {regex : Type} (E : @env regex) (token : string)
  (ac : ann_counter) : Prop :=
  exists v a n,
    PyDict.get "annotated" v = Some a
    /\ PyDict.get "not annotated" v = Some n
    /\ PyDict.get token ac
       = Some (zero_keys (speaker_columns (e_speakers_of_interest E))
                         (PyDict.set "total" (a + n)%Z v)).

(** ** The shape of the statistics *)

(** The keys of a dictionary after [d[k] = x]. *)
Definition add_key (k : string) (ks : list string) : list string :=
  if PyStr.mem k ks then ks else ks ++ [k].

(** Every token of the statistics has the counters [ks], in that order. *)
Definition uniform (ks : list string) (ac : ann_counter) : Prop :=
  forall token v, PyDict.get token ac = Some v -> PyDict.keys v = ks.

(** The statistics [ac'] are [ac] with the counters of [token] updated,
    their keys going from [ks] to [F ks]. *)
Definition updates_token (F : list string -> list string) (token : string)
  (ac ac' : ann_counter) : Prop :=
  exists v v',
    PyDict.get token ac = Some v
    /\ ac' = PyDict.set token v' ac
    /\ PyDict.keys v' = F (PyDict.keys v).

(** ** The rows of the dataset *)

(** [row] is a row that [build_row] makes of some match. *)
Definition built_row {regex : Type} (U : dc_utils regex) (E : @env regex)
  (row : list string) : Prop :=
  exists file_path file_speakers c cur_speaker sp index t unk w unk' w',
    build_row U E file_path file_speakers c cur_speaker sp index t unk w
    = (Val (row, unk'), w').

(** ** Reading the tables *)

(** The cell of the row of [token] (its first cell) in the column
    [label]. *)
Definition cell_of (token label : string) (df : DataFrame) : option cell :=
  match list_index label (columns df),
        find (fun r => match r with
                       | CStr k :: _ => String.eqb k token
                       | _ => false
                       end) (data df) with
  | Some i, Some r => nth_error r i
  | _, _ => None
  end.

(** [annotation_counter[token][key]] when both are there. *)
Definition counter_of (token key : string) (ac : ann_counter) : option Z :=
  match PyDict.get token ac with
  | Some v => PyDict.get key v
  | None => None
  end.

(** ** Runs on the sample collaborators *)

Module Runs.

Import Sample.

(** The variable files of the examples. *)
Definition independent : dict var_value := [("gender", VList ["male"; "female"])].
Definition dependent : dict var_value := [("kind", VList ["animal"; "plant"])].

(** The environment that [prepare] computes, taken from its result. *)
Definition env_of (previous_line : bool) (corpus_dict : dict string)
  (speakers : dict (list string)) (ind dep : dict var_value)
  : option (@env pattern) :=
  match prepare re_compile utils never (sample_inputs previous_line)
                corpus_dict speakers ind dep fresh_world with
  | (Val E, _) => Some E
  | _ => None
  end.

(** The statistics when the three counting passes are over. *)
Definition counted (corpus_dict : dict string) (speakers : dict (list string))
  (ind dep : dict var_value) : option ann_counter :=
  match (E <- prepare re_compile utils never (sample_inputs false)
                      corpus_dict speakers ind dep ;;
         coverage finditer utils never E) fresh_world with
  | (Val c, _) => Some (fst c)
  | _ => None
  end.

(** One file, two speakers; JOHN says "cats" once in a tag and once
    outside. *)
Definition corpus_john : dict string :=
  [("f1", ("JOHN: I like [$animal.cats] and cats" ++ nl
           ++ "MARY: I like dogs")%string)].

Definition speakers_john : dict (list string) := [("JOHN", ["male"])].

(** The same turn by a speaker whose name is "not". *)
Definition corpus_not : dict string :=
  [("f1", "not: I like [$animal.cats] and cats")].

Definition speakers_not : dict (list string) := [("not", [])].

(** No tag at all. *)
Definition corpus_no_tag : dict string := [("f1", "JOHN: I like cats")].

(** Every occurrence of the token is annotated. *)
Definition corpus_all_annotated : dict string :=
  [("f1", "JOHN: I like [$animal.cats]")].

(** A second tag with an unbalanced bracket, which the validation
    leaves out of the inventory. *)
Definition corpus_malformed : dict string :=
  [("f1", "JOHN: I like [$animal.cats] and cats and [$animal.[dogs]")].

(** A tag with a component of the category of the speaker's value. *)
Definition corpus_female : dict string :=
  [("f1", "JOHN: I like [$female.animal.cats] and cats")].

(** The token occurs outside a tag only in the turn of MARY, who is not
    a speaker of interest. *)
Definition corpus_mary : dict string :=
  [("f1", ("JOHN: I like [$animal.cats]" ++ nl ++ "MARY: cats are nice")%string)].

(** The flag is set when the main loop starts: the polls 0 to 4 are
    those of the first checkpoint and of the four passes on one token,
    one file and one speaker. *)
Definition stop_at_main_loop : nat -> bool := fun k => (5 <=? k)%nat.

(** Two variable files that give the token value "m" to two categories,
    and two that declare the category "gender" twice. *)
Definition independent_m : dict var_value := [("gender", VList ["f"; "m"])].
Definition dependent_m : dict var_value := [("form", VList ["m"; "n"])].
Definition dependent_gender : dict var_value := [("gender", VList ["m"; "n"])].

(** The log of the per-file pass of a run. *)
Definition file_log (stop_flag : nat -> bool) (corpus_dict : dict string)
  (speakers : dict (list string)) (ind dep : dict var_value) : option na_log :=
  match (E <- prepare Sample.re_compile Sample.utils stop_flag
                      (Sample.sample_inputs false)
                      corpus_dict speakers ind dep ;;
         ac <- count_annotations Sample.finditer Sample.utils E ;;
         ac <- whole_corpus_pass Sample.utils stop_flag E ac ;;
         report E ac ;;
         per_file_pass Sample.utils stop_flag E ac) fresh_world with
  | (Val nal, _) => Some nal
  | _ => None
  end.

(** The environment of the run on [corpus_john] with the previous line
    included, and of the run on [corpus_female]. *)
Definition no_env : @env Sample.pattern :=
  {| e_square_regex := Sample.SquarePattern;
     e_feat_regex := Sample.TagPattern;
     e_name_regex := Sample.NamePattern;
     e_previous_line := false;
     e_ngram := (0%Z, 0%Z);
     e_corpus_dict := [];
     e_corpus := [];
     e_speakers_variables := [];
     e_speakers_of_interest := [];
     e_all_speakers_dict := [];
     e_idv := [];
     e_csv_header := [] |}.

Definition env_john : @env Sample.pattern :=
  match env_of true corpus_john speakers_john independent dependent with
  | Some E => E
  | None => no_env
  end.

Definition env_female : @env Sample.pattern :=
  match env_of false corpus_female speakers_john independent dependent with
  | Some E => E
  | None => no_env
  end.

(** The two paragraphs of [corpus_john]. *)
Definition paragraphs_john : list string :=
  ["JOHN: I like [$animal.cats] and cats"; "MARY: I like dogs"].

(** A table of one row, its statistics and its log. *)
Definition one_row_table : list (list string) :=
  [["token"; "kind"; "speaker"; "interlocutor/s"; "file"; "context"; "unk"];
   ["cats"; "animal"; "JOHN"; "MARY"; "f1"; "I like cats"; ""]].

Definition one_token_counter : ann_counter :=
  [("cats", [("annotated", 1%Z); ("not annotated", 1%Z); ("total", 2%Z)])].

Definition one_file_log : na_log := [("f1", [("cats", ["JOHN: I like cats"])])].

(** The statistics when the whole-corpus pass is over. *)
Definition counted_before_report (corpus_dict : dict string)
  (speakers : dict (list string)) (ind dep : dict var_value)
  : option ann_counter :=
  match (E <- prepare Sample.re_compile Sample.utils Sample.never
                      (Sample.sample_inputs false)
                      corpus_dict speakers ind dep ;;
         ac <- count_annotations Sample.finditer Sample.utils E ;;
         whole_corpus_pass Sample.utils Sample.never E ac) fresh_world with
  | (Val ac, _) => Some ac
  | _ => None
  end.

End Runs.

(** * The vocabulary of the further properties *)

(** ** The unknown bucket of a row *)

(** The components of a tag that the inverse index does not resolve. *)
Definition unknown_components {regex : Type} (E : @env regex) (t : string)
  : list string :=
  filter (fun f => negb (PyDict.mem f (e_idv E))) (tag_components t).

(** The text that lines 352-354 build from them: each one followed by a
    comma. *)
Definition comma_ended (l : list string) : string :=
  String.concat "" (map (fun f => (f ++ ",")%string) l).

(** ** The inventory *)

(** [l.count(x)] *)
Definition py_count (x : string) (l : list string) : Z :=
  Z.of_nat (length (filter (String.eqb x) l)).

(** Lines 155-157: the token texts of the validated annotations, one
    for each annotation. *)
Definition validated_tokens {regex : Type}
  (finditer : regex -> string -> list rmatch) (U : dc_utils regex)
  (E : @env regex) : list string :=
  map token_of_annotation (fst (collect_annotations finditer U E)).

(** ** The table of missed annotations *)

(** The row of one file and one token, filled with None up to [m]
    snippets. *)
Definition missed_row (m : nat) (path : string) (tc : string * list string)
  : list cell :=
  CStr path :: CStr (fst tc) :: map CStr (snd tc)
  ++ repeat CNone (m - length (snd tc)).

Definition missed_rows (m : nat) (not_annotated_log : na_log) : list (list cell) :=
  flat_map (fun pv => map (missed_row m (fst pv)) (snd pv)) not_annotated_log.

(** ["context 1"], ..., ["context m"] *)
Definition context_labels (m : nat) : list string :=
  map (fun i => ("context " ++ str_of_nat i)%string) (seq 1 m).

(** ** The log of missed annotations *)

(** The entry of a token in the log of a file: its snippets, when there
    is one. *)
Definition snippet_entry {regex : Type} (U : dc_utils regex) (E : @env regex)
  (crp : list string) (token : string) : dict (list string) :=
  match snippets U E (interest_text U E crp) token with
  | [] => []
  | wna => [(token, wna)]
  end.

(** The log of a file with the paragraphs [crp]. *)
Definition file_snippets {regex : Type} (U : dc_utils regex) (E : @env regex)
  (tokens : list string) (crp : list string) : dict (list string) :=
  flat_map (snippet_entry U E crp) tokens.

(** ** The checkpoints of a run *)

(** The polls of the stop flag on the way to the bundle: one before the
    passes, one for each token in the whole-corpus pass, one for each
    token and file in the per-file pass, one for each token and speaker
    in the per-speaker pass and again in the totals, and one for each
    paragraph in the main loop. *)
Definition checkpoints {regex : Type}
  (finditer : regex -> string -> list rmatch) (U : dc_utils regex)
  (E : @env regex) : nat :=
  let tokens := length (initial_counter finditer U E) in
  1 + tokens
  + length (e_corpus_dict E) * tokens
  + length (e_speakers_variables E) * tokens
  + tokens * length (e_speakers_of_interest E)
  + length (e_corpus E).

(** ** The report of the unknown categories *)

(** The warnings of lines 438-443 for the categories [names]: the
    heading, then the names numbered from 0. *)
Definition unknown_warnings (names : list string) : list (level * message) :=
  (Warning,
   [PStr ("I have found several categories not listed in your variable file."
          ++ nl ++ "Following in alphabetical order:")%string])
  :: map (fun ic => (Warning,
                     [PInt (Z.of_nat (fst ic)); PStr " - '"; PStr (snd ic); PStr "'"]))
         (combine (seq 0 (length names)) names).

(** ** The counters of the whole-corpus pass *)

(** Lines 175-181: what the pass writes for a token that has [annotated]
    annotations, [(not annotated, not_annotated_interest)]. *)
Definition whole_corpus_counts {regex : Type} (U : dc_utils regex) (E : @env regex)
  (token : string) (annotated : Z) : Z * Z :=
  let '(wild_rep, wild_rep_interest, ann_rep, _) :=
    find_repetitions U (whole_corpus E) token (e_feat_regex E) (e_name_regex E)
                     (e_speakers_of_interest E) None in
  ((wild_rep + ann_rep - annotated)%Z, wild_rep_interest).

(** ** The matches that give a row *)

(** A match of the tag pattern in a paragraph of a file: the file, the
    paragraph, the paragraph before it ([corpus[idx - 1]], the last one
    for the first paragraph) and the match. *)
Record match_site := {
  site_file : string;
  site_paragraph : string;
  site_previous : string;
  site_match : rmatch
}.

(** The matches of the paragraph [corpus[idx]] of a file, when its
    speaker is a speaker of interest. *)
Definition paragraph_sites {regex : Type}
  (finditer : regex -> string -> list rmatch) (U : dc_utils regex)
  (E : @env regex) (file_path : string) (corpus : list string) (idx : nat)
  : list match_site :=
  let c := nth idx corpus "" in
  let sp := match py_index corpus (Z.of_nat idx - 1) with
            | Some n => nth n corpus ""
            | None => ""
            end in
  if PyStr.mem (get_name U c (e_name_regex E)) (e_speakers_of_interest E)
  then map (fun m => {| site_file := file_path; site_paragraph := c;
                        site_previous := sp; site_match := m |})
           (finditer (e_feat_regex E) c)
  else [].

(** The matches in the paragraphs of the speakers of interest, in the
    order of the files, of their paragraphs and of the matches. *)
Definition interest_matches {regex : Type}
  (finditer : regex -> string -> list rmatch) (U : dc_utils regex)
  (E : @env regex) : list match_site :=
  flat_map
    (fun kv => flat_map (paragraph_sites finditer U E (fst kv) (snd kv))
                        (seq 0 (length (snd kv))))
    (e_corpus_dict E).

(** [row] is the row that [build_row] makes of the match when the
    speakers of its file are [file_speakers]. *)
Definition built_with {regex : Type} (U : dc_utils regex) (E : @env regex)
  (file_speakers : list string) (x : match_site) (row : list string) : Prop :=
  exists unk w unk' w',
    build_row U E (site_file x) file_speakers (site_paragraph x)
              (get_name U (site_paragraph x) (e_name_regex E)) (site_previous x)
              (m_start (site_match x)) (m_group1 (site_match x)) unk w
    = (Val (row, unk'), w').

(** [row] is the row that [build_row] makes of the match. *)
Definition built_for {regex : Type} (U : dc_utils regex) (E : @env regex)
  (x : match_site) (row : list string) : Prop :=
  exists file_speakers unk w unk' w',
    build_row U E (site_file x) file_speakers (site_paragraph x)
              (get_name U (site_paragraph x) (e_name_regex E)) (site_previous x)
              (m_start (site_match x)) (m_group1 (site_match x)) unk w
    = (Val (row, unk'), w').

(** * The upload helpers

    A shallow embedding of [multi_corpus_upload], [open_postprocess] and
    [open_variables] (src/common/c_utils.py). The lines that [decode]
    prints are kept, oldest first, beside its result; the codec behind
    [bytes.decode], [os.path.basename] of the platform and the readers
    ([json.load] on the opened file, [pd.read_csv]) are parameters. A
    formatted text is the list of its pieces, and the empty text is the
    empty list. *)

Module CUtils.

(** How a function ends: with its result or with an exception that it
    does not catch, kept as its description. *)
Inductive outcome (A : Type) :=
| Returns (a : A)
| Raises (e : string).

Arguments Returns {A} a.
Arguments Raises {A} e.

(** ** multi_corpus_upload *)

Definition bytes := list Byte.byte.

(** What [to_decode.decode(encoding)] does: the text, UnicodeDecodeError
    with its description, or another exception, such as LookupError for
    a name that is not the name of a codec. *)
Inductive decoding :=
| Decoded (text : string)
| UnicodeDecodeError (e : string)
| DecodeRaises (e : string).

(** [[encoding] + ["utf-8", ...]] *)
Definition alternative_encodings (encoding : string) : list string :=
  [encoding]
  ++ ["utf-8"; "utf-16"; "latin-1"; "ascii"; "cp1252"; "cp1250"; "cp1251"; "cp1253"].

(** A character that [[^\S\n]] matches: white space other than the line
    feed. *)
Definition blank (a : ascii) : bool :=
  PyStr.isspace a && negb (Ascii.eqb a (ascii_of_nat 10)).

(** [re.sub(r"[^\S\n]+", " ", s)]: every maximal run of such characters
    becomes one space; [in_run] tells that the character before belongs
    to the run. *)
Fixpoint sub_blanks_from (in_run : bool) (s : string) : string :=
  match s with
  | EmptyString => EmptyString
  | String a s' =>
      if blank a then
        if in_run then sub_blanks_from true s'
        else String " " (sub_blanks_from true s')
      else String a (sub_blanks_from false s')
  end.

Definition sub_blanks (s : string) : string := sub_blanks_from false s.

(** How the loop of [decode] ends: [success] with [dec] and the
    encoding that gave it, no success, or an exception of
    [bytes.decode] that the loop does not catch. *)
Inductive attempt :=
| Success (dec encoding : string)
| NoSuccess
| Uncaught (e : string).

Definition trying_line (encoding : string) : message :=
  [PStr "Trying with the encoding "; PStr encoding; PStr "."].

Definition did_not_work_line (k encoding : string) : message :=
  [PStr "The corpus "; PStr k; PStr " has been read with the encoding ";
   PStr encoding; PStr ", but it seems that it did not work."].

Definition could_not_decode_line (k encoding e : string) : message :=
  [PStr "Could not decode the corpus "; PStr k; PStr " with the encoding ";
   PStr encoding; PStr ("." ++ nl ++ "The error is: ")%string; PStr e; PStr nl].

Definition read_line (k encoding : string) : message :=
  [PStr "The corpus "; PStr k; PStr " has been read with the encoding ";
   PStr encoding; PStr "."].

(** The text that [decode] returns when no encoding worked. The second
    literal of the source, "Please check the encoding ...", is a
    statement of its own and not part of the text. *)
Definition no_encoding_message (k : string) (encodings : list string) : message :=
  [PStr "Could not decode the corpus "; PStr k;
   PStr " with any of the encodings "; PValue (VList encodings);
   PStr ("." ++ nl)%string].

(** [e != ""] *)
Definition nonempty (e : message) : bool :=
  match e with [] => false | _ => true end.

Section Upload.

Variable bytes_decode : bytes -> string -> decoding.

(** The loop of [decode] from the index [idx], on the encodings from
    that index on; [k] is the name of the file, which [decode] reads
    from the loop around it. *)
Fixpoint decode_loop (k : string) (to_decode : bytes) (idx : nat)
  (encodings : list string) : attempt * list message :=
  match encodings with
  | [] => (NoSuccess, [])
  | encoding :: rest =>
      let trying := if (0 <? idx)%nat then [trying_line encoding] else [] in
      match bytes_decode to_decode encoding with
      | Decoded text =>
          let dec := (text ++ nl)%string in
          if negb (PyStr.contains " " dec) then
            let (r, out) := decode_loop k to_decode (S idx) rest in
            (r, trying ++ [did_not_work_line k encoding] ++ out)
          else (Success (sub_blanks dec) encoding, trying)
      | UnicodeDecodeError e =>
          let (r, out) := decode_loop k to_decode (S idx) rest in
          (r, trying ++ [could_not_decode_line k encoding e] ++ out)
      | DecodeRaises e => (Uncaught e, trying)
      end
  end.

(** [decode(to_decode)]: the text and the error text, one of them
    empty, and the printed lines. *)
Definition decode (encodings : list string) (k : string) (to_decode : bytes)
  : outcome (string * message) * list message :=
  match decode_loop k to_decode 0 encodings with
  | (Success dec encoding, out) => (Returns (dec, []), out ++ [read_line k encoding])
  | (NoSuccess, out) => (Returns ("", no_encoding_message k encodings), out)
  | (Uncaught e, out) => (Raises e, out)
  end.

(** The loop on [corpus_list.items()]. *)
Fixpoint upload_loop (encodings : list string) (items : list (string * bytes))
  (corpus : dict string) (errs : list message)
  : outcome (dict string * list message) * list message :=
  match items with
  | [] => (Returns (corpus, errs), [])
  | (k, v) :: rest =>
      match decode encodings k v with
      | (Returns (dec, err), out) =>
          let (r, out') :=
            upload_loop encodings rest (PyDict.set k dec corpus) (errs ++ [err]) in
          (r, out ++ out')
      | (Raises e, out) => (Raises e, out)
      end
  end.

(** [encoding] is the encoding that the caller gives, ["utf-16"] when it
    gives none. The result is [(corpus, errs)] and the printed lines. *)
Definition multi_corpus_upload (corpus_list : dict bytes) (encoding : string)
  : outcome (dict string * list message) * list message :=
  match upload_loop (alternative_encodings encoding) corpus_list [] [] with
  | (Returns (corpus, errs), out) => (Returns (corpus, filter nonempty errs), out)
  | (Raises e, out) => (Raises e, out)
  end.

End Upload.

(** ** open_postprocess and open_variables *)

(** [c.lower()] on the code points below 256 *)
Definition lower_char (a : ascii) : ascii :=
  let n := nat_of_ascii a in
  if (((65 <=? n) && (n <=? 90))
      || ((192 <=? n) && (n <=? 222) && negb (n =? 215)))%nat
  then ascii_of_nat (n + 32)
  else a.

(** [s.lower()] *)
Fixpoint lower (s : string) : string :=
  match s with
  | EmptyString => EmptyString
  | String a s' => String (lower_char a) (lower s')
  end.

(** What reading one file does: the content, UnicodeError, or another
    exception (a missing file, a name that is not the name of a codec,
    a text that is not JSON); [repr] is [repr(e)]. *)
Inductive reading (A : Type) :=
| ReadOk (a : A)
| ReadUnicodeError (repr : string)
| ReadFails (repr : string).

Arguments ReadOk {A} a.
Arguments ReadUnicodeError {A} repr.
Arguments ReadFails {A} repr.

(** What the two functions give back: [(content, error)], or the
    exception of the second reading of a file, which is outside the
    [try]. *)
Inductive opened (A : Type) :=
| Opened (content : dict A) (error : option message)
| OpenRaises (repr : string).

Arguments Opened {A} content error.
Arguments OpenRaises {A} repr.

(** [f"Error while opening the file {path}\n{repr(e)}"] *)
Definition error_message (path repr : string) : message :=
  [PStr "Error while opening the file "; PStr path; PStr nl; PStr repr].

Section Open.

Context {A : Type}.

(** [os.path.basename] *)
Variable basename : string -> string.

(** Reading the file at a path with an encoding. *)
Variable read : string -> string -> reading A.

(** [os.path.basename(path).split(".")[0]] *)
Definition file_name (path : string) : string :=
  hd "" (PyStr.split "." (basename path)).

(** The second reading of a file, with the other encoding. *)
Definition read_again (path encoding : string) : outcome A :=
  match read path encoding with
  | ReadOk a => Returns a
  | ReadUnicodeError repr => Raises repr
  | ReadFails repr => Raises repr
  end.

(** The loop on the paths, which is the same in [open_postprocess] and
    in [open_variables]; [encoding] and [content] are the variables
    that it updates. *)
Fixpoint open_loop (paths : list string) (encoding : string) (content : dict A)
  : opened A :=
  match paths with
  | [] => Opened content None
  | path :: rest =>
      let file_name := file_name path in
      match read path encoding with
      | ReadOk a => open_loop rest encoding (PyDict.set file_name a content)
      | ReadUnicodeError repr =>
          if encoding =? "utf-8" then
            match read_again path "utf-16" with
            | Returns a => open_loop rest "utf-16" (PyDict.set file_name a content)
            | Raises e => OpenRaises e
            end
          else if encoding =? "utf-16" then
            match read_again path "utf-8" with
            | Returns a => open_loop rest "utf-8" (PyDict.set file_name a content)
            | Raises e => OpenRaises e
            end
          else Opened content (Some (error_message path repr))
      | ReadFails repr => Opened content (Some (error_message path repr))
      end
  end.

End Open.

(** [json_load path encoding] is [json.load] on the file opened at the
    path with the encoding. *)
Definition open_variables {json : Type} (basename : string -> string)
  (json_load : string -> string -> reading json)
  (paths : list string) (encoding : string) : opened json :=
  open_loop basename json_load paths (lower encoding) [].

(** [read_csv path encoding separator] is [pd.read_csv(path,
    encoding=encoding, on_bad_lines="skip", sep=separator)]. *)
Definition open_postprocess (basename : string -> string)
  (read_csv : string -> string -> string -> reading DataFrame)
  (paths : list string) (encoding separator : string) : opened DataFrame :=
  open_loop basename (fun path encoding => read_csv path encoding separator)
            paths (lower encoding) [].

End CUtils.

(** ** The vocabulary of the upload helpers *)

Module CUtilsSpec.

Import CUtils.

(** An encoding that the loop of [decode] passes over: the bytes do not
    decode, or the decoded text with its line feed has no space. *)
Definition unsuitable (bytes_decode : bytes -> string -> decoding)
  (to_decode : bytes) (encoding : string) : bool :=
  match bytes_decode to_decode encoding with
  | Decoded text => negb (PyStr.contains " " (text ++ nl))
  | UnicodeDecodeError _ => true
  | DecodeRaises _ => false
  end.

(** No encoding of the list works for the bytes. *)
Definition undecodable (bytes_decode : bytes -> string -> decoding)
  (encodings : list string) (to_decode : bytes) : bool :=
  forallb (unsuitable bytes_decode to_decode) encodings.

(** The only blank characters of the text are single spaces: each one
    is a space and the character after it is not blank. *)
Fixpoint squeezed (s : string) : bool :=
  match s with
  | EmptyString => true
  | String a s' =>
      (if blank a
       then Ascii.eqb a " "
            && match s' with
               | EmptyString => true
               | String b _ => negb (blank b)
               end
       else true)
      && squeezed s'
  end.

(** The content after the files of [paths], all read with [encoding]. *)
Definition read_all {A : Type} (basename : string -> string)
  (read : string -> string -> reading A) (paths : list string)
  (encoding : string) (content : dict A) : dict A :=
  fold_left
    (fun content path =>
       match read path encoding with
       | ReadOk a => PyDict.set (file_name basename path) a content
       | _ => content
       end)
    paths content.

(** The other of the two encodings that the readers exchange. *)
Definition other_encoding (encoding : string) : option string :=
  if encoding =? "utf-8" then Some "utf-16"
  else if encoding =? "utf-16" then Some "utf-8"
  else None.

End CUtilsSpec.

(** ** An instance of the codec and of the readers

    A codec for byte strings of ASCII text and of Latin-1 text, and a
    small file system, for the examples. *)

Module SampleFiles.

Import CUtils.

Definition is_ascii_byte (b : Byte.byte) : bool :=
  (Byte.to_nat b <? 128)%nat.

Definition ascii_compatible : list string :=
  ["ascii"; "utf-8"; "cp1252"; "cp1250"; "cp1251"; "cp1253"].

(** The codec of the examples: what Python's codecs do with a byte
    string of odd length that is ASCII text, or that has the byte 0xE9
    before a space. latin-1 decodes every byte to the code point of its
    value; utf-16 fails on an odd length; ascii, utf-8 and the Windows
    code pages decode ASCII bytes to themselves, and the first two fail
    on the byte 0xE9 there. Other names are not names of codecs. On
    other byte strings the stand-in is arbitrary. *)
Definition bytes_decode (to_decode : bytes) (encoding : string) : decoding :=
  if encoding =? "latin-1" then Decoded (string_of_list_byte to_decode)
  else if encoding =? "utf-16" then
    if Nat.odd (length to_decode)
    then UnicodeDecodeError "truncated data"
    else DecodeRaises "outside the examples"
  else if PyStr.mem encoding ascii_compatible then
    if forallb is_ascii_byte to_decode
    then Decoded (string_of_list_byte to_decode)
    else if (encoding =? "ascii") || (encoding =? "utf-8")
         then UnicodeDecodeError "invalid byte"
         else DecodeRaises "outside the examples"
  else DecodeRaises ("LookupError: unknown encoding: " ++ encoding).

(** ["JOHN: I\t like cats."], ["caf\xe9 au lait!"] and ["nospace"] *)
Definition john_bytes : bytes :=
  list_byte_of_string ("JOHN: I" ++ String (ascii_of_nat 9) " like cats.").
Definition latin_bytes : bytes :=
  list_byte_of_string ("caf" ++ String (ascii_of_nat 233) " au lait!").
Definition nospace_bytes : bytes := list_byte_of_string "nospace".

Definition sample_files : dict bytes :=
  [("f1", john_bytes); ("f2", latin_bytes); ("f3", nospace_bytes)].

(** The part of a path after its last slash, as [posixpath] has it. *)
Definition basename (path : string) : string := PyStr.last_component "/" path.

(** The files of the examples: two variable files with the same name up
    to the first dot, both in UTF-8, a file in UTF-16, and a file that
    is not JSON. *)
Definition json_load (path encoding : string) : reading (dict var_value) :=
  if path =? "vars/gender.v1.json" then
    if encoding =? "utf-8" then ReadOk [("gender", VList ["male"; "female"])]
    else if encoding =? "utf-16" then ReadUnicodeError "UnicodeError()"
    else ReadFails "LookupError()"
  else if path =? "old/gender.json" then
    if encoding =? "utf-8" then ReadOk [("gender", VList ["m"; "f"])]
    else if encoding =? "utf-16" then ReadUnicodeError "UnicodeError()"
    else ReadFails "LookupError()"
  else if path =? "vars/kind.json" then
    if encoding =? "utf-16" then ReadOk [("kind", VList ["animal"; "plant"])]
    else if encoding =? "utf-8"
    then ReadUnicodeError "UnicodeDecodeError()"
    else ReadFails "LookupError()"
  else if path =? "vars/broken.json" then
    ReadFails "JSONDecodeError()"
  else ReadFails "FileNotFoundError()".

End SampleFiles.

(** * Properties *)

(** ** Reasoning in the monad *)

Lemma bind_Val_inv {A B} (m : M A) (f : A -> M B) w b w' :
  bind m f w = (Val b, w') ->
  exists a w1, m w = (Val a, w1) /\ f a w1 = (Val b, w').
Proof.
  unfold bind. destruct (m w) as [[a| |e] w1]; intros H; try discriminate.
  exists a, w1. split; [reflexivity | exact H].
Qed.

Lemma bind_Val {A B} (m : M A) (f : A -> M B) w a w1 :
  m w = (Val a, w1) -> bind m f w = f a w1.
Proof. unfold bind. intros ->. reflexivity. Qed.

Lemma bind_Raise {A B} (m : M A) (f : A -> M B) w e w1 :
  m w = (Raise e, w1) -> bind m f w = (Raise e, w1).
Proof. unfold bind. intros ->. reflexivity. Qed.

Lemma bind_Cancelled {A B} (m : M A) (f : A -> M B) w w1 :
  m w = (Cancelled, w1) -> bind m f w = (Cancelled, w1).
Proof. unfold bind. intros ->. reflexivity. Qed.

Lemma or_raise_Val_inv {A} (o : option A) e w a w' :
  or_raise o e w = (Val a, w') -> o = Some a /\ w' = w.
Proof.
  destruct o; cbn; intros H; inversion H; subst; auto.
Qed.

(** Splits a hypothesis [bind m f w = (Val b, w')] into the two runs. *)
Ltac bind_inv H :=
  let a := fresh "a" in
  let w1 := fresh "w" in
  let H1 := fresh "Hm" in
  apply bind_Val_inv in H; destruct H as (a & w1 & H1 & H).

(** [bind_inv] with the names of what it introduces. *)
Ltac bind_as H a w1 H1 :=
  apply bind_Val_inv in H; destruct H as (a & w1 & H1 & H).

Lemma with_logger_Val {A} (call : logging A) w a w' :
  with_logger call w = (Val a, w') ->
  a = fst call /\ w' = {| polls := polls w; log := log w ++ snd call |}.
Proof. unfold with_logger. intros H. inversion H; subst. auto. Qed.

(** Splits off a call of a helper that is handed the logger. *)
Ltac logger_inv H :=
  let a := fresh "r" in
  let w1 := fresh "wl" in
  let H1 := fresh "Hl" in
  apply bind_Val_inv in H; destruct H as (a & w1 & H1 & H);
  apply with_logger_Val in H1; destruct H1 as [-> ->].

(** ** The cancellation gate *)

Section Gate.

Variable stop_flag : nat -> bool.

Lemma pollfree_gate_ok {A} (m : M A) : pollfree m -> gate_ok stop_flag m.
Proof.
  intros Hm w r w' H. destruct (Hm _ _ _ H) as [Hp Hr].
  split; [lia|]. split.
  - intros _ k Hk. lia.
  - intros Hc. contradiction.
Qed.

Lemma pollfree_ret {A} (a : A) : pollfree (ret a).
Proof. intros w r w' H. inversion H; subst. split; [reflexivity | discriminate]. Qed.

Lemma pollfree_raise {A} e : pollfree (@raise A e).
Proof. intros w r w' H. inversion H; subst. split; [reflexivity | discriminate]. Qed.

Lemma pollfree_or_raise {A} (o : option A) e : pollfree (or_raise o e).
Proof. destruct o; [apply pollfree_ret | apply pollfree_raise]. Qed.

Lemma pollfree_logger_call method msg : pollfree (logger_call method msg).
Proof.
  intros w r w' H. unfold logger_call in H.
  destruct (QTextLogger method); inversion H; subst; cbn;
    (split; [reflexivity | discriminate]).
Qed.

Lemma pollfree_with_logger {A} (call : logging A) : pollfree (with_logger call).
Proof.
  intros w r w' H. unfold with_logger in H. inversion H; subst; cbn.
  split; [reflexivity | discriminate].
Qed.

Lemma pollfree_bind {A B} (m : M A) (f : A -> M B) :
  pollfree m -> (forall a, pollfree (f a)) -> pollfree (bind m f).
Proof.
  intros Hm Hf w r w' H. unfold bind in H.
  destruct (m w) as [[a| |e] w1] eqn:E; destruct (Hm _ _ _ E) as [Hp Hr].
  - destruct (Hf a _ _ _ H) as [Hp' Hr']. split; [congruence | assumption].
  - congruence.
  - inversion H; subst. split; [assumption | discriminate].
Qed.

Lemma pollfree_for_each {A S} (l : list A) (body : A -> S -> M S) :
  (forall x s, pollfree (body x s)) -> forall s, pollfree (for_each l body s).
Proof.
  intros Hb. induction l as [|x l IH]; intros s; cbn.
  - apply pollfree_ret.
  - apply pollfree_bind; [apply Hb | intros; apply IH].
Qed.

Lemma pollfree_map_M {A B} (f : A -> M B) (l : list A) :
  (forall x, pollfree (f x)) -> pollfree (map_M f l).
Proof.
  intros Hf. induction l as [|x l IH]; cbn.
  - apply pollfree_ret.
  - apply pollfree_bind; [apply Hf | intros y].
    apply pollfree_bind; [apply IH | intros ys]. apply pollfree_ret.
Qed.

Lemma gate_ok_bind {A B} (m : M A) (f : A -> M B) :
  gate_ok stop_flag m -> (forall a, gate_ok stop_flag (f a)) -> gate_ok stop_flag (bind m f).
Proof.
  intros Hm Hf w r w' H. unfold bind in H.
  destruct (m w) as [[a| |e] w1] eqn:E;
    destruct (Hm _ _ _ E) as (Hle & Hval & Hcan).
  - destruct (Hf a _ _ _ H) as (Hle' & Hval' & Hcan').
    assert (Hpre : forall k, polls w <= k < polls w1 -> stop_flag k = false)
      by (apply Hval; discriminate).
    split; [lia|]. split.
    + intros Hr k Hk. destruct (Nat.lt_ge_cases k (polls w1)).
      * apply Hpre; lia.
      * apply Hval'; [assumption | lia].
    + intros Hr. destruct (Hcan' Hr) as (Hlt & Hlast & Hbefore).
      split; [lia|]. split; [assumption|].
      intros k Hk. destruct (Nat.lt_ge_cases k (polls w1)).
      * apply Hpre; lia.
      * apply Hbefore; lia.
  - inversion H; subst.
    split; [assumption|]. split; [congruence|]. intros _. apply Hcan; reflexivity.
  - inversion H; subst.
    split; [assumption|]. split; [|discriminate].
    intros _. apply Hval; discriminate.
Qed.

Lemma gate_ok_check_stop : gate_ok stop_flag (check_stop stop_flag).
Proof.
  intros w r w' H. unfold check_stop in H.
  destruct (stop_flag (polls w)) eqn:Es.
  - cbn in H. inversion H; subst; cbn.
    split; [lia|]. split; [congruence|].
    intros _. split; [lia|]. split; [assumption|]. intros k Hk; lia.
  - inversion H; subst; cbn.
    split; [lia|]. split.
    + intros _ k Hk. assert (k = polls w) by lia. subst. assumption.
    + discriminate.
Qed.

Lemma gate_ok_for_each {A S} (l : list A) (body : A -> S -> M S) :
  (forall x s, gate_ok stop_flag (body x s)) -> forall s, gate_ok stop_flag (for_each l body s).
Proof.
  intros Hb. induction l as [|x l IH]; intros s; cbn.
  - apply pollfree_gate_ok, pollfree_ret.
  - apply gate_ok_bind; [apply Hb | intros; apply IH].
Qed.

End Gate.

(** Decomposes a goal [pollfree m] or [gate_ok m] along the structure of
    [m]. *)
Ltac gate_step :=
  match goal with
  | |- pollfree (bind _ _) => apply pollfree_bind; [|intros]
  | |- pollfree (for_each _ _ _) => apply pollfree_for_each; intros
  | |- pollfree (ret _) => apply pollfree_ret
  | |- pollfree (raise _) => apply pollfree_raise
  | |- pollfree (or_raise _ _) => apply pollfree_or_raise
  | |- pollfree (logger_call _ _) => apply pollfree_logger_call
  | |- pollfree (with_logger _) => apply pollfree_with_logger
  | |- pollfree (map_M _ _) => apply pollfree_map_M; intros
  | |- gate_ok _ (bind _ _) => apply gate_ok_bind; [|intros]
  | |- gate_ok _ (for_each _ _ _) => apply gate_ok_for_each; intros
  | |- gate_ok _ (check_stop _) => apply gate_ok_check_stop
  | |- gate_ok _ (ret _) => apply pollfree_gate_ok, pollfree_ret
  | |- gate_ok _ (raise _) => apply pollfree_gate_ok, pollfree_raise
  | |- gate_ok _ (or_raise _ _) => apply pollfree_gate_ok, pollfree_or_raise
  | |- gate_ok _ (logger_call _ _) => apply pollfree_gate_ok, pollfree_logger_call
  | |- gate_ok _ (with_logger _) => apply pollfree_gate_ok, pollfree_with_logger
  | |- gate_ok _ (map_M _ _) => apply pollfree_gate_ok, pollfree_map_M; intros
  | |- pollfree (if ?b then _ else _) => destruct b
  | |- gate_ok _ (if ?b then _ else _) => destruct b
  | |- pollfree (match ?x with _ => _ end) => destruct x
  | |- gate_ok _ (match ?x with _ => _ end) => destruct x
  end.

Ltac gate := repeat gate_step.

Section GateOfEngine.

Context {regex : Type}.
Variable re_compile : string -> option regex.
Variable finditer : regex -> string -> list rmatch.
Variable U : dc_utils regex.
Variable stop_flag : nat -> bool.

Lemma gate_ok_prepare i corpus_dict speakers_variables ind dep :
  gate_ok stop_flag
    (prepare re_compile U stop_flag i corpus_dict speakers_variables ind dep).
Proof.
  unfold prepare, compile, warn_duplicates. gate.
Qed.

Lemma pollfree_finish ac nal acc : pollfree (finish ac nal acc).
Proof.
  unfold finish, annotation_info_of, missing_annotations_of, py_max, one_hot,
    csv_head, report_unknown, Pandas.make, Pandas.getitem, Pandas.setitem,
    Pandas.drop.
  gate.
Qed.

Lemma gate_ok_coverage E : gate_ok stop_flag (coverage finditer U stop_flag E).
Proof.
  unfold coverage, count_annotations, whole_corpus_pass, report, sum_field,
    per_file_pass, record_snippets, per_speaker_pass, init_if_absent,
    true_div, setitem2, getitem.
  gate.
Qed.

Lemma gate_ok_add_totals (E : @env regex) ac :
  gate_ok stop_flag (add_totals stop_flag E ac).
Proof. unfold add_totals, setitem2, getitem. gate. Qed.

Lemma gate_ok_main_loop E ac :
  gate_ok stop_flag (main_loop finditer U stop_flag E ac).
Proof.
  unfold main_loop, process_paragraph, process_tag, build_row, set_feature,
    set_category, getitem, getidx, setidx.
  gate.
Qed.

Lemma gate_ok_generate_dataset i corpus_dict speakers_variables ind dep :
  gate_ok stop_flag
    (generate_dataset re_compile finditer U stop_flag
                      i corpus_dict speakers_variables ind dep).
Proof.
  unfold generate_dataset, passes.
  apply gate_ok_bind; [apply gate_ok_prepare | intros E].
  apply gate_ok_bind; [apply gate_ok_coverage | intros counted].
  apply gate_ok_bind; [apply gate_ok_add_totals | intros ac].
  apply gate_ok_bind; [apply pollfree_gate_ok, pollfree_logger_call | intros _].
  apply gate_ok_bind; [apply gate_ok_main_loop | intros acc].
  apply pollfree_gate_ok, pollfree_finish.
Qed.

End GateOfEngine.

(** ** The cancellation sentinel *)

(** C8. When a run observes the cancellation flag set at one of its
    checkpoints (one of the polls it makes sees the flag set), the
    engine returns [None]: the result of the thread is the sentinel
    [ResultNone], which is neither a bundle of tables nor an error
    message, so no dataset, partial or not, is returned. *)
Theorem cancelled_run_returns_sentinel :
  forall (regex : Type) (re_compile : string -> option regex)
         (finditer : regex -> string -> list rmatch) (U : dc_utils regex)
         (stop_flag : nat -> bool) (i : inputs) (corpus_dict : dict string)
         (independent_variables dependent_variables : dict var_value)
         (speakers : dict (list string)),
    (exists k,
        k < polls_made re_compile finditer U stop_flag i corpus_dict
                       independent_variables dependent_variables speakers
        /\ stop_flag k = true) ->
    DCThread_run re_compile finditer U stop_flag i corpus_dict
                 independent_variables dependent_variables speakers
    = ResultNone
    /\ (forall b, ResultNone <> ResultBundle b)
    /\ (forall e, ResultNone <> ResultError e).
Proof.
  intros regex re_compile finditer U stop_flag i corpus_dict ind dep speakers
         (k & Hk & Hset).
  unfold polls_made in Hk. unfold DCThread_run.
  destruct (generate_dataset re_compile finditer U stop_flag i corpus_dict
                             speakers ind dep fresh_world) as [r w'] eqn:Hrun.
  destruct (gate_ok_generate_dataset re_compile finditer U stop_flag
              i corpus_dict speakers ind dep _ _ _ Hrun) as (_ & Hval & _).
  cbn in Hk.
  assert (Hr : r = Cancelled).
  { destruct r as [b| |e]; [exfalso | reflexivity | exfalso];
      (rewrite Hval in Hset; [discriminate | discriminate | cbn; lia]). }
  subst r. split; [reflexivity|]. split; intros; discriminate.
Qed.

(** ** Dictionaries *)

Section DictFacts.

Context {V : Type}.
Implicit Types (d : dict V) (k x : string) (v : V).

Lemma get_set k x v d :
  PyDict.get x (PyDict.set k v d) = if String.eqb k x then Some v else PyDict.get x d.
Proof.
  induction d as [|[k' v'] d IH]; cbn.
  - reflexivity.
  - destruct (String.eqb_spec k' k) as [->|Hk]; cbn.
    + destruct (String.eqb k x); reflexivity.
    + rewrite IH. destruct (String.eqb_spec k' x) as [->|Hx].
      * destruct (String.eqb_spec k x); [congruence | reflexivity].
      * reflexivity.
Qed.

Lemma get_set_same k v d : PyDict.get k (PyDict.set k v d) = Some v.
Proof. rewrite get_set, String.eqb_refl. reflexivity. Qed.

Lemma get_set_other k x v d :
  k <> x -> PyDict.get x (PyDict.set k v d) = PyDict.get x d.
Proof.
  intros H. rewrite get_set. destruct (String.eqb_spec k x); congruence.
Qed.

Lemma mem_set k x v d :
  PyDict.mem x (PyDict.set k v d) = String.eqb k x || PyDict.mem x d.
Proof.
  unfold PyDict.mem. rewrite get_set. destruct (String.eqb k x); reflexivity.
Qed.

Lemma mem_In_keys k d : PyDict.mem k d = true <-> In k (PyDict.keys d).
Proof.
  unfold PyDict.mem. induction d as [|[k' v'] d IH]; cbn.
  - split; [discriminate | contradiction].
  - destruct (String.eqb_spec k' k) as [->|Hk].
    + split; auto.
    + rewrite IH. split; [auto | intros [?|?]; [congruence | assumption]].
Qed.

Lemma length_set k v d :
  length (PyDict.set k v d) = if PyDict.mem k d then length d else S (length d).
Proof.
  unfold PyDict.mem. induction d as [|[k' v'] d IH]; cbn.
  - reflexivity.
  - destruct (String.eqb k' k); cbn; [reflexivity|].
    rewrite IH. destruct (PyDict.get k d); reflexivity.
Qed.

Lemma keys_set_present k v d :
  PyDict.mem k d = true -> PyDict.keys (PyDict.set k v d) = PyDict.keys d.
Proof.
  unfold PyDict.mem, PyDict.keys. induction d as [|[k' v'] d IH]; cbn.
  - discriminate.
  - destruct (String.eqb_spec k' k) as [->|Hk]; cbn; [reflexivity|].
    intros H. rewrite IH; auto.
Qed.

Lemma mem_merge k (a b : dict V) :
  PyDict.mem k (PyDict.merge a b) = PyDict.mem k a || PyDict.mem k b.
Proof.
  unfold PyDict.merge. revert a.
  induction b as [|[k' v'] b IH]; intros a; cbn.
  - rewrite orb_false_r. reflexivity.
  - rewrite IH, mem_set. unfold PyDict.mem. cbn.
    destruct (String.eqb k' k), (PyDict.get k a), (PyDict.get k b); reflexivity.
Qed.

(** Merging adds one entry for every key of [b] that [a] does not have. *)
Lemma length_merge (a b : dict V) :
  NoDup (PyDict.keys b) ->
  length (PyDict.merge a b)
  = length a + length (filter (fun kv => negb (PyDict.mem (fst kv) a)) b).
Proof.
  unfold PyDict.merge. revert a.
  induction b as [|[k v] b IH]; intros a Hnd; cbn.
  - lia.
  - inversion Hnd as [|? ? Hnotin Hnd']; subst.
    rewrite IH by assumption. rewrite length_set.
    assert (Hf : filter (fun kv => negb (PyDict.mem (fst kv) (PyDict.set k v a))) b
                 = filter (fun kv => negb (PyDict.mem (fst kv) a)) b).
    { apply filter_ext_in. intros [k' v'] Hin. cbn.
      rewrite mem_set. destruct (String.eqb_spec k k') as [->|Hk]; [|reflexivity].
      exfalso. apply Hnotin. change k' with (fst (k', v')). apply in_map, Hin. }
    rewrite Hf. destruct (PyDict.mem k a); cbn; lia.
Qed.

End DictFacts.

Lemma filter_length_all {A} (f : A -> bool) (l : list A) :
  length (filter f l) = length l <-> (forall x, In x l -> f x = true).
Proof.
  induction l as [|a l IH]; cbn.
  - split; [intros _ x [] | reflexivity].
  - pose proof (filter_length_le f l) as Hle.
    destruct (f a) eqn:Ea; cbn.
    + split.
      * intros H x [<-|Hx]; [assumption|]. apply IH; [lia | assumption].
      * intros H. f_equal. apply IH. intros x Hx. apply H. auto.
    + split; [lia|]. intros H. specialize (H a (or_introl eq_refl)). congruence.
Qed.

(** ** The variable dictionaries and the inverse index *)

Lemma mem_eqb_cons x i l :
  PyStr.mem x (i :: l) = String.eqb i x || PyStr.mem x l.
Proof. unfold PyStr.mem. cbn. rewrite (String.eqb_sym x i). reflexivity. Qed.

Lemma get_set_all (k x : string) (l : list string) (idv : dict string) :
  PyDict.get x (fold_left (fun idv i => PyDict.set i k idv) l idv)
  = if PyStr.mem x l then Some k else PyDict.get x idv.
Proof.
  revert idv. induction l as [|i l IH]; intros idv; cbn [fold_left].
  - reflexivity.
  - rewrite IH, get_set, mem_eqb_cons.
    destruct (String.eqb i x), (PyStr.mem x l); reflexivity.
Qed.

Lemma inverse_index_from (vd : dict var_value) (idv0 : dict string) (x : string) :
  PyDict.get x
    (fold_left
       (fun idv kv =>
          match snd kv with
          | VList l => fold_left (fun idv i => PyDict.set i (fst kv) idv) l idv
          | VStr v => PyDict.set v (fst kv) idv
          end)
       vd idv0)
  = match last_category x vd with
    | Some c => Some c
    | None => PyDict.get x idv0
    end.
Proof.
  revert idv0. induction vd as [|[k v] vd IH]; intros idv0; cbn [fold_left].
  - reflexivity.
  - rewrite IH. cbn [last_category fst snd].
    destruct (last_category x vd); [reflexivity|].
    destruct v as [s|l]; cbn [value_mem].
    + rewrite get_set. destruct (String.eqb s x); reflexivity.
    + rewrite get_set_all. destruct (PyStr.mem x l); reflexivity.
Qed.

Lemma inverse_index_last (vd : dict var_value) (x : string) :
  PyDict.get x (inverse_index vd) = last_category x vd.
Proof.
  unfold inverse_index. rewrite inverse_index_from.
  destruct (last_category x vd); reflexivity.
Qed.

Lemma no_shared_key_length (ind dep : dict var_value) :
  NoDup (PyDict.keys dep) ->
  (length (variable_dict_of ind dep) =? length ind + length dep)%nat = true
  <-> (forall k, PyDict.mem k ind = true -> PyDict.mem k dep = true -> False).
Proof.
  intros Hnd. unfold variable_dict_of. rewrite length_merge by assumption.
  rewrite Nat.eqb_eq.
  assert (Hlen : length ind + length (filter (fun kv => negb (PyDict.mem (fst kv) ind)) dep)
                 = length ind + length dep
                 <-> length (filter (fun kv => negb (PyDict.mem (fst kv) ind)) dep)
                     = length dep) by lia.
  rewrite Hlen, filter_length_all. split.
  - intros H k Hi Hd. apply mem_In_keys in Hd. unfold PyDict.keys in Hd.
    apply in_map_iff in Hd. destruct Hd as ([k' v] & Hk & Hin). cbn in Hk. subst k'.
    specialize (H _ Hin). cbn in H. rewrite Hi in H. discriminate.
  - intros H [k v] Hin. cbn. destruct (PyDict.mem k ind) eqn:Hi; [|reflexivity].
    exfalso. apply (H k Hi). apply mem_In_keys.
    change k with (fst (k, v)). apply in_map, Hin.
Qed.

Lemma duplicates_message_lists (ind dep : dict var_value) (k : string) :
  PyDict.mem k ind = true -> PyDict.mem k dep = true ->
  In (PStr k) (duplicates_message (duplicate_variables ind dep)).
Proof.
  intros Hi Hd. unfold duplicates_message. right.
  assert (Hm : PyDict.mem k (variable_dict_of ind dep) = true).
  { unfold variable_dict_of. rewrite mem_merge, Hi. reflexivity. }
  apply mem_In_keys in Hm. unfold PyDict.keys in Hm.
  apply in_map_iff in Hm. destruct Hm as ([k' v] & Hk & Hin). cbn in Hk. subst k'.
  apply in_flat_map. exists (k, v). split.
  - unfold duplicate_variables. apply filter_In. split; [assumption|].
    cbn. rewrite Hi, Hd. reflexivity.
  - cbn. auto.
Qed.

(** C5, as the code has it. In the inverse index a token value that
    several categories declare belongs to the category seen last in the
    merged dictionary, not to the one seen first. A warning is raised
    exactly when a category name is declared in both dictionaries, and
    it lists every such category; token values shared by different
    categories raise no warning. *)
Theorem inverse_index_last_category_wins :
  forall ind dep : dict var_value,
    NoDup (PyDict.keys ind) -> NoDup (PyDict.keys dep) ->
    (forall x,
        PyDict.get x (inverse_index (variable_dict_of ind dep))
        = last_category x (variable_dict_of ind dep))
    /\ (forall w,
           (exists k, PyDict.mem k ind = true /\ PyDict.mem k dep = true) ->
           exists msg,
             warn_duplicates ind dep w = (Val tt, logged Warning msg w)
             /\ forall k, PyDict.mem k ind = true -> PyDict.mem k dep = true ->
                          In (PStr k) msg)
    /\ (forall w,
           (forall k, PyDict.mem k ind = true -> PyDict.mem k dep = true -> False) ->
           warn_duplicates ind dep w = (Val tt, w)).
Proof.
  intros ind dep _ Hdep. split; [|split].
  - intros x. apply inverse_index_last.
  - intros w (k & Hi & Hd).
    exists (duplicates_message (duplicate_variables ind dep)). split.
    + unfold warn_duplicates.
      destruct (length (variable_dict_of ind dep) =? length ind + length dep)%nat eqn:El.
      * exfalso. exact (proj1 (no_shared_key_length ind dep Hdep) El k Hi Hd).
      * reflexivity.
    + intros k' Hi' Hd'. apply duplicates_message_lists; assumption.
  - intros w Hnone. unfold warn_duplicates.
    rewrite (proj2 (no_shared_key_length ind dep Hdep) Hnone). reflexivity.
Qed.

(** ** Lists and indices *)

Lemma length_list_update {A} (l : list A) n x :
  length (list_update l n x) = length l.
Proof.
  revert n. induction l as [|y l IH]; intros [|n]; cbn; auto.
Qed.

Lemma nth_error_list_update {A} (l : list A) n x j :
  nth_error (list_update l n x) j
  = if (n =? j)%nat then (if (n <? length l)%nat then Some x else None)
    else nth_error l j.
Proof.
  revert n j. induction l as [|y l IH]; intros [|n] [|j]; cbn; try reflexivity.
  - destruct (n =? j)%nat; reflexivity.
  - rewrite IH. reflexivity.
Qed.

Lemma py_index_lt {A} (l : list A) i n : py_index l i = Some n -> n < length l.
Proof.
  unfold py_index.
  destruct ((0 <=? i)%Z && (i <? Z.of_nat (length l))%Z) eqn:E1.
  - intros H. inversion H; subst. apply andb_prop in E1. lia.
  - destruct ((i <? 0)%Z && (0 <=? i + Z.of_nat (length l))%Z) eqn:E2; [|discriminate].
    intros H. inversion H; subst. apply andb_prop in E2. lia.
Qed.

Lemma py_index_nat {A} (l : list A) j n : py_index l (Z.of_nat j) = Some n -> n = j.
Proof.
  unfold py_index.
  destruct ((0 <=? Z.of_nat j)%Z && (Z.of_nat j <? Z.of_nat (length l))%Z) eqn:E1.
  - intros H. inversion H. lia.
  - destruct ((Z.of_nat j <? 0)%Z && (0 <=? Z.of_nat j + Z.of_nat (length l))%Z) eqn:E2;
      [|discriminate].
    apply andb_prop in E2. lia.
Qed.

Lemma py_index_neg {A} (l : list A) i n :
  (i < 0)%Z -> py_index l i = Some n ->
  Z.of_nat n = (Z.of_nat (length l) + i)%Z.
Proof.
  intros Hi. unfold py_index.
  destruct ((0 <=? i)%Z && (i <? Z.of_nat (length l))%Z) eqn:E1.
  - apply andb_prop in E1. lia.
  - destruct ((i <? 0)%Z && (0 <=? i + Z.of_nat (length l))%Z) eqn:E2; [|discriminate].
    apply andb_prop in E2. intros H. inversion H. lia.
Qed.

Lemma setidx_Val {A} (l : list A) i x w l' w' :
  setidx l i x w = (Val l', w') ->
  w' = w /\ exists n, py_index l i = Some n /\ l' = list_update l n x.
Proof.
  unfold setidx. destruct (py_index l i) as [n|]; cbn; intros H; inversion H; subst.
  split; [reflexivity|]. exists n. auto.
Qed.

Lemma getidx_Val {A} (l : list A) i a w w' :
  getidx l i w = (Val a, w') ->
  w' = w /\ exists n, py_index l i = Some n /\ nth_error l n = Some a.
Proof.
  unfold getidx. destruct (py_index l i) as [n|]; [|discriminate].
  intros H. apply or_raise_Val_inv in H. destruct H as [H ->].
  split; [reflexivity|]. exists n. auto.
Qed.

Lemma getitem_Val {V} k (d : dict V) v w w' :
  getitem k d w = (Val v, w') -> PyDict.get k d = Some v /\ w' = w.
Proof. apply or_raise_Val_inv. Qed.

(** An invariant of the state of a loop holds when the loop ends. *)
Lemma for_each_invariant {A S} (P : S -> Prop) (l : list A) (body : A -> S -> M S) :
  (forall x s w s' w', P s -> body x s w = (Val s', w') -> P s') ->
  forall s w s' w', P s -> for_each l body s w = (Val s', w') -> P s'.
Proof.
  intros Hb. induction l as [|x l IH]; intros s w s' w' Hs H; cbn in H.
  - inversion H; subst. assumption.
  - bind_inv H. eapply IH; [|eassumption]. eapply Hb; eassumption.
Qed.

Lemma py_index_spec {A} (l : list A) i n :
  py_index l i = Some n ->
  n < length l
  /\ Z.of_nat n = (if (i <? 0)%Z then Z.of_nat (length l) + i else i)%Z.
Proof.
  intros H. split; [eapply py_index_lt; eassumption|].
  destruct (i <? 0)%Z eqn:Ei.
  - apply py_index_neg; [lia | assumption].
  - unfold py_index in H.
    destruct ((0 <=? i)%Z && (i <? Z.of_nat (length l))%Z) eqn:E1.
    + inversion H. apply andb_prop in E1. lia.
    + destruct ((i <? 0)%Z && (0 <=? i + Z.of_nat (length l))%Z) eqn:E2;
        [|discriminate].
      apply andb_prop in E2. lia.
Qed.

(** What [l[i] = x] does to the list. *)
Lemma setidx_spec {A} (l : list A) i x w l' w' :
  setidx l i x w = (Val l', w') ->
  w' = w /\ length l' = length l /\
  exists n,
    n < length l
    /\ Z.of_nat n = (if (i <? 0)%Z then Z.of_nat (length l) + i else i)%Z
    /\ nth_error l' n = Some x
    /\ forall j, j <> n -> nth_error l' j = nth_error l j.
Proof.
  intros H. apply setidx_Val in H. destruct H as (-> & n & Hn & ->).
  destruct (py_index_spec _ _ _ Hn) as [Hlt Hz].
  split; [reflexivity|]. split; [apply length_list_update|].
  exists n. split; [assumption|]. split; [assumption|]. split.
  - rewrite nth_error_list_update, Nat.eqb_refl.
    destruct (Nat.ltb_spec n (length l)); [reflexivity | lia].
  - intros j Hj. rewrite nth_error_list_update.
    destruct (Nat.eqb_spec n j); [congruence | reflexivity].
Qed.

(** ** The rows of the dataset *)

Section RowFacts.

Context {regex : Type}.
Variable U : dc_utils regex.
Variable E : @env regex.

Lemma set_category_Val value l w l' w' :
  set_category E value l w = (Val l', w') ->
  w' = w /\ exists c,
    column_of E value = Some c /\ c < length l /\ l' = list_update l c value.
Proof.
  unfold set_category, column_of. intros H.
  bind_inv H. apply getitem_Val in Hm. destruct Hm as [Hg ->].
  bind_inv H. apply or_raise_Val_inv in Hm. destruct Hm as [Hi ->].
  apply setidx_Val in H. destruct H as (-> & n & Hn & ->).
  pose proof (py_index_nat _ _ _ Hn) as ->.
  split; [reflexivity|]. exists a0. rewrite Hg.
  split; [assumption|]. split; [eapply py_index_lt; eassumption | reflexivity].
Qed.

Lemma nth_error_set_category c value (l : list string) j :
  c < length l ->
  nth_error (list_update l c value) j
  = if (c =? j)%nat then Some value else nth_error l j.
Proof.
  intros Hc. rewrite nth_error_list_update.
  destruct (Nat.ltb_spec c (length l)); [reflexivity | lia].
Qed.

(** Lines 334-338: after the speaker-level values, a column holds the
    last value written to it. *)
Lemma set_categories_spec (vars : list string) :
  forall l w l' w',
    for_each vars (set_category E) l w = (Val l', w') ->
    w' = w /\ length l' = length l /\
    forall j, nth_error l' j
              = match last_in_column E j vars with
                | Some v => Some v
                | None => nth_error l j
                end.
Proof.
  induction vars as [|v vars IH]; intros l w l' w' H; cbn in H.
  - inversion H; subst. auto.
  - bind_inv H. apply set_category_Val in Hm.
    destruct Hm as (-> & c & Hc & Hlt & ->).
    apply IH in H. destruct H as (-> & Hlen & Hnth).
    split; [reflexivity|]. split; [rewrite Hlen; apply length_list_update|].
    intros j. rewrite Hnth. cbn [last_in_column].
    destruct (last_in_column E j vars); [reflexivity|].
    rewrite nth_error_set_category by assumption.
    unfold writes_column. rewrite Hc. destruct (c =? j)%nat; reflexivity.
Qed.

Lemma column_of_unknown f : PyDict.mem f (e_idv E) = false -> column_of E f = None.
Proof.
  unfold PyDict.mem, column_of. destruct (PyDict.get f (e_idv E)); [discriminate | reflexivity].
Qed.

(** Lines 349-358: after the components of the tag, every column but
    the last holds the last component written to it. *)
Lemma set_features_spec (comps : list string) :
  forall l unk w l' unk' w',
    for_each comps (set_feature E) (l, unk) w = (Val (l', unk'), w') ->
    w' = w /\ length l' = length l /\
    forall j, S j < length l ->
              nth_error l' j
              = match last_in_column E j comps with
                | Some v => Some v
                | None => nth_error l j
                end.
Proof.
  induction comps as [|f comps IH]; intros l unk w l' unk' w' H; cbn in H.
  - inversion H; subst. auto.
  - bind_inv H. destruct a as [l1 unk1]. unfold set_feature in Hm.
    destruct (PyDict.mem f (e_idv E)) eqn:Ef; cbn in Hm.
    + bind_inv Hm. apply set_category_Val in Hm0.
      destruct Hm0 as (-> & c & Hc & Hlt & ->). inversion Hm; subst.
      apply IH in H. destruct H as (-> & Hlen & Hnth).
      split; [reflexivity|]. split; [rewrite Hlen; apply length_list_update|].
      intros j Hj. rewrite Hnth by (rewrite length_list_update; assumption).
      cbn [last_in_column].
      destruct (last_in_column E j comps); [reflexivity|].
      rewrite nth_error_set_category by assumption.
      unfold writes_column. rewrite Hc. destruct (c =? j)%nat; reflexivity.
    + bind_inv Hm. apply getidx_Val in Hm0. destruct Hm0 as (-> & _).
      bind_inv Hm. apply setidx_spec in Hm0.
      destruct Hm0 as (-> & Hlen1 & n & Hn & Hz & _ & Hother).
      inversion Hm; subst.
      apply IH in H. destruct H as (-> & Hlen & Hnth).
      split; [reflexivity|]. split; [congruence|].
      intros j Hj. rewrite Hnth by (rewrite Hlen1; assumption).
      cbn [last_in_column].
      destruct (last_in_column E j comps); [reflexivity|].
      unfold writes_column. rewrite (column_of_unknown f Ef).
      apply Hother. cbn in Hz. lia.
Qed.

End RowFacts.

Section BuildRow.

Context {regex : Type}.
Variable U : dc_utils regex.
Variable E : @env regex.

(** Lines 330-375: the cells of a row when it is appended to the table. *)
Lemma build_row_spec file_path file_speakers c cur_speaker sp index t unk
      w csv_line unk' w' :
  build_row U E file_path file_speakers c cur_speaker sp index t unk w
  = (Val (csv_line, unk'), w') ->
  length csv_line = length (e_csv_header E)
  /\ (forall j,
         0 < j -> j + trailing_columns E < length (e_csv_header E) ->
         nth_error csv_line j
         = Some match last_in_column E j (tag_components t) with
                | Some f => f
                | None =>
                    match last_in_column E j (speaker_values E cur_speaker) with
                    | Some v => v
                    | None => ""
                    end
                end)
  /\ (e_previous_line E = true ->
      6 <= length (e_csv_header E)
      /\ nth_error csv_line (length (e_csv_header E) - 6) = Some sp).
Proof.
  unfold build_row. intros H.
  bind_inv H. apply set_categories_spec in Hm. destruct Hm as (-> & Hlen0 & Hnth0).
  rewrite repeat_length in Hlen0.
  bind_inv H. apply getidx_Val in Hm. destruct Hm as (-> & _).
  bind_inv H. apply getidx_Val in Hm. destruct Hm as (-> & n0 & Hn0 & Hfeats).
  apply (py_index_nat _ 0) in Hn0. subst n0.
  assert (Hcomps : PyStr.split "." a1 = tag_components t).
  { unfold tag_components. f_equal. symmetry. apply nth_error_nth, Hfeats. }
  rewrite Hcomps in H. clear Hcomps Hfeats.
  logger_inv H.
  bind_inv H. destruct a2 as [l2 unk2].
  apply set_features_spec in Hm. destruct Hm as (-> & Hlen2 & Hnth2).
  bind_inv H. apply or_raise_Val_inv in Hm. destruct Hm as (_ & ->).
  bind_inv H. apply setidx_spec in Hm. destruct Hm as (-> & Hl3 & n3 & _ & Hz3 & _ & Ho3).
  bind_inv H. apply setidx_spec in Hm. destruct Hm as (-> & Hl4 & n4 & _ & Hz4 & _ & Ho4).
  bind_inv H. apply setidx_spec in Hm. destruct Hm as (-> & Hl5 & n5 & _ & Hz5 & _ & Ho5).
  bind_inv H. apply setidx_spec in Hm. destruct Hm as (-> & Hl6 & n6 & _ & Hz6 & _ & Ho6).
  bind_inv H. apply setidx_spec in Hm. destruct Hm as (-> & Hl7 & n7 & _ & Hz7 & _ & Ho7).
  bind_inv H.
  bind_inv H. apply getidx_Val in Hm0. destruct Hm0 as (-> & _).
  apply bind_Val_inv in H. destruct H as (l9 & w9 & Hm9 & H).
  apply setidx_spec in Hm9. destruct Hm9 as (-> & Hl9 & n9 & _ & Hz9 & _ & Ho9).
  inversion H; subst csv_line unk' w'. clear H.
  cbn in Hz3, Hz4, Hz5, Hz6, Hz7, Hz9.
  assert (Hl8 : length a8 = length a7 /\
                (forall j, j + trailing_columns E < length a7 ->
                           nth_error a8 j = nth_error a7 j) /\
                (e_previous_line E = true ->
                 6 <= length a7 /\ nth_error a8 (length a7 - 6) = Some sp)).
  { unfold trailing_columns. destruct (e_previous_line E).
    - apply setidx_spec in Hm. destruct Hm as (_ & Hl8 & n8 & Hlt8 & Hz8 & Hs8 & Ho8).
      cbn in Hz8. split; [assumption|]. split.
      + intros j Hj. apply Ho8. lia.
      + intros _. split; [lia|]. replace (length a7 - 6) with n8 by lia. assumption.
    - inversion Hm; subst. split; [reflexivity|]. split; [reflexivity | discriminate]. }
  destruct Hl8 as (Hl8 & Ho8 & Hs8).
  assert (Hall : length a7 = length (e_csv_header E)) by congruence.
  split; [congruence|]. split.
  - intros j Hpos Hj.
    assert (Htr : 5 <= trailing_columns E)
      by (unfold trailing_columns; destruct (e_previous_line E); lia).
    rewrite Ho9 by lia. rewrite Ho8 by lia.
    rewrite Ho7 by lia. rewrite Ho6 by lia. rewrite Ho5 by lia.
    rewrite Ho4 by lia. rewrite Ho3 by lia.
    rewrite Hnth2 by lia. rewrite Hnth0.
    fold (speaker_values E cur_speaker).
    destruct (last_in_column E j (tag_components t)); [reflexivity|].
    destruct (last_in_column E j (speaker_values E cur_speaker)); [reflexivity|].
    apply nth_error_repeat. lia.
  - intros Hp. destruct (Hs8 Hp) as [H6 Hsp]. split; [lia|].
    rewrite Ho9 by lia. rewrite <- Hall. assumption.
Qed.

End BuildRow.

Lemma nth_error_last {A} (l : list A) (x d : A) :
  nth_error l (length l - 1) = Some x -> last l d = x.
Proof.
  induction l as [|a l IH]; cbn.
  - discriminate.
  - destruct l as [|b l].
    + cbn. congruence.
    + cbn [length] in *. replace (S (length l) - 0) with (S (length l)) by lia.
      replace (S (length l) - 1) with (length l) in IH by lia.
      cbn [nth_error]. intros H. apply IH. exact H.
Qed.

(** The column of the header six places from its end is the one
    labelled "previous line" when the option is on. *)
Lemma previous_line_column (ind dep : dict var_value) :
  nth_error (csv_header_of true ind dep)
            (length (csv_header_of true ind dep) - 6)
  = Some "previous line".
Proof.
  unfold csv_header_of.
  set (cats := PyStr.sorted (PyDict.keys dep) ++ PyStr.sorted (PyDict.keys ind)).
  rewrite !length_app. cbn [length].
  replace (1 + (length cats + 6) - 6) with (S (length cats)) by lia.
  cbn [app nth_error]. rewrite nth_error_app2 by lia.
  replace (length cats - length cats) with 0 by lia. reflexivity.
Qed.

Section MainLoopFacts.

Context {regex : Type}.
Variable finditer : regex -> string -> list rmatch.
Variable U : dc_utils regex.
Variable stop_flag : nat -> bool.
Variable E : @env regex.

(** A match that is not skipped appends the row that [build_row] makes
    of it; with the logger as it is, a skipped match ends the run. *)
Lemma process_tag_Val ac file_path file_speakers c cur_speaker sp wrong_tags m
      acc w acc' w' :
  process_tag U E ac file_path file_speakers c cur_speaker sp wrong_tags m acc w
  = (Val acc', w') ->
  exists csv_line unk',
    build_row U E file_path file_speakers c cur_speaker sp
              (m_start m) (m_group1 m) (snd acc) w
    = (Val (csv_line, unk'), w')
    /\ acc' = (fst acc ++ [csv_line], unk').
Proof.
  unfold process_tag.
  destruct (negb (PyStr.mem (PyStr.last_component "." (m_group1 m)) (PyDict.keys ac))).
  - cbn. discriminate.
  - destruct (existsb _ wrong_tags).
    + cbn. discriminate.
    + intros H. bind_inv H. destruct a as [csv_line unk'].
      inversion H; subst. exists csv_line, unk'. auto.
Qed.

(** The rows that the matches of one paragraph append. *)
Lemma process_tags_Val ac file_path file_speakers c cur_speaker sp wrong_tags tags :
  forall acc w acc' w',
    for_each tags
      (process_tag U E ac file_path file_speakers c cur_speaker sp wrong_tags)
      acc w = (Val acc', w') ->
    exists rows,
      fst acc' = fst acc ++ rows
      /\ forall row, In row rows ->
           exists index t unk w0 unk' w1,
             build_row U E file_path file_speakers c cur_speaker sp index t unk w0
             = (Val (row, unk'), w1).
Proof.
  induction tags as [|m tags IH]; intros acc w acc' w' H; cbn in H.
  - inversion H; subst. exists []. rewrite app_nil_r. split; [reflexivity|].
    intros row [].
  - bind_inv H. apply process_tag_Val in Hm.
    destruct Hm as (csv_line & unk' & Hrow & ->).
    apply IH in H. destruct H as (rows & Hrows & Hall). cbn [fst] in Hrows.
    exists (csv_line :: rows). split.
    + rewrite Hrows, <- app_assoc. reflexivity.
    + intros row [<-|Hin]; [|apply Hall, Hin].
      exists (m_start m), (m_group1 m), (snd acc), w, unk', w0. exact Hrow.
Qed.

End MainLoopFacts.

(** C10. With the include-previous-line option on, every row built from
    the first paragraph of a file (index 0) holds, in its column
    "previous line" (the sixth from the end of the header), the last
    paragraph of that file: the lookup [corpus[idx - 1]] is
    [corpus[-1]]. *)
Theorem first_paragraph_previous_line_is_last :
  forall (regex : Type) (finditer : regex -> string -> list rmatch)
         (U : dc_utils regex) (stop_flag : nat -> bool) (E : @env regex)
         (ind dep : dict var_value) (ac : ann_counter)
         (file_path : string) (file_speakers corpus : list string)
         (acc acc' : table_state) (w w' : world),
    e_previous_line E = true ->
    e_csv_header E = csv_header_of (e_previous_line E) ind dep ->
    process_paragraph finditer U stop_flag E ac file_path file_speakers corpus 0 acc w
    = (Val acc', w') ->
    nth_error (e_csv_header E) (length (e_csv_header E) - 6) = Some "previous line"
    /\ exists rows,
        fst acc' = fst acc ++ rows
        /\ forall row, In row rows ->
             nth_error row (length (e_csv_header E) - 6) = Some (last corpus "").
Proof.
  intros regex finditer U stop_flag E ind dep ac file_path file_speakers corpus
         acc acc' w w' Hprev Hheader H.
  split.
  { rewrite Hheader, Hprev. apply previous_line_column. }
  unfold process_paragraph in H.
  bind_inv H. bind_inv H. apply getidx_Val in Hm0. destruct Hm0 as (-> & _).
  destruct (PyStr.mem (get_name U a0 (e_name_regex E)) (e_speakers_of_interest E)).
  - bind_inv H. apply getidx_Val in Hm0. destruct Hm0 as (-> & n & Hn & Hsp).
    apply py_index_neg in Hn; [|cbn; lia].
    assert (Hlast : last corpus "" = a1).
    { apply nth_error_last. replace (length corpus - 1) with n by (cbn in Hn; lia).
      exact Hsp. }
    logger_inv H.
    destruct (fst (remove_features U a0 (e_square_regex E))) as [clean_p wrong_tags].
    apply process_tags_Val in H. destruct H as (rows & Hrows & Hall).
    exists rows. split; [assumption|].
    intros row Hin. destruct (Hall row Hin) as (index & t & unk & w1 & unk' & w2 & Hrow).
    apply build_row_spec in Hrow. destruct Hrow as (_ & _ & Hp).
    rewrite Hlast. apply Hp, Hprev.
  - inversion H; subst. exists []. rewrite app_nil_r. split; [reflexivity|].
    intros row [].
Qed.

(** C6, as the code has it. In every row a category column (any column
    but the first and the fixed ones at the end) holds the last
    component of the tag whose category is labelled on that column; only
    when no component of the tag resolves to the column does it hold the
    last of the values assigned to the row's speaker that resolves to
    it, and the empty string when there is none. A tag component
    therefore replaces a speaker-level value of the same category. *)
Theorem tag_component_replaces_speaker_value :
  forall (regex : Type) (U : dc_utils regex) (E : @env regex)
         (file_path : string) (file_speakers : list string)
         (c cur_speaker sp : string) (index : nat) (t : string)
         (unk : list string) (w : world)
         (csv_line unk' : list string) (w' : world),
    build_row U E file_path file_speakers c cur_speaker sp index t unk w
    = (Val (csv_line, unk'), w') ->
    forall j,
      0 < j -> j + trailing_columns E < length (e_csv_header E) ->
      nth_error csv_line j
      = Some match last_in_column E j (tag_components t) with
             | Some f => f
             | None =>
                 match last_in_column E j (speaker_values E cur_speaker) with
                 | Some v => v
                 | None => ""
                 end
             end.
Proof.
  intros regex U E file_path file_speakers c cur_speaker sp index t unk w
         csv_line unk' w' H.
  apply build_row_spec in H. destruct H as (_ & Hcols & _). exact Hcols.
Qed.

(** ** The one-hot table *)

Lemma list_index_not_In x l : ~ In x l -> list_index x l = None.
Proof.
  induction l as [|y l IH]; cbn; intros H.
  - reflexivity.
  - destruct (String.eqb_spec y x) as [->|Hy].
    + exfalso. apply H. auto.
    + rewrite IH; [reflexivity|]. intros Hin. apply H. auto.
Qed.

Lemma list_index_In x l : In x l -> exists i, list_index x l = Some i.
Proof.
  induction l as [|y l IH]; cbn; intros H.
  - contradiction.
  - destruct (String.eqb_spec y x) as [->|Hy].
    + exists 0. reflexivity.
    + destruct H as [?|H]; [congruence|].
      destruct (IH H) as [i ->]. exists (S i). reflexivity.
Qed.

Lemma list_index_Some x l i :
  list_index x l = Some i -> i < length l /\ In x l.
Proof.
  revert i. induction l as [|y l IH]; cbn; intros i H.
  - discriminate.
  - destruct (String.eqb_spec y x) as [->|Hy].
    + inversion H; subst. split; [lia | auto].
    + destruct (list_index x l) as [i'|]; [|discriminate].
      inversion H; subst. destruct (IH i' eq_refl). split; [lia | auto].
Qed.

Lemma list_index_app_l x l l' i :
  list_index x l = Some i -> list_index x (l ++ l') = Some i.
Proof.
  revert i. induction l as [|y l IH]; cbn; intros i H.
  - discriminate.
  - destruct (String.eqb y x); [assumption|].
    destruct (list_index x l) as [i'|]; [|discriminate].
    rewrite (IH i' eq_refl). assumption.
Qed.

Lemma list_index_app_r x l l' :
  ~ In x l -> list_index x (l ++ l') = option_map (Nat.add (length l)) (list_index x l').
Proof.
  induction l as [|y l IH]; cbn; intros H.
  - destruct (list_index x l'); reflexivity.
  - destruct (String.eqb_spec y x) as [->|Hy].
    + exfalso. apply H. auto.
    + rewrite IH by (intros Hin; apply H; auto).
      destruct (list_index x l'); reflexivity.
Qed.

Lemma mem_In x l : PyStr.mem x l = true <-> In x l.
Proof.
  unfold PyStr.mem. rewrite existsb_exists. split.
  - intros (y & Hin & Hy). apply String.eqb_eq in Hy. subst. assumption.
  - intros H. exists x. split; [assumption | apply String.eqb_refl].
Qed.

Lemma contains_app_r sub s1 s2 :
  PyStr.contains sub s2 = true -> PyStr.contains sub (s1 ++ s2) = true.
Proof.
  intros H. induction s1 as [|a s1 IH]; cbn.
  - assumption.
  - fold (PyStr.contains sub (s1 ++ s2)). rewrite IH. apply orb_true_r.
Qed.

(** The label of an indicator column has a colon in it. *)
Lemma get_dummies_labels df l :
  In l (columns (Pandas.get_dummies df)) -> PyStr.contains ":" l = true.
Proof.
  unfold Pandas.get_dummies. cbn [columns]. intros H.
  apply in_map_iff in H. destruct H as ([l' col] & <- & H). cbn [fst].
  apply in_concat in H. destruct H as (enc & Henc & H).
  apply in_map_iff in Henc. destruct Henc as (i & <- & _).
  unfold Pandas.dummies_1d in H. apply in_map_iff in H.
  destruct H as (v & Hv & _). inversion Hv; subst.
  apply contains_app_r. destruct v; reflexivity.
Qed.

Lemma length_transpose_into n cols : length (Pandas.transpose_into n cols) = n.
Proof.
  revert cols. induction n as [|n IH]; intros cols; cbn; [reflexivity|].
  rewrite IH. reflexivity.
Qed.

Lemma rows_transpose_into n cols :
  Forall (fun r => length r = length cols) (Pandas.transpose_into n cols).
Proof.
  revert cols. induction n as [|n IH]; intros cols; cbn; constructor.
  - apply length_map.
  - specialize (IH (map (@tl cell) cols)). rewrite length_map in IH. exact IH.
Qed.

Lemma get_dummies_rectangular df : rectangular (Pandas.get_dummies df).
Proof.
  unfold rectangular, Pandas.get_dummies. cbn [columns data].
  rewrite length_map.
  match goal with |- Forall _ (Pandas.transpose_into _ (map snd ?e)) =>
    pose proof (rows_transpose_into (length (data df)) (map snd e)) as H
  end.
  rewrite length_map in H. exact H.
Qed.

Lemma get_dummies_rows df :
  length (data (Pandas.get_dummies df)) = length (data df).
Proof. apply length_transpose_into. Qed.

Lemma values_length label df vals :
  Pandas.values label df = Some vals -> length vals = length (data df).
Proof.
  unfold Pandas.values. destruct (list_index label (columns df)); [|discriminate].
  intros H. inversion H. apply length_map.
Qed.

Lemma map_fst_combine {A B} (l : list A) (l' : list B) :
  length l = length l' -> map fst (combine l l') = l.
Proof.
  revert l'. induction l as [|a l IH]; intros [|b l'] H; cbn in *;
    try reflexivity; try discriminate.
  f_equal. apply IH. lia.
Qed.

Lemma map_snd_combine {A B} (l : list A) (l' : list B) :
  length l = length l' -> map snd (combine l l') = l'.
Proof.
  revert l'. induction l as [|a l IH]; intros [|b l'] H; cbn in *;
    try reflexivity; try discriminate.
  f_equal. apply IH. lia.
Qed.

(** Assigning a column under a new label appends it and leaves the
    other columns as they are. *)
Lemma assign_new label vals df :
  ~ In label (columns df) -> rectangular df -> length vals = length (data df) ->
  columns (Pandas.assign label vals df) = columns df ++ [label]
  /\ rectangular (Pandas.assign label vals df)
  /\ length (data (Pandas.assign label vals df)) = length (data df)
  /\ Pandas.values label (Pandas.assign label vals df) = Some vals
  /\ forall label', label' <> label ->
       Pandas.values label' (Pandas.assign label vals df) = Pandas.values label' df.
Proof.
  intros Hnew Hrect Hlen. unfold Pandas.assign.
  rewrite (list_index_not_In _ _ Hnew). cbn [columns data].
  unfold rectangular in *. cbn [columns data].
  assert (Hrows : Forall (fun rv => length (fst rv) = length (columns df))
                         (combine (data df) vals)).
  { apply Forall_forall. intros [r v] Hin. cbn.
    apply in_combine_l in Hin. rewrite Forall_forall in Hrect. apply Hrect, Hin. }
  split; [reflexivity|]. split; [|split; [|split]].
  - apply Forall_map. eapply Forall_impl; [|exact Hrows].
    intros [r v] Hr. cbn in *. rewrite !length_app. cbn. lia.
  - rewrite length_map, length_combine. lia.
  - unfold Pandas.values. cbn [columns data].
    rewrite list_index_app_r by assumption. cbn. rewrite String.eqb_refl. cbn.
    f_equal. rewrite map_map.
    rewrite <- (map_snd_combine (data df) vals) at 2 by congruence.
    apply map_ext_in. intros [r v] Hin. cbn.
    rewrite Forall_forall in Hrows. specialize (Hrows _ Hin). cbn in Hrows.
    rewrite Nat.add_0_r, app_nth2 by lia.
    replace (length (columns df) - length r) with 0 by lia. reflexivity.
  - intros label' Hne. unfold Pandas.values. cbn [columns data].
    destruct (list_index label' (columns df)) as [i|] eqn:Ei.
    + rewrite (list_index_app_l _ _ _ _ Ei).
      f_equal. rewrite map_map.
      rewrite <- (map_fst_combine (data df) vals) at 2 by congruence.
      rewrite map_map. apply map_ext_in. intros [r v] Hin. cbn.
      rewrite Forall_forall in Hrows. specialize (Hrows _ Hin). cbn in Hrows.
      apply list_index_Some in Ei. apply app_nth1. lia.
    + assert (Hnot : ~ In label' (columns df)).
      { intros Hin. apply list_index_In in Hin. destruct Hin as [i Hi]. congruence. }
      rewrite list_index_app_r by assumption. cbn.
      destruct (String.eqb_spec label label'); [congruence | reflexivity].
Qed.

Lemma make_Val rows cols w df w' :
  Pandas.make rows cols w = (Val df, w') ->
  w' = w
  /\ df = {| columns := cols; data := map (Pandas.pad (Pandas.max_width rows)) rows |}.
Proof.
  unfold Pandas.make. destruct rows as [|r rows].
  - intros H. inversion H; subst. auto.
  - destruct (Pandas.max_width (r :: rows) =? length cols)%nat; [|discriminate].
    intros H. inversion H; subst. auto.
Qed.

Lemma drop_Val labels df w df' w' :
  Pandas.drop labels df w = (Val df', w') ->
  w' = w
  /\ (forall l, In l labels -> In l (columns df))
  /\ length (data df') = length (data df).
Proof.
  unfold Pandas.drop.
  destruct (find (fun l => negb (PyStr.mem l (columns df))) labels) eqn:Ef;
    [discriminate|].
  intros H. inversion H; subst. cbn [data].
  split; [reflexivity|]. split; [|apply length_map].
  intros l Hl. apply mem_In.
  pose proof (find_none _ _ Ef l Hl) as Hn. cbn in Hn.
  destruct (PyStr.mem l (columns df)); [reflexivity | discriminate].
Qed.

Lemma not_indicator_label df l :
  PyStr.contains ":" l = false -> ~ In l (columns (Pandas.get_dummies df)).
Proof.
  intros Hl Hin. apply get_dummies_labels in Hin. congruence.
Qed.

Lemma seq_nth_map {A} (l : list A) (d : A) :
  map (fun i => nth i l d) (seq 0 (length l)) = l.
Proof.
  induction l as [|a l IH]; cbn; [reflexivity|].
  f_equal. rewrite <- seq_shift, map_map. exact IH.
Qed.

Lemma labelled_columns_cons c cols rows :
  labelled_columns {| columns := c :: cols; data := rows |}
  = (c, map (hd CNone) rows)
    :: labelled_columns {| columns := cols; data := map (@tl cell) rows |}.
Proof.
  unfold labelled_columns. cbn [columns data length seq map nth].
  f_equal.
  - f_equal. apply map_ext. intros [|x r]; reflexivity.
  - rewrite <- seq_shift, map_map. apply map_ext. intros i. cbn [nth].
    f_equal. rewrite map_map. apply map_ext. intros [|x r]; [destruct i|]; reflexivity.
Qed.

Lemma labelled_columns_nil rows :
  labelled_columns {| columns := []; data := rows |} = [].
Proof. reflexivity. Qed.

Lemma labelled_columns_labels df : map fst (labelled_columns df) = columns df.
Proof.
  unfold labelled_columns. rewrite map_map. cbn [fst]. apply seq_nth_map.
Qed.

Lemma length_labelled_columns df : length (labelled_columns df) = length (columns df).
Proof. unfold labelled_columns. rewrite length_map, length_seq. reflexivity. Qed.

Lemma nth_map_default {A B} (f : A -> B) (l : list A) (d : A) (d' : B) i :
  i < length l -> nth i (map f l) d' = f (nth i l d).
Proof.
  revert i. induction l as [|a l IH]; intros [|i] Hi; cbn in *; try lia.
  - reflexivity.
  - apply IH. lia.
Qed.

Lemma labelled_columns_nth df i :
  i < length (columns df) ->
  nth i (labelled_columns df) ("", [])
  = (nth i (columns df) "", map (fun r => nth i r CNone) (data df)).
Proof.
  intros Hi. unfold labelled_columns.
  rewrite (nth_map_default _ _ 0) by (rewrite length_seq; assumption).
  rewrite seq_nth by assumption. reflexivity.
Qed.

(** Dropping labels keeps the other columns as they are. *)
Lemma keep_by_columns labels cols :
  forall rows,
    labelled_columns
      {| columns := Pandas.keep_by (map (fun c => negb (PyStr.mem c labels)) cols) cols;
         data := map (Pandas.keep_by (map (fun c => negb (PyStr.mem c labels)) cols)) rows |}
    = filter (fun lc => negb (PyStr.mem (fst lc) labels))
             (labelled_columns {| columns := cols; data := rows |}).
Proof.
  induction cols as [|c cols IH]; intros rows.
  - reflexivity.
  - rewrite labelled_columns_cons. cbn [map filter fst Pandas.keep_by].
    destruct (negb (PyStr.mem c labels)) eqn:Ec.
    + rewrite labelled_columns_cons. f_equal.
      * f_equal. rewrite map_map. apply map_ext. intros [|x r]; reflexivity.
      * rewrite <- IH. f_equal. f_equal. rewrite !map_map. apply map_ext.
        intros [|x r]; cbn; [destruct (map _ cols)|]; reflexivity.
    + rewrite <- IH. f_equal. f_equal. rewrite !map_map. apply map_ext.
      intros [|x r]; cbn; [destruct (map _ cols)|]; reflexivity.
Qed.

Lemma drop_columns labels df w df' w' :
  Pandas.drop labels df w = (Val df', w') ->
  w' = w
  /\ labelled_columns df'
     = filter (fun lc => negb (PyStr.mem (fst lc) labels)) (labelled_columns df)
  /\ length (data df') = length (data df)
  /\ forall l, In l labels -> In l (columns df).
Proof.
  intros H. pose proof (drop_Val _ _ _ _ _ H) as (-> & Hin & Hlen).
  split; [reflexivity|]. split; [|split; assumption].
  unfold Pandas.drop in H.
  destruct (find (fun l => negb (PyStr.mem l (columns df))) labels); [discriminate|].
  inversion H; subst df'. destruct df as [cols rows]. apply keep_by_columns.
Qed.

(** The positions of a label, read on the columns. *)
Lemma positions_cons label c cols :
  Pandas.positions label (c :: cols)
  = (if String.eqb c label then [0] else []) ++ map S (Pandas.positions label cols).
Proof.
  unfold Pandas.positions. cbn [length seq filter nth].
  destruct (String.eqb c label); cbn [app]; [f_equal|];
    rewrite <- seq_shift;
    (induction (seq 0 (length cols)) as [|i l IH]; cbn [map filter nth];
     [reflexivity | destruct (String.eqb (nth i cols "") label); cbn [map]; rewrite IH; reflexivity]).
Qed.

Lemma positions_lt label cols i :
  In i (Pandas.positions label cols) -> i < length cols.
Proof.
  unfold Pandas.positions. intros H. apply filter_In in H. destruct H as [H _].
  apply in_seq in H. lia.
Qed.

Lemma positions_first label cols :
  list_index label cols = hd_error (Pandas.positions label cols).
Proof.
  induction cols as [|c cols IH]; [reflexivity|].
  rewrite positions_cons. cbn [list_index].
  destruct (String.eqb c label); [reflexivity|].
  cbn [app]. rewrite IH. destruct (Pandas.positions label cols); reflexivity.
Qed.

Lemma filter_map_comm {A B} (f : A -> B) (q : B -> bool) (l : list A) :
  filter q (map f l) = map f (filter (fun x => q (f x)) l).
Proof.
  induction l as [|a l IH]; cbn; [reflexivity|].
  destruct (q (f a)); cbn; rewrite IH; reflexivity.
Qed.

Lemma positions_columns label df :
  map (fun i => nth i (labelled_columns df) ("", [])) (Pandas.positions label (columns df))
  = filter (fun lc => String.eqb (fst lc) label) (labelled_columns df).
Proof.
  unfold labelled_columns at 2. rewrite filter_map_comm. cbn [fst].
  apply map_ext_in. intros i Hi. apply labelled_columns_nth.
  eapply positions_lt. exact Hi.
Qed.

Lemma hd_transpose_into n :
  forall c cols,
    length c = n -> map (hd CNone) (Pandas.transpose_into n (c :: cols)) = c.
Proof.
  induction n as [|n IH]; intros c cols Hc.
  - destruct c; [reflexivity | discriminate].
  - destruct c as [|x c]; [discriminate|]. cbn [Pandas.transpose_into map hd tl].
    f_equal. apply IH. cbn in Hc. lia.
Qed.

Lemma tl_transpose_into n :
  forall c cols,
    map (@tl cell) (Pandas.transpose_into n (c :: cols)) = Pandas.transpose_into n cols.
Proof.
  induction n as [|n IH]; intros c cols; [reflexivity|].
  cbn [Pandas.transpose_into map tl]. f_equal. apply IH.
Qed.

(** The columns of a transposed table are the columns it was made of. *)
Lemma transpose_columns n (enc : list (string * list cell)) :
  Forall (fun lc => length (snd lc) = n) enc ->
  labelled_columns {| columns := map fst enc;
                      data := Pandas.transpose_into n (map snd enc) |}
  = enc.
Proof.
  induction enc as [|[l c] enc IH]; intros H; [reflexivity|].
  pose proof (Forall_inv H) as Hc. pose proof (Forall_inv_tail H) as Henc.
  cbn [map fst snd] in *.
  rewrite labelled_columns_cons, hd_transpose_into by exact Hc.
  rewrite tl_transpose_into, IH by exact Henc. reflexivity.
Qed.

Lemma flat_map_map {A B C} (f : A -> B) (g : B -> list C) (l : list A) :
  flat_map g (map f l) = flat_map (fun x => g (f x)) l.
Proof. induction l as [|a l IH]; cbn; [reflexivity | rewrite IH; reflexivity]. Qed.

Lemma map_flat_map {A B C} (f : B -> C) (g : A -> list B) (l : list A) :
  map f (flat_map g l) = flat_map (fun x => map f (g x)) l.
Proof.
  induction l as [|a l IH]; cbn; [reflexivity|]. rewrite map_app, IH. reflexivity.
Qed.

Lemma flat_map_ext_In {A B} (f g : A -> list B) (l : list A) :
  (forall x, In x l -> f x = g x) -> flat_map f l = flat_map g l.
Proof.
  induction l as [|a l IH]; intros H; cbn; [reflexivity|].
  rewrite H, IH; [reflexivity | intros; apply H; right; assumption | left; reflexivity].
Qed.

Lemma length_dummies_1d label vals lc :
  In lc (Pandas.dummies_1d label vals) -> length (snd lc) = length vals.
Proof.
  unfold Pandas.dummies_1d. intros H. apply in_map_iff in H.
  destruct H as (v & <- & _). cbn [snd]. apply length_map.
Qed.

(** Line 417: the encoded frame, read by columns. *)
Lemma get_dummies_columns df :
  labelled_columns (Pandas.get_dummies df)
  = flat_map indicator_columns
      (flat_map (fun lc => filter (fun lc' => String.eqb (fst lc') (fst lc))
                                  (labelled_columns df))
                (labelled_columns df)).
Proof.
  unfold Pandas.get_dummies.
  set (G := fun i => Pandas.dummies_1d (nth i (columns df) "")
                       (map (fun r => Pandas.cell_text (nth i r CNone)) (data df))).
  set (to_encode := flat_map (fun label => Pandas.positions label (columns df)) (columns df)).
  assert (Hlt : forall i, In i to_encode -> i < length (columns df)).
  { intros i Hi. apply in_flat_map in Hi. destruct Hi as (label & _ & Hi).
    eapply positions_lt, Hi. }
  rewrite transpose_columns.
  - rewrite <- flat_map_concat_map.
    transitivity (flat_map indicator_columns
                    (map (fun i => nth i (labelled_columns df) ("", [])) to_encode)).
    + rewrite flat_map_map. apply flat_map_ext_In.
      intros i Hi. rewrite labelled_columns_nth by (apply Hlt, Hi).
      unfold indicator_columns, G. cbn [fst snd]. rewrite map_map. reflexivity.
    + f_equal. unfold to_encode. rewrite map_flat_map.
      set (h := fun label => map _ (Pandas.positions label (columns df))).
      rewrite <- (labelled_columns_labels df). rewrite flat_map_map.
      apply flat_map_ext. intros lc. apply positions_columns.
  - apply Forall_forall. intros lc Hlc. apply in_concat in Hlc.
    destruct Hlc as (cs & Hcs & Hlc). apply in_map_iff in Hcs.
    destruct Hcs as (i & <- & _). unfold G in Hlc.
    apply length_dummies_1d in Hlc. rewrite Hlc. apply length_map.
Qed.

(** Lines 418-419: a column set under a new label is the last one. *)
Lemma assign_columns label vals df :
  ~ In label (columns df) -> rectangular df -> length vals = length (data df) ->
  labelled_columns (Pandas.assign label vals df)
  = labelled_columns df ++ [(label, vals)].
Proof.
  intros Hnew Hrect Hlen. unfold Pandas.assign.
  rewrite (list_index_not_In _ _ Hnew).
  unfold labelled_columns. cbn [columns data].
  rewrite length_app. cbn [length]. rewrite Nat.add_1_r, seq_S, map_app. cbn [map Nat.add].
  assert (Hrows : Forall (fun rv => length (fst rv) = length (columns df))
                         (combine (data df) vals)).
  { apply Forall_forall. intros [r v] Hin. cbn.
    apply in_combine_l in Hin. unfold rectangular in Hrect.
    rewrite Forall_forall in Hrect. apply Hrect, Hin. }
  f_equal.
  - apply map_ext_in. intros i Hi. apply in_seq in Hi.
    rewrite app_nth1 by lia. f_equal.
    rewrite map_map.
    rewrite <- (map_fst_combine (data df) vals) at 2 by congruence.
    rewrite map_map. apply map_ext_in. intros [r v] Hin. cbn.
    rewrite Forall_forall in Hrows. specialize (Hrows _ Hin). cbn in Hrows.
    apply app_nth1. lia.
  - f_equal. rewrite app_nth2, Nat.sub_diag by lia. cbn [nth]. f_equal.
    rewrite map_map.
    rewrite <- (map_snd_combine (data df) vals) at 2 by congruence.
    apply map_ext_in. intros [r v] Hin. cbn.
    rewrite Forall_forall in Hrows. specialize (Hrows _ Hin). cbn in Hrows.
    rewrite app_nth2 by lia.
    replace (length (columns df) - length r) with 0 by lia. reflexivity.
Qed.

Lemma getitem_one label df w sel w' vals :
  Pandas.getitem label df w = (Val sel, w') -> sel = [vals] ->
  w' = w /\ Pandas.values label df = Some vals.
Proof.
  unfold Pandas.getitem, Pandas.values. rewrite positions_first.
  destruct (Pandas.positions label (columns df)) as [|i ps]; [discriminate|].
  intros H ->. inversion H; subst. cbn [hd_error]. auto.
Qed.

Lemma setitem_Val label sel df w df' w' :
  Pandas.setitem label sel df w = (Val df', w') ->
  exists vals, sel = [vals] /\ df' = Pandas.assign label vals df /\ w' = w.
Proof.
  unfold Pandas.setitem. destruct sel as [|vals [|vals' sel]]; try discriminate.
  intros H. inversion H; subst. exists vals. auto.
Qed.

Lemma In_converted_columns df lc :
  In lc (converted_columns df)
  <-> In lc (labelled_columns df) /\ ~ In (fst lc) to_drop.
Proof.
  assert (Hkept : forall x, In x (kept_columns df)
                            <-> In x (labelled_columns df) /\ ~ In (fst x) to_drop).
  { intros x. unfold kept_columns. rewrite filter_In.
    destruct (PyStr.mem (fst x) to_drop) eqn:Em; cbn [negb].
    - apply mem_In in Em. split; [intros [_ ?]; discriminate | intros [_ ?]; contradiction].
    - split; intros [Hin _]; (split; [assumption|]); [|reflexivity].
      intros Hd. apply mem_In in Hd. congruence. }
  rewrite <- Hkept. unfold converted_columns. rewrite in_flat_map. split.
  - intros (lc0 & _ & H). apply filter_In in H. apply H.
  - intros H. exists lc. split; [assumption|]. apply filter_In.
    split; [assumption | apply String.eqb_refl].
Qed.

(** With distinct labels every kept column is converted once. *)
Lemma converted_columns_distinct df :
  NoDup (columns df) -> converted_columns df = kept_columns df.
Proof.
  intros Hnd. unfold converted_columns.
  assert (Hk : NoDup (map fst (kept_columns df))).
  { unfold kept_columns. rewrite <- (labelled_columns_labels df) in Hnd.
    induction (labelled_columns df) as [|x l IH]; cbn [filter map] in *; [constructor|].
    inversion Hnd as [|? ? Hx Hl]; subst.
    destruct (negb (PyStr.mem (fst x) to_drop)); [|apply IH, Hl].
    cbn [map]. constructor; [|apply IH, Hl].
    intros Hin. apply Hx. apply in_map_iff in Hin. destruct Hin as (y & Hy & Hin).
    apply filter_In in Hin. apply in_map_iff. exists y. split; [assumption | apply Hin]. }
  induction (kept_columns df) as [|x l IH]; [reflexivity|].
  inversion Hk as [|? ? Hx Hl]; subst.
  cbn [flat_map filter]. rewrite String.eqb_refl. cbn [app]. f_equal.
  assert (Hnone : filter (fun lc' => String.eqb (fst lc') (fst x)) l = []).
  { clear - Hx. induction l as [|y l IH]; [reflexivity|]. cbn [filter].
    destruct (String.eqb_spec (fst y) (fst x)) as [He|_].
    - exfalso. apply Hx. left. exact He.
    - apply IH. intros Hin. apply Hx. right. exact Hin. }
  rewrite Hnone. cbn [app].
  rewrite <- (IH Hl) at 2. apply flat_map_ext_In. intros y Hy. cbn [filter].
  destruct (String.eqb_spec (fst x) (fst y)) as [He|_]; [|reflexivity].
  exfalso. apply Hx. rewrite He. apply in_map, Hy.
Qed.

(** Lines 408-419: the encoded table, read by columns. *)
Lemma one_hot_spec csv_file w enc w' :
  one_hot csv_file w = (Val enc, w') ->
  exists header df tokens context,
    nth_error csv_file 0 = Some header
    /\ df = {| columns := header;
               data := map (Pandas.pad (Pandas.max_width (string_rows (tl csv_file))))
                           (string_rows (tl csv_file)) |}
    /\ Pandas.values "token" df = Some tokens
    /\ Pandas.values "context" df = Some context
    /\ (forall l, In l to_drop -> In l (columns df))
    /\ labelled_columns enc
       = flat_map indicator_columns (converted_columns df)
         ++ [("token", tokens); ("context", context)]
    /\ rectangular enc
    /\ length (data enc) = length (data df)
    /\ Pandas.values "token" enc = Some tokens
    /\ Pandas.values "context" enc = Some context
    /\ Pandas.values "file" enc = None
    /\ Pandas.values "unk" enc = None.
Proof.
  unfold one_hot, csv_head. intros H.
  bind_inv H. apply or_raise_Val_inv in Hm. destruct Hm as [Hhead ->].
  bind_inv H. apply make_Val in Hm. destruct Hm as [-> Hdf].
  bind_as H tsel wt Htok. bind_as H csel wc Hctx.
  bind_inv H. apply drop_columns in Hm. destruct Hm as (-> & Hcols & Hrows & Hdrop).
  bind_as H e1 w1 Hset1. apply setitem_Val in Hset1.
  destruct Hset1 as (tokens & -> & -> & ->).
  bind_as H e2 w2 Hset2. apply setitem_Val in Hset2.
  destruct Hset2 as (context & -> & -> & ->).
  destruct (getitem_one _ _ _ _ _ _ Htok eq_refl) as [-> Htokens].
  destruct (getitem_one _ _ _ _ _ _ Hctx eq_refl) as [-> Hcontext].
  inversion H; subst enc w'. clear H Htok Hctx.
  exists a, a0, tokens, context.
  split; [assumption|]. split; [assumption|]. split; [assumption|].
  split; [assumption|]. split; [exact Hdrop|].
  destruct (assign_new "token" tokens (Pandas.get_dummies a1))
    as (Hc1 & Hr1 & Hl1 & Hv1 & Ho1).
  { apply not_indicator_label. reflexivity. }
  { apply get_dummies_rectangular. }
  { rewrite get_dummies_rows, Hrows. eapply values_length; eassumption. }
  destruct (assign_new "context" context (Pandas.assign "token" tokens (Pandas.get_dummies a1)))
    as (Hc2 & Hr2 & Hl2 & Hv2 & Ho2).
  { rewrite Hc1. intros Hin. apply in_app_or in Hin. destruct Hin as [Hin|[Hin|[]]].
    - revert Hin. apply not_indicator_label. reflexivity.
    - discriminate. }
  { assumption. }
  { rewrite Hl1, get_dummies_rows, Hrows. eapply values_length; eassumption. }
  split.
  { rewrite assign_columns.
    - rewrite assign_columns.
      + rewrite get_dummies_columns, Hcols, <- app_assoc. reflexivity.
      + apply not_indicator_label. reflexivity.
      + apply get_dummies_rectangular.
      + rewrite get_dummies_rows, Hrows. eapply values_length; eassumption.
    - rewrite Hc1. intros Hin. apply in_app_or in Hin. destruct Hin as [Hin|[Hin|[]]].
      + revert Hin. apply not_indicator_label. reflexivity.
      + discriminate.
    - assumption.
    - rewrite Hl1, get_dummies_rows, Hrows. eapply values_length; eassumption. }
  split; [assumption|].
  split; [rewrite Hl2, Hl1, get_dummies_rows; exact Hrows|].
  split; [rewrite Ho2 by discriminate; assumption|].
  split; [assumption|].
  assert (Hnone : forall l, PyStr.contains ":" l = false -> l <> "token" -> l <> "context" ->
                            Pandas.values l (Pandas.assign "context" context
                              (Pandas.assign "token" tokens (Pandas.get_dummies a1))) = None).
  { intros l Hl Ht Hc. rewrite Ho2, Ho1 by assumption.
    unfold Pandas.values. rewrite list_index_not_In; [reflexivity|].
    apply not_indicator_label, Hl. }
  split; apply Hnone; (reflexivity || discriminate).
Qed.

(** C7, as the code has it. The binary dataset is, column by column:
    the indicator columns of the columns of the dataset that are
    converted, then the token column and the context column of the
    dataset, cell for cell. A column of the dataset is converted exactly
    when its label is not "context", "token", "unk" or "file"
    ([converted_columns] has every such column once when the labels of
    the dataset are distinct, see [converted_columns_distinct]). The
    file column, like the unk column, is dropped before the encoding and
    is not attached again: the binary dataset has no such column. *)
Theorem binary_dataset_keeps_token_and_context :
  forall (ac : ann_counter) (nal : na_log) (csv_file : list (list string))
         (unk : list string) (w : world) (b : bundle) (w' : world),
    finish ac nal (csv_file, unk) w = (Val b, w') ->
    (exists tokens context,
        Pandas.values "token" (dataset b) = Some tokens
        /\ Pandas.values "context" (dataset b) = Some context
        /\ labelled_columns (binary_dataset b)
           = flat_map indicator_columns (converted_columns (dataset b))
             ++ [("token", tokens); ("context", context)]
        /\ Pandas.values "token" (binary_dataset b) = Some tokens
        /\ Pandas.values "context" (binary_dataset b) = Some context)
    /\ (forall lc, In lc (converted_columns (dataset b))
                   <-> In lc (labelled_columns (dataset b)) /\ ~ In (fst lc) to_drop)
    /\ rectangular (binary_dataset b)
    /\ length (data (binary_dataset b)) = length (data (dataset b))
    /\ (exists files, Pandas.values "file" (dataset b) = Some files)
    /\ Pandas.values "file" (binary_dataset b) = None
    /\ (exists unks, Pandas.values "unk" (dataset b) = Some unks)
    /\ Pandas.values "unk" (binary_dataset b) = None.
Proof.
  intros ac nal csv_file unk w b w' H.
  unfold finish in H.
  bind_inv H. bind_inv H. bind_inv H.
  apply one_hot_spec in Hm1.
  destruct Hm1 as (header & df & tokens & ctx & Hhead & Hdf & Htok & Hctx
                   & Hdrop & Hcols & Hrect & Hlen & Htok' & Hctx' & Hfile' & Hunk').
  bind_inv H. unfold csv_head in Hm1. apply or_raise_Val_inv in Hm1.
  destruct Hm1 as [Hhead' ->].
  rewrite Hhead in Hhead'. inversion Hhead'; subst.
  bind_inv H. apply make_Val in Hm1. destruct Hm1 as [-> Hds].
  bind_inv H. bind_inv H. bind_inv H. bind_inv H.
  inversion H; subst b w'. cbn [dataset binary_dataset].
  rewrite Hds.
  assert (Hhas : forall l, In l to_drop ->
                   exists vals, Pandas.values l
                     {| columns := a2;
                        data := map (Pandas.pad (Pandas.max_width (string_rows (tl csv_file))))
                                    (string_rows (tl csv_file)) |} = Some vals).
  { intros l Hl. apply Hdrop in Hl. apply list_index_In in Hl. destruct Hl as [i Hi].
    unfold Pandas.values. cbn [columns] in *. rewrite Hi. eexists. reflexivity. }
  split; [exists tokens, ctx; auto 6|].
  split; [apply In_converted_columns|].
  split; [assumption|]. split; [assumption|].
  split; [apply Hhas; cbn; auto|]. split; [assumption|].
  split; [apply Hhas; cbn; auto | assumption].
Qed.

(** ** The statistics and the missing-annotation log *)

Lemma setitem2_Val {V} k1 k2 (x : V) (d : dict (dict V)) w d' w' :
  setitem2 k1 k2 x d w = (Val d', w') ->
  w' = w /\ exists v,
    PyDict.get k1 d = Some v /\ d' = PyDict.set k1 (PyDict.set k2 x v) d.
Proof.
  unfold setitem2. intros H. bind_inv H. apply getitem_Val in Hm.
  destruct Hm as [Hg ->]. inversion H; subst. split; [reflexivity|].
  exists a. auto.
Qed.

Lemma setitem2_keys {V} k1 k2 (x : V) (d : dict (dict V)) w d' w' :
  setitem2 k1 k2 x d w = (Val d', w') -> PyDict.keys d' = PyDict.keys d.
Proof.
  intros H. apply setitem2_Val in H. destruct H as (_ & v & Hg & ->).
  apply keys_set_present. unfold PyDict.mem. rewrite Hg. reflexivity.
Qed.

Section CoverageFacts.

Context {regex : Type}.
Variable finditer : regex -> string -> list rmatch.
Variable U : dc_utils regex.
Variable stop_flag : nat -> bool.
Variable E : @env regex.

Lemma whole_corpus_pass_keys ac w ac' w' :
  whole_corpus_pass U stop_flag E ac w = (Val ac', w') ->
  PyDict.keys ac' = PyDict.keys ac.
Proof.
  unfold whole_corpus_pass.
  apply (for_each_invariant (fun s => PyDict.keys s = PyDict.keys ac)); [|reflexivity].
  intros token s w0 s' w0' Hs H.
  bind_inv H.
  destruct (find_repetitions U (whole_corpus E) token (e_feat_regex E)
              (e_name_regex E) (e_speakers_of_interest E) None)
    as [[[wild_rep wild_rep_interest] ann_rep] wna].
  bind_inv H. bind_inv H. apply setitem2_keys in Hm1.
  bind_inv H. apply setitem2_keys in Hm2.
  bind_inv H. inversion H; subst. congruence.
Qed.

Lemma count_annotations_Val ac w w' :
  count_annotations finditer U E w = (Val ac, w') ->
  ac = initial_counter finditer U E.
Proof.
  unfold count_annotations. intros H. bind_inv H. bind_inv H.
  inversion H; subst. reflexivity.
Qed.

Lemma set_all_empty path (nal : na_log) :
  all_empty nal -> all_empty (PyDict.set path [] nal).
Proof.
  unfold all_empty. induction nal as [|[p sub] nal IH]; cbn; intros H.
  - constructor; [reflexivity | constructor].
  - inversion H; subst. destruct (String.eqb p path); constructor; auto.
Qed.

(** Lines 212-237: the log of a pass that finds no snippet. *)
Lemma per_file_pass_all_empty ac w nal w' :
  no_snippets U E (PyDict.keys ac) ->
  per_file_pass U stop_flag E ac w = (Val nal, w') ->
  all_empty nal /\ (e_corpus_dict E <> [] -> nal <> []).
Proof.
  intros Hno. unfold per_file_pass.
  assert (Hgen : forall files,
             (forall kv, In kv files -> In kv (e_corpus_dict E)) ->
             forall s w s' w',
               all_empty s ->
               for_each files
                 (fun kv not_annotated_log =>
                    let path := fst kv in
                    let crp := interest_text U E (snd kv) in
                    let not_annotated_log := PyDict.set path [] not_annotated_log in
                    for_each (PyDict.keys ac)
                      (fun token not_annotated_log =>
                         let wna := snippets U E crp token in
                         not_annotated_log <-
                           record_snippets path token wna not_annotated_log ;;
                         check_stop stop_flag ;;
                         ret not_annotated_log)
                      not_annotated_log)
                 s w = (Val s', w') ->
               all_empty s' /\ (files <> [] -> s' <> [])).
  { induction files as [|kv files IH]; intros Hin s w0 s' w0' Hs H; cbn in H.
    - inversion H; subst. split; [assumption | congruence].
    - bind_inv H.
      assert (Ha : all_empty a /\ a <> []).
      { revert Hm.
        assert (Hinner : forall tokens,
                   (forall t, In t tokens -> In t (PyDict.keys ac)) ->
                   forall s1 w1 s1' w1',
                     all_empty s1 /\ s1 <> [] ->
                     for_each tokens
                       (fun token not_annotated_log =>
                          let wna := snippets U E (interest_text U E (snd kv)) token in
                          not_annotated_log <-
                            record_snippets (fst kv) token wna not_annotated_log ;;
                          check_stop stop_flag ;;
                          ret not_annotated_log)
                       s1 w1 = (Val s1', w1') ->
                     all_empty s1' /\ s1' <> []).
        { induction tokens as [|t tokens IHt]; intros Ht s1 w2 s1' w2' Hs1 H1; cbn in H1.
          - inversion H1; subst. assumption.
          - bind_inv H1. bind_inv Hm.
            rewrite (Hno kv (Hin kv (or_introl eq_refl)) t (Ht t (or_introl eq_refl)))
              in Hm0.
            cbn in Hm0. inversion Hm0; subst.
            bind_inv Hm. inversion Hm; subst.
            eapply IHt; [|eassumption|eassumption]. intros; apply Ht; right; assumption. }
        apply Hinner; [auto|]. split; [apply set_all_empty, Hs|].
        destruct s as [|[p sub] s]; cbn; [discriminate|].
        destruct (String.eqb p (fst kv)); discriminate. }
      destruct Ha as [Ha Hne].
      destruct (IH (fun kv' Hkv' => Hin kv' (or_intror Hkv')) _ _ _ _ Ha H) as [He _].
      split; [assumption|]. intros _.
      destruct files as [|kv' files].
      + cbn in H. inversion H; subst. assumption.
      + apply (IH (fun kv' Hkv' => Hin kv' (or_intror Hkv')) _ _ _ _ Ha H). discriminate. }
  apply Hgen; [auto | constructor].
Qed.

End CoverageFacts.

Lemma snippet_counts_all_empty nal : all_empty nal -> snippet_counts nal = [].
Proof.
  unfold all_empty, snippet_counts. induction nal as [|[p sub] nal IH]; cbn; intros H.
  - reflexivity.
  - inversion H; subst. cbn in *. subst sub. cbn. apply IH. assumption.
Qed.

(** Lines 386-397: with a log of empty maps, [max] has nothing to take
    the maximum of. *)
Lemma missing_annotations_of_all_empty nal w :
  all_empty nal -> nal <> [] ->
  missing_annotations_of nal w
  = (Raise (ValueError "max() arg is an empty sequence"), w).
Proof.
  intros He Hne. unfold missing_annotations_of.
  destruct nal as [|pv nal]; [congruence|]. cbn [length Nat.ltb Nat.leb].
  rewrite (snippet_counts_all_empty _ He). reflexivity.
Qed.

(** Lines 381-430: no bundle is assembled from a log of empty maps. *)
Lemma finish_all_empty ac nal acc w r w' :
  all_empty nal ->
  finish ac nal acc w = (r, w') ->
  exists e, r = Raise e.
Proof.
  intros He H. destruct r as [b| |e].
  - exfalso. unfold finish in H. destruct acc as [csv_file unk].
    bind_inv H. bind_inv H. bind_inv H. bind_inv H. bind_inv H. bind_inv H.
    bind_inv H. apply or_raise_Val_inv in Hm5. destruct Hm5 as [Hsome _].
    destruct nal as [|pv nal].
    + cbn in Hm0. inversion Hm0; subst. discriminate.
    + rewrite missing_annotations_of_all_empty in Hm0 by (assumption || discriminate).
      discriminate.
  - exfalso. destruct (pollfree_finish _ _ _ _ _ _ H) as [_ Hr]. congruence.
  - exists e. reflexivity.
Qed.

(** The assembly itself, when the statistics table has a token. *)
Lemma finish_max_of_empty ac nal acc w :
  ac <> [] -> nal <> [] -> all_empty nal ->
  finish ac nal acc w = (Raise (ValueError "max() arg is an empty sequence"), w).
Proof.
  intros Hac Hne He. unfold finish. destruct acc as [csv_file unk].
  unfold annotation_info_of. destruct ac as [|[token v] ac]; [congruence|].
  cbn [PyDict.values map nth_error or_raise].
  unfold bind at 2. cbn [ret].
  unfold bind at 1. cbn [ret].
  rewrite (bind_Raise _ _ _ _ _ (missing_annotations_of_all_empty _ w He Hne)).
  reflexivity.
Qed.

Section RunFacts.

Context {regex : Type}.
Variable re_compile : string -> option regex.
Variable finditer : regex -> string -> list rmatch.
Variable U : dc_utils regex.
Variable stop_flag : nat -> bool.

(** The log that the counting passes hand to the assembly. *)
Lemma coverage_all_empty E counted w w' :
  no_snippets U E (PyDict.keys (initial_counter finditer U E)) ->
  coverage finditer U stop_flag E w = (Val counted, w') ->
  all_empty (snd counted).
Proof.
  intros Hno H. unfold coverage in H.
  bind_inv H. apply count_annotations_Val in Hm. subst a.
  bind_inv H. apply whole_corpus_pass_keys in Hm.
  bind_inv H. bind_inv H.
  apply per_file_pass_all_empty in Hm1; [|rewrite Hm; assumption].
  bind_inv H. inversion H; subst. cbn. apply Hm1.
Qed.

Lemma passes_all_empty E w r w' :
  no_snippets U E (PyDict.keys (initial_counter finditer U E)) ->
  passes finditer U stop_flag E w = (r, w') ->
  forall b, r <> Val b.
Proof.
  intros Hno H b ->. unfold passes in H.
  bind_inv H. apply (coverage_all_empty _ _ _ _ Hno) in Hm.
  bind_inv H. bind_inv H. bind_inv H.
  destruct (finish_all_empty _ _ _ _ _ _ Hm H) as [e He]. discriminate.
Qed.

End RunFacts.

(** C9, as the code has it. When the per-file pass records no snippet
    for any file and any token, the run never returns a bundle. Unless
    a checkpoint observes the cancellation flag set, which ends the run
    with the sentinel, it ends as a failure; at the assembly of the
    missing-annotations table the maximum of an empty sequence is taken
    and raises. *)
Theorem empty_log_run_fails_unless_cancelled :
  forall (regex : Type) (re_compile : string -> option regex)
         (finditer : regex -> string -> list rmatch) (U : dc_utils regex)
         (stop_flag : nat -> bool) (i : inputs) (corpus_dict : dict string)
         (independent_variables dependent_variables : dict var_value)
         (speakers : dict (list string)),
    (forall E w,
        prepare re_compile U stop_flag i corpus_dict speakers
                independent_variables dependent_variables fresh_world
        = (Val E, w) ->
        no_snippets U E (PyDict.keys (initial_counter finditer U E))) ->
    (forall b,
        DCThread_run re_compile finditer U stop_flag i corpus_dict
                     independent_variables dependent_variables speakers
        <> ResultBundle b)
    /\ ((forall k,
            k < polls_made re_compile finditer U stop_flag i corpus_dict
                           independent_variables dependent_variables speakers ->
            stop_flag k = false) ->
        exists e,
          DCThread_run re_compile finditer U stop_flag i corpus_dict
                       independent_variables dependent_variables speakers
          = ResultError e)
    /\ (forall ac nal acc w,
           ac <> [] -> nal <> [] -> all_empty nal ->
           finish ac nal acc w
           = (Raise (ValueError "max() arg is an empty sequence"), w)).
Proof.
  intros regex re_compile finditer U stop_flag i corpus_dict ind dep speakers Hno.
  assert (Hnb : forall r w',
             generate_dataset re_compile finditer U stop_flag i corpus_dict
                              speakers ind dep fresh_world = (r, w') ->
             forall b, r <> Val b).
  { intros r w' Hrun b ->. unfold generate_dataset in Hrun. bind_inv Hrun.
    apply (passes_all_empty finditer U stop_flag a w _ _ (Hno _ _ Hm) Hrun b).
    reflexivity. }
  unfold DCThread_run, polls_made.
  destruct (generate_dataset re_compile finditer U stop_flag i corpus_dict
                             speakers ind dep fresh_world) as [r w'] eqn:Hrun.
  specialize (Hnb r w' eq_refl). cbn [snd].
  split; [|split].
  - intros b. destruct r as [b'| |e]; [|discriminate|discriminate].
    exfalso. apply (Hnb b'). reflexivity.
  - intros Hnever. destruct r as [b'| |e].
    + exfalso. apply (Hnb b'). reflexivity.
    + exfalso.
      destruct (gate_ok_generate_dataset re_compile finditer U stop_flag
                  i corpus_dict speakers ind dep _ _ _ Hrun) as (_ & _ & Hcan).
      destruct (Hcan eq_refl) as (Hlt & Hlast & _).
      rewrite Hnever in Hlast; [discriminate | lia].
    + exists e. reflexivity.
  - intros ac nal acc w. apply finish_max_of_empty.
Qed.

(** ** The skipped matches and the aggregate log line *)

Section SlipFacts.

Context {regex : Type}.
Variable U : dc_utils regex.
Variable E : @env regex.

(** Lines 320-328: both skips call [logger.waring]. *)
Lemma skipped_match_raises ac file_path file_speakers c cur_speaker sp wrong_tags
      m acc w :
  PyStr.mem (PyStr.last_component "." (m_group1 m)) (PyDict.keys ac) = false
  \/ existsb (fun wt => PyStr.contains (m_group1 m) wt) wrong_tags = true ->
  process_tag U E ac file_path file_speakers c cur_speaker sp wrong_tags m acc w
  = (Raise (AttributeError "waring"), w).
Proof.
  unfold process_tag. intros [H|H].
  - rewrite H. reflexivity.
  - rewrite H. destruct (negb _); reflexivity.
Qed.

Lemma split_not_nil c s : PyStr.split c s <> [].
Proof.
  destruct s as [|a s]; cbn; [discriminate|].
  destruct (Ascii.eqb a c); [discriminate|].
  destruct (PyStr.split c s); discriminate.
Qed.

(** Lines 193-199: when the summed "not annotated" is 0 the log line
    divides by it. *)
Lemma report_divides_by_zero ac w annotated not_annotated_interest :
  sum_field "annotated" ac w = (Val annotated, w) ->
  sum_field "not annotated" ac w = (Val 0%Z, w) ->
  sum_field "not_annotated_interest" ac w = (Val not_annotated_interest, w) ->
  report E ac w = (Raise ZeroDivisionError, w).
Proof.
  intros Ha Hn Hi. unfold report.
  rewrite (bind_Val _ _ _ _ _ Ha), (bind_Val _ _ _ _ _ Hn), (bind_Val _ _ _ _ _ Hi).
  unfold true_div at 1.
  destruct (Z.eqb_spec (Z.of_nat (length (PyStr.split " " (whole_corpus E)))) 0)
    as [H0|H0].
  - exfalso. pose proof (split_not_nil " " (whole_corpus E)) as Hs.
    destruct (PyStr.split " " (whole_corpus E)); [congruence | cbn in H0; lia].
  - reflexivity.
Qed.

End SlipFacts.

(** ** The totals and the speaker columns *)

Lemma length_append_string (s1 s2 : string) :
  String.length (s1 ++ s2) = String.length s1 + String.length s2.
Proof. induction s1 as [|a s1 IH]; cbn; [reflexivity | rewrite IH; reflexivity]. Qed.

Lemma append_inj_l (s1 s2 t : string) : (s1 ++ t)%string = (s2 ++ t)%string -> s1 = s2.
Proof.
  revert s2. induction s1 as [|a s1 IH]; intros [|b s2] H; cbn in H.
  - reflexivity.
  - exfalso. apply (f_equal String.length) in H. cbn in H.
    rewrite length_append_string in H. lia.
  - exfalso. apply (f_equal String.length) in H. cbn in H.
    rewrite length_append_string in H. lia.
  - inversion H; subst. f_equal. apply IH. assumption.
Qed.

Lemma In_speaker_columns k soi :
  In k (speaker_columns soi) <->
  exists speaker, In speaker soi
                  /\ (k = (speaker ++ " annotated")%string
                      \/ k = (speaker ++ " not annotated")%string).
Proof.
  unfold speaker_columns. rewrite in_flat_map. split.
  - intros (sp & Hin & [<-|[<-|[]]]); exists sp; auto.
  - intros (sp & Hin & [->| ->]); exists sp; cbn; auto.
Qed.

(** The names of the speaker columns differ from "annotated" and "total",
    and from "not annotated" unless a speaker is called "not". *)
Lemma speaker_columns_fresh soi :
  ~ In "annotated" (speaker_columns soi)
  /\ ~ In "total" (speaker_columns soi)
  /\ (~ In "not" soi -> ~ In "not annotated" (speaker_columns soi)).
Proof.
  split; [|split].
  - intros H. apply In_speaker_columns in H. destruct H as (sp & _ & [H|H]);
      apply (f_equal String.length) in H; rewrite length_append_string in H;
      cbn in H; lia.
  - intros H. apply In_speaker_columns in H. destruct H as (sp & _ & [H|H]);
      apply (f_equal String.length) in H; rewrite length_append_string in H;
      cbn in H; lia.
  - intros Hnot H. apply In_speaker_columns in H. destruct H as (sp & Hin & [H|H]).
    + apply Hnot. change "not annotated" with ("not" ++ " annotated")%string in H.
      apply append_inj_l in H. subst sp. assumption.
    + apply (f_equal String.length) in H; rewrite length_append_string in H;
        cbn in H; lia.
Qed.

Lemma get_zero_keys k ks (v : dict Z) :
  PyDict.get k (zero_keys ks v) = if PyStr.mem k ks then Some 0%Z else PyDict.get k v.
Proof.
  unfold zero_keys. revert v. induction ks as [|i ks IH]; intros v; cbn [fold_left].
  - reflexivity.
  - rewrite IH, get_set, mem_eqb_cons.
    destruct (String.eqb i k), (PyStr.mem k ks); reflexivity.
Qed.

Lemma set_set {V} k (a b : V) (d : dict V) :
  PyDict.set k a (PyDict.set k b d) = PyDict.set k a d.
Proof.
  induction d as [|[k' v'] d IH]; cbn.
  - rewrite String.eqb_refl. reflexivity.
  - destruct (String.eqb k' k) eqn:Ek; cbn; rewrite Ek; [reflexivity|].
    rewrite IH. reflexivity.
Qed.

Lemma set_get_same {V} k (v : V) (d : dict V) :
  PyDict.get k d = Some v -> PyDict.set k v d = d.
Proof.
  induction d as [|[k' v'] d IH]; cbn.
  - discriminate.
  - destruct (String.eqb k' k); intros H.
    + inversion H; subst. reflexivity.
    + rewrite IH by assumption. reflexivity.
Qed.

Lemma counter_of_set t t' k (v : dict Z) (ac : ann_counter) :
  counter_of t k (PyDict.set t' v ac)
  = if String.eqb t' t then PyDict.get k v else counter_of t k ac.
Proof.
  unfold counter_of. rewrite get_set. destruct (String.eqb t' t); reflexivity.
Qed.

Section Totals.

Context {regex : Type}.
Variable stop_flag : nat -> bool.
Variable E : @env regex.

(** Lines 275-281: the inner loop on one token. *)
Lemma zeroing_loop_Val token soi :
  forall (ac : ann_counter) w ac' w' v,
    PyDict.get token ac = Some v ->
    for_each soi
      (fun speaker annotation_counter =>
         annotation_counter <-
           setitem2 token (speaker ++ " annotated")%string 0%Z annotation_counter ;;
         annotation_counter <-
           setitem2 token (speaker ++ " not annotated")%string 0%Z annotation_counter ;;
         check_stop stop_flag ;;
         ret annotation_counter)
      ac w = (Val ac', w') ->
    ac' = PyDict.set token (zero_keys (speaker_columns soi) v) ac.
Proof.
  induction soi as [|sp soi IH]; intros ac w ac' w' v Hv H; cbn in H.
  - inversion H; subst. cbn. symmetry. apply set_get_same, Hv.
  - bind_inv H. bind_inv Hm.
    apply setitem2_Val in Hm0. destruct Hm0 as (-> & v0 & Hv0 & ->).
    rewrite Hv in Hv0. inversion Hv0; subst v0.
    bind_inv Hm. apply setitem2_Val in Hm0. destruct Hm0 as (-> & v1 & Hv1 & ->).
    rewrite get_set_same in Hv1. inversion Hv1; subst v1.
    bind_inv Hm. inversion Hm; subst a.
    rewrite set_set in H.
    eapply IH in H; [|apply get_set_same].
    rewrite set_set in H. exact H.
Qed.

(** Lines 270-281: what one turn of the outer loop does to the
    statistics. *)
Lemma add_totals_step token (ac : ann_counter) w ac' w' :
  (v <- getitem token ac ;;
   annotated <- getitem "annotated" v ;;
   not_annotated <- getitem "not annotated" v ;;
   annotation_counter <-
     setitem2 token "total" (annotated + not_annotated)%Z ac ;;
   for_each (e_speakers_of_interest E)
     (fun speaker annotation_counter =>
        annotation_counter <-
          setitem2 token (speaker ++ " annotated")%string 0%Z annotation_counter ;;
        annotation_counter <-
          setitem2 token (speaker ++ " not annotated")%string 0%Z annotation_counter ;;
        check_stop stop_flag ;;
        ret annotation_counter)
     annotation_counter) w = (Val ac', w') ->
  exists v a n,
    PyDict.get token ac = Some v
    /\ PyDict.get "annotated" v = Some a
    /\ PyDict.get "not annotated" v = Some n
    /\ ac' = PyDict.set token
               (zero_keys (speaker_columns (e_speakers_of_interest E))
                          (PyDict.set "total" (a + n)%Z v))
               ac.
Proof.
  intros H. bind_inv H. apply getitem_Val in Hm. destruct Hm as [Hv ->].
  bind_inv H. apply getitem_Val in Hm. destruct Hm as [Ha ->].
  bind_inv H. apply getitem_Val in Hm. destruct Hm as [Hn ->].
  bind_inv H. apply setitem2_Val in Hm. destruct Hm as (-> & v0 & Hv0 & ->).
  rewrite Hv in Hv0. inversion Hv0; subst v0.
  eapply zeroing_loop_Val in H; [|apply get_set_same].
  rewrite set_set in H. exists a, a0, a1. auto.
Qed.

Lemma add_totals_totalled ac w ac' w' :
  add_totals stop_flag E ac w = (Val ac', w') ->
  forall token, In token (PyDict.keys ac) -> totalled E token ac'.
Proof.
  unfold add_totals.
  assert (Hgen : forall tokens s w s' w',
             for_each tokens
               (fun token annotation_counter =>
                  v <- getitem token annotation_counter ;;
                  annotated <- getitem "annotated" v ;;
                  not_annotated <- getitem "not annotated" v ;;
                  annotation_counter <-
                    setitem2 token "total" (annotated + not_annotated)%Z
                             annotation_counter ;;
                  for_each (e_speakers_of_interest E)
                    (fun speaker annotation_counter =>
                       annotation_counter <-
                         setitem2 token (speaker ++ " annotated")%string 0%Z
                                  annotation_counter ;;
                       annotation_counter <-
                         setitem2 token (speaker ++ " not annotated")%string 0%Z
                                  annotation_counter ;;
                       check_stop stop_flag ;;
                       ret annotation_counter)
                    annotation_counter)
               s w = (Val s', w') ->
             forall token,
               (In token tokens \/ totalled E token s) -> totalled E token s').
  { induction tokens as [|t tokens IH]; intros s w0 s' w0' H token Ht; cbn in H.
    - inversion H; subst. destruct Ht as [[]|Ht]. assumption.
    - bind_inv H. apply add_totals_step in Hm.
      destruct Hm as (v & a0 & n & Hv & Ha & Hn & ->).
      eapply IH; [eassumption|].
      destruct (String.eqb_spec t token) as [->|Hne].
      + right. exists v, a0, n. rewrite get_set_same. auto.
      + destruct Ht as [[?|Ht]|Ht]; [congruence | left; assumption |].
        right. destruct Ht as (v1 & a1 & n1 & Ha1 & Hn1 & Hget).
        exists v1, a1, n1. rewrite get_set_other by assumption. auto. }
  intros H token Hin. eapply Hgen; [eassumption | left; assumption].
Qed.

(** Whatever the per-speaker pass has counted, the statistics that leave
    the totals loop have 0 in the two columns of every speaker of
    interest. *)
Lemma add_totals_zeroes_speaker_columns ac w ac' w' :
  add_totals stop_flag E ac w = (Val ac', w') ->
  forall token speaker,
    In token (PyDict.keys ac) -> In speaker (e_speakers_of_interest E) ->
    counter_of token (speaker ++ " annotated") ac' = Some 0%Z
    /\ counter_of token (speaker ++ " not annotated") ac' = Some 0%Z.
Proof.
  intros H token speaker Ht Hs.
  destruct (add_totals_totalled _ _ _ _ H token Ht) as (v & a & n & _ & _ & Hget).
  unfold counter_of. rewrite Hget, !get_zero_keys.
  assert (Hin : forall k, In k (speaker_columns (e_speakers_of_interest E)) ->
                          PyStr.mem k (speaker_columns (e_speakers_of_interest E)) = true)
    by (intros k; apply mem_In).
  rewrite !Hin; [auto | |]; apply In_speaker_columns; exists speaker; auto.
Qed.

(** When no speaker of interest is called "not", the total of every
    token is the sum of its two counters. *)
Lemma add_totals_total_is_sum ac w ac' w' :
  add_totals stop_flag E ac w = (Val ac', w') ->
  ~ In "not" (e_speakers_of_interest E) ->
  forall token, In token (PyDict.keys ac) ->
    exists a n,
      counter_of token "annotated" ac' = Some a
      /\ counter_of token "not annotated" ac' = Some n
      /\ counter_of token "total" ac' = Some (a + n)%Z.
Proof.
  intros H Hnot token Ht.
  destruct (add_totals_totalled _ _ _ _ H token Ht) as (v & a & n & Ha & Hn & Hget).
  destruct (speaker_columns_fresh (e_speakers_of_interest E)) as (Hf1 & Hf2 & Hf3).
  specialize (Hf3 Hnot).
  assert (Hout : forall k, ~ In k (speaker_columns (e_speakers_of_interest E)) ->
                           PyStr.mem k (speaker_columns (e_speakers_of_interest E)) = false).
  { intros k Hk. destruct (PyStr.mem k _) eqn:Em; [|reflexivity].
    apply mem_In in Em. contradiction. }
  exists a, n. unfold counter_of. rewrite Hget, !get_zero_keys, !Hout by assumption.
  rewrite !get_set. cbn. auto.
Qed.

(** When a speaker of interest is called "not", the returned
    "not annotated" is 0 whatever was counted. *)
Lemma add_totals_not_annotated_lost ac w ac' w' :
  add_totals stop_flag E ac w = (Val ac', w') ->
  In "not" (e_speakers_of_interest E) ->
  forall token, In token (PyDict.keys ac) ->
    counter_of token "not annotated" ac' = Some 0%Z.
Proof.
  intros H Hnot token Ht.
  exact (proj1 (add_totals_zeroes_speaker_columns _ _ _ _ H token "not" Ht Hnot)).
Qed.

End Totals.

(** ** The shape of the statistics table *)

Lemma keys_set {V} k (x : V) (d : dict V) :
  PyDict.keys (PyDict.set k x d) = add_key k (PyDict.keys d).
Proof.
  unfold add_key, PyDict.keys. induction d as [|[k' v'] d IH]; cbn.
  - reflexivity.
  - rewrite (String.eqb_sym k k').
    destruct (String.eqb k' k) eqn:Ek; cbn; [reflexivity|].
    rewrite IH. fold (PyStr.mem k (map fst d)).
    destruct (PyStr.mem k (map fst d)); reflexivity.
Qed.

Lemma NoDup_add_key k ks : NoDup ks -> NoDup (add_key k ks).
Proof.
  intros H. unfold add_key. destruct (PyStr.mem k ks) eqn:Em; [assumption|].
  apply NoDup_app; [assumption | repeat constructor; intros [] | ].
  intros x Hx [<-|[]].
  apply mem_In in Hx. congruence.
Qed.

Lemma updates_token_keys F token ac ac' :
  updates_token F token ac ac' -> PyDict.keys ac' = PyDict.keys ac.
Proof.
  intros (v & v' & Hg & -> & _). apply keys_set_present.
  unfold PyDict.mem. rewrite Hg. reflexivity.
Qed.

Lemma updates_token_refl token (ac : ann_counter) v :
  PyDict.get token ac = Some v -> updates_token (fun ks => ks) token ac ac.
Proof.
  intros Hg. exists v, v. split; [assumption|]. split; [|reflexivity].
  symmetry. apply set_get_same, Hg.
Qed.

Lemma updates_token_compose F G token ac ac1 ac2 :
  updates_token F token ac ac1 -> updates_token G token ac1 ac2 ->
  updates_token (fun ks => G (F ks)) token ac ac2.
Proof.
  intros (v & v1 & Hg & -> & Hk) (v1' & v2 & Hg1 & -> & Hk2).
  rewrite get_set_same in Hg1. inversion Hg1; subst v1'.
  exists v, v2. split; [assumption|]. split; [apply set_set|]. congruence.
Qed.

Lemma updates_setitem2 token k x (ac : ann_counter) w ac' w' :
  setitem2 token k x ac w = (Val ac', w') ->
  updates_token (add_key k) token ac ac'.
Proof.
  intros H. apply setitem2_Val in H. destruct H as (_ & v & Hg & ->).
  exists v, (PyDict.set k x v). split; [assumption|]. split; [reflexivity|].
  apply keys_set.
Qed.

Lemma add_key_present k ks : PyStr.mem k ks = true -> add_key k ks = ks.
Proof. unfold add_key. intros ->. reflexivity. Qed.

Lemma mem_keys {V} k (d : dict V) : PyStr.mem k (PyDict.keys d) = PyDict.mem k d.
Proof.
  destruct (PyDict.mem k d) eqn:Em.
  - apply mem_In, mem_In_keys, Em.
  - destruct (PyStr.mem k (PyDict.keys d)) eqn:Ek; [|reflexivity].
    apply mem_In, mem_In_keys in Ek. congruence.
Qed.

Lemma updates_init_if_absent token key (ac : ann_counter) w ac' w' :
  init_if_absent token key ac w = (Val ac', w') ->
  updates_token (add_key key) token ac ac'.
Proof.
  unfold init_if_absent. intros H. bind_inv H.
  apply getitem_Val in Hm. destruct Hm as [Hg ->].
  destruct (PyDict.mem key a) eqn:Em; cbn in H.
  - inversion H; subst. exists a, a. split; [assumption|].
    split; [symmetry; apply set_get_same, Hg|].
    symmetry. apply add_key_present. rewrite mem_keys. assumption.
  - eapply updates_setitem2. eassumption.
Qed.

(** A loop that updates the counters of one token per turn leaves the
    tokens as they are and changes the keys of each visited token by
    [F]. *)
Lemma token_loop_shape (F : list string -> list string)
      (body : string -> ann_counter -> M ann_counter) :
  (forall t ac w ac' w', body t ac w = (Val ac', w') -> updates_token F t ac ac') ->
  forall tokens ac w ac' w',
    NoDup tokens ->
    for_each tokens body ac w = (Val ac', w') ->
    PyDict.keys ac' = PyDict.keys ac
    /\ (forall t v, In t tokens -> PyDict.get t ac = Some v ->
                    exists v', PyDict.get t ac' = Some v'
                               /\ PyDict.keys v' = F (PyDict.keys v))
    /\ (forall t, ~ In t tokens -> PyDict.get t ac' = PyDict.get t ac).
Proof.
  intros Hbody. induction tokens as [|t tokens IH]; intros ac w ac' w' Hnd H; cbn in H.
  - inversion H; subst. split; [reflexivity|]. split; [intros t v []|reflexivity].
  - inversion Hnd as [|? ? Hnotin Hnd']; subst.
    bind_inv H. pose proof (Hbody _ _ _ _ _ Hm) as Hup.
    pose proof (updates_token_keys _ _ _ _ Hup) as Hkeys.
    destruct Hup as (v0 & v1 & Hg0 & -> & Hk1).
    destruct (IH _ _ _ _ Hnd' H) as (Hk & Hin & Hout).
    split; [congruence|]. split.
    + intros t' v [<-|Ht'] Hg.
      * rewrite Hg0 in Hg. inversion Hg; subst v0.
        exists v1. rewrite (Hout t Hnotin), get_set_same. auto.
      * apply Hin; [assumption|].
        rewrite get_set_other; [assumption|]. intros ->. contradiction.
    + intros t' Ht'. rewrite Hout by (intros Hc; apply Ht'; right; assumption).
      apply get_set_other. intros ->. apply Ht'. left. reflexivity.
Qed.

Lemma token_loop_uniform (F : list string -> list string)
      (body : string -> ann_counter -> M ann_counter) ks ac w ac' w' :
  (forall t ac w ac' w', body t ac w = (Val ac', w') -> updates_token F t ac ac') ->
  NoDup (PyDict.keys ac) -> uniform ks ac ->
  for_each (PyDict.keys ac) body ac w = (Val ac', w') ->
  PyDict.keys ac' = PyDict.keys ac /\ uniform (F ks) ac'.
Proof.
  intros Hbody Hnd Hu H.
  destruct (token_loop_shape F body Hbody _ _ _ _ _ Hnd H) as (Hk & Hin & _).
  split; [assumption|]. intros t v' Hg'.
  assert (Ht : In t (PyDict.keys ac)).
  { rewrite <- Hk. apply mem_In_keys. unfold PyDict.mem. rewrite Hg'. reflexivity. }
  pose proof Ht as Hm. apply mem_In_keys in Hm. unfold PyDict.mem in Hm.
  destruct (PyDict.get t ac) as [v|] eqn:Hg; [|discriminate].
  destruct (Hin t v Ht Hg) as (v'' & Hg'' & Hk'').
  rewrite Hg' in Hg''. inversion Hg''; subst v''.
  rewrite Hk'', (Hu t v Hg). reflexivity.
Qed.

Lemma keys_zero_keys K (v : dict Z) :
  PyDict.keys (zero_keys K v) = fold_left (fun ks k => add_key k ks) K (PyDict.keys v).
Proof.
  unfold zero_keys. revert v. induction K as [|k K IH]; intros v; cbn [fold_left].
  - reflexivity.
  - rewrite IH, keys_set. reflexivity.
Qed.

Section PassShapes.

Context {regex : Type}.
Variable finditer : regex -> string -> list rmatch.
Variable U : dc_utils regex.
Variable stop_flag : nat -> bool.
Variable E : @env regex.

Lemma whole_corpus_pass_shape ks ac w ac' w' :
  NoDup (PyDict.keys ac) -> uniform ks ac ->
  whole_corpus_pass U stop_flag E ac w = (Val ac', w') ->
  PyDict.keys ac' = PyDict.keys ac
  /\ uniform (add_key "not_annotated_interest" (add_key "not annotated" ks)) ac'.
Proof.
  intros Hnd Hu H. unfold whole_corpus_pass in H.
  eapply (token_loop_uniform
            (fun ks => add_key "not_annotated_interest" (add_key "not annotated" ks)));
    [|eassumption|eassumption|exact H].
  clear. intros t ac w ac' w' H.
  bind_inv H.
  destruct (find_repetitions U (whole_corpus E) t (e_feat_regex E)
              (e_name_regex E) (e_speakers_of_interest E) None)
    as [[[wild_rep wild_rep_interest] ann_rep] wna].
  bind_inv H. bind_inv H. apply updates_setitem2 in Hm1.
  bind_inv H. apply updates_setitem2 in Hm2.
  bind_inv H. inversion H; subst.
  eapply updates_token_compose; eassumption.
Qed.

Lemma per_speaker_pass_shape ac w ac' w' :
  NoDup (PyDict.keys ac) -> (exists ks, uniform ks ac) ->
  per_speaker_pass U stop_flag E ac w = (Val ac', w') ->
  PyDict.keys ac' = PyDict.keys ac /\ exists ks, uniform ks ac'.
Proof.
  intros Hnd Hu H. unfold per_speaker_pass in H.
  eapply (for_each_invariant
            (fun s => PyDict.keys s = PyDict.keys ac /\ exists ks, uniform ks s));
    [|split; [reflexivity | exact Hu] | exact H].
  clear H. intros sp s w0 s' w0' (Hk & ks & Hus) H.
  set (F := fun ks => add_key (sp ++ " annotated")%string
                        (add_key (sp ++ " not annotated")%string
                           (add_key (sp ++ " annotated")%string
                              (add_key (sp ++ " not annotated")%string ks)))).
  assert (Hres : PyDict.keys s' = PyDict.keys s /\ uniform (F ks) s').
  { eapply (token_loop_uniform F); [| |exact Hus|exact H].
    - clear. intros t ac w ac' w' H. cbv beta in H.
      destruct (find_repetitions U (speaker_corpus U E sp) t (e_feat_regex E)
                  (e_name_regex E) (e_speakers_of_interest E) None)
        as [[[wild_rep wild_rep_interest] ann_rep] wna].
      bind_inv H. apply updates_init_if_absent in Hm.
      bind_inv H. apply updates_init_if_absent in Hm0.
      bind_inv H. apply updates_setitem2 in Hm1.
      bind_inv H. apply updates_setitem2 in Hm2.
      bind_inv H. inversion H; subst.
      unfold F.
      eapply (updates_token_compose _ (add_key (sp ++ " annotated")%string));
        [|eassumption].
      eapply (updates_token_compose _ (add_key (sp ++ " not annotated")%string));
        [|eassumption].
      eapply (updates_token_compose _ (add_key (sp ++ " annotated")%string));
        eassumption.
    - rewrite Hk. assumption. }
  destruct Hres as [Hk' Hu'].
  split; [congruence|]. exists (F ks). assumption.
Qed.

Lemma add_totals_shape ks ac w ac' w' :
  NoDup (PyDict.keys ac) -> uniform ks ac ->
  add_totals stop_flag E ac w = (Val ac', w') ->
  PyDict.keys ac' = PyDict.keys ac /\ exists ks', uniform ks' ac'.
Proof.
  intros Hnd Hu H. unfold add_totals in H.
  set (F := fun ks => fold_left (fun ks k => add_key k ks)
                        (speaker_columns (e_speakers_of_interest E))
                        (add_key "total" ks)).
  assert (Hres : PyDict.keys ac' = PyDict.keys ac /\ uniform (F ks) ac').
  { eapply (token_loop_uniform F); [|exact Hnd|exact Hu|exact H].
    clear. intros t ac w ac' w' H. cbv beta in H. apply add_totals_step in H.
    destruct H as (v & a & n & Hv & _ & _ & ->).
    eexists. eexists. split; [exact Hv|]. split; [reflexivity|].
    unfold F. rewrite keys_zero_keys, keys_set. reflexivity. }
  destruct Hres as [Hk' Hu'].
  split; [assumption|]. exists (F ks). assumption.
Qed.

Lemma NoDup_keys_Counter l : NoDup (PyDict.keys (Counter l)).
Proof.
  unfold Counter.
  assert (Hgen : forall (d : dict Z),
             NoDup (PyDict.keys d) ->
             NoDup (PyDict.keys
                      (fold_left
                         (fun d x =>
                            match PyDict.get x d with
                            | Some n => PyDict.set x (n + 1)%Z d
                            | None => PyDict.set x 1%Z d
                            end) l d))).
  { induction l as [|x l IH]; intros d Hd; cbn [fold_left]; [assumption|].
    apply IH. destruct (PyDict.get x d); rewrite keys_set; apply NoDup_add_key, Hd. }
  apply Hgen. constructor.
Qed.

Lemma initial_counter_shape :
  NoDup (PyDict.keys (initial_counter finditer U E))
  /\ uniform ["annotated"] (initial_counter finditer U E).
Proof.
  unfold initial_counter.
  set (C := Counter (map token_of_annotation (fst (collect_annotations finditer U E)))).
  split.
  - unfold PyDict.keys. rewrite map_map. cbn [fst]. apply (NoDup_keys_Counter _).
  - intros t v. induction C as [|[k n] C IH]; cbn.
    + discriminate.
    + destruct (String.eqb k t); [|exact IH].
      intros H. inversion H; subst. reflexivity.
Qed.

(** The statistics that leave the counting passes and the totals loop
    have distinct tokens, each with the same counters in the same
    order. *)
Lemma coverage_shape counted w w' :
  coverage finditer U stop_flag E w = (Val counted, w') ->
  NoDup (PyDict.keys (fst counted)) /\ exists ks, uniform ks (fst counted).
Proof.
  intros H. unfold coverage in H.
  bind_inv H. apply count_annotations_Val in Hm. subst a.
  destruct initial_counter_shape as [Hnd Hu].
  bind_inv H. destruct (whole_corpus_pass_shape _ _ _ _ _ Hnd Hu Hm) as [Hk1 Hu1].
  bind_inv H. bind_inv H. bind_inv H.
  rewrite <- Hk1 in Hnd.
  assert (Hex : exists ks, uniform ks a) by (eexists; exact Hu1).
  destruct (per_speaker_pass_shape _ _ _ _ Hnd Hex Hm2) as [Hk2 Hu2].
  inversion H; subst. cbn [fst]. split; [congruence | assumption].
Qed.

End PassShapes.

Lemma In_get {V} k (v : V) (d : dict V) :
  NoDup (PyDict.keys d) -> In (k, v) d -> PyDict.get k d = Some v.
Proof.
  induction d as [|[k' v'] d IH]; cbn; intros Hnd Hin.
  - contradiction.
  - inversion Hnd as [|? ? Hnotin Hnd']; subst.
    destruct Hin as [Heq|Hin].
    + inversion Heq; subst. rewrite String.eqb_refl. reflexivity.
    + destruct (String.eqb_spec k' k) as [->|Hne].
      * exfalso. apply Hnotin. change k with (fst (k, v)). apply in_map, Hin.
      * apply IH; assumption.
Qed.

Lemma get_list_index {V} k (d : dict V) :
  PyDict.get k d
  = match list_index k (PyDict.keys d) with
    | Some j => nth_error (PyDict.values d) j
    | None => None
    end.
Proof.
  induction d as [|[k' v'] d IH]; cbn.
  - reflexivity.
  - destruct (String.eqb k' k); [reflexivity|].
    rewrite IH. unfold PyDict.keys.
    destruct (list_index k (map fst d)); reflexivity.
Qed.

Lemma length_values_keys {V} (d : dict V) :
  length (PyDict.values d) = length (PyDict.keys d).
Proof. unfold PyDict.values, PyDict.keys. rewrite !length_map. reflexivity. Qed.

Lemma max_width_all n rows :
  rows <> [] -> Forall (fun r => length r = n) rows -> Pandas.max_width rows = n.
Proof.
  induction rows as [|r rows IH]; intros Hne Hall; [congruence|].
  inversion Hall; subst. unfold Pandas.max_width in *. cbn [fold_right].
  destruct rows as [|r' rows].
  - cbn. lia.
  - rewrite IH by (assumption || discriminate). lia.
Qed.

Lemma pad_full n r : length r = n -> Pandas.pad n r = r.
Proof.
  intros <-. unfold Pandas.pad. rewrite Nat.sub_diag. cbn. apply app_nil_r.
Qed.

(** The row of a token in [annotation_info]. *)
Lemma find_token_row token (ac : ann_counter) :
  find (fun r => match r with
                 | CStr k :: _ => String.eqb k token
                 | _ => false
                 end)
       (map (fun kv => CStr (fst kv) :: map CInt (PyDict.values (snd kv))) ac)
  = option_map (fun v => CStr token :: map CInt (PyDict.values v))
               (PyDict.get token ac).
Proof.
  induction ac as [|[k v] ac IH]; cbn.
  - reflexivity.
  - destruct (String.eqb_spec k token) as [->|Hne]; [reflexivity | exact IH].
Qed.

(** Lines 381-384 and 423-425: the statistics table has the counters of
    every token under their names. *)
Lemma annotation_info_cells ks (ac : ann_counter) w hr w1 w2 df w3 :
  NoDup (PyDict.keys ac) -> uniform ks ac ->
  annotation_info_of ac w = (Val hr, w1) ->
  Pandas.make (snd hr) (fst hr) w2 = (Val df, w3) ->
  forall token,
    cell_of token "token" df
    = option_map (fun _ => CStr token) (PyDict.get token ac)
    /\ forall label, label <> "token" ->
         cell_of token label df = option_map CInt (counter_of token label ac).
Proof.
  intros Hnd Hu Hai Hmk.
  unfold annotation_info_of in Hai. bind_inv Hai.
  apply or_raise_Val_inv in Hm. destruct Hm as [Hfirst ->].
  inversion Hai; subst hr w1. clear Hai. cbn [fst snd] in Hmk.
  destruct ac as [|[t0 v0] ac]; [discriminate|].
  cbn in Hfirst. inversion Hfirst; subst a.
  assert (Hk0 : PyDict.keys v0 = ks).
  { apply (Hu t0). cbn. rewrite String.eqb_refl. reflexivity. }
  set (rows := map (fun kv => CStr (fst kv) :: map CInt (PyDict.values (snd kv)))
                   ((t0, v0) :: ac)) in *.
  assert (Hrows : Forall (fun r => length r = S (length ks)) rows).
  { apply Forall_forall. intros r Hin. unfold rows in Hin.
    apply in_map_iff in Hin. destruct Hin as ([t v] & <- & Hin).
    cbn [fst snd length]. rewrite length_map, length_values_keys.
    rewrite (Hu t v (In_get _ _ _ Hnd Hin)). reflexivity. }
  apply make_Val in Hmk. destruct Hmk as [_ ->].
  rewrite (max_width_all (S (length ks)) rows) by (assumption || discriminate).
  assert (Hpad : map (Pandas.pad (S (length ks))) rows = rows).
  { rewrite <- (map_id rows) at 2. apply map_ext_in. intros r Hin.
    apply pad_full. rewrite Forall_forall in Hrows. apply Hrows, Hin. }
  rewrite Hpad. intros token. unfold cell_of. cbn [columns data].
  unfold rows. rewrite find_token_row. rewrite Hk0. split.
  - destruct (PyDict.get token ((t0, v0) :: ac)); reflexivity.
  - intros label Hne. cbn [list_index].
    destruct (String.eqb_spec "token" label) as [Heq|_]; [congruence|].
    unfold counter_of.
    destruct (PyDict.get token ((t0, v0) :: ac)) as [v|] eqn:Hg.
    + cbn [option_map]. rewrite get_list_index, (Hu token v Hg).
      destruct (list_index label ks) as [j|]; cbn; [|reflexivity].
      apply nth_error_map.
    + cbn. destruct (list_index label ks); reflexivity.
Qed.

(** ** The preprocessing of the files *)

(** Line 43: the comprehension gives the paragraphs of every file and
    adds to the log what [preprocess_corpus] sends for each of them. *)
Lemma preprocess_all {regex : Type} (U : dc_utils regex) (name_regex : regex)
      (corpus_dict : dict string) :
  forall w,
    map_M (fun kv =>
             v <- with_logger (preprocess_corpus U (snd kv) (fst kv) name_regex) ;;
             ret (fst kv, v))
          corpus_dict w
    = (Val (preprocessed U name_regex corpus_dict),
       logged_all (preprocess_messages U name_regex corpus_dict) w).
Proof.
  unfold preprocessed, preprocess_messages, logged_all.
  induction corpus_dict as [|kv cd IH]; intros w.
  - cbn. rewrite app_nil_r. destruct w; reflexivity.
  - cbn [map_M map flat_map]. unfold bind at 1 2. unfold with_logger at 1.
    unfold ret at 1. unfold bind at 1. rewrite IH. unfold ret. cbn [polls log].
    rewrite app_assoc. reflexivity.
Qed.

(** ** The statistics table of a completed run *)

Section CompletedRun.

Context {regex : Type}.
Variable re_compile : string -> option regex.
Variable finditer : regex -> string -> list rmatch.
Variable U : dc_utils regex.
Variable stop_flag : nat -> bool.

(** Lines 33-133: what the environment holds of the inputs. *)
Lemma prepare_env i corpus_dict speakers_variables ind dep w E w' :
  prepare re_compile U stop_flag i corpus_dict speakers_variables ind dep w
  = (Val E, w') ->
  e_speakers_of_interest E = map PyStr.strip (PyDict.keys speakers_variables)
  /\ e_speakers_variables E = speakers_variables
  /\ e_previous_line E = in_previous_line i
  /\ e_csv_header E = csv_header_of (in_previous_line i) ind dep
  /\ e_idv E = inverse_index (variable_dict_of ind dep).
Proof.
  unfold prepare. intros H.
  do 11 (apply bind_Val_inv in H; destruct H as (? & ? & _ & H)).
  inversion H; subst E. cbn. repeat split; reflexivity.
Qed.

(** The table [annotation_info] of a bundle shows the statistics that
    leave the totals loop. *)
Lemma run_statistics i corpus_dict speakers_variables ind dep w b w' :
  generate_dataset re_compile finditer U stop_flag
                   i corpus_dict speakers_variables ind dep w = (Val b, w') ->
  exists (E : @env regex) (counted : ann_counter * na_log) (ac : ann_counter)
         w0 w1 w2 w3,
    prepare re_compile U stop_flag i corpus_dict speakers_variables ind dep w
    = (Val E, w0)
    /\ coverage finditer U stop_flag E w0 = (Val counted, w1)
    /\ add_totals stop_flag E (fst counted) w2 = (Val ac, w3)
    /\ forall token,
         (cell_of token "token" (annotation_info b) = Some (CStr token) ->
          In token (PyDict.keys (fst counted)))
         /\ forall label, label <> "token" ->
              cell_of token label (annotation_info b)
              = option_map CInt (counter_of token label ac).
Proof.
  unfold generate_dataset, passes. intros H.
  bind_inv H. bind_inv H. bind_inv H. bind_as H u0 wu Hlog. bind_inv H.
  destruct (coverage_shape _ _ _ _ _ _ _ Hm0) as (Hnd & ks & Hu).
  destruct (add_totals_shape _ _ _ _ _ _ _ Hnd Hu Hm1) as (Hk & ks' & Hu').
  rewrite <- Hk in Hnd.
  exists a, a0, a1, w0, w1, w1, w2.
  split; [assumption|]. split; [assumption|]. split; [assumption|].
  unfold finish in H. destruct a2 as [csv_file unk].
  bind_inv H. bind_inv H. bind_inv H. bind_inv H. bind_inv H. bind_inv H.
  bind_inv H. bind_inv H. bind_inv H. inversion H; subst b. cbn [annotation_info].
  intros token.
  destruct (annotation_info_cells _ _ _ _ _ _ _ _ Hnd Hu' Hm3 Hm8 token) as [Htok Hlab].
  split; [|exact Hlab].
  rewrite Htok. intros Hsome. rewrite <- Hk. apply mem_In_keys.
  unfold PyDict.mem. destruct (PyDict.get token a1); [reflexivity | discriminate].
Qed.

(** Whatever the per-speaker pass has counted, the returned table has 0
    in the two columns of every declared speaker of interest. *)
Lemma returned_speaker_columns_are_zero
      i corpus_dict speakers_variables ind dep w b w' :
  generate_dataset re_compile finditer U stop_flag
                   i corpus_dict speakers_variables ind dep w = (Val b, w') ->
  forall token speaker,
    cell_of token "token" (annotation_info b) = Some (CStr token) ->
    In speaker (map PyStr.strip (PyDict.keys speakers_variables)) ->
    cell_of token (speaker ++ " annotated") (annotation_info b) = Some (CInt 0)
    /\ cell_of token (speaker ++ " not annotated") (annotation_info b)
       = Some (CInt 0).
Proof.
  intros H token speaker Htok Hsp.
  destruct (run_statistics _ _ _ _ _ _ _ _ H)
    as (E & counted & ac & w0 & w1 & w2 & w3 & Hprep & _ & Htot & Hcells).
  destruct (Hcells token) as [Hin Hlab].
  apply prepare_env in Hprep. destruct Hprep as (Hsoi & _).
  rewrite <- Hsoi in Hsp.
  destruct (add_totals_zeroes_speaker_columns _ _ _ _ _ _ Htot token speaker
              (Hin Htok) Hsp) as [Ha Hn].
  assert (Hne : forall s, (speaker ++ s)%string = "token" -> String.length s <= 5).
  { intros s Hs. apply (f_equal String.length) in Hs.
    rewrite length_append_string in Hs. cbn in Hs. lia. }
  split.
  - rewrite Hlab, Ha; [reflexivity|]. intros Hc. apply Hne in Hc. cbn in Hc. lia.
  - rewrite Hlab, Hn; [reflexivity|]. intros Hc. apply Hne in Hc. cbn in Hc. lia.
Qed.

(** Unless a declared speaker of interest is called "not", the total of
    every row of the returned table is the sum of its annotated and not
    annotated columns. *)
Lemma returned_total_is_sum i corpus_dict speakers_variables ind dep w b w' :
  generate_dataset re_compile finditer U stop_flag
                   i corpus_dict speakers_variables ind dep w = (Val b, w') ->
  ~ In "not" (map PyStr.strip (PyDict.keys speakers_variables)) ->
  forall token,
    cell_of token "token" (annotation_info b) = Some (CStr token) ->
    exists a n,
      cell_of token "annotated" (annotation_info b) = Some (CInt a)
      /\ cell_of token "not annotated" (annotation_info b) = Some (CInt n)
      /\ cell_of token "total" (annotation_info b) = Some (CInt (a + n)).
Proof.
  intros H Hnot token Htok.
  destruct (run_statistics _ _ _ _ _ _ _ _ H)
    as (E & counted & ac & w0 & w1 & w2 & w3 & Hprep & _ & Htot & Hcells).
  destruct (Hcells token) as [Hin Hlab].
  apply prepare_env in Hprep. destruct Hprep as (Hsoi & _).
  rewrite <- Hsoi in Hnot.
  destruct (add_totals_total_is_sum _ _ _ _ _ _ Htot Hnot token (Hin Htok))
    as (a & n & Ha & Hn & Ht).
  exists a, n.
  rewrite !Hlab by discriminate. rewrite Ha, Hn, Ht. auto.
Qed.

End CompletedRun.

(** ** The table of the main loop *)

Section MainLoopRows.

Context {regex : Type}.
Variable finditer : regex -> string -> list rmatch.
Variable U : dc_utils regex.
Variable stop_flag : nat -> bool.
Variable E : @env regex.

Lemma process_paragraph_rows ac file_path file_speakers corpus idx acc w acc' w' :
  process_paragraph finditer U stop_flag E ac file_path file_speakers corpus idx acc w
  = (Val acc', w') ->
  exists rows,
    fst acc' = fst acc ++ rows /\ forall row, In row rows -> built_row U E row.
Proof.
  unfold process_paragraph. intros H. bind_inv H. bind_inv H.
  destruct (PyStr.mem (get_name U a0 (e_name_regex E)) (e_speakers_of_interest E)).
  - bind_inv H.
    logger_inv H.
    destruct (fst (remove_features U a0 (e_square_regex E))) as [clean_p wrong_tags].
    apply process_tags_Val in H. destruct H as (rows & Hrows & Hall).
    exists rows. split; [assumption|].
    intros row Hin. destruct (Hall row Hin) as (index & t & unk & w3 & unk' & w4 & Hrow).
    repeat eexists. exact Hrow.
  - inversion H; subst. exists []. rewrite app_nil_r. split; [reflexivity|].
    intros row [].
Qed.

(** Lines 291-375: the table is the header followed by rows that
    [build_row] made. *)
Lemma main_loop_rows ac w acc w' :
  main_loop finditer U stop_flag E ac w = (Val acc, w') ->
  exists rows,
    fst acc = e_csv_header E :: rows /\ forall row, In row rows -> built_row U E row.
Proof.
  unfold main_loop.
  apply (for_each_invariant
           (fun acc => exists rows,
                fst acc = e_csv_header E :: rows
                /\ forall row, In row rows -> built_row U E row)).
  - intros kv s w0 s' w0' Hs H. cbv beta zeta in H. bind_inv H.
    revert Hs H.
    apply (for_each_invariant
             (fun acc => exists rows,
                  fst acc = e_csv_header E :: rows
                  /\ forall row, In row rows -> built_row U E row)).
    intros idx s1 w2 s1' w2' (rows & Hrows & Hall) H.
    apply process_paragraph_rows in H. destruct H as (rows' & Hrows' & Hall').
    exists (rows ++ rows'). split.
    + rewrite Hrows', Hrows. reflexivity.
    + intros row Hin. apply in_app_or in Hin. destruct Hin; auto.
  - exists []. split; [reflexivity|]. intros row [].
Qed.

End MainLoopRows.

(** With no annotated token at all the three sums are 0 and the log
    line divides 0 by 0, whatever the helpers do. *)
Lemma empty_inventory_divides_by_zero {regex : Type}
      (finditer : regex -> string -> list rmatch) (U : dc_utils regex)
      (stop_flag : nat -> bool) (E : @env regex) (w : world) :
  initial_counter finditer U E = [] ->
  exists w', coverage finditer U stop_flag E w = (Raise ZeroDivisionError, w').
Proof.
  intros Hempty.
  assert (Hcount : exists w1, count_annotations finditer U E w = (Val [], w1)).
  { unfold count_annotations. rewrite Hempty.
    destruct (negb (PyStr.strip (snd (collect_annotations finditer U E)) =? "")%string);
      cbn; eexists; reflexivity. }
  destruct Hcount as [w1 Hcount]. exists w1. unfold coverage.
  rewrite (bind_Val _ _ _ _ _ Hcount).
  assert (Hwhole : whole_corpus_pass U stop_flag E [] w1 = (Val [], w1))
    by reflexivity.
  rewrite (bind_Val _ _ _ _ _ Hwhole).
  apply bind_Raise. eapply report_divides_by_zero; reflexivity.
Qed.

(** * The claims on concrete runs *)

Section Closed.

Import Runs.

(** C1. The per-speaker pass counts, in JOHN's paragraphs, one
    annotated and one unannotated occurrence of "cats"; the table that
    the run returns has 0 in both columns of JOHN, because the loop of
    lines 275-277 sets them to 0 after the pass. *)
Theorem per_speaker_counts_are_returned_as_zero :
  exists ac b,
    counted corpus_john speakers_john independent dependent = Some ac
    /\ counter_of "cats" "JOHN annotated" ac = Some 1%Z
    /\ counter_of "cats" "JOHN not annotated" ac = Some 1%Z
    /\ Sample.run Sample.never false corpus_john speakers_john independent dependent
       = ResultBundle b
    /\ cell_of "cats" "JOHN annotated" (annotation_info b) = Some (CInt 0)
    /\ cell_of "cats" "JOHN not annotated" (annotation_info b) = Some (CInt 0).
Proof.
  eexists. eexists.
  split; [vm_compute; reflexivity|].
  split; [reflexivity|]. split; [reflexivity|].
  split; [vm_compute; reflexivity|].
  split; reflexivity.
Qed.

(** C2. With a speaker of interest called "not", the column
    "not annotated" is also the column "<speaker> annotated" of that
    speaker: it is set to 0 after the total was computed, and the
    returned row has annotated = 1, not annotated = 0 and total = 2. *)
Theorem total_differs_for_speaker_named_not :
  exists b,
    Sample.run Sample.never false corpus_not speakers_not independent dependent
    = ResultBundle b
    /\ cell_of "cats" "annotated" (annotation_info b) = Some (CInt 1)
    /\ cell_of "cats" "not annotated" (annotation_info b) = Some (CInt 0)
    /\ cell_of "cats" "total" (annotation_info b) = Some (CInt 2)
    /\ (2 <> 1 + 0)%Z.
Proof.
  eexists.
  split; [vm_compute; reflexivity|].
  split; [reflexivity|]. split; [reflexivity|]. split; [reflexivity | lia].
Qed.

(** C3. When the summed "not annotated" is 0 the percentage of the log
    line divides by it and the run ends with ZeroDivisionError instead
    of reporting 0: so it is for a corpus without any tag, where all the
    sums are 0, and for a corpus in which every occurrence of the token
    is annotated. *)
Theorem zero_not_annotated_run_fails :
  (counted_before_report corpus_no_tag speakers_john independent dependent = Some []
   /\ Sample.run Sample.never false corpus_no_tag speakers_john
                 independent dependent
      = ResultError ZeroDivisionError)
  /\ (exists ac,
        counted_before_report corpus_all_annotated speakers_john
                              independent dependent = Some ac
        /\ PyDict.keys ac = ["cats"]
        /\ counter_of "cats" "not annotated" ac = Some 0%Z
        /\ Sample.run Sample.never false corpus_all_annotated speakers_john
                      independent dependent
           = ResultError ZeroDivisionError).
Proof.
  split.
  - split; vm_compute; reflexivity.
  - eexists. split; [vm_compute; reflexivity|].
    split; [reflexivity|]. split; [reflexivity|]. vm_compute. reflexivity.
Qed.

(** C4. A match whose last component is not a token of the inventory
    is not skipped: the warning is sent to [logger.waring], which the
    logger does not have, and the run ends with AttributeError instead
    of returning the bundle. *)
Theorem skipped_match_ends_the_run :
  Sample.run Sample.never false corpus_malformed speakers_john independent dependent
  = ResultError (AttributeError "waring").
Proof. vm_compute. reflexivity. Qed.

(** C5, the claim as stated fails: the token value "m" is declared first
    under "gender" and then under "form"; the inverse index gives it to
    "form", and no warning is logged. *)
Lemma first_seen_category_does_not_win :
  first_category "m" (variable_dict_of independent_m dependent_m) = Some "gender"
  /\ PyDict.get "m" (inverse_index (variable_dict_of independent_m dependent_m))
     = Some "form"
  /\ warn_duplicates independent_m dependent_m fresh_world = (Val tt, fresh_world).
Proof. repeat split; reflexivity. Qed.

Lemma inverse_index_last_category_wins_witness :
  PyDict.get "m" (inverse_index (variable_dict_of independent_m dependent_gender))
  = last_category "m" (variable_dict_of independent_m dependent_gender)
  /\ exists msg,
      warn_duplicates independent_m dependent_gender fresh_world
      = (Val tt, logged Warning msg fresh_world)
      /\ In (PStr "gender") msg.
Proof.
  destruct (inverse_index_last_category_wins independent_m dependent_gender)
    as (Hidx & Hwarn & _).
  - repeat constructor. cbn. tauto.
  - repeat constructor. cbn. tauto.
  - split; [apply Hidx|].
    destruct (Hwarn fresh_world) as (msg & Hw & Hin).
    + exists "gender". split; reflexivity.
    + exists msg. split; [exact Hw | apply Hin; reflexivity].
Defined.

(** C6, the claim as stated fails: JOHN has the value "male" of the
    category "gender"; the tag has the component "female" of the same
    category, and the row holds "female". *)
Lemma speaker_value_is_replaced :
  exists E b,
    env_of false corpus_female speakers_john independent dependent = Some E
    /\ PyDict.get "male" (e_idv E) = Some "gender"
    /\ PyDict.get "female" (e_idv E) = Some "gender"
    /\ speaker_values E "JOHN" = ["male"]
    /\ Sample.run Sample.never false corpus_female speakers_john independent dependent
       = ResultBundle b
    /\ Pandas.values "speaker" (dataset b) = Some [CStr "JOHN"]
    /\ Pandas.values "gender" (dataset b) = Some [CStr "female"].
Proof.
  eexists. eexists.
  split; [vm_compute; reflexivity|].
  split; [reflexivity|]. split; [reflexivity|]. split; [reflexivity|].
  split; [vm_compute; reflexivity|].
  split; reflexivity.
Qed.

(** C7, the claim as stated fails: the dataset has the file of its row,
    the binary dataset has no file column. *)
Lemma file_column_is_not_attached :
  exists b,
    Sample.run Sample.never false corpus_john speakers_john independent dependent
    = ResultBundle b
    /\ Pandas.values "file" (dataset b) = Some [CStr "f1"]
    /\ Pandas.values "file" (binary_dataset b) = None
    /\ ~ In "file" (columns (binary_dataset b)).
Proof.
  eexists.
  split; [vm_compute; reflexivity|].
  split; [reflexivity|]. split; [reflexivity|].
  cbn. intros H. repeat (destruct H as [H|H]; [discriminate|]). exact H.
Qed.

Lemma cancelled_run_returns_sentinel_witness :
  Sample.run stop_at_main_loop false corpus_mary speakers_john independent dependent
  = ResultNone.
Proof.
  apply (cancelled_run_returns_sentinel
           Sample.pattern Sample.re_compile Sample.finditer Sample.utils
           stop_at_main_loop (Sample.sample_inputs false) corpus_mary
           independent dependent speakers_john).
  exists 5. split; [vm_compute; lia | reflexivity].
Defined.

(** C9, the claim as stated fails: the log of the per-file pass has the
    empty map for its one file, and the run, whose flag is set when the
    main loop starts, ends with the sentinel and not as a failure. *)
Lemma empty_log_run_is_cancelled :
  file_log stop_at_main_loop corpus_mary speakers_john independent dependent
  = Some [("f1", [])]
  /\ Sample.run stop_at_main_loop false corpus_mary speakers_john
                independent dependent
     = ResultNone
  /\ forall e, ResultNone <> ResultError e.
Proof.
  split; [vm_compute; reflexivity|].
  split; [vm_compute; reflexivity|].
  intros e. discriminate.
Qed.

Lemma empty_log_run_fails_unless_cancelled_witness :
  file_log Sample.never corpus_mary speakers_john independent dependent
  = Some [("f1", [])]
  /\ exists e,
      Sample.run Sample.never false corpus_mary speakers_john independent dependent
      = ResultError e.
Proof.
  split; [vm_compute; reflexivity|].
  destruct (empty_log_run_fails_unless_cancelled
              Sample.pattern Sample.re_compile Sample.finditer Sample.utils
              Sample.never (Sample.sample_inputs false) corpus_mary
              independent dependent speakers_john) as (_ & Hfail & _).
  - intros E w H. vm_compute in H. inversion H; subst E.
    intros kv [<-|[]] token Htoken. vm_compute in Htoken.
    destruct Htoken as [<-|[]]. vm_compute. reflexivity.
  - apply Hfail. intros k _. reflexivity.
Defined.

Lemma first_paragraph_previous_line_is_last_witness :
  exists acc' w',
    process_paragraph Sample.finditer Sample.utils Sample.never env_john
      one_token_counter "f1" ["JOHN"; "MARY"] paragraphs_john 0
      ([e_csv_header env_john], []) fresh_world
    = (Val acc', w')
    /\ nth_error (e_csv_header env_john) (length (e_csv_header env_john) - 6)
       = Some "previous line"
    /\ exists rows,
        fst acc' = [e_csv_header env_john] ++ rows
        /\ forall row, In row rows ->
             nth_error row (length (e_csv_header env_john) - 6)
             = Some (last paragraphs_john "").
Proof.
  eexists. eexists. split; [vm_compute; reflexivity|].
  eapply (first_paragraph_previous_line_is_last
           Sample.pattern Sample.finditer Sample.utils Sample.never env_john
           independent dependent one_token_counter "f1" ["JOHN"; "MARY"]
           paragraphs_john ([e_csv_header env_john], []) _ fresh_world _).
  - reflexivity.
  - reflexivity.
  - vm_compute. reflexivity.
Defined.

Lemma tag_component_replaces_speaker_value_witness :
  exists csv_line unk' w',
    build_row Sample.utils env_female "f1" ["JOHN"]
      "JOHN: I like [$female.animal.cats] and cats" "JOHN"
      "JOHN: I like [$female.animal.cats] and cats" 13 "female.animal.cats"
      [] fresh_world
    = (Val (csv_line, unk'), w')
    /\ last_in_column env_female 2 (speaker_values env_female "JOHN") = Some "male"
    /\ last_in_column env_female 2 (tag_components "female.animal.cats")
       = Some "female"
    /\ nth_error csv_line 2 = Some "female".
Proof.
  eexists. eexists. eexists. split; [vm_compute; reflexivity|].
  split; [reflexivity|]. split; [reflexivity|].
  eapply (tag_component_replaces_speaker_value
           Sample.pattern Sample.utils env_female "f1" ["JOHN"]
           "JOHN: I like [$female.animal.cats] and cats" "JOHN"
           "JOHN: I like [$female.animal.cats] and cats" 13 "female.animal.cats"
           [] fresh_world _ _ _ eq_refl 2).
  - lia.
  - vm_compute. lia.
Defined.

Lemma binary_dataset_keeps_token_and_context_witness :
  exists b w',
    finish one_token_counter one_file_log (one_row_table, []) fresh_world
    = (Val b, w')
    /\ labelled_columns (binary_dataset b)
       = [("kind:animal", [CBool true]); ("speaker:JOHN", [CBool true]);
          ("interlocutor/s:MARY", [CBool true]);
          ("token", [CStr "cats"]); ("context", [CStr "I like cats"])]
    /\ Pandas.values "token" (binary_dataset b) = Some [CStr "cats"]
    /\ Pandas.values "context" (binary_dataset b) = Some [CStr "I like cats"]
    /\ Pandas.values "file" (binary_dataset b) = None
    /\ Pandas.values "unk" (binary_dataset b) = None.
Proof.
  eexists. eexists. split; [vm_compute; reflexivity|].
  destruct (binary_dataset_keeps_token_and_context
              one_token_counter one_file_log one_row_table [] fresh_world _ _ eq_refl)
    as ((tokens & ctx & Ht & Hc & Hcols & Ht' & Hc') & _ & _ & _ & _ & Hfile & _ & Hunk).
  vm_compute in Ht. vm_compute in Hc.
  inversion Ht; subst tokens. inversion Hc; subst ctx.
  split; [etransitivity; [exact Hcols | vm_compute; reflexivity]|].
  split; [exact Ht'|]. split; [exact Hc'|]. split; assumption.
Defined.

End Closed.

(** * Further properties of the engine *)

(** ** The checkpoints of a run *)

Section Checkpoints.

Context {regex : Type}.
Variable re_compile : string -> option regex.
Variable finditer : regex -> string -> list rmatch.
Variable U : dc_utils regex.
Variable stop_flag : nat -> bool.

Lemma pollfree_bind_Val {A B} (m : M A) (f : A -> M B) w b w' :
  pollfree m -> bind m f w = (Val b, w') ->
  exists a w1, polls w1 = polls w /\ f a w1 = (Val b, w').
Proof.
  intros Hm H. bind_inv H. destruct (Hm _ _ _ Hm0) as [Hp _].
  exists a, w0. auto.
Qed.

(** Lines 33-133: the first part makes one poll, its last step. *)
Lemma prepare_polls i corpus_dict speakers_variables ind dep w E w' :
  prepare re_compile U stop_flag i corpus_dict speakers_variables ind dep w
  = (Val E, w') ->
  polls w' = S (polls w) /\ stop_flag (polls w) = false.
Proof.
  unfold prepare, compile, warn_duplicates. intros H.
  do 10 (apply pollfree_bind_Val in H;
         [destruct H as (? & ? & Hp & H); rewrite <- Hp; clear Hp | gate]).
  bind_inv H. inversion H; subst. unfold check_stop in Hm.
  match type of Hm with
  | context [stop_flag (polls ?w0)] =>
      destruct (stop_flag (polls w0)) eqn:Es; [cbn in Hm; discriminate|]
  end.
  inversion Hm; subst. cbn. auto.
Qed.


Lemma generate_dataset_Val_polls i corpus_dict speakers_variables ind dep w b w' :
  generate_dataset re_compile finditer U stop_flag
                   i corpus_dict speakers_variables ind dep w = (Val b, w') ->
  polls w < polls w'.
Proof.
  unfold generate_dataset. intros H. bind_inv H.
  destruct (prepare_polls _ _ _ _ _ _ _ _ Hm) as [Hp _].
  assert (Hpasses : gate_ok stop_flag (passes finditer U stop_flag a)).
  { unfold passes.
    apply gate_ok_bind; [apply gate_ok_coverage | intros counted].
    apply gate_ok_bind; [apply gate_ok_add_totals | intros ac].
    apply gate_ok_bind; [apply pollfree_gate_ok, pollfree_logger_call | intros _].
    apply gate_ok_bind; [apply gate_ok_main_loop | intros acc].
    apply pollfree_gate_ok, pollfree_finish. }
  destruct (Hpasses _ _ _ H) as (Hle & _). lia.
Qed.

(** X1. The sentinel is returned only from a checkpoint: a run that ends
    with [None] has polled the stop flag, its last poll saw the flag set
    and every poll before it saw the flag clear. *)
Theorem sentinel_only_when_flag_observed :
  forall (i : inputs) (corpus_dict : dict string)
         (independent_variables dependent_variables : dict var_value)
         (speakers : dict (list string)),
    DCThread_run re_compile finditer U stop_flag i corpus_dict
                 independent_variables dependent_variables speakers
    = ResultNone ->
    let n := polls_made re_compile finditer U stop_flag i corpus_dict
                        independent_variables dependent_variables speakers in
    0 < n /\ stop_flag (pred n) = true
    /\ forall k, k < pred n -> stop_flag k = false.
Proof.
  intros i corpus_dict ind dep speakers. unfold DCThread_run, polls_made.
  destruct (generate_dataset re_compile finditer U stop_flag i corpus_dict
                             speakers ind dep fresh_world) as [r w'] eqn:Hrun.
  destruct r as [b| |e]; try discriminate. intros _. cbn [snd].
  destruct (gate_ok_generate_dataset re_compile finditer U stop_flag
              i corpus_dict speakers ind dep _ _ _ Hrun) as (_ & _ & Hcan).
  destruct (Hcan eq_refl) as (Hlt & Hlast & Hbefore). cbn in Hlt.
  split; [lia|]. split; [assumption|].
  intros k Hk. apply Hbefore. cbn. lia.
Qed.

(** X2. When [stop()] was called before the thread runs, the flag is set at
    the first poll: the run returns the sentinel after that single poll,
    or it has failed before reaching it (a pattern that does not
    compile, an empty corpus); it never returns a bundle. *)
Theorem stopped_before_start :
  forall (i : inputs) (corpus_dict : dict string)
         (independent_variables dependent_variables : dict var_value)
         (speakers : dict (list string)),
    stop_flag 0 = true ->
    let n := polls_made re_compile finditer U stop_flag i corpus_dict
                        independent_variables dependent_variables speakers in
    let r := DCThread_run re_compile finditer U stop_flag i corpus_dict
                          independent_variables dependent_variables speakers in
    (r = ResultNone /\ n = 1) \/ (exists e, r = ResultError e /\ n = 0).
Proof.
  intros i corpus_dict ind dep speakers Hset. unfold DCThread_run, polls_made.
  destruct (generate_dataset re_compile finditer U stop_flag i corpus_dict
                             speakers ind dep fresh_world) as [r w'] eqn:Hrun.
  cbn [snd].
  destruct (gate_ok_generate_dataset re_compile finditer U stop_flag
              i corpus_dict speakers ind dep _ _ _ Hrun) as (_ & Hval & Hcan).
  cbn in Hval, Hcan.
  destruct r as [b| |e].
  - exfalso. pose proof (generate_dataset_Val_polls _ _ _ _ _ _ _ _ Hrun) as Hlt.
    cbn in Hlt. rewrite Hval in Hset; [discriminate | discriminate | lia].
  - left. split; [reflexivity|].
    destruct (Hcan eq_refl) as (Hlt & _ & Hbefore).
    destruct (polls w') as [|[|n]]; [lia | reflexivity |].
    rewrite Hbefore in Hset; [discriminate | cbn; lia].
  - right. exists e. split; [reflexivity|].
    destruct (polls w') as [|n]; [reflexivity|].
    rewrite Hval in Hset; [discriminate | discriminate | lia].
Qed.

End Checkpoints.

(** ** Before the first checkpoint *)

(** X4. Lines 36-52: when the three patterns compile and the preprocessing
    leaves no paragraph in any file, the run logs its start, then what
    [preprocess_corpus] sends to the logger for each file, then the
    error; it polls nothing and fails with "The corpus is empty!". *)
Theorem empty_corpus_fails :
  forall (regex : Type) (re_compile : string -> option regex)
         (finditer : regex -> string -> list rmatch) (U : dc_utils regex)
         (stop_flag : nat -> bool) (i : inputs) (corpus_dict : dict string)
         (independent_variables dependent_variables : dict var_value)
         (speakers : dict (list string))
         (square_regex feat_regex name_regex : regex) (w : world),
    re_compile (in_square_regex i) = Some square_regex ->
    re_compile (in_feat_regex i) = Some feat_regex ->
    re_compile (in_name_regex i) = Some name_regex ->
    (forall kv, In kv corpus_dict ->
                fst (preprocess_corpus U (snd kv) (fst kv) name_regex) = []) ->
    generate_dataset re_compile finditer U stop_flag i corpus_dict speakers
                     independent_variables dependent_variables w
    = (Raise (ValueError "The corpus is empty!"),
       logged Error
         [PStr "All the paragraphs in the corpus have been deleted! You should review your regex rules"]
         (logged_all (preprocess_messages U name_regex corpus_dict)
            (logged Info [PStr "Starting dataset generation"] w))).
Proof.
  intros regex re_compile finditer U stop_flag i corpus_dict ind dep speakers
         square_regex feat_regex name_regex w Hsq Hfeat Hname Hempty.
  assert (Hcorpus :
            concat (PyDict.values (preprocessed U name_regex corpus_dict)) = []).
  { unfold PyDict.values, preprocessed. rewrite map_map. cbn [snd].
    induction corpus_dict as [|kv cd IH]; [reflexivity|].
    cbn [map concat]. rewrite (Hempty kv (or_introl eq_refl)).
    apply IH. intros kv' Hin. apply Hempty. right. assumption. }
  unfold generate_dataset, prepare, compile. rewrite Hsq, Hfeat, Hname.
  apply bind_Raise.
  do 4 (erewrite bind_Val by reflexivity).
  erewrite bind_Val by apply preprocess_all.
  cbv beta zeta. rewrite Hcorpus. cbn [length Nat.eqb].
  apply bind_Raise. erewrite bind_Val by reflexivity. reflexivity.
Qed.

(** ** The header and the inverse index *)

Lemma In_insert_sorted x y l : In y (PyStr.insert_sorted x l) <-> y = x \/ In y l.
Proof.
  induction l as [|z l IH]; cbn.
  - intuition congruence.
  - destruct (String.leb x z); cbn; [intuition congruence|].
    rewrite IH. intuition congruence.
Qed.

Lemma In_sorted y l : In y (PyStr.sorted l) <-> In y l.
Proof.
  unfold PyStr.sorted. induction l as [|x l IH]; cbn; [tauto|].
  rewrite In_insert_sorted, IH. intuition congruence.
Qed.

Lemma length_insert_sorted x l : length (PyStr.insert_sorted x l) = S (length l).
Proof.
  induction l as [|z l IH]; cbn; [reflexivity|].
  destruct (String.leb x z); cbn; [reflexivity | rewrite IH; reflexivity].
Qed.

Lemma length_sorted l : length (PyStr.sorted l) = length l.
Proof.
  unfold PyStr.sorted. induction l as [|x l IH]; cbn; [reflexivity|].
  rewrite length_insert_sorted, IH. reflexivity.
Qed.

Lemma last_category_declares x vd c :
  last_category x vd = Some c ->
  exists v, In (c, v) vd /\ value_mem x v = true.
Proof.
  induction vd as [|[k v] vd IH]; cbn; [discriminate|].
  destruct (last_category x vd) as [c'|].
  - intros H. inversion H; subst. destruct (IH eq_refl) as (v' & Hin & Hv).
    exists v'. auto.
  - destruct (value_mem x v) eqn:Ev; [|discriminate].
    intros H. inversion H; subst. exists v. auto.
Qed.

Lemma last_category_complete x vd c v :
  In (c, v) vd -> value_mem x v = true -> last_category x vd <> None.
Proof.
  induction vd as [|[k v'] vd IH]; cbn; [contradiction|].
  intros [Heq|Hin] Hv.
  - inversion Heq; subst. destruct (last_category x vd); [discriminate|].
    rewrite Hv. discriminate.
  - specialize (IH Hin Hv). destruct (last_category x vd); [discriminate | congruence].
Qed.

(** X6. Lines 102-109: the inverse index is defined exactly on the token
    values that some category of the merged dictionary declares, and it
    gives each of them a category that declares it. *)
Theorem inverse_index_sound_and_complete :
  forall (vd : dict var_value) (x : string),
    (forall c, PyDict.get x (inverse_index vd) = Some c ->
               exists v, In (c, v) vd /\ value_mem x v = true)
    /\ ((exists c v, In (c, v) vd /\ value_mem x v = true) ->
        PyDict.get x (inverse_index vd) <> None).
Proof.
  intros vd x. rewrite inverse_index_last. split.
  - intros c. apply last_category_declares.
  - intros (c & v & Hin & Hv). eapply last_category_complete; eassumption.
Qed.

Lemma keys_merge_In {V} k (a b : dict V) :
  In k (PyDict.keys (PyDict.merge a b)) <-> In k (PyDict.keys a) \/ In k (PyDict.keys b).
Proof.
  rewrite <- !mem_In_keys, mem_merge. apply orb_true_iff.
Qed.

Lemma list_index_in_prefix x l1 l2 :
  In x l1 -> exists c, list_index x (l1 ++ l2) = Some c /\ c < length l1.
Proof.
  intros Hin. destruct (list_index_In _ _ Hin) as [c Hc].
  exists c. split; [apply list_index_app_l, Hc | apply (list_index_Some _ _ _ Hc)].
Qed.

(** X7. Lines 119-127 and 336-338, 356-358: every category that the inverse
    index can return is a label of the header, and the first column with
    that label lies before the fixed columns at the end of the row; so
    [csv_header.index(category)] never fails and a category never
    overwrites speaker, interlocutors, file, context, unk or the
    previous line. *)
Theorem resolved_category_has_a_column :
  forall (previous_line : bool) (ind dep : dict var_value)
         (value category : string),
    PyDict.get value (inverse_index (variable_dict_of ind dep)) = Some category ->
    exists c,
      list_index category (csv_header_of previous_line ind dep) = Some c
      /\ c + (if previous_line then 6 else 5)
         < length (csv_header_of previous_line ind dep).
Proof.
  intros pl ind dep value category H.
  rewrite inverse_index_last in H. apply last_category_declares in H.
  destruct H as (v & Hin & _).
  assert (Hk : In category (PyDict.keys (variable_dict_of ind dep))).
  { change category with (fst (category, v)). apply in_map, Hin. }
  apply keys_merge_In in Hk.
  unfold csv_header_of.
  set (cats := PyStr.sorted (PyDict.keys dep) ++ PyStr.sorted (PyDict.keys ind)).
  assert (Hc : In category ("token" :: cats)).
  { right. unfold cats. apply in_or_app.
    destruct Hk as [Hk|Hk]; [right | left]; apply In_sorted, Hk. }
  change (["token"] ++ cats ++ ?e) with (("token" :: cats) ++ e).
  destruct (list_index_in_prefix category ("token" :: cats)
              (if pl then "previous line" :: ["speaker"; "interlocutor/s"; "file"; "context"; "unk"]
               else ["speaker"; "interlocutor/s"; "file"; "context"; "unk"]) Hc)
    as (c & Hidx & Hlt).
  exists c. split; [exact Hidx|].
  rewrite length_app. destruct pl; cbn [length] in *; lia.
Qed.

(** ** The cells of a row *)

Lemma list_remove_Some x l l' :
  PyStr.list_remove x l = Some l' ->
  In x l /\ length l = S (length l')
  /\ (forall y, y <> x -> (In y l' <-> In y l))
  /\ (NoDup l -> ~ In x l' /\ NoDup l').
Proof.
  revert l'. induction l as [|z l IH]; cbn; intros l' H; [discriminate|].
  destruct (String.eqb_spec z x) as [->|Hne].
  - inversion H; subst. split; [auto|]. split; [reflexivity|]. split.
    + intros y Hy. split; [auto | intros [?|?]; [congruence | assumption]].
    + intros Hnd. inversion Hnd; subst. auto.
  - destruct (PyStr.list_remove x l) as [l0|]; [|discriminate].
    inversion H; subst. destruct (IH l0 eq_refl) as (Hin & Hlen & Hiff & Hnd).
    split; [auto|]. split; [cbn; lia|]. split.
    + intros y Hy. cbn. rewrite (Hiff y Hy). tauto.
    + intros Hnd'. inversion Hnd' as [|? ? Hz Hl]; subst.
      destruct (Hnd Hl) as [Hx Hl0]. split.
      * intros [?|?]; [congruence | contradiction].
      * constructor; [|assumption]. intros Hz0. apply Hz.
        apply (Hiff z Hne). assumption.
Qed.

Lemma list_remove_In x l : In x l -> PyStr.list_remove x l <> None.
Proof.
  induction l as [|z l IH]; cbn; [contradiction|].
  destruct (String.eqb_spec z x) as [->|Hne]; [discriminate|].
  intros [?|Hin]; [congruence|].
  specialize (IH Hin). destruct (PyStr.list_remove x l); [discriminate | congruence].
Qed.

Lemma rsplit1_second t text :
  nth_error (PyStr.rsplit1 "." t) 1 = Some text ->
  text = PyStr.last_component "." t /\ 2 <= length (PyStr.split "." t).
Proof.
  unfold PyStr.rsplit1, PyStr.last_component.
  destruct (PyStr.split "." t) as [|p [|q parts]]; cbn [nth_error].
  - discriminate.
  - discriminate.
  - intros H. inversion H. split; [reflexivity | cbn; lia].
Qed.

Section RowCells.

Context {regex : Type}.
Variable U : dc_utils regex.
Variable E : @env regex.

(** Lines 340-347 and 360-372: the cells that [build_row] sets by their
    position, and what it does to the log. *)
Lemma build_row_fixed_cells :
  forall (file_path : string) (file_speakers : list string)
         (c cur_speaker sp : string) (index : nat) (t : string)
         (unk : list string) (w : world)
         (csv_line unk' : list string) (w' : world),
    trailing_columns E < length (e_csv_header E) ->
    build_row U E file_path file_speakers c cur_speaker sp index t unk w
    = (Val (csv_line, unk'), w') ->
    let n := length (e_csv_header E) in
    let context := get_ngram U c (e_ngram E) index (e_square_regex E) in
    w' = logged_all (snd context) w
    /\ length csv_line = n
    /\ nth_error csv_line 0 = Some (PyStr.last_component "." t)
    /\ nth_error csv_line (n - 5) = Some cur_speaker
    /\ nth_error csv_line (n - 3) = Some file_path
    /\ nth_error csv_line (n - 2) = Some (fst context)
    /\ exists speakers,
        PyStr.list_remove cur_speaker file_speakers = Some speakers
        /\ nth_error csv_line (n - 4) = Some (PyStr.join "," speakers).
Proof.
  intros file_path file_speakers c cur_speaker sp index t unk w csv_line unk' w'
         Hsix H.
  pose proof (build_row_spec _ _ _ _ _ _ _ _ _ _ _ _ _ _ H) as (Hlen & _ & _).
  unfold build_row in H.
  bind_as H l0 w0 H0. apply set_categories_spec in H0. destruct H0 as (-> & Hlen0 & _).
  rewrite repeat_length in Hlen0.
  bind_as H text w1 H1. apply getidx_Val in H1. destruct H1 as (-> & n1 & Hn1 & Htext).
  apply (py_index_nat _ 1) in Hn1. subst n1. apply rsplit1_second in Htext.
  destruct Htext as [-> _].
  bind_as H feats w1 H1. apply getidx_Val in H1. destruct H1 as (-> & _).
  logger_inv H.
  bind_as H lu w1 H1. destruct lu as [l2 unk2].
  apply set_features_spec in H1. destruct H1 as (-> & Hlen2 & _).
  bind_as H speakers w1 H1. apply or_raise_Val_inv in H1. destruct H1 as (Hrem & ->).
  bind_as H l3 w1 H1. apply setidx_spec in H1.
  destruct H1 as (-> & Hl3 & n3 & _ & Hz3 & Hs3 & Ho3).
  bind_as H l4 w1 H1. apply setidx_spec in H1.
  destruct H1 as (-> & Hl4 & n4 & _ & Hz4 & Hs4 & Ho4).
  bind_as H l5 w1 H1. apply setidx_spec in H1.
  destruct H1 as (-> & Hl5 & n5 & _ & Hz5 & Hs5 & Ho5).
  bind_as H l6 w1 H1. apply setidx_spec in H1.
  destruct H1 as (-> & Hl6 & n6 & _ & Hz6 & Hs6 & Ho6).
  bind_as H l7 w1 H1. apply setidx_spec in H1.
  destruct H1 as (-> & Hl7 & n7 & _ & Hz7 & Hs7 & Ho7).
  bind_as H l8 w8 H8.
  bind_as H unk9 w1 H1. apply getidx_Val in H1. destruct H1 as (-> & _).
  bind_as H l9 w9 H9.
  apply setidx_spec in H9. destruct H9 as (-> & Hl9 & n9 & _ & Hz9 & _ & Ho9).
  inversion H; subst csv_line unk' w'. clear H.
  cbn in Hz3, Hz4, Hz5, Hz6, Hz7, Hz9.
  assert (Hfive : 5 < length (e_csv_header E))
    by (unfold trailing_columns in Hsix; destruct (e_previous_line E); lia).
  assert (Hl8 : w8 = logged_all
                       (snd (get_ngram U c (e_ngram E) index (e_square_regex E))) w
                /\ length l8 = length l7 /\
                (forall j, j = 0 \/ length l7 - 5 <= j ->
                           nth_error l8 j = nth_error l7 j)).
  { unfold trailing_columns in Hsix. destruct (e_previous_line E).
    - apply setidx_spec in H8. destruct H8 as (-> & Hl8 & n8 & _ & Hz8 & _ & Ho8).
      cbn in Hz8. split; [reflexivity|]. split; [assumption|].
      intros j Hj. apply Ho8. lia.
    - inversion H8; subst. split; [reflexivity | auto]. }
  destruct Hl8 as (-> & Hl8 & Ho8).
  assert (Hall : length l7 = length (e_csv_header E)) by congruence.
  cbv zeta. split; [reflexivity|]. split; [assumption|].
  replace n3 with 0 in * by lia.
  replace n4 with (length (e_csv_header E) - 2) in * by lia.
  replace n5 with (length (e_csv_header E) - 3) in * by lia.
  replace n6 with (length (e_csv_header E) - 4) in * by lia.
  replace n7 with (length (e_csv_header E) - 5) in * by lia.
  split; [|split; [|split; [|split]]].
  - rewrite Ho9, Ho8, Ho7, Ho6, Ho5, Ho4 by lia. assumption.
  - rewrite Ho9, Ho8 by lia. assumption.
  - rewrite Ho9, Ho8, Ho7, Ho6 by lia. assumption.
  - rewrite Ho9, Ho8, Ho7, Ho6, Ho5 by lia. assumption.
  - exists speakers. split; [assumption|].
    rewrite Ho9, Ho8, Ho7 by lia. assumption.
Qed.

(** X8. Lines 340-347 and 360-372: the fixed cells of a row. Building a
    row polls nothing, and it adds to the log what [get_ngram] sends to
    the logger that it is handed, and nothing else. *)
Theorem row_fixed_cells :
  forall (file_path : string) (file_speakers : list string)
         (c cur_speaker sp : string) (index : nat) (t : string)
         (unk : list string) (w : world)
         (csv_line unk' : list string) (w' : world),
    trailing_columns E < length (e_csv_header E) ->
    build_row U E file_path file_speakers c cur_speaker sp index t unk w
    = (Val (csv_line, unk'), w') ->
    let n := length (e_csv_header E) in
    let context := get_ngram U c (e_ngram E) index (e_square_regex E) in
    w' = logged_all (snd context) w
    /\ length csv_line = n
    /\ nth_error csv_line 0 = Some (PyStr.last_component "." t)
    /\ nth_error csv_line (n - 5) = Some cur_speaker
    /\ nth_error csv_line (n - 3) = Some file_path
    /\ nth_error csv_line (n - 2) = Some (fst context)
    /\ exists speakers,
        PyStr.list_remove cur_speaker file_speakers = Some speakers
        /\ nth_error csv_line (n - 4) = Some (PyStr.join "," speakers).
Proof.
  intros file_path file_speakers c cur_speaker sp index t unk w csv_line unk' w'
         Hsix H.
  exact (build_row_fixed_cells file_path file_speakers c cur_speaker sp index t
                               unk w csv_line unk' w' Hsix H).
Qed.

End RowCells.

Lemma append_assoc_string (a b c : string) :
  ((a ++ b) ++ c)%string = (a ++ (b ++ c))%string.
Proof. induction a as [|x a IH]; cbn; [reflexivity | rewrite IH; reflexivity]. Qed.

Lemma append_empty_r (s : string) : (s ++ "")%string = s.
Proof. induction s as [|a s IH]; cbn; [reflexivity | rewrite IH; reflexivity]. Qed.

Lemma concat_empty_cons (x : string) (l : list string) :
  String.concat "" (x :: l) = (x ++ String.concat "" l)%string.
Proof.
  destruct l as [|y l]; cbn.
  - induction x as [|a x IH]; cbn; [reflexivity | rewrite <- IH; reflexivity].
  - reflexivity.
Qed.

Section UnknownBucket.

Context {regex : Type}.
Variable U : dc_utils regex.
Variable E : @env regex.

Lemma last_in_column_None j values :
  (forall v c, In v values -> column_of E v = Some c -> c <> j) ->
  last_in_column E j values = None.
Proof.
  induction values as [|v values IH]; intros H; cbn; [reflexivity|].
  rewrite IH by (intros v' c Hin; apply H; right; assumption).
  unfold writes_column. destruct (column_of E v) as [c|] eqn:Ec; [|reflexivity].
  destruct (Nat.eqb_spec c j) as [->|]; [|reflexivity].
  exfalso. eapply H; [left; reflexivity | exact Ec | reflexivity].
Qed.
(** Lines 349-358: what the loop on the components does to the last
    cell and to [unk_categories]. *)
Lemma set_features_unknown (comps : list string) :
  forall l unk s w l' unk' w',
    (forall f c, In f comps -> column_of E f = Some c -> S c < length l) ->
    nth_error l (length l - 1) = Some s ->
    for_each comps (set_feature E) (l, unk) w = (Val (l', unk'), w') ->
    nth_error l' (length l - 1)
    = Some (s ++ comma_ended
                   (filter (fun f => negb (PyDict.mem f (e_idv E))) comps))%string
    /\ unk' = unk ++ filter (fun f => negb (PyDict.mem f (e_idv E))) comps.
Proof.
  induction comps as [|f comps IH]; intros l unk s w l' unk' w' Hcol Hs H; cbn in H.
  - inversion H; subst. cbn. rewrite app_nil_r. split; [|reflexivity].
    rewrite Hs. unfold comma_ended. cbn. rewrite append_empty_r. reflexivity.
  - bind_as H lu w1 H1. destruct lu as [l1 unk1]. unfold set_feature in H1.
    cbn [filter].
    destruct (PyDict.mem f (e_idv E)) eqn:Ef; cbn [negb] in *.
    + bind_as H1 l1' w2 H2. apply set_category_Val in H2.
      destruct H2 as (-> & c & Hc & Hlt & ->). inversion H1; subst l1 unk1 w1.
      assert (Hc' : S c < length l) by (eapply Hcol; [left; reflexivity | exact Hc]).
      pose proof (IH (list_update l c f) unk s w l' unk' w') as IH'.
      rewrite length_list_update in IH'. apply IH'; [| |exact H].
      * intros f' c' Hin Hc0. eapply Hcol; [right; exact Hin | exact Hc0].
      * rewrite nth_error_set_category by assumption.
        destruct (Nat.eqb_spec c (length l - 1)) as [Heq|Hne]; [|exact Hs].
        exfalso. clear - Heq Hc'. lia.
    + bind_as H1 lastc w2 H2. apply getidx_Val in H2.
      destruct H2 as (-> & n & Hn & Hlast).
      apply py_index_neg in Hn; [|clear; lia].
      assert (Hn' : n = length l - 1) by (clear - Hn; lia). subst n.
      rewrite Hs in Hlast. inversion Hlast; subst lastc.
      bind_as H1 l1' w2 H2. apply setidx_spec in H2.
      destruct H2 as (-> & Hlen1 & n & Hnlt & Hz & Hset & _).
      cbn in Hz. assert (Hn' : n = length l - 1) by (clear - Hz Hnlt; lia). subst n.
      inversion H1; subst l1 unk1 w1.
      pose proof (IH l1' (unk ++ [f]) (s ++ f ++ ",")%string w l' unk' w') as IH'.
      rewrite Hlen1 in IH'. destruct IH' as [Hcell Hunk]; [| exact Hset | exact H |].
      * intros f' c' Hin Hc0. eapply Hcol; [right; exact Hin | exact Hc0].
      * split.
        -- rewrite Hcell. f_equal. unfold comma_ended. cbn [map].
           rewrite concat_empty_cons, !append_assoc_string. reflexivity.
        -- rewrite Hunk, <- app_assoc. reflexivity.
Qed.

(** X9. Lines 349-358 and 374: the last cell of a row is made of the
    components of the tag that no dictionary declares, in their order
    and each followed by a comma, without the commas at its two ends;
    the same components are added to [unk_categories]. The columns of
    the resolved values are taken before the last one, as they are in
    the header that the engine builds. *)
Theorem row_unknown_bucket :
  forall (file_path : string) (file_speakers : list string)
         (c cur_speaker sp : string) (index : nat) (t : string)
         (unk : list string) (w : world)
         (csv_line unk' : list string) (w' : world),
    trailing_columns E < length (e_csv_header E) ->
    (forall v col, In v (speaker_values E cur_speaker ++ tag_components t) ->
                   column_of E v = Some col -> S col < length (e_csv_header E)) ->
    build_row U E file_path file_speakers c cur_speaker sp index t unk w
    = (Val (csv_line, unk'), w') ->
    nth_error csv_line (length (e_csv_header E) - 1)
    = Some (PyStr.strip_char "," (comma_ended (unknown_components E t)))
    /\ unk' = unk ++ unknown_components E t.
Proof.
  intros file_path file_speakers c cur_speaker sp index t unk w csv_line unk' w'
         Htr Hcols H.
  assert (Hfive : 5 < length (e_csv_header E))
    by (unfold trailing_columns in Htr; destruct (e_previous_line E); lia).
  unfold build_row in H.
  bind_as H l0 w0 H0. apply set_categories_spec in H0.
  destruct H0 as (-> & Hlen0 & Hnth0). rewrite repeat_length in Hlen0.
  fold (speaker_values E cur_speaker) in Hnth0.
  bind_as H text w1 H1. apply getidx_Val in H1. destruct H1 as (-> & _).
  bind_as H feats w1 H1. apply getidx_Val in H1. destruct H1 as (-> & n0 & Hn0 & Hfeats).
  apply (py_index_nat _ 0) in Hn0. subst n0.
  assert (Hcomps : PyStr.split "." feats = tag_components t).
  { unfold tag_components. f_equal. symmetry. apply nth_error_nth, Hfeats. }
  rewrite Hcomps in H. clear Hcomps Hfeats.
  logger_inv H.
  bind_as H lu w1 H1. destruct lu as [l2 unk2].
  pose proof (set_features_spec _ _ _ _ _ _ _ _ H1) as (_ & Hlen2 & _).
  apply (set_features_unknown _ _ _ "") in H1.
  - destruct H1 as [Hcell ->]. cbn [String.append] in Hcell.
    bind_as H speakers w2 H2. apply or_raise_Val_inv in H2. destruct H2 as (_ & ->).
    bind_as H l3 w2 H2. apply setidx_spec in H2.
    destruct H2 as (-> & Hl3 & n3 & _ & Hz3 & _ & Ho3).
    bind_as H l4 w2 H2. apply setidx_spec in H2.
    destruct H2 as (-> & Hl4 & n4 & _ & Hz4 & _ & Ho4).
    bind_as H l5 w2 H2. apply setidx_spec in H2.
    destruct H2 as (-> & Hl5 & n5 & _ & Hz5 & _ & Ho5).
    bind_as H l6 w2 H2. apply setidx_spec in H2.
    destruct H2 as (-> & Hl6 & n6 & _ & Hz6 & _ & Ho6).
    bind_as H l7 w2 H2. apply setidx_spec in H2.
    destruct H2 as (-> & Hl7 & n7 & _ & Hz7 & _ & Ho7).
    bind_as H l8 w8 H8.
    assert (Hl8 : w8 = w1 /\ length l8 = length l7
                  /\ nth_error l8 (length l7 - 1) = nth_error l7 (length l7 - 1)).
    { destruct (e_previous_line E).
      - apply setidx_spec in H8. destruct H8 as (-> & Hl8 & n8 & _ & Hz8 & _ & Ho8).
        cbn in Hz8. split; [reflexivity|]. split; [assumption|]. apply Ho8. lia.
      - inversion H8; subst. auto. }
    destruct Hl8 as (-> & Hl8 & Ho8).
    cbn in Hz3, Hz4, Hz5, Hz6, Hz7.
    assert (Hall : length l7 = length (e_csv_header E)) by congruence.
    bind_as H lastc w2 H2. apply getidx_Val in H2.
    destruct H2 as (-> & n & Hn & Hlast).
    apply py_index_neg in Hn; [|lia].
    assert (Hn' : n = length (e_csv_header E) - 1) by lia. subst n.
    rewrite <- Hall, Ho8, Ho7, Ho6, Ho5, Ho4, Ho3 in Hlast by lia.
    rewrite Hlen0 in Hcell. rewrite <- Hall in Hcell at 1.
    replace (length l7) with (length (e_csv_header E)) in Hlast, Hcell by congruence.
    rewrite Hcell in Hlast. inversion Hlast; subst lastc.
    bind_as H l9 w9 H9. apply setidx_spec in H9.
    destruct H9 as (-> & Hl9 & n9 & _ & Hz9 & Hs9 & _).
    cbn in Hz9. inversion H; subst csv_line unk' w'.
    split; [|reflexivity].
    replace (length (e_csv_header E) - 1) with n9 by lia. exact Hs9.
  - intros f col Hin. rewrite Hlen0. apply Hcols. apply in_or_app. right. exact Hin.
  - rewrite Hnth0, Hlen0.
    rewrite last_in_column_None.
    + apply nth_error_repeat. lia.
    + intros v col Hin Hc. assert (S col < length (e_csv_header E)).
      { eapply Hcols; [apply in_or_app; left; exact Hin | exact Hc]. }
      lia.
Qed.

End UnknownBucket.

(** ** The dataset table of a completed run *)

Section DatasetTable.

Context {regex : Type}.
Variable re_compile : string -> option regex.
Variable finditer : regex -> string -> list rmatch.
Variable U : dc_utils regex.
Variable stop_flag : nat -> bool.

Lemma run_bundle_inv i corpus_dict ind dep speakers b :
  DCThread_run re_compile finditer U stop_flag i corpus_dict ind dep speakers
  = ResultBundle b ->
  exists w',
    generate_dataset re_compile finditer U stop_flag i corpus_dict speakers
                     ind dep fresh_world = (Val b, w').
Proof.
  unfold DCThread_run.
  destruct (generate_dataset re_compile finditer U stop_flag i corpus_dict
                             speakers ind dep fresh_world) as [[b'| |e] w'];
    intros H; inversion H; subst. exists w'. reflexivity.
Qed.

Lemma map_pad_full n (rows : list (list cell)) :
  Forall (fun r => length r = n) rows ->
  map (Pandas.pad (Pandas.max_width rows)) rows = rows.
Proof.
  intros Hall. destruct rows as [|r rows]; [reflexivity|].
  rewrite (max_width_all n) by (assumption || discriminate).
  rewrite <- (map_id (r :: rows)) at 2. apply map_ext_in. intros r' Hin.
  apply pad_full. rewrite Forall_forall in Hall. apply Hall, Hin.
Qed.

(** X13. Lines 128, 331, 375, 408 and 422: the dataset that a run returns has
    the header that the engine built for its columns, and each of its
    rows is a row built for one match, with one cell per column: no row
    is padded or cut when the table is made. *)
Theorem dataset_rows_follow_header :
  forall (i : inputs) (corpus_dict : dict string)
         (independent_variables dependent_variables : dict var_value)
         (speakers : dict (list string)) (b : bundle),
    DCThread_run re_compile finditer U stop_flag i corpus_dict
                 independent_variables dependent_variables speakers
    = ResultBundle b ->
    columns (dataset b)
    = csv_header_of (in_previous_line i) independent_variables dependent_variables
    /\ rectangular (dataset b)
    /\ exists E w0,
        prepare re_compile U stop_flag i corpus_dict speakers
                independent_variables dependent_variables fresh_world
        = (Val E, w0)
        /\ forall r, In r (data (dataset b)) ->
             exists row, built_row U E row /\ r = map CStr row.
Proof.
  intros i corpus_dict ind dep speakers b H.
  apply run_bundle_inv in H. destruct H as [w' H].
  unfold generate_dataset, passes in H.
  bind_as H E w0 Hprep. bind_as H counted w1 Hcov. bind_as H ac w2 Htot.
  bind_as H u0 wu Hlog. bind_as H acc w3 Hloop.
  pose proof Hprep as Henv. apply prepare_env in Henv.
  destruct Henv as (_ & _ & _ & Hhdr & _).
  apply main_loop_rows in Hloop. destruct Hloop as (rows & Hfst & Hbuilt).
  destruct acc as [csv_file unk]. cbn [fst] in Hfst. subst csv_file.
  unfold finish in H.
  bind_as H ai w4 Hai. bind_as H ma w5 Hma. bind_as H enc w6 Henc.
  bind_as H header w7 Hhead. unfold csv_head in Hhead.
  apply or_raise_Val_inv in Hhead. destruct Hhead as [Hhead ->].
  cbn in Hhead. inversion Hhead; subst header. cbn [tl] in H.
  bind_as H ds w7 Hds. apply make_Val in Hds. destruct Hds as [-> Hds].
  bind_as H aidf w7 Haidf. bind_as H ma' w8 Hma'. bind_as H madf w9 Hmadf.
  bind_as H u w10 Hunk. inversion H; subst b. cbn [dataset].
  assert (Hrows : Forall (fun r => length r = length (e_csv_header E))
                         (string_rows rows)).
  { apply Forall_forall. intros r Hin. unfold string_rows in Hin.
    apply in_map_iff in Hin. destruct Hin as (row & <- & Hin).
    rewrite length_map.
    destruct (Hbuilt row Hin)
      as (fp & fs & c & cs & sp & index & t & unk0 & wa & unk1 & wb & Hrow).
    apply build_row_spec in Hrow. apply Hrow. }
  rewrite (map_pad_full _ _ Hrows) in Hds. subst ds. cbn [columns data].
  split; [exact Hhdr|]. split; [exact Hrows|].
  exists E, w0. split; [exact Hprep|].
  intros r Hin. unfold string_rows in Hin. apply in_map_iff in Hin.
  destruct Hin as (row & <- & Hin). exists row. split; [apply Hbuilt, Hin | reflexivity].
Qed.

End DatasetTable.

(** ** What a row needs *)

Lemma join_cons_cons sep (x y : string) (l : list string) :
  PyStr.join sep (x :: y :: l) = (x ++ sep ++ PyStr.join sep (y :: l))%string.
Proof. reflexivity. Qed.

Lemma split_cons_inv c s : exists h t, PyStr.split c s = h :: t.
Proof.
  destruct s as [|a s]; cbn.
  - eauto.
  - destruct (Ascii.eqb a c); [eauto|].
    destruct (PyStr.split c s); eauto.
Qed.

(** [sep.join(s.split(sep)) == s] *)
Lemma join_split c s : PyStr.join (String c "") (PyStr.split c s) = s.
Proof.
  induction s as [|a s IH]; cbn [PyStr.split].
  - reflexivity.
  - destruct (split_cons_inv c s) as (h & t & Hs). rewrite Hs in *.
    destruct (Ascii.eqb_spec a c) as [->|Hne].
    + rewrite join_cons_cons, IH. reflexivity.
    + rewrite <- IH. destruct t as [|y t]; reflexivity.
Qed.

Lemma join_removelast sep (x y : string) (l : list string) :
  PyStr.join sep (x :: y :: l)
  = (PyStr.join sep (removelast (x :: y :: l)) ++ sep ++ last (x :: y :: l) "")%string.
Proof.
  revert x y. induction l as [|z l IH]; intros x y.
  - reflexivity.
  - rewrite join_cons_cons, (IH y z).
    change (removelast (x :: y :: z :: l)) with (x :: removelast (y :: z :: l)).
    change (last (x :: y :: z :: l) "") with (last (y :: z :: l) "").
    destruct (removelast (y :: z :: l)) as [|r rs] eqn:Er.
    + destruct l; discriminate.
    + rewrite join_cons_cons, <- Er, !append_assoc_string. reflexivity.
Qed.

(** [t.rsplit(".", 1)] gives two parts exactly when it cuts [t] at a
    dot. *)
Lemma rsplit1_two t feats text :
  nth_error (PyStr.rsplit1 "." t) 0 = Some feats ->
  nth_error (PyStr.rsplit1 "." t) 1 = Some text ->
  t = (feats ++ "." ++ text)%string.
Proof.
  unfold PyStr.rsplit1. pose proof (join_split "." t) as Hj.
  destruct (PyStr.split "." t) as [|p [|q parts]]; cbn [nth_error].
  - discriminate.
  - discriminate.
  - intros H0 H1. inversion H0. inversion H1.
    rewrite <- Hj at 1. apply join_removelast.
Qed.

Section RowNeeds.

Context {regex : Type}.
Variable U : dc_utils regex.
Variable E : @env regex.

Lemma set_categories_declared (vars : list string) :
  forall l w l' w',
    for_each vars (set_category E) l w = (Val l', w') ->
    forall v, In v vars ->
      exists category,
        PyDict.get v (e_idv E) = Some category /\ In category (e_csv_header E).
Proof.
  induction vars as [|v0 vars IH]; intros l w l' w' H v Hin; cbn in H.
  - contradiction.
  - bind_as H l1 w1 H1. destruct Hin as [<-|Hin]; [|eapply IH; eassumption].
    unfold set_category in H1. bind_as H1 category w2 H2.
    apply getitem_Val in H2. destruct H2 as [Hg ->].
    bind_as H1 cat_idx w2 H2. apply or_raise_Val_inv in H2. destruct H2 as [Hi ->].
    exists category. split; [exact Hg|].
    apply list_index_Some in Hi. apply Hi.
Qed.

(** X10. Lines 334-343 and 363-364: a row is built only when every variable
    value of the speaker is declared in a variable file, under a
    category that has a column; when the tag has a dot, which separates
    its components from the token text; and when the speaker is among
    the speakers of the file. Otherwise the row raises (KeyError,
    IndexError, ValueError) and ends the run. *)
Theorem row_is_built_only_if :
  forall (file_path : string) (file_speakers : list string)
         (c cur_speaker sp : string) (index : nat) (t : string)
         (unk : list string) (w : world)
         (csv_line unk' : list string) (w' : world),
    build_row U E file_path file_speakers c cur_speaker sp index t unk w
    = (Val (csv_line, unk'), w') ->
    (forall v, In v (speaker_values E cur_speaker) ->
       exists category,
         PyDict.get v (e_idv E) = Some category /\ In category (e_csv_header E))
    /\ (exists feats text, t = (feats ++ "." ++ text)%string)
    /\ In cur_speaker file_speakers.
Proof.
  intros file_path file_speakers c cur_speaker sp index t unk w csv_line unk' w' H.
  unfold build_row in H.
  bind_as H l0 w0 H0. split; [eapply set_categories_declared; exact H0|].
  bind_as H text w1 H1. apply getidx_Val in H1. destruct H1 as (-> & n1 & Hn1 & Htext).
  apply (py_index_nat _ 1) in Hn1. subst n1.
  bind_as H feats w1 H1. apply getidx_Val in H1. destruct H1 as (-> & n0 & Hn0 & Hfeats).
  apply (py_index_nat _ 0) in Hn0. subst n0.
  split; [exists feats, text; apply rsplit1_two; assumption|].
  logger_inv H.
  bind_as H lu w1 H1. destruct lu as [l2 unk2].
  bind_as H speakers w2 H2. apply or_raise_Val_inv in H2. destruct H2 as (Hrm & _).
  apply list_remove_Some in Hrm. exact (proj1 Hrm).
Qed.

End RowNeeds.

(** ** A file without paragraphs *)

Lemma for_each_Val_all {A S} (l : list A) (body : A -> S -> M S) :
  forall s w s' w',
    for_each l body s w = (Val s', w') ->
    forall x, In x l -> exists s0 w0 s1 w1, body x s0 w0 = (Val s1, w1).
Proof.
  induction l as [|y l IH]; intros s w s' w' H x Hin; cbn in H.
  - contradiction.
  - bind_as H s1 w1 H1. destruct Hin as [<-|Hin].
    + exists s, w, s1, w1. exact H1.
    + eapply IH; eassumption.
Qed.

Section EmptyFile.

Context {regex : Type}.
Variable re_compile : string -> option regex.
Variable finditer : regex -> string -> list rmatch.
Variable U : dc_utils regex.
Variable stop_flag : nat -> bool.

(** Lines 36-46 and 69-74: the paragraphs and the speakers of the files
    in the environment. *)
Lemma prepare_corpus i corpus_dict speakers_variables ind dep w E w' :
  prepare re_compile U stop_flag i corpus_dict speakers_variables ind dep w
  = (Val E, w') ->
  re_compile (in_name_regex i) = Some (e_name_regex E)
  /\ e_corpus_dict E = preprocessed U (e_name_regex E) corpus_dict
  /\ e_corpus E = concat (PyDict.values (e_corpus_dict E))
  /\ e_all_speakers_dict E
     = all_speakers_dict_of U (e_name_regex E) (e_corpus_dict E).
Proof.
  unfold prepare, compile. intros H.
  bind_as H square_regex w1 H1. bind_as H feat_regex w2 H2.
  bind_as H name_regex w3 H3. apply or_raise_Val_inv in H3. destruct H3 as [H3 _].
  bind_as H u0 w4 H4. bind_as H cd w5 H5. rewrite preprocess_all in H5.
  inversion H5; subst cd w5. clear H5.
  do 6 (apply bind_Val_inv in H; destruct H as (? & ? & _ & H)).
  inversion H; subst E. cbn. repeat split; try reflexivity. exact H3.
Qed.

Lemma all_speakers_dict_absent (name_regex : regex) path
      (corpus_dict : dict (list string)) :
  (forall paragraphs, In (path, paragraphs) corpus_dict -> paragraphs = []) ->
  PyDict.get path (all_speakers_dict_of U name_regex corpus_dict) = None.
Proof.
  induction corpus_dict as [|[k v] cd IH]; intros Hall; [reflexivity|].
  unfold all_speakers_dict_of. cbn [flat_map fst snd].
  fold (all_speakers_dict_of U name_regex cd).
  destruct (String.eqb_spec k path) as [->|Hne].
  - rewrite (Hall v) by (left; reflexivity). cbn.
    apply IH. intros p Hp. apply Hall. right. exact Hp.
  - destruct (0 <? length (PyStr.dedup (names_of U name_regex v)))%nat; cbn.
    + destruct (String.eqb_spec k path); [contradiction|].
      apply IH. intros p Hp. apply Hall. right. exact Hp.
    + apply IH. intros p Hp. apply Hall. right. exact Hp.
Qed.

(** X5. Lines 42-44, 69-74 and 291-292: when the preprocessing leaves no
    paragraph of a file, the file has no entry in [all_speakers_dict],
    and the main loop asks for it: a run on such a corpus never returns
    its tables (it ends with KeyError on the file, unless it failed or
    was stopped before). *)
Theorem file_without_paragraphs_ends_the_run :
  forall (i : inputs) (corpus_dict : dict string)
         (independent_variables dependent_variables : dict var_value)
         (speakers : dict (list string))
         (name_regex : regex) (path text : string),
    re_compile (in_name_regex i) = Some name_regex ->
    In (path, text) corpus_dict ->
    (forall text', In (path, text') corpus_dict ->
                   fst (preprocess_corpus U text' path name_regex) = []) ->
    forall b,
      DCThread_run re_compile finditer U stop_flag i corpus_dict
                   independent_variables dependent_variables speakers
      <> ResultBundle b.
Proof.
  intros i corpus_dict ind dep speakers name_regex path text Hre Hin Hall b H.
  apply run_bundle_inv in H. destruct H as [w' H].
  unfold generate_dataset, passes in H.
  bind_as H E w0 Hprep. bind_as H counted w1 Hcov. bind_as H ac w2 Htot.
  bind_as H u0 wu Hlog. bind_as H acc w3 Hloop.
  apply prepare_corpus in Hprep. destruct Hprep as (Hnr & Hcd & _ & Hsd).
  rewrite Hre in Hnr. injection Hnr as Hname. subst name_regex.
  unfold main_loop in Hloop.
  destruct (for_each_Val_all _ _ _ _ _ _ Hloop
              (path, fst (preprocess_corpus U text path (e_name_regex E))))
    as (s0 & wa & s1 & wb & Hbody).
  - rewrite Hcd. unfold preprocessed.
    apply (in_map (fun kv => (fst kv, fst (preprocess_corpus U (snd kv) (fst kv)
                                                             (e_name_regex E))))
                  _ _ Hin).
  - cbv beta zeta in Hbody. cbn [fst snd] in Hbody.
    bind_as Hbody file_speakers wc Hget. apply getitem_Val in Hget.
    destruct Hget as [Hget _]. rewrite Hsd, all_speakers_dict_absent in Hget.
    + discriminate.
    + intros paragraphs Hp. rewrite Hcd in Hp. unfold preprocessed in Hp.
      apply in_map_iff in Hp.
      destruct Hp as ([k v] & Heq & Hkv). cbn [fst snd] in Heq.
      inversion Heq; subst. apply Hall. exact Hkv.
Qed.

End EmptyFile.

(** ** The interlocutors of a row *)

Lemma In_dedup y l : In y (PyStr.dedup l) <-> In y l.
Proof.
  induction l as [|x l IH]; cbn; [tauto|].
  rewrite filter_In, IH. split.
  - intros [?|[? _]]; auto.
  - intros [?|Hin]; [auto|].
    destruct (String.eqb_spec x y) as [->|Hne]; [auto|]. right. auto.
Qed.

Lemma NoDup_dedup l : NoDup (PyStr.dedup l).
Proof.
  induction l as [|x l IH]; cbn; constructor.
  - rewrite filter_In. intros [_ H]. rewrite String.eqb_refl in H. discriminate.
  - apply NoDup_filter, IH.
Qed.

Lemma NoDup_insert_sorted x l :
  ~ In x l -> NoDup l -> NoDup (PyStr.insert_sorted x l).
Proof.
  induction l as [|y l IH]; cbn; intros Hx Hnd.
  - constructor; [auto | constructor].
  - destruct (String.leb x y).
    + constructor; assumption.
    + inversion Hnd; subst. constructor.
      * rewrite In_insert_sorted. intros [->|?]; [apply Hx; auto | contradiction].
      * apply IH; [intros ?; apply Hx; auto | assumption].
Qed.

Lemma NoDup_sorted l : NoDup l -> NoDup (PyStr.sorted l).
Proof.
  induction l as [|x l IH]; cbn; intros Hnd; [constructor|].
  inversion Hnd; subst. apply NoDup_insert_sorted; [|auto].
  rewrite In_sorted. assumption.
Qed.

Section Interlocutors.

Context {regex : Type}.
Variable U : dc_utils regex.

Lemma all_speakers_dict_present (name_regex : regex) path corpus
      (corpus_dict : dict (list string)) :
  NoDup (PyDict.keys corpus_dict) ->
  In (path, corpus) corpus_dict -> corpus <> [] ->
  PyDict.get path (all_speakers_dict_of U name_regex corpus_dict)
  = Some (PyStr.sorted (PyStr.dedup (names_of U name_regex corpus))).
Proof.
  intros Hnd Hin Hne.
  induction corpus_dict as [|[k v] cd IH]; [contradiction|].
  unfold all_speakers_dict_of. cbn [flat_map fst snd].
  fold (all_speakers_dict_of U name_regex cd).
  cbn in Hnd. inversion Hnd as [|? ? Hk Hnd']; subst.
  destruct Hin as [Heq|Hin].
  - inversion Heq; subst k v.
    destruct corpus as [|c0 corpus]; [congruence|].
    cbn. rewrite String.eqb_refl. reflexivity.
  - assert (Hkp : k <> path).
    { intros ->. apply Hk. change path with (fst (path, corpus)).
      apply in_map, Hin. }
    destruct (0 <? length (PyStr.dedup (names_of U name_regex v)))%nat; cbn.
    + destruct (String.eqb_spec k path); [contradiction | auto].
    + auto.
Qed.

(** Lines 69-74 and 363-364: the speaker of a paragraph is among the
    speakers of its file, and without it they are the other names that
    [get_name] finds in the paragraphs of the file, each one once. *)
Lemma other_speakers_of_file :
  forall (name_regex : regex) (corpus_dict : dict (list string))
         (path : string) (corpus : list string) (c : string),
    NoDup (PyDict.keys corpus_dict) ->
    In (path, corpus) corpus_dict -> In c corpus ->
    exists file_speakers speakers,
      PyDict.get path (all_speakers_dict_of U name_regex corpus_dict)
      = Some file_speakers
      /\ PyStr.list_remove (get_name U c name_regex) file_speakers = Some speakers
      /\ NoDup speakers
      /\ forall s, In s speakers
                   <-> s <> get_name U c name_regex
                       /\ exists c', In c' corpus /\ get_name U c' name_regex = s.
Proof.
  intros name_regex corpus_dict path corpus c Hnd Hin Hc.
  set (file_speakers := PyStr.sorted (PyStr.dedup (names_of U name_regex corpus))).
  assert (Hmem : forall s, In s file_speakers
                           <-> exists c', In c' corpus /\ get_name U c' name_regex = s).
  { intros s. unfold file_speakers, names_of.
    rewrite In_sorted, In_dedup, in_map_iff. split.
    - intros (c' & Heq & Hc'). eauto.
    - intros (c' & Hc' & Heq). eauto. }
  assert (Hfs : NoDup file_speakers) by apply NoDup_sorted, NoDup_dedup.
  destruct (PyStr.list_remove (get_name U c name_regex) file_speakers)
    as [speakers|] eqn:Hrm.
  - exists file_speakers, speakers.
    split; [apply all_speakers_dict_present; [assumption | assumption |]|].
    + intros ->. contradiction.
    + split; [exact Hrm|].
      apply list_remove_Some in Hrm. destruct Hrm as (_ & _ & Hiff & Hno).
      destruct (Hno Hfs) as [Hnotin Hnd']. split; [assumption|].
      intros s. split.
      * intros Hs.
        assert (Hne : s <> get_name U c name_regex) by (intros ->; contradiction).
        split; [assumption|]. apply Hmem. apply (Hiff s Hne). assumption.
      * intros [Hne Hex]. apply (Hiff s Hne). apply Hmem. assumption.
  - exfalso. apply (list_remove_In (get_name U c name_regex) file_speakers); [|assumption].
    apply Hmem. eauto.
Qed.

End Interlocutors.

(** ** The column "annotated" of the statistics *)

(** An invariant of the state of a loop, for a body that keeps it on
    the elements of the list. *)
Lemma for_each_invariant_In {A S} (P : S -> Prop) (l : list A) (body : A -> S -> M S) :
  (forall x s w s' w', In x l -> P s -> body x s w = (Val s', w') -> P s') ->
  forall s w s' w', P s -> for_each l body s w = (Val s', w') -> P s'.
Proof.
  induction l as [|x l IH]; intros Hb s w s' w' Hs H; cbn in H.
  - inversion H; subst. assumption.
  - bind_as H s1 w1 H1. eapply IH; [|eapply Hb; [left; reflexivity | exact Hs | exact H1]|exact H].
    intros y s0 w0 s0' w0' Hy. apply Hb. right. exact Hy.
Qed.

Lemma py_count_cons x y l :
  py_count x (y :: l) = ((if String.eqb x y then 1 else 0) + py_count x l)%Z.
Proof.
  unfold py_count. cbn [filter]. destruct (String.eqb x y); cbn [length]; lia.
Qed.

Lemma py_count_nonneg x l : (0 <= py_count x l)%Z.
Proof. unfold py_count. lia. Qed.

Lemma get_Counter_from (l : list string) :
  forall (d : dict Z) (x : string),
    PyDict.get x
      (fold_left (fun d y => match PyDict.get y d with
                             | Some n => PyDict.set y (n + 1)%Z d
                             | None => PyDict.set y 1%Z d
                             end) l d)
    = match PyDict.get x d with
      | Some n => Some (n + py_count x l)%Z
      | None => if (py_count x l =? 0)%Z then None else Some (py_count x l)
      end.
Proof.
  induction l as [|y l IH]; intros d x; cbn [fold_left].
  - unfold py_count. cbn. destruct (PyDict.get x d); [f_equal; lia | reflexivity].
  - rewrite IH, py_count_cons. pose proof (py_count_nonneg x l) as Hnn.
    destruct (String.eqb_spec x y) as [->|Hne].
    + destruct (PyDict.get y d) as [n|] eqn:Hy; rewrite get_set_same.
      * f_equal. lia.
      * destruct (Z.eqb_spec (1 + py_count y l) 0); [lia | f_equal; lia].
    + assert (Hyx : y <> x) by congruence.
      destruct (PyDict.get y d) as [n|]; rewrite (get_set_other _ _ _ _ Hyx);
        reflexivity.
Qed.

(** [Counter(l)[x]] is the number of occurrences of [x] in [l], and [x]
    is a key only when it occurs. *)
Lemma get_Counter x l :
  PyDict.get x (Counter l)
  = if (py_count x l =? 0)%Z then None else Some (py_count x l).
Proof. unfold Counter. rewrite get_Counter_from. reflexivity. Qed.

Lemma annotated_is_not_a_speaker_column (sp : string) :
  (sp ++ " annotated")%string <> "annotated"
  /\ (sp ++ " not annotated")%string <> "annotated".
Proof.
  split; intros H; apply (f_equal String.length) in H;
    rewrite length_append_string in H; cbn in H; lia.
Qed.

Lemma setitem2_keeps k1 k2 key (x : Z) (ac : ann_counter) w ac' w' :
  setitem2 k1 k2 x ac w = (Val ac', w') -> k2 <> key ->
  forall t, counter_of t key ac' = counter_of t key ac.
Proof.
  intros H Hne t. apply setitem2_Val in H. destruct H as (_ & v & Hg & ->).
  rewrite counter_of_set. destruct (String.eqb_spec k1 t) as [->|_]; [|reflexivity].
  unfold counter_of. rewrite Hg. apply get_set_other, Hne.
Qed.

Lemma init_if_absent_keeps token k key (ac : ann_counter) w ac' w' :
  init_if_absent token k ac w = (Val ac', w') -> k <> key ->
  forall t, counter_of t key ac' = counter_of t key ac.
Proof.
  unfold init_if_absent. intros H Hne. bind_as H v w1 H1.
  destruct (negb (PyDict.mem k v)).
  - eapply setitem2_keeps; eassumption.
  - inversion H; subst. reflexivity.
Qed.

Section AnnotatedColumn.

Context {regex : Type}.
Variable re_compile : string -> option regex.
Variable finditer : regex -> string -> list rmatch.
Variable U : dc_utils regex.
Variable stop_flag : nat -> bool.

Lemma initial_counter_annotated E token :
  counter_of token "annotated" (initial_counter finditer U E)
  = PyDict.get token (Counter (validated_tokens finditer U E)).
Proof.
  unfold initial_counter, validated_tokens, counter_of.
  induction (Counter (map token_of_annotation (fst (collect_annotations finditer U E))))
    as [|[k n] C IH]; cbn.
  - reflexivity.
  - destruct (String.eqb k token); [reflexivity | exact IH].
Qed.

Lemma whole_corpus_pass_keeps E key ac w ac' w' :
  key <> "not annotated" -> key <> "not_annotated_interest" ->
  whole_corpus_pass U stop_flag E ac w = (Val ac', w') ->
  forall t, counter_of t key ac' = counter_of t key ac.
Proof.
  intros Hk1 Hk2. unfold whole_corpus_pass.
  apply (for_each_invariant
           (fun s => forall t, counter_of t key s = counter_of t key ac));
    [|reflexivity].
  intros token s w0 s' w0' Hs H.
  bind_as H v w1 H1.
  destruct (find_repetitions U (whole_corpus E) token (e_feat_regex E)
              (e_name_regex E) (e_speakers_of_interest E) None)
    as [[[wild_rep wild_rep_interest] ann_rep] wna].
  bind_as H annotated w2 H2.
  bind_as H s1 w3 H3. bind_as H s2 w4 H4. bind_as H u w5 H5.
  inversion H; subst s'. intros t.
  rewrite (setitem2_keeps _ _ key _ _ _ _ _ H4) by congruence.
  rewrite (setitem2_keeps _ _ key _ _ _ _ _ H3) by congruence.
  apply Hs.
Qed.

Lemma per_speaker_pass_keeps E key ac w ac' w' :
  (forall sp, In sp (PyDict.keys (e_speakers_variables E)) ->
              (sp ++ " annotated")%string <> key
              /\ (sp ++ " not annotated")%string <> key) ->
  per_speaker_pass U stop_flag E ac w = (Val ac', w') ->
  forall t, counter_of t key ac' = counter_of t key ac.
Proof.
  intros Hfresh H. unfold per_speaker_pass in H.
  revert H.
  apply (for_each_invariant_In
           (fun s => forall t, counter_of t key s = counter_of t key ac));
    [|reflexivity].
  intros sp s w0 s' w0' Hsp Hs H. cbv beta zeta in H.
  revert Hs H.
  apply (for_each_invariant
           (fun s => forall t, counter_of t key s = counter_of t key ac)).
  intros token s1 w1 s1' w1' Hs1 H.
  destruct (find_repetitions U (speaker_corpus U E sp) token (e_feat_regex E)
              (e_name_regex E) (e_speakers_of_interest E) None)
    as [[[wild_rep wild_rep_interest] ann_rep] wna].
  destruct (Hfresh sp Hsp) as [Ha Hn].
  bind_as H s2 w2 H2. bind_as H s3 w3 H3. bind_as H s4 w4 H4. bind_as H s5 w5 H5.
  bind_as H u w6 H6. inversion H; subst s1'. intros t.
  rewrite (setitem2_keeps _ _ key _ _ _ _ _ H5 Ha).
  rewrite (setitem2_keeps _ _ key _ _ _ _ _ H4 Hn).
  rewrite (init_if_absent_keeps _ _ key _ _ _ _ H3 Ha).
  rewrite (init_if_absent_keeps _ _ key _ _ _ _ H2 Hn).
  apply Hs1.
Qed.

Lemma add_totals_keeps (E : @env regex) key ac w ac' w' :
  key <> "total" ->
  (forall sp, In sp (e_speakers_of_interest E) ->
              (sp ++ " annotated")%string <> key
              /\ (sp ++ " not annotated")%string <> key) ->
  add_totals stop_flag E ac w = (Val ac', w') ->
  forall t, counter_of t key ac' = counter_of t key ac.
Proof.
  intros Hk Hfresh. unfold add_totals.
  apply (for_each_invariant
           (fun s => forall t, counter_of t key s = counter_of t key ac));
    [|reflexivity].
  intros token s w0 s' w0' Hs H.
  bind_as H v w1 H1. bind_as H annotated w2 H2. bind_as H not_annotated w3 H3.
  bind_as H s1 w4 H4.
  assert (Hs1 : forall t, counter_of t key s1 = counter_of t key ac).
  { intros t. rewrite (setitem2_keeps _ _ key _ _ _ _ _ H4) by congruence.
    apply Hs. }
  revert Hs1 H.
  apply (for_each_invariant_In
           (fun s => forall t, counter_of t key s = counter_of t key ac)).
  intros speaker s2 w5 s2' w5' Hsp Hs2 H.
  destruct (Hfresh speaker Hsp) as [Ha Hn].
  bind_as H s3 w6 H6. bind_as H s4 w7 H7. bind_as H u w8 H8.
  inversion H; subst s2'. intros t.
  rewrite (setitem2_keeps _ _ key _ _ _ _ _ H7 Hn).
  rewrite (setitem2_keeps _ _ key _ _ _ _ _ H6 Ha).
  apply Hs2.
Qed.

(** X14. Lines 155-161, 173-181, 250-262, 270-277 and 381-384: none of the
    passes writes the counter "annotated", so the column "annotated" of
    the returned statistics holds, for every token, the number of
    validated annotations with that token text, and a token has a row
    only when it was annotated at least once. *)
Theorem returned_annotated_is_the_inventory_count :
  forall (i : inputs) (corpus_dict : dict string)
         (independent_variables dependent_variables : dict var_value)
         (speakers : dict (list string)) (b : bundle),
    DCThread_run re_compile finditer U stop_flag i corpus_dict
                 independent_variables dependent_variables speakers
    = ResultBundle b ->
    exists E w0,
      prepare re_compile U stop_flag i corpus_dict speakers
              independent_variables dependent_variables fresh_world
      = (Val E, w0)
      /\ forall token,
           cell_of token "annotated" (annotation_info b)
           = if (py_count token (validated_tokens finditer U E) =? 0)%Z
             then None
             else Some (CInt (py_count token (validated_tokens finditer U E))).
Proof.
  intros i corpus_dict ind dep speakers b H.
  apply run_bundle_inv in H. destruct H as [w' H].
  apply run_statistics in H.
  destruct H as (E & counted & ac & w0 & w1 & w2 & w3 & Hprep & Hcov & Htot & Hcells).
  exists E, w0. split; [exact Hprep|]. intros token.
  destruct (Hcells token) as [_ Hlabel]. rewrite Hlabel by discriminate.
  rewrite (add_totals_keeps _ "annotated" _ _ _ _ ltac:(discriminate)
             (fun sp _ => annotated_is_not_a_speaker_column sp) Htot).
  unfold coverage in Hcov.
  bind_as Hcov ac0 wa Hcount. apply count_annotations_Val in Hcount. subst ac0.
  bind_as Hcov ac1 wb Hwhole. bind_as Hcov u wc Hrep. bind_as Hcov nal wd Hfile.
  bind_as Hcov ac2 we Hsp. inversion Hcov; subst counted. cbn [fst].
  rewrite (per_speaker_pass_keeps _ "annotated" _ _ _ _
             (fun sp _ => annotated_is_not_a_speaker_column sp) Hsp).
  rewrite (whole_corpus_pass_keeps _ "annotated" _ _ _ _
             ltac:(discriminate) ltac:(discriminate) Hwhole).
  rewrite initial_counter_annotated, get_Counter.
  destruct (py_count token (validated_tokens finditer U E) =? 0)%Z; reflexivity.
Qed.

End AnnotatedColumn.

(** ** The table of missed annotations *)

Lemma fold_left_max l x : fold_left Nat.max l x = Nat.max x (list_max l).
Proof.
  revert x. induction l as [|y l IH]; intros x.
  - cbn. lia.
  - cbn [fold_left]. rewrite IH.
    change (list_max (y :: l)) with (Nat.max y (list_max l)). lia.
Qed.

Lemma py_max_Val l m w w' :
  py_max l w = (Val m, w') -> w' = w /\ l <> [] /\ m = list_max l.
Proof.
  destruct l as [|x l]; cbn; intros H; inversion H; subst.
  split; [reflexivity|]. split; [discriminate|]. apply fold_left_max.
Qed.

Lemma list_max_In n l : In n l -> n <= list_max l.
Proof.
  intros Hin. pose proof (proj1 (list_max_le l (list_max l)) (Nat.le_refl _)) as Hall.
  rewrite Forall_forall in Hall. apply Hall, Hin.
Qed.

Lemma In_snippet_counts path sub token ctx (nal : na_log) :
  In (path, sub) nal -> In (token, ctx) sub -> In (length ctx) (snippet_counts nal).
Proof.
  intros Hp Ht. unfold snippet_counts. apply in_flat_map.
  exists sub. split.
  - unfold PyDict.values. change sub with (snd (path, sub)). apply in_map, Hp.
  - unfold PyDict.values. rewrite map_map.
    change (length ctx) with (length (snd (token, ctx))).
    apply (in_map (fun x => length (snd x))), Ht.
Qed.

Lemma missing_annotations_of_Val nal w ma w' :
  missing_annotations_of nal w = (Val ma, w') ->
  w' = w
  /\ (ma = None /\ nal = []
      \/ snippet_counts nal <> []
         /\ ma = Some (["file"; "token"] ++ context_labels (list_max (snippet_counts nal)),
                       flat_map
                         (fun pv =>
                            map (fun tc => CStr (fst pv) :: CStr (fst tc)
                                           :: map CStr (snd tc))
                                (snd pv))
                         nal)).
Proof.
  unfold missing_annotations_of. destruct nal as [|pv nal].
  - cbn. intros H. inversion H; subst. auto.
  - cbn [length Nat.ltb Nat.leb]. intros H. bind_as H m w1 H1.
    apply py_max_Val in H1. destruct H1 as (-> & Hne & ->).
    inversion H; subst. split; [reflexivity|]. right. split; [assumption | reflexivity].
Qed.

Lemma length_context_labels m : length (context_labels m) = m.
Proof. unfold context_labels. rewrite length_map, length_seq. reflexivity. Qed.

Lemma pad_missed_row m path (tc : string * list string) :
  Pandas.pad (2 + m) (CStr path :: CStr (fst tc) :: map CStr (snd tc))
  = missed_row m path tc.
Proof.
  unfold Pandas.pad, missed_row. cbn [length app]. rewrite length_map.
  reflexivity.
Qed.

Lemma pad_missed_rows m (nal : na_log) :
  map (Pandas.pad (2 + m))
      (flat_map (fun pv => map (fun tc => CStr (fst pv) :: CStr (fst tc)
                                          :: map CStr (snd tc)) (snd pv)) nal)
  = missed_rows m nal.
Proof.
  unfold missed_rows. induction nal as [|pv nal IH]; [reflexivity|].
  cbn [flat_map]. rewrite map_app, IH, map_map. f_equal.
  apply map_ext. intros tc. apply pad_missed_row.
Qed.

(** X16. Lines 386-401 and 426-428: the table of missed annotations of a
    completed run has the columns "file" and "token" and one column
    "context i" for each i up to the largest number of snippets that a
    file has for a token; it has one row for every token of every file
    with a snippet, the snippets in order, filled with None on the
    right; every row has one cell per column. *)
Theorem missed_annotations_table :
  forall (annotation_counter : ann_counter) (not_annotated_log : na_log)
         (acc : table_state) (w : world) (b : bundle) (w' : world),
    finish annotation_counter not_annotated_log acc w = (Val b, w') ->
    let m := list_max (snippet_counts not_annotated_log) in
    columns (missed_annotations b) = ["file"; "token"] ++ context_labels m
    /\ data (missed_annotations b) = missed_rows m not_annotated_log
    /\ rectangular (missed_annotations b).
Proof.
  intros ac nal acc w b w' H m. unfold finish in H. destruct acc as [csv_file unk].
  bind_as H ai w1 Hai. bind_as H ma w2 Hma. bind_as H enc w3 Henc.
  bind_as H header w4 Hhead. bind_as H ds w5 Hds. bind_as H aidf w6 Haidf.
  bind_as H hr w7 Hsome. apply or_raise_Val_inv in Hsome. destruct Hsome as [-> ->].
  bind_as H madf w8 Hmadf. bind_as H u w9 Hunk. inversion H; subst b.
  cbn [missed_annotations].
  apply missing_annotations_of_Val in Hma.
  destruct Hma as (_ & [[Hnone _] | [Hne Hsome]]); [discriminate|].
  inversion Hsome; subst hr. clear Hsome. cbn [fst snd] in Hmadf. fold m in Hmadf.
  set (rows := flat_map
                 (fun pv => map (fun tc => CStr (fst pv) :: CStr (fst tc)
                                           :: map CStr (snd tc)) (snd pv)) nal) in *.
  assert (Hdata : map (Pandas.pad (2 + m)) rows = missed_rows m nal).
  { apply pad_missed_rows. }
  assert (Hwidth : rows <> [] -> Pandas.max_width rows = 2 + m).
  { intros Hrows. unfold Pandas.make in Hmadf. destruct rows as [|r rows']; [congruence|].
    cbv beta zeta in Hmadf.
    match type of Hmadf with
    | context [if ?cond then _ else _] => destruct cond eqn:Heq; [|discriminate]
    end.
    apply Nat.eqb_eq in Heq.
    rewrite Heq. cbn [app length]. rewrite length_context_labels. reflexivity. }
  apply make_Val in Hmadf. destruct Hmadf as [_ ->]. cbn [columns data].
  assert (Hpad : map (Pandas.pad (Pandas.max_width rows)) rows = missed_rows m nal).
  { destruct rows as [|r rows'] eqn:Er.
    - exact Hdata.
    - rewrite Hwidth by discriminate. exact Hdata. }
  split; [reflexivity|]. split; [exact Hpad|].
  unfold rectangular. cbn [columns data]. rewrite Hpad.
  apply Forall_forall. intros r Hin. unfold missed_rows in Hin.
  apply in_flat_map in Hin. destruct Hin as ([path sub] & Hp & Hin).
  apply in_map_iff in Hin. destruct Hin as ([token ctx] & <- & Ht).
  pose proof (list_max_In _ _ (In_snippet_counts _ _ _ _ _ Hp Ht)) as Hle.
  fold m in Hle. unfold missed_row. cbn [fst snd length app].
  rewrite length_app, length_map, repeat_length, length_context_labels. lia.
Qed.

(** ** The log of missed annotations *)

Lemma get_absent {V} k (d : dict V) : ~ In k (PyDict.keys d) -> PyDict.get k d = None.
Proof.
  intros Hk. destruct (PyDict.get k d) eqn:Hg; [|reflexivity].
  exfalso. apply Hk, mem_In_keys. unfold PyDict.mem. rewrite Hg. reflexivity.
Qed.

Lemma set_absent {V} k (v : V) (d : dict V) :
  ~ In k (PyDict.keys d) -> PyDict.set k v d = d ++ [(k, v)].
Proof.
  induction d as [|[k' v'] d IH]; cbn; intros Hk; [reflexivity|].
  destruct (String.eqb_spec k' k) as [->|Hne]; [exfalso; auto|].
  rewrite IH by auto. reflexivity.
Qed.

Lemma get_app_last {V} k (v : V) (d : dict V) :
  ~ In k (PyDict.keys d) -> PyDict.get k (d ++ [(k, v)]) = Some v.
Proof.
  induction d as [|[k' v'] d IH]; cbn; intros Hk.
  - rewrite String.eqb_refl. reflexivity.
  - destruct (String.eqb_spec k' k) as [->|Hne]; [exfalso; auto | auto].
Qed.

Lemma set_app_last {V} k (v v' : V) (d : dict V) :
  ~ In k (PyDict.keys d) -> PyDict.set k v' (d ++ [(k, v)]) = d ++ [(k, v')].
Proof.
  induction d as [|[k' v0] d IH]; cbn; intros Hk.
  - rewrite String.eqb_refl. reflexivity.
  - destruct (String.eqb_spec k' k) as [->|Hne]; [exfalso; auto|].
    rewrite IH by auto. reflexivity.
Qed.

Lemma keys_app {V} (d1 d2 : dict V) :
  PyDict.keys (d1 ++ d2) = PyDict.keys d1 ++ PyDict.keys d2.
Proof. apply map_app. Qed.

Section FileLog.

Context {regex : Type}.
Variable U : dc_utils regex.
Variable stop_flag : nat -> bool.
Variable E : @env regex.

Lemma keys_snippet_entry crp token k :
  In k (PyDict.keys (snippet_entry U E crp token)) -> k = token.
Proof.
  unfold snippet_entry. destruct (snippets U E (interest_text U E crp) token); cbn.
  - contradiction.
  - intros [<-|[]]. reflexivity.
Qed.

(** Lines 230-233: one token of one file. *)
Lemma record_snippets_last path token (nal : na_log) sub crp w nal' w' :
  ~ In path (PyDict.keys nal) -> ~ In token (PyDict.keys sub) ->
  record_snippets path token (snippets U E (interest_text U E crp) token)
                  (nal ++ [(path, sub)]) w = (Val nal', w') ->
  w' = w /\ nal' = nal ++ [(path, sub ++ snippet_entry U E crp token)].
Proof.
  intros Hp Ht. unfold record_snippets, snippet_entry.
  destruct (snippets U E (interest_text U E crp) token) as [|x wna].
  - cbn. intros H. inversion H; subst. rewrite app_nil_r. auto.
  - cbn [length Nat.ltb Nat.leb]. intros H.
    bind_as H sub0 w1 H1. apply getitem_Val in H1. destruct H1 as [Hg ->].
    rewrite get_app_last in Hg by assumption. inversion Hg; subst sub0.
    assert (Hmem : PyDict.mem token sub = false).
    { unfold PyDict.mem. rewrite get_absent by assumption. reflexivity. }
    rewrite Hmem in H. cbn [negb] in H.
    bind_as H old w1 H1. apply getitem_Val in H1. destruct H1 as [Hg' ->].
    rewrite get_set_same in Hg'. inversion Hg'; subst old.
    inversion H; subst. split; [reflexivity|].
    rewrite set_set, set_app_last, set_absent by assumption. reflexivity.
Qed.

Lemma file_loop_Val path crp (nal : na_log) (tokens : list string) :
  ~ In path (PyDict.keys nal) ->
  forall sub w nal' w',
    NoDup tokens ->
    (forall t, In t tokens -> ~ In t (PyDict.keys sub)) ->
    for_each tokens
      (fun token not_annotated_log =>
         let wna := snippets U E (interest_text U E crp) token in
         not_annotated_log <- record_snippets path token wna not_annotated_log ;;
         check_stop stop_flag ;;
         ret not_annotated_log)
      (nal ++ [(path, sub)]) w = (Val nal', w') ->
    nal' = nal ++ [(path, sub ++ file_snippets U E tokens crp)].
Proof.
  intros Hp. induction tokens as [|t tokens IH]; intros sub w nal' w' Hnd Hfresh H;
    cbn in H.
  - inversion H; subst. unfold file_snippets. cbn. rewrite app_nil_r. reflexivity.
  - bind_as H s1 w1 H1. cbv zeta in H1. bind_as H1 s2 w2 H2.
    apply record_snippets_last in H2; [|assumption | apply Hfresh; left; reflexivity].
    destruct H2 as [-> ->]. bind_as H1 u w3 H3. inversion H1; subst s1.
    inversion Hnd as [|? ? Ht Hnd']; subst.
    apply IH in H; [|assumption|].
    + rewrite H. unfold file_snippets. cbn [flat_map]. rewrite app_assoc. reflexivity.
    + intros t' Hin. rewrite keys_app, in_app_iff. intros [Hk|Hk].
      * apply (Hfresh t'); [right; assumption | assumption].
      * apply keys_snippet_entry in Hk. subst t'. contradiction.
Qed.

Lemma file_passes_Val (tokens : list string) (files : dict (list string)) :
  NoDup tokens ->
  forall (nal0 : na_log) w nal w',
    NoDup (PyDict.keys files) ->
    (forall p, In p (PyDict.keys files) -> ~ In p (PyDict.keys nal0)) ->
    for_each files
      (fun kv not_annotated_log =>
         let path := fst kv in
         let crp := interest_text U E (snd kv) in
         let not_annotated_log := PyDict.set path [] not_annotated_log in
         for_each tokens
           (fun token not_annotated_log =>
              let wna := snippets U E crp token in
              not_annotated_log <- record_snippets path token wna not_annotated_log ;;
              check_stop stop_flag ;;
              ret not_annotated_log)
           not_annotated_log)
      nal0 w = (Val nal, w') ->
    nal = nal0 ++ map (fun kv => (fst kv, file_snippets U E tokens (snd kv))) files.
Proof.
  intros Htokens. induction files as [|[path crp] files IH];
    intros nal0 w nal w' Hnd Hfresh H; cbn in H.
  - inversion H; subst. cbn. rewrite app_nil_r. reflexivity.
  - bind_as H s1 w1 H1. cbn [fst snd] in H1.
    cbn in Hnd. inversion Hnd as [|? ? Hp Hnd']; subst.
    assert (Hp0 : ~ In path (PyDict.keys nal0)) by (apply Hfresh; left; reflexivity).
    rewrite (set_absent _ _ _ Hp0) in H1.
    apply (file_loop_Val _ _ _ _ Hp0 []) in H1; [|assumption | intros t _ []].
    subst s1. cbn [app] in H. apply IH in H; [|assumption|].
    + rewrite H. cbn [map fst snd]. rewrite <- app_assoc. reflexivity.
    + intros p Hin. rewrite keys_app, in_app_iff. cbn. intros [Hk|[<-|[]]].
      * apply (Hfresh p); [right; assumption | assumption].
      * contradiction.
Qed.

(** X15. Lines 205-237: when the per-file pass is over, the log has the
    files of the corpus, in their order, and under each file the tokens
    of the inventory for which [find_repetitions] gives a snippet in the
    paragraphs of the speakers of interest of that file, each with its
    snippets; a token without a snippet has no entry. *)
Theorem per_file_log_contents :
  forall (annotation_counter : ann_counter) (w : world)
         (not_annotated_log : na_log) (w' : world),
    NoDup (PyDict.keys (e_corpus_dict E)) ->
    NoDup (PyDict.keys annotation_counter) ->
    per_file_pass U stop_flag E annotation_counter w = (Val not_annotated_log, w') ->
    not_annotated_log
    = map (fun kv => (fst kv,
                      file_snippets U E (PyDict.keys annotation_counter) (snd kv)))
          (e_corpus_dict E).
Proof.
  intros ac w nal w' Hfiles Htokens H. unfold per_file_pass in H.
  apply file_passes_Val in H; [exact H | assumption | assumption |].
  intros p _ [].
Qed.

End FileLog.

(** ** The number of checkpoints *)

Lemma for_each_polls {A S} (I : S -> Prop) (cost : A -> nat)
      (l : list A) (body : A -> S -> M S) :
  (forall x s w s' w',
      In x l -> I s -> body x s w = (Val s', w') ->
      I s' /\ polls w' = polls w + cost x) ->
  forall s w s' w',
    I s -> for_each l body s w = (Val s', w') ->
    I s' /\ polls w' = polls w + list_sum (map cost l).
Proof.
  induction l as [|x l IH]; intros Hb s w s' w' Hs H; cbn in H.
  - inversion H; subst. cbn. split; [assumption | lia].
  - bind_as H s1 w1 H1.
    destruct (Hb _ _ _ _ _ (or_introl eq_refl) Hs H1) as [Hs1 Hp1].
    apply IH in H; [|intros; eapply Hb; eauto; right; assumption | assumption].
    destruct H as [Hs' Hp]. split; [assumption|].
    change (list_sum (map cost (x :: l))) with (cost x + list_sum (map cost l)). lia.
Qed.

Lemma list_sum_const {A} (c : nat) (l : list A) :
  list_sum (map (fun _ => c) l) = length l * c.
Proof.
  induction l as [|x l IH]; [reflexivity|].
  change (list_sum (map (fun _ => c) (x :: l))) with (c + list_sum (map (fun _ : A => c) l)).
  rewrite IH. reflexivity.
Qed.

Lemma list_sum_lengths {A} (ls : list (list A)) :
  list_sum (map (@length A) ls) = length (concat ls).
Proof.
  induction ls as [|l ls IH]; [reflexivity|].
  change (list_sum (map (@length A) (l :: ls)))
    with (length l + list_sum (map (@length A) ls)).
  cbn [concat]. rewrite length_app, IH. reflexivity.
Qed.

Lemma check_stop_Val stop_flag w u w' :
  check_stop stop_flag w = (Val u, w') ->
  stop_flag (polls w) = false /\ polls w' = S (polls w).
Proof.
  unfold check_stop. destruct (stop_flag (polls w)); cbn; intros H; inversion H; subst.
  auto.
Qed.

Lemma pollfree_Val {A} (m : M A) w a w' :
  pollfree m -> m w = (Val a, w') -> polls w' = polls w.
Proof. intros Hm H. apply (Hm _ _ _ H). Qed.

Lemma init_if_absent_Val token key (ac : ann_counter) w ac' w' :
  init_if_absent token key ac w = (Val ac', w') ->
  w' = w /\ PyDict.keys ac' = PyDict.keys ac.
Proof.
  unfold init_if_absent. intros H. bind_as H v w1 H1.
  apply getitem_Val in H1. destruct H1 as [_ ->].
  destruct (negb (PyDict.mem key v)).
  - split; [apply setitem2_Val in H; apply H | eapply setitem2_keys; exact H].
  - inversion H; subst. auto.
Qed.

Section CheckpointCount.

Context {regex : Type}.
Variable re_compile : string -> option regex.
Variable finditer : regex -> string -> list rmatch.
Variable U : dc_utils regex.
Variable stop_flag : nat -> bool.

Lemma whole_corpus_pass_polls E ac w ac' w' :
  whole_corpus_pass U stop_flag E ac w = (Val ac', w') ->
  polls w' = polls w + length ac.
Proof.
  unfold whole_corpus_pass. intros H.
  apply (for_each_polls (fun _ => True) (fun _ => 1)) in H; [|clear H|exact I].
  - destruct H as [_ H]. rewrite H, list_sum_const. unfold PyDict.keys.
    rewrite length_map. lia.
  - intros token s w0 s' w0' _ _ H.
    bind_as H v w1 H1. apply getitem_Val in H1. destruct H1 as [_ ->].
    destruct (find_repetitions U (whole_corpus E) token (e_feat_regex E)
                (e_name_regex E) (e_speakers_of_interest E) None)
      as [[[wild_rep wild_rep_interest] ann_rep] wna].
    bind_as H annotated w1 H1. apply getitem_Val in H1. destruct H1 as [_ ->].
    bind_as H s1 w1 H1. apply setitem2_Val in H1. destruct H1 as [-> _].
    bind_as H s2 w1 H1. apply setitem2_Val in H1. destruct H1 as [-> _].
    bind_as H u w1 H1. apply check_stop_Val in H1. destruct H1 as [_ Hp].
    inversion H; subst. split; [exact I | lia].
Qed.

Lemma pollfree_record_snippets path token wna (nal : na_log) :
  pollfree (record_snippets path token wna nal).
Proof. unfold record_snippets, getitem. gate. Qed.

Lemma per_file_pass_polls E ac w nal w' :
  per_file_pass U stop_flag E ac w = (Val nal, w') ->
  polls w' = polls w + length (e_corpus_dict E) * length ac.
Proof.
  unfold per_file_pass. intros H.
  apply (for_each_polls (fun _ => True) (fun _ => length ac)) in H; [|clear H|exact I].
  - destruct H as [_ H]. rewrite H, list_sum_const. reflexivity.
  - intros kv s w0 s' w0' _ _ H. cbv beta zeta in H.
    apply (for_each_polls (fun _ => True) (fun _ => 1)) in H; [|clear H|exact I].
    + destruct H as [_ H]. rewrite H, list_sum_const. unfold PyDict.keys.
      rewrite length_map. split; [exact I | lia].
    + intros token s1 w1 s1' w1' _ _ H.
      bind_as H s2 w2 H2. apply pollfree_Val in H2; [|apply pollfree_record_snippets].
      bind_as H u w3 H3. apply check_stop_Val in H3. destruct H3 as [_ Hp].
      inversion H; subst. split; [exact I | lia].
Qed.

Lemma per_speaker_pass_polls E ac w ac' w' :
  per_speaker_pass U stop_flag E ac w = (Val ac', w') ->
  PyDict.keys ac' = PyDict.keys ac
  /\ polls w' = polls w + length (e_speakers_variables E) * length ac.
Proof.
  unfold per_speaker_pass. intros H.
  apply (for_each_polls (fun s => PyDict.keys s = PyDict.keys ac)
                        (fun _ => length ac)) in H; [|clear H|reflexivity].
  - destruct H as [Hk H]. split; [exact Hk|]. rewrite H, list_sum_const.
    unfold PyDict.keys. rewrite length_map. reflexivity.
  - intros sp s w0 s' w0' _ Hs H. cbv beta zeta in H.
    apply (for_each_polls (fun s1 => PyDict.keys s1 = PyDict.keys ac)
                          (fun _ => 1)) in H; [|clear H|exact Hs].
    + destruct H as [Hk H]. split; [exact Hk|]. rewrite H, list_sum_const, Hs.
      unfold PyDict.keys. rewrite length_map. lia.
    + intros token s1 w1 s1' w1' _ Hs1 H.
      destruct (find_repetitions U (speaker_corpus U E sp) token (e_feat_regex E)
                  (e_name_regex E) (e_speakers_of_interest E) None)
        as [[[wild_rep wild_rep_interest] ann_rep] wna].
      bind_as H s2 w2 H2. apply init_if_absent_Val in H2. destruct H2 as [-> Hk2].
      bind_as H s3 w2 H3. apply init_if_absent_Val in H3. destruct H3 as [-> Hk3].
      bind_as H s4 w2 H4. pose proof (setitem2_keys _ _ _ _ _ _ _ H4) as Hk4.
      apply setitem2_Val in H4. destruct H4 as [-> _].
      bind_as H s5 w2 H5. pose proof (setitem2_keys _ _ _ _ _ _ _ H5) as Hk5.
      apply setitem2_Val in H5. destruct H5 as [-> _].
      bind_as H u w2 H6. apply check_stop_Val in H6. destruct H6 as [_ Hp].
      inversion H; subst. split; [congruence | lia].
Qed.

Lemma add_totals_polls (E : @env regex) ac w ac' w' :
  add_totals stop_flag E ac w = (Val ac', w') ->
  polls w' = polls w + length ac * length (e_speakers_of_interest E).
Proof.
  unfold add_totals. intros H.
  apply (for_each_polls (fun _ => True)
                        (fun _ => length (e_speakers_of_interest E))) in H;
    [|clear H|exact I].
  - destruct H as [_ H]. rewrite H, list_sum_const. unfold PyDict.keys.
    rewrite length_map. reflexivity.
  - intros token s w0 s' w0' _ _ H.
    bind_as H v w1 H1. apply getitem_Val in H1. destruct H1 as [_ ->].
    bind_as H annotated w1 H1. apply getitem_Val in H1. destruct H1 as [_ ->].
    bind_as H not_annotated w1 H1. apply getitem_Val in H1. destruct H1 as [_ ->].
    bind_as H s1 w1 H1. apply setitem2_Val in H1. destruct H1 as [-> _].
    apply (for_each_polls (fun _ => True) (fun _ => 1)) in H; [|clear H|exact I].
    + destruct H as [_ H]. rewrite H, list_sum_const. split; [exact I | lia].
    + intros speaker s2 w2 s2' w2' _ _ H.
      bind_as H s3 w3 H3. apply setitem2_Val in H3. destruct H3 as [-> _].
      bind_as H s4 w3 H4. apply setitem2_Val in H4. destruct H4 as [-> _].
      bind_as H u w3 H5. apply check_stop_Val in H5. destruct H5 as [_ Hp].
      inversion H; subst. split; [exact I | lia].
Qed.

Lemma process_paragraph_polls E ac file_path file_speakers corpus idx acc w acc' w' :
  process_paragraph finditer U stop_flag E ac file_path file_speakers corpus idx acc w
  = (Val acc', w') ->
  polls w' = S (polls w).
Proof.
  unfold process_paragraph. intros H.
  bind_as H u w1 H1. apply check_stop_Val in H1. destruct H1 as [_ Hp].
  apply pollfree_Val in H; [lia|].
  unfold process_tag, build_row, set_feature, set_category, getitem, getidx, setidx.
  gate.
Qed.

Lemma main_loop_polls E ac w acc w' :
  main_loop finditer U stop_flag E ac w = (Val acc, w') ->
  polls w' = polls w + length (concat (PyDict.values (e_corpus_dict E))).
Proof.
  unfold main_loop. intros H.
  apply (for_each_polls (fun _ => True) (fun kv => length (snd kv))) in H;
    [|clear H|exact I].
  - destruct H as [_ H]. rewrite H. unfold PyDict.values.
    rewrite <- list_sum_lengths, map_map. reflexivity.
  - intros kv s w0 s' w0' _ _ H. cbv beta zeta in H.
    bind_as H file_speakers w1 H1. apply getitem_Val in H1. destruct H1 as [_ ->].
    apply (for_each_polls (fun _ => True) (fun _ => 1)) in H; [|clear H|exact I].
    + destruct H as [_ H]. rewrite H, list_sum_const, length_seq.
      split; [exact I | lia].
    + intros idx s1 w1 s1' w1' _ _ H. apply process_paragraph_polls in H.
      split; [exact I | lia].
Qed.

Lemma pollfree_count_annotations E : pollfree (count_annotations finditer U E).
Proof. unfold count_annotations. gate. Qed.

Lemma pollfree_report (E : @env regex) ac : pollfree (report E ac).
Proof. unfold report, sum_field, true_div, getitem. gate. Qed.

(** X3. Lines 131, 182, 234, 264, 279 and 294: a run that returns its
    tables has polled the stop flag once before the passes, once for
    every token in the whole-corpus pass, once for every token of every
    file in the per-file pass, once for every token of every speaker in
    the per-speaker pass and again in the totals, and once for every
    paragraph in the main loop; a match of the tag pattern is not a
    checkpoint. *)
Theorem completed_run_checkpoints :
  forall (i : inputs) (corpus_dict : dict string)
         (independent_variables dependent_variables : dict var_value)
         (speakers : dict (list string)) (b : bundle),
    DCThread_run re_compile finditer U stop_flag i corpus_dict
                 independent_variables dependent_variables speakers
    = ResultBundle b ->
    exists E w0,
      prepare re_compile U stop_flag i corpus_dict speakers
              independent_variables dependent_variables fresh_world
      = (Val E, w0)
      /\ polls_made re_compile finditer U stop_flag i corpus_dict
                    independent_variables dependent_variables speakers
         = checkpoints finditer U E.
Proof.
  intros i corpus_dict ind dep speakers b H.
  apply run_bundle_inv in H. destruct H as [w' H].
  unfold polls_made. rewrite H. cbn [snd].
  unfold generate_dataset, passes in H.
  bind_as H E w0 Hprep. exists E, w0. split; [exact Hprep|].
  pose proof Hprep as Hp0. apply prepare_polls in Hp0. destruct Hp0 as [Hp0 _].
  pose proof Hprep as Hcorpus. apply prepare_corpus in Hcorpus.
  destruct Hcorpus as (_ & _ & Hcorpus & _).
  bind_as H counted w1 Hcov. bind_as H ac w2 Htot.
  bind_as H u0 wu Hlog. bind_as H acc w3 Hloop.
  apply pollfree_Val in Hlog; [|apply pollfree_logger_call].
  apply pollfree_Val in H; [|apply pollfree_finish].
  apply main_loop_polls in Hloop. apply add_totals_polls in Htot.
  unfold coverage in Hcov.
  bind_as Hcov ac0 wa Hcount.
  pose proof Hcount as Hpa. apply pollfree_Val in Hpa; [|apply pollfree_count_annotations].
  apply count_annotations_Val in Hcount. subst ac0.
  bind_as Hcov ac1 wb Hwhole. pose proof Hwhole as Hk1.
  apply whole_corpus_pass_keys in Hk1.
  apply whole_corpus_pass_polls in Hwhole.
  bind_as Hcov u wc Hrep. apply pollfree_Val in Hrep; [|apply pollfree_report].
  bind_as Hcov nal wd Hfile. apply per_file_pass_polls in Hfile.
  bind_as Hcov ac2 we Hsp. apply per_speaker_pass_polls in Hsp. destruct Hsp as [Hk2 Hsp].
  inversion Hcov; subst counted w1. cbn [fst] in Htot.
  assert (Hl1 : length ac1 = length (initial_counter finditer U E)).
  { apply (f_equal (@length string)) in Hk1. unfold PyDict.keys in Hk1.
    rewrite !length_map in Hk1. exact Hk1. }
  assert (Hl2 : length ac2 = length ac1).
  { apply (f_equal (@length string)) in Hk2. unfold PyDict.keys in Hk2.
    rewrite !length_map in Hk2. exact Hk2. }
  unfold checkpoints. rewrite Hcorpus. cbn [fresh_world polls] in Hp0.
  rewrite Hl2, Hl1 in *. cbv zeta. lia.
Qed.

End CheckpointCount.

(** ** A speaker key with surrounding white space *)

Section PaddedKey.

Context {regex : Type}.
Variable re_compile : string -> option regex.
Variable U : dc_utils regex.
Variable stop_flag : nat -> bool.

(** X11. Lines 55-57, 303 and 334: the speakers of interest are the keys of
    the speaker file without their surrounding white space, but the
    variable values of a speaker are looked up under the name that
    [get_name] finds in the paragraph. A key written with surrounding
    white space so makes its speaker a speaker of interest whose rows
    have none of the values of the key: their category columns hold
    what the tag gives and are empty otherwise. *)
Theorem padded_speaker_key_loses_its_values :
  forall (i : inputs) (corpus_dict : dict string)
         (independent_variables dependent_variables : dict var_value)
         (speakers : dict (list string)) (w : world) (E : @env regex) (w' : world)
         (key : string),
    prepare re_compile U stop_flag i corpus_dict speakers
            independent_variables dependent_variables w = (Val E, w') ->
    In key (PyDict.keys speakers) ->
    PyDict.mem (PyStr.strip key) speakers = false ->
    In (PyStr.strip key) (e_speakers_of_interest E)
    /\ forall file_path file_speakers c sp index t unk w1 csv_line unk' w2,
         build_row U E file_path file_speakers c (PyStr.strip key) sp index t unk w1
         = (Val (csv_line, unk'), w2) ->
         forall j,
           0 < j -> j + trailing_columns E < length (e_csv_header E) ->
           nth_error csv_line j
           = Some match last_in_column E j (tag_components t) with
                  | Some f => f
                  | None => ""
                  end.
Proof.
  intros i corpus_dict ind dep speakers w E w' key Hprep Hkey Hmem.
  apply prepare_env in Hprep. destruct Hprep as (Hsoi & Hsv & _).
  split.
  - rewrite Hsoi. apply in_map, Hkey.
  - intros file_path file_speakers c sp index t unk w1 csv_line unk' w2 Hrow j Hj Hlt.
    apply build_row_spec in Hrow. destruct Hrow as (_ & Hcells & _).
    rewrite (Hcells j Hj Hlt).
    assert (Hvals : speaker_values E (PyStr.strip key) = []).
    { unfold speaker_values, PyDict.get_default. rewrite Hsv.
      unfold PyDict.mem in Hmem.
      destruct (PyDict.get (PyStr.strip key) speakers); [discriminate | reflexivity]. }
    rewrite Hvals. reflexivity.
Qed.

End PaddedKey.

(** ** The report of the unknown categories *)

Lemma HdRel_insert_sorted a x l :
  String.leb a x = true ->
  HdRel (fun s1 s2 => String.leb s1 s2 = true) a l ->
  HdRel (fun s1 s2 => String.leb s1 s2 = true) a (PyStr.insert_sorted x l).
Proof.
  intros Hax Hl. destruct l as [|y l]; cbn.
  - constructor. exact Hax.
  - destruct (String.leb x y); constructor; [exact Hax|].
    inversion Hl; assumption.
Qed.

Lemma Sorted_insert_sorted x l :
  Sorted (fun s1 s2 => String.leb s1 s2 = true) l ->
  Sorted (fun s1 s2 => String.leb s1 s2 = true) (PyStr.insert_sorted x l).
Proof.
  induction l as [|y l IH]; cbn; intros Hs.
  - repeat constructor.
  - destruct (String.leb x y) eqn:Exy.
    + constructor; [exact Hs | constructor; exact Exy].
    + inversion Hs as [|? ? Hs' Hhd]; subst. constructor; [apply IH, Hs'|].
      apply HdRel_insert_sorted; [|exact Hhd].
      destruct (String.leb_total x y) as [H|H]; [congruence | exact H].
Qed.

(** [sorted(l)] is in order. *)
Lemma Sorted_sorted l : Sorted (fun s1 s2 => String.leb s1 s2 = true) (PyStr.sorted l).
Proof.
  induction l as [|x l IH]; cbn; [constructor | apply Sorted_insert_sorted, IH].
Qed.

Lemma numbered_warnings_logged (names : list string) :
  forall (n : nat) (w : world),
    for_each (combine (seq n (length names)) names)
      (fun ic _ =>
         logger_call "warning"
           [PInt (Z.of_nat (fst ic)); PStr " - '"; PStr (snd ic); PStr "'"])
      tt w
    = (Val tt,
       {| polls := polls w;
          log := log w
                 ++ map (fun ic => (Warning,
                                    [PInt (Z.of_nat (fst ic)); PStr " - '";
                                     PStr (snd ic); PStr "'"]))
                        (combine (seq n (length names)) names) |}).
Proof.
  induction names as [|x names IH]; intros n w.
  - cbn. rewrite app_nil_r. destruct w; reflexivity.
  - cbn [length seq combine for_each map].
    unfold bind at 1. cbn [logger_call QTextLogger String.eqb Ascii.eqb Bool.eqb].
    cbn. rewrite IH. cbn [polls log]. rewrite <- app_assoc. reflexivity.
Qed.

(** X17. Lines 435-443: the report never fails and does not poll. With no
    unknown category it logs nothing; otherwise it logs the heading and
    then one warning for every distinct unknown category, numbered from
    0 and in the order of the code points of their names. *)
Theorem unknown_categories_are_reported_once :
  forall (unk_categories : list string) (w : world),
    exists names,
      report_unknown unk_categories w
      = (Val tt,
         {| polls := polls w;
            log := log w ++ match unk_categories with
                            | [] => []
                            | _ => unknown_warnings names
                            end |})
      /\ NoDup names
      /\ (forall c, In c names <-> In c unk_categories)
      /\ Sorted (fun s1 s2 => String.leb s1 s2 = true) names.
Proof.
  intros unk w. exists (PyStr.sorted (PyStr.dedup unk)). split; [|split; [|split]].
  - unfold report_unknown. destruct unk as [|x unk].
    + cbn. rewrite app_nil_r. destruct w; reflexivity.
    + cbn [length Nat.ltb Nat.leb]. unfold bind at 1.
      cbn [logger_call QTextLogger String.eqb Ascii.eqb Bool.eqb].
      cbv beta iota. rewrite numbered_warnings_logged. cbn [polls log].
      unfold unknown_warnings. rewrite <- app_assoc. reflexivity.
  - apply NoDup_sorted, NoDup_dedup.
  - intros c. rewrite In_sorted, In_dedup. reflexivity.
  - apply Sorted_sorted.
Qed.

(** ** The whole-corpus counters of the statistics *)

Lemma speaker_key_is_not_interest (sp : string) :
  (sp ++ " annotated")%string <> "not_annotated_interest"
  /\ (sp ++ " not annotated")%string <> "not_annotated_interest".
Proof.
  split; intros H; apply (f_equal (PyStr.contains " ")) in H;
    rewrite contains_app_r in H by reflexivity; discriminate.
Qed.

Lemma speaker_key_is_not_not_annotated (sp : string) :
  sp <> "not" ->
  (sp ++ " annotated")%string <> "not annotated"
  /\ (sp ++ " not annotated")%string <> "not annotated".
Proof.
  intros Hsp. split; intros H.
  - apply Hsp. change "not annotated" with ("not" ++ " annotated")%string in H.
    apply append_inj_l in H. exact H.
  - apply (f_equal String.length) in H. rewrite length_append_string in H.
    cbn in H. lia.
Qed.

Section WholeCorpusCounters.

Context {regex : Type}.
Variable re_compile : string -> option regex.
Variable finditer : regex -> string -> list rmatch.
Variable U : dc_utils regex.
Variable stop_flag : nat -> bool.

(** Lines 173-181: one token of the whole-corpus pass. *)
Lemma whole_corpus_step E token (ac : ann_counter) w ac' w' :
  (v <- getitem token ac ;;
   let '(wild_rep, wild_rep_interest, ann_rep, _) :=
     find_repetitions U (whole_corpus E) token (e_feat_regex E) (e_name_regex E)
                      (e_speakers_of_interest E) None in
   let total_rep := (wild_rep + ann_rep)%Z in
   annotated <- getitem "annotated" v ;;
   let not_annotated := (total_rep - annotated)%Z in
   annotation_counter <- setitem2 token "not annotated" not_annotated ac ;;
   annotation_counter <-
     setitem2 token "not_annotated_interest" wild_rep_interest annotation_counter ;;
   check_stop stop_flag ;;
   ret annotation_counter) w = (Val ac', w') ->
  exists v a,
    PyDict.get token ac = Some v
    /\ PyDict.get "annotated" v = Some a
    /\ ac' = PyDict.set token
               (PyDict.set "not_annotated_interest"
                           (snd (whole_corpus_counts U E token a))
                           (PyDict.set "not annotated"
                                       (fst (whole_corpus_counts U E token a)) v))
               ac.
Proof.
  intros H. bind_as H v w1 H1. apply getitem_Val in H1. destruct H1 as [Hv ->].
  unfold whole_corpus_counts.
  destruct (find_repetitions U (whole_corpus E) token (e_feat_regex E)
              (e_name_regex E) (e_speakers_of_interest E) None)
    as [[[wild_rep wild_rep_interest] ann_rep] wna].
  bind_as H a w1 H1. apply getitem_Val in H1. destruct H1 as [Ha ->].
  bind_as H s1 w1 H1. apply setitem2_Val in H1. destruct H1 as (-> & v1 & Hv1 & ->).
  rewrite Hv in Hv1. inversion Hv1; subst v1.
  bind_as H s2 w1 H1. apply setitem2_Val in H1. destruct H1 as (-> & v2 & Hv2 & ->).
  rewrite get_set_same in Hv2. inversion Hv2; subst v2.
  bind_as H u w1 H1. inversion H; subst ac'.
  exists v, a. split; [exact Hv|]. split; [exact Ha|].
  cbn [fst snd]. rewrite set_set. reflexivity.
Qed.

Lemma whole_corpus_loop_counts E (tokens : list string) :
  NoDup tokens ->
  forall (ac : ann_counter) w ac' w',
    for_each tokens
      (fun token annotation_counter =>
         v <- getitem token annotation_counter ;;
         let '(wild_rep, wild_rep_interest, ann_rep, _) :=
           find_repetitions U (whole_corpus E) token (e_feat_regex E)
                            (e_name_regex E) (e_speakers_of_interest E) None in
         let total_rep := (wild_rep + ann_rep)%Z in
         annotated <- getitem "annotated" v ;;
         let not_annotated := (total_rep - annotated)%Z in
         annotation_counter <-
           setitem2 token "not annotated" not_annotated annotation_counter ;;
         annotation_counter <-
           setitem2 token "not_annotated_interest" wild_rep_interest
                    annotation_counter ;;
         check_stop stop_flag ;;
         ret annotation_counter)
      ac w = (Val ac', w') ->
    (forall t, In t tokens ->
       exists a,
         counter_of t "annotated" ac = Some a
         /\ counter_of t "not annotated" ac'
            = Some (fst (whole_corpus_counts U E t a))
         /\ counter_of t "not_annotated_interest" ac'
            = Some (snd (whole_corpus_counts U E t a)))
    /\ (forall t, ~ In t tokens -> PyDict.get t ac' = PyDict.get t ac).
Proof.
  induction 1 as [|token tokens Hnotin Hnd IH]; intros ac w ac' w' H; cbn [for_each] in H.
  - inversion H; subst. split; [intros t [] | reflexivity].
  - bind_as H ac1 w1 H1. apply whole_corpus_step in H1.
    destruct H1 as (v & a & Hv & Ha & ->).
    destruct (IH _ _ _ _ H) as [Hin Hout]. split.
    + intros t [<-|Ht].
      * exists a. unfold counter_of. rewrite Hv, (Hout token Hnotin), get_set_same.
        split; [exact Ha|]. split.
        -- rewrite get_set_other by discriminate. apply get_set_same.
        -- apply get_set_same.
      * destruct (Hin t Ht) as (a' & Ha' & Hn & Hi). exists a'.
        split; [|auto]. unfold counter_of in *.
        rewrite get_set_other in Ha' by (intros ->; contradiction). exact Ha'.
    + intros t Ht. rewrite Hout by (intros Hc; apply Ht; right; exact Hc).
      apply get_set_other. intros ->. apply Ht. left. reflexivity.
Qed.

(** X25. Lines 173-181, 250-262, 270-277 and 381-384: the counters of
    the whole-corpus pass reach the returned statistics as they were
    computed. For every token, with [a] its number of annotations, the
    column "not_annotated_interest" is the count that [find_repetitions]
    gives for the speakers of interest in the whole corpus, and, unless
    a speaker of interest is called "not", the column "not annotated" is
    the number of its repetitions in the whole corpus, annotated or
    not, less [a]. *)
Theorem returned_whole_corpus_counters :
  forall (i : inputs) (corpus_dict : dict string)
         (independent_variables dependent_variables : dict var_value)
         (speakers : dict (list string)) (b : bundle),
    DCThread_run re_compile finditer U stop_flag i corpus_dict
                 independent_variables dependent_variables speakers
    = ResultBundle b ->
    exists E w0,
      prepare re_compile U stop_flag i corpus_dict speakers
              independent_variables dependent_variables fresh_world
      = (Val E, w0)
      /\ forall token a,
           cell_of token "annotated" (annotation_info b) = Some (CInt a) ->
           cell_of token "not_annotated_interest" (annotation_info b)
           = Some (CInt (snd (whole_corpus_counts U E token a)))
           /\ (~ In "not" (e_speakers_of_interest E) ->
               cell_of token "not annotated" (annotation_info b)
               = Some (CInt (fst (whole_corpus_counts U E token a)))).
Proof.
  intros i corpus_dict ind dep speakers b H.
  apply run_bundle_inv in H. destruct H as [w' H].
  apply run_statistics in H.
  destruct H as (E & counted & ac & w0 & w1 & w2 & w3 & Hprep & Hcov & Htot & Hcells).
  exists E, w0. split; [exact Hprep|]. intros token a Hann.
  pose proof Hprep as Henv. apply prepare_env in Henv.
  destruct Henv as (Hsoi & Hsv & _).
  destruct (Hcells token) as [_ Hlabel].
  rewrite Hlabel in Hann by discriminate. rewrite !Hlabel by discriminate.
  unfold coverage in Hcov.
  bind_as Hcov ac0 wa Hcount. apply count_annotations_Val in Hcount. subst ac0.
  bind_as Hcov ac1 wb Hwhole. bind_as Hcov u wc Hrep. bind_as Hcov nal wd Hfile.
  bind_as Hcov ac2 we Hsp. inversion Hcov; subst counted. cbn [fst] in Htot.
  (* the annotations of the token, before the passes *)
  rewrite (add_totals_keeps _ _ "annotated" _ _ _ _ ltac:(discriminate)
             (fun sp _ => annotated_is_not_a_speaker_column sp) Htot) in Hann.
  rewrite (per_speaker_pass_keeps _ _ _ "annotated" _ _ _ _
             (fun sp _ => annotated_is_not_a_speaker_column sp) Hsp) in Hann.
  rewrite (whole_corpus_pass_keeps _ _ _ "annotated" _ _ _ _
             ltac:(discriminate) ltac:(discriminate) Hwhole) in Hann.
  destruct (counter_of token "annotated" (initial_counter finditer U E))
    as [a0|] eqn:Ha0; [|discriminate].
  cbn in Hann. inversion Hann; subst a0. clear Hann.
  (* what the whole-corpus pass writes *)
  assert (Htoken : In token (PyDict.keys (initial_counter finditer U E))).
  { apply mem_In_keys. unfold PyDict.mem. unfold counter_of in Ha0.
    destruct (PyDict.get token (initial_counter finditer U E)); [reflexivity | discriminate]. }
  unfold whole_corpus_pass in Hwhole.
  destruct (whole_corpus_loop_counts E _ (proj1 (initial_counter_shape finditer U E))
              _ _ _ _ Hwhole) as [Hcounts _].
  destruct (Hcounts token Htoken) as (a' & Ha' & Hna & Hnai).
  rewrite Ha0 in Ha'. inversion Ha'; subst a'. clear Ha'.
  split.
  - rewrite (add_totals_keeps _ _ "not_annotated_interest" _ _ _ _ ltac:(discriminate)
               (fun sp _ => speaker_key_is_not_interest sp) Htot).
    rewrite (per_speaker_pass_keeps _ _ _ "not_annotated_interest" _ _ _ _
               (fun sp _ => speaker_key_is_not_interest sp) Hsp).
    rewrite Hnai. reflexivity.
  - intros Hnot.
    assert (Hf1 : forall sp, In sp (e_speakers_of_interest E) ->
                             (sp ++ " annotated")%string <> "not annotated"
                             /\ (sp ++ " not annotated")%string <> "not annotated").
    { intros sp Hin. apply speaker_key_is_not_not_annotated. intros ->.
      apply Hnot, Hin. }
    assert (Hf2 : forall sp, In sp (PyDict.keys (e_speakers_variables E)) ->
                             (sp ++ " annotated")%string <> "not annotated"
                             /\ (sp ++ " not annotated")%string <> "not annotated").
    { intros sp Hin. apply speaker_key_is_not_not_annotated. intros ->.
      apply Hnot. rewrite Hsoi. rewrite Hsv in Hin.
      change "not" with (PyStr.strip "not"). apply in_map, Hin. }
    rewrite (add_totals_keeps _ _ "not annotated" _ _ _ _ ltac:(discriminate) Hf1 Htot).
    rewrite (per_speaker_pass_keeps _ _ _ "not annotated" _ _ _ _ Hf2 Hsp).
    rewrite Hna. reflexivity.
Qed.

End WholeCorpusCounters.

(** ** One row for every match *)

Lemma Forall2_In_left {A B} (R : A -> B -> Prop) l l' x :
  Forall2 R l l' -> In x l -> exists y, In y l' /\ R x y.
Proof.
  induction 1 as [|a b l l' Hr _ IH]; intros Hin; [contradiction|].
  destruct Hin as [<-|Hin].
  - exists b. split; [left; reflexivity | exact Hr].
  - destruct (IH Hin) as (y & Hy & Hxy). exists y. split; [right; exact Hy | exact Hxy].
Qed.

Section RowsOfMatches.

Context {regex : Type}.
Variable re_compile : string -> option regex.
Variable finditer : regex -> string -> list rmatch.
Variable U : dc_utils regex.
Variable stop_flag : nat -> bool.

(** Lines 320-328: a match that is not skipped has a token of the
    inventory and gives a row. *)
Lemma process_tag_row E ac file_path file_speakers c cur_speaker sp wrong_tags m
      acc w acc' w' :
  process_tag U E ac file_path file_speakers c cur_speaker sp wrong_tags m acc w
  = (Val acc', w') ->
  In (PyStr.last_component "." (m_group1 m)) (PyDict.keys ac)
  /\ exists csv_line unk',
      build_row U E file_path file_speakers c cur_speaker sp
                (m_start m) (m_group1 m) (snd acc) w
      = (Val (csv_line, unk'), w')
      /\ acc' = (fst acc ++ [csv_line], unk').
Proof.
  intros H. split; [|eapply process_tag_Val; exact H].
  unfold process_tag in H.
  destruct (PyStr.mem (PyStr.last_component "." (m_group1 m)) (PyDict.keys ac)) eqn:Em.
  - apply mem_In, Em.
  - cbn in H. discriminate.
Qed.

Lemma process_tags_rows E ac file_path file_speakers c sp wrong_tags tags :
  forall acc w acc' w',
    for_each tags
      (process_tag U E ac file_path file_speakers c
                   (get_name U c (e_name_regex E)) sp wrong_tags)
      acc w = (Val acc', w') ->
    exists rows,
      fst acc' = fst acc ++ rows
      /\ Forall2 (fun row x => built_with U E file_speakers x row) rows
                 (map (fun m => {| site_file := file_path; site_paragraph := c;
                                   site_previous := sp; site_match := m |}) tags)
      /\ Forall (fun m => In (PyStr.last_component "." (m_group1 m)) (PyDict.keys ac))
                tags.
Proof.
  induction tags as [|m tags IH]; intros acc w acc' w' H; cbn [for_each] in H.
  - inversion H; subst. exists []. rewrite app_nil_r. repeat split; constructor.
  - bind_as H acc1 w1 H1. apply process_tag_row in H1.
    destruct H1 as (Hin & csv_line & unk' & Hrow & ->).
    apply IH in H. destruct H as (rows & Hrows & Hall & Hvalid). cbn [fst] in Hrows.
    exists (csv_line :: rows). split; [|split].
    + rewrite Hrows, <- app_assoc. reflexivity.
    + cbn [map]. constructor; [|exact Hall].
      exists (snd acc), w, unk', w1. exact Hrow.
    + constructor; assumption.
Qed.

(** The matches of a paragraph are matches of its file. *)
Lemma paragraph_sites_of_file E file_path corpus idx x :
  In x (paragraph_sites finditer U E file_path corpus idx) ->
  site_file x = file_path
  /\ (idx < length corpus -> In (site_paragraph x) corpus).
Proof.
  unfold paragraph_sites.
  destruct (PyStr.mem _ (e_speakers_of_interest E)); [|contradiction].
  intros H. apply in_map_iff in H. destruct H as (m & <- & _). cbn [site_file site_paragraph].
  split; [reflexivity|]. intros Hlt. apply nth_In, Hlt.
Qed.

Lemma process_paragraph_sites E ac file_path file_speakers corpus idx acc w acc' w' :
  process_paragraph finditer U stop_flag E ac file_path file_speakers corpus idx acc w
  = (Val acc', w') ->
  idx < length corpus
  /\ exists rows,
      fst acc' = fst acc ++ rows
      /\ Forall2 (fun row x => built_with U E file_speakers x row) rows
                 (paragraph_sites finditer U E file_path corpus idx)
      /\ Forall (fun x => In (PyStr.last_component "." (m_group1 (site_match x)))
                             (PyDict.keys ac))
                (paragraph_sites finditer U E file_path corpus idx).
Proof.
  unfold process_paragraph, paragraph_sites. intros H.
  bind_as H u w1 H1. bind_as H c w2 H2. apply getidx_Val in H2.
  destruct H2 as (-> & n & Hn & Hc). apply py_index_nat in Hn. subst n.
  split; [apply nth_error_Some; congruence|].
  rewrite (nth_error_nth _ _ "" Hc).
  destruct (PyStr.mem (get_name U c (e_name_regex E)) (e_speakers_of_interest E)).
  - bind_as H sp w2 H2. apply getidx_Val in H2. destruct H2 as (-> & n & Hn & Hsp).
    rewrite Hn, (nth_error_nth _ _ "" Hsp).
    logger_inv H.
    destruct (fst (remove_features U c (e_square_regex E))) as [clean_p wrong_tags].
    apply process_tags_rows in H. destruct H as (rows & Hrows & Hall & Hvalid).
    exists rows. split; [exact Hrows|]. split; [exact Hall|].
    rewrite Forall_map. exact Hvalid.
  - inversion H; subst. exists []. rewrite app_nil_r. repeat split; constructor.
Qed.

Lemma file_loop_sites E ac file_path file_speakers corpus (idxs : list nat) :
  forall acc w acc' w',
    for_each idxs
      (process_paragraph finditer U stop_flag E ac file_path file_speakers corpus)
      acc w = (Val acc', w') ->
    exists rows,
      fst acc' = fst acc ++ rows
      /\ Forall2 (fun row x => In (site_paragraph x) corpus
                               /\ built_with U E file_speakers x row)
                 rows
                 (flat_map (paragraph_sites finditer U E file_path corpus) idxs)
      /\ Forall (fun x => In (PyStr.last_component "." (m_group1 (site_match x)))
                             (PyDict.keys ac))
                (flat_map (paragraph_sites finditer U E file_path corpus) idxs).
Proof.
  induction idxs as [|idx idxs IH]; intros acc w acc' w' H; cbn [for_each] in H.
  - inversion H; subst. exists []. rewrite app_nil_r. repeat split; constructor.
  - bind_as H acc1 w1 H1. apply process_paragraph_sites in H1.
    destruct H1 as (Hlt & rows1 & Hrows1 & Hall1 & Hvalid1).
    apply IH in H. destruct H as (rows2 & Hrows2 & Hall2 & Hvalid2).
    exists (rows1 ++ rows2). cbn [flat_map]. split; [|split].
    + rewrite Hrows2, Hrows1, <- app_assoc. reflexivity.
    + apply Forall2_app; [|assumption].
      assert (Hsites : Forall (fun x => In (site_paragraph x) corpus)
                              (paragraph_sites finditer U E file_path corpus idx)).
      { apply Forall_forall. intros x Hx.
        apply paragraph_sites_of_file in Hx. apply Hx, Hlt. }
      clear - Hall1 Hsites.
      induction Hall1 as [|row x rows sites Hrow _ IHs]; constructor.
      * split; [exact (Forall_inv Hsites) | exact Hrow].
      * apply IHs. exact (Forall_inv_tail Hsites).
    + apply Forall_app. split; assumption.
Qed.

(** [row] is the row of the match [x] of a file of [files], built with
    the speakers that [all_speakers_dict] has for the file. *)
Lemma files_loop_sites E ac (files : dict (list string)) :
  forall acc w acc' w',
    for_each files
      (fun kv acc =>
         let file_path := fst kv in
         let corpus := snd kv in
         file_speakers <- getitem file_path (e_all_speakers_dict E) ;;
         for_each (seq 0 (length corpus))
           (process_paragraph finditer U stop_flag E ac file_path file_speakers corpus)
           acc)
      acc w = (Val acc', w') ->
    exists rows,
      fst acc' = fst acc ++ rows
      /\ Forall2 (fun row x =>
                    exists corpus file_speakers,
                      In (site_file x, corpus) files
                      /\ In (site_paragraph x) corpus
                      /\ PyDict.get (site_file x) (e_all_speakers_dict E)
                         = Some file_speakers
                      /\ built_with U E file_speakers x row)
                 rows
                 (flat_map
                    (fun kv => flat_map (paragraph_sites finditer U E (fst kv) (snd kv))
                                        (seq 0 (length (snd kv))))
                    files)
      /\ Forall (fun x => In (PyStr.last_component "." (m_group1 (site_match x)))
                             (PyDict.keys ac))
                (flat_map
                   (fun kv => flat_map (paragraph_sites finditer U E (fst kv) (snd kv))
                                       (seq 0 (length (snd kv))))
                   files).
Proof.
  induction files as [|[file_path corpus] files IH]; intros acc w acc' w' H;
    cbn [for_each] in H.
  - inversion H; subst. exists []. rewrite app_nil_r. repeat split; constructor.
  - bind_as H acc1 w1 H1. cbv beta zeta in H1. cbn [fst snd] in H1.
    bind_as H1 file_speakers w2 H2. apply getitem_Val in H2. destruct H2 as [Hget ->].
    apply file_loop_sites in H1.
    destruct H1 as (rows1 & Hrows1 & Hall1 & Hvalid1).
    apply IH in H. destruct H as (rows2 & Hrows2 & Hall2 & Hvalid2).
    exists (rows1 ++ rows2). cbn [flat_map fst snd]. split; [|split].
    + rewrite Hrows2, Hrows1, <- app_assoc. reflexivity.
    + apply Forall2_app.
      * assert (Hsites : Forall (fun x => site_file x = file_path)
                           (flat_map (paragraph_sites finditer U E file_path corpus)
                                     (seq 0 (length corpus)))).
        { apply Forall_forall. intros x Hx. apply in_flat_map in Hx.
          destruct Hx as (idx & _ & Hx). apply paragraph_sites_of_file in Hx. apply Hx. }
        clear - Hall1 Hsites Hget.
        induction Hall1 as [|row x rows sites [Hpar Hrow] _ IHs]; constructor.
        -- pose proof (Forall_inv Hsites) as Hfile. cbn beta in Hfile.
           exists corpus, file_speakers. rewrite Hfile.
           split; [left; reflexivity|]. split; [exact Hpar|].
           split; [exact Hget | exact Hrow].
        -- apply IHs. exact (Forall_inv_tail Hsites).
      * clear - Hall2.
        induction Hall2 as [|row x rows sites (corpus' & fs & Hin & Hrest) _ IHs];
          constructor; [|exact IHs].
        exists corpus', fs. split; [right; exact Hin | exact Hrest].
    + apply Forall_app. split; assumption.
Qed.

Lemma main_loop_sites_with E ac w acc w' :
  main_loop finditer U stop_flag E ac w = (Val acc, w') ->
  exists rows,
    fst acc = e_csv_header E :: rows
    /\ Forall2 (fun row x =>
                  exists corpus file_speakers,
                    In (site_file x, corpus) (e_corpus_dict E)
                    /\ In (site_paragraph x) corpus
                    /\ PyDict.get (site_file x) (e_all_speakers_dict E)
                       = Some file_speakers
                    /\ built_with U E file_speakers x row)
               rows (interest_matches finditer U E)
    /\ Forall (fun x => In (PyStr.last_component "." (m_group1 (site_match x)))
                           (PyDict.keys ac))
              (interest_matches finditer U E).
Proof.
  unfold main_loop, interest_matches. intros H.
  apply files_loop_sites in H. exact H.
Qed.

Lemma main_loop_sites E ac w acc w' :
  main_loop finditer U stop_flag E ac w = (Val acc, w') ->
  exists rows,
    fst acc = e_csv_header E :: rows
    /\ Forall2 (fun row x => built_for U E x row) rows (interest_matches finditer U E)
    /\ Forall (fun x => In (PyStr.last_component "." (m_group1 (site_match x)))
                           (PyDict.keys ac))
              (interest_matches finditer U E).
Proof.
  intros H. apply main_loop_sites_with in H.
  destruct H as (rows & Hfst & Hall & Hvalid).
  exists rows. split; [exact Hfst|]. split; [|exact Hvalid].
  clear - Hall.
  induction Hall as [|row x rows sites (corpus & fs & _ & _ & _ & Hrow) _ IHs];
    constructor; [|exact IHs].
  destruct Hrow as (unk & w & unk' & w' & Hrow).
  exists fs, unk, w, unk', w'. exact Hrow.
Qed.

(** X26. Lines 291-328, 375, 408 and 422: the dataset of a completed run
    has exactly one row for every match of the tag pattern in a
    paragraph whose speaker is a speaker of interest, in the order of
    the files, of the paragraphs and of the matches: each row is the row
    built for its match, with the speaker of the paragraph and the
    paragraph before it. The paragraphs of the other speakers give no
    row, and every match has a token of the inventory as its last
    component (a run with another match does not complete). *)
Theorem dataset_has_a_row_for_every_match :
  forall (i : inputs) (corpus_dict : dict string)
         (independent_variables dependent_variables : dict var_value)
         (speakers : dict (list string)) (b : bundle),
    DCThread_run re_compile finditer U stop_flag i corpus_dict
                 independent_variables dependent_variables speakers
    = ResultBundle b ->
    exists E w0,
      prepare re_compile U stop_flag i corpus_dict speakers
              independent_variables dependent_variables fresh_world
      = (Val E, w0)
      /\ Forall2 (fun r x => exists row, built_for U E x row /\ r = map CStr row)
                 (data (dataset b)) (interest_matches finditer U E)
      /\ Forall (fun x => In (PyStr.last_component "." (m_group1 (site_match x)))
                             (PyDict.keys (initial_counter finditer U E)))
                (interest_matches finditer U E).
Proof.
  intros i corpus_dict ind dep speakers b H.
  apply run_bundle_inv in H. destruct H as [w' H].
  unfold generate_dataset, passes in H.
  bind_as H E w0 Hprep. exists E, w0. split; [exact Hprep|].
  bind_as H counted w1 Hcov. bind_as H ac w2 Htot.
  bind_as H u0 wu Hlog. bind_as H acc w3 Hloop.
  (* the tokens of the statistics are those of the inventory *)
  assert (Hkeys : PyDict.keys ac = PyDict.keys (initial_counter finditer U E)).
  { pose proof Hcov as Hshape. apply coverage_shape in Hshape.
    destruct Hshape as (Hnd & ks & Hu).
    destruct (add_totals_shape _ _ _ _ _ _ _ Hnd Hu Htot) as [Hk _].
    rewrite Hk. unfold coverage in Hcov.
    bind_as Hcov ac0 wa Hcount. apply count_annotations_Val in Hcount. subst ac0.
    bind_as Hcov ac1 wb Hwhole. apply whole_corpus_pass_keys in Hwhole.
    bind_as Hcov u wc Hrep. bind_as Hcov nal wd Hfile.
    bind_as Hcov ac2 we Hsp. apply per_speaker_pass_polls in Hsp.
    destruct Hsp as [Hk2 _]. inversion Hcov; subst counted. cbn [fst]. congruence. }
  apply main_loop_sites in Hloop. destruct Hloop as (rows & Hfst & Hsites & Hvalid).
  rewrite Hkeys in Hvalid. split; [|exact Hvalid].
  destruct acc as [csv_file unk]. cbn [fst] in Hfst. subst csv_file.
  unfold finish in H.
  bind_as H ai w4 Hai. bind_as H ma w5 Hma. bind_as H enc w6 Henc.
  bind_as H header w7 Hhead. unfold csv_head in Hhead.
  apply or_raise_Val_inv in Hhead. destruct Hhead as [Hhead ->].
  cbn in Hhead. inversion Hhead; subst header. cbn [tl] in H.
  bind_as H ds w7 Hds. apply make_Val in Hds. destruct Hds as [-> Hds].
  bind_as H aidf w7 Haidf. bind_as H ma' w8 Hma'. bind_as H madf w9 Hmadf.
  bind_as H u w10 Hunk. inversion H; subst b. cbn [dataset].
  assert (Hrows : Forall (fun r => length r = length (e_csv_header E))
                         (string_rows rows)).
  { apply Forall_forall. intros r Hin. unfold string_rows in Hin.
    apply in_map_iff in Hin. destruct Hin as (row & <- & Hin).
    rewrite length_map.
    destruct (Forall2_In_left _ _ _ _ Hsites Hin)
      as (x & _ & (fs & unk0 & wa & unk1 & wb & Hrow)).
    apply build_row_spec in Hrow. apply Hrow. }
  rewrite (map_pad_full _ _ Hrows) in Hds. subst ds. cbn [data].
  unfold string_rows. clear - Hsites.
  induction Hsites as [|row x rows sites Hrow _ IH]; cbn [map]; constructor.
  - exists row. split; [exact Hrow | reflexivity].
  - exact IH.
Qed.

End RowsOfMatches.

(** ** The interlocutors of the rows *)

(** The column of the header four places from its end is the one
    labelled "interlocutor/s". *)
Lemma interlocutors_column (previous_line : bool) (ind dep : dict var_value) :
  nth_error (csv_header_of previous_line ind dep)
            (length (csv_header_of previous_line ind dep) - 4)
  = Some "interlocutor/s".
Proof.
  unfold csv_header_of.
  set (cats := PyStr.sorted (PyDict.keys dep) ++ PyStr.sorted (PyDict.keys ind)).
  destruct previous_line; rewrite !length_app; cbn [length].
  - replace (1 + (length cats + 6) - 4) with (S (length cats + 2)) by lia.
    cbn [app nth_error]. rewrite nth_error_app2 by lia.
    replace (length cats + 2 - length cats) with 2 by lia. reflexivity.
  - replace (1 + (length cats + 5) - 4) with (S (length cats + 1)) by lia.
    cbn [app nth_error]. rewrite nth_error_app2 by lia.
    replace (length cats + 1 - length cats) with 1 by lia. reflexivity.
Qed.

Lemma trailing_columns_lt (previous_line : bool) (ind dep : dict var_value) :
  (if previous_line then 6 else 5) < length (csv_header_of previous_line ind dep).
Proof.
  unfold csv_header_of. destruct previous_line; rewrite !length_app; cbn [length]; lia.
Qed.

Lemma keys_preprocessed {regex : Type} (U : dc_utils regex) (name_regex : regex)
      (corpus_dict : dict string) :
  PyDict.keys (preprocessed U name_regex corpus_dict) = PyDict.keys corpus_dict.
Proof.
  unfold preprocessed, PyDict.keys. rewrite map_map. reflexivity.
Qed.

Lemma NoDup_keys_In {V} (d : dict V) k (v v' : V) :
  NoDup (PyDict.keys d) -> In (k, v) d -> In (k, v') d -> v = v'.
Proof.
  induction d as [|[k0 v0] d IH]; intros Hnd H1 H2; [contradiction|].
  cbn in Hnd. inversion Hnd as [|? ? Hk Hnd']; subst.
  destruct H1 as [H1|H1], H2 as [H2|H2].
  - congruence.
  - inversion H1; subst. exfalso. apply Hk.
    change k with (fst (k, v')). apply in_map, H2.
  - inversion H2; subst. exfalso. apply Hk.
    change k with (fst (k, v)). apply in_map, H1.
  - apply IH; assumption.
Qed.

Section InterlocutorsOfRows.

Context {regex : Type}.
Variable re_compile : string -> option regex.
Variable finditer : regex -> string -> list rmatch.
Variable U : dc_utils regex.
Variable stop_flag : nat -> bool.

(** Lines 283-375, 408 and 422: the dataset of a completed run is made
    of the rows of its main loop. *)
Lemma run_main_loop i corpus_dict ind dep speakers b :
  DCThread_run re_compile finditer U stop_flag i corpus_dict ind dep speakers
  = ResultBundle b ->
  exists E w0 ac w2 acc w3,
    prepare re_compile U stop_flag i corpus_dict speakers ind dep fresh_world
    = (Val E, w0)
    /\ main_loop finditer U stop_flag E ac w2 = (Val acc, w3)
    /\ forall rows,
         fst acc = e_csv_header E :: rows ->
         Forall (fun row => length row = length (e_csv_header E)) rows ->
         dataset b = {| columns := e_csv_header E; data := string_rows rows |}.
Proof.
  intros H. apply run_bundle_inv in H. destruct H as [w' H].
  unfold generate_dataset, passes in H.
  bind_as H E w0 Hprep. bind_as H counted w1 Hcov. bind_as H ac w2 Htot.
  bind_as H u0 wu Hlog. bind_as H acc w3 Hloop.
  exists E, w0, ac, wu, acc, w3. split; [exact Hprep|]. split; [exact Hloop|].
  intros rows Hfst Hlen.
  destruct acc as [csv_file unk]. cbn [fst] in Hfst. subst csv_file.
  unfold finish in H.
  bind_as H ai w4 Hai. bind_as H ma w5 Hma. bind_as H enc w6 Henc.
  bind_as H header w7 Hhead. unfold csv_head in Hhead.
  apply or_raise_Val_inv in Hhead. destruct Hhead as [Hhead ->].
  cbn in Hhead. inversion Hhead; subst header. cbn [tl] in H.
  bind_as H ds w7 Hds. apply make_Val in Hds. destruct Hds as [-> Hds].
  bind_as H aidf w7 Haidf. bind_as H ma' w8 Hma'. bind_as H madf w9 Hmadf.
  bind_as H u w10 Hunk. inversion H; subst b. cbn [dataset].
  rewrite Hds. f_equal. apply (map_pad_full (length (e_csv_header E))).
  unfold string_rows. apply Forall_map. eapply Forall_impl; [|exact Hlen].
  intros row Hrow. rewrite length_map. exact Hrow.
Qed.

(** X12. Lines 69-74, 292 and 363-369: in the dataset of a completed run,
    the cell "interlocutor/s" of every row (the fourth from the end)
    holds, joined by commas, the speakers of the file of its match
    without the speaker of the paragraph: the names that [get_name]
    finds in the paragraphs of the file, sorted and each one once (the
    empty name of a paragraph without a speaker among them), from which
    the first occurrence of the speaker is removed. The files of the
    corpus have distinct names, as the keys of a dictionary have. *)
Theorem interlocutors_are_the_other_speakers :
  forall (i : inputs) (corpus_dict : dict string)
         (independent_variables dependent_variables : dict var_value)
         (speakers : dict (list string)) (b : bundle),
    NoDup (PyDict.keys corpus_dict) ->
    DCThread_run re_compile finditer U stop_flag i corpus_dict
                 independent_variables dependent_variables speakers
    = ResultBundle b ->
    let n := length (columns (dataset b)) in
    nth_error (columns (dataset b)) (n - 4) = Some "interlocutor/s"
    /\ exists E w0,
        prepare re_compile U stop_flag i corpus_dict speakers
                independent_variables dependent_variables fresh_world
        = (Val E, w0)
        /\ Forall2
             (fun r x =>
                let cur_speaker := get_name U (site_paragraph x) (e_name_regex E) in
                exists corpus others,
                  In (site_file x, corpus) (e_corpus_dict E)
                  /\ In (site_paragraph x) corpus
                  /\ PyStr.list_remove cur_speaker
                       (PyStr.sorted (PyStr.dedup (names_of U (e_name_regex E) corpus)))
                     = Some others
                  /\ nth_error r (n - 4) = Some (CStr (PyStr.join "," others))
                  /\ NoDup others
                  /\ forall s, In s others
                       <-> s <> cur_speaker
                           /\ exists c', In c' corpus
                                         /\ get_name U c' (e_name_regex E) = s)
             (data (dataset b)) (interest_matches finditer U E).
Proof.
  intros i corpus_dict ind dep speakers b Hnd H.
  apply run_main_loop in H.
  destruct H as (E & w0 & ac & w2 & acc & w3 & Hprep & Hloop & Hds).
  pose proof Hprep as Henv. apply prepare_env in Henv.
  destruct Henv as (_ & _ & Hpl & Hhdr & _).
  pose proof Hprep as Hcorpus. apply prepare_corpus in Hcorpus.
  destruct Hcorpus as (_ & Hcd & _ & Hsd).
  assert (Hkeys : NoDup (PyDict.keys (e_corpus_dict E)))
    by (rewrite Hcd, keys_preprocessed; exact Hnd).
  assert (Htr : trailing_columns E < length (e_csv_header E)).
  { unfold trailing_columns. rewrite Hhdr, Hpl. apply trailing_columns_lt. }
  apply main_loop_sites_with in Hloop.
  destruct Hloop as (rows & Hfst & Hsites & _).
  assert (Hlen : Forall (fun row => length row = length (e_csv_header E)) rows).
  { apply Forall_forall. intros row Hin.
    destruct (Forall2_In_left _ _ _ _ Hsites Hin)
      as (x & _ & (corpus & fs & _ & _ & _ & (unk0 & wa & unk1 & wb & Hrow))).
    apply build_row_spec in Hrow. apply Hrow. }
  rewrite (Hds rows Hfst Hlen). cbn [columns data]. cbv zeta.
  split; [rewrite Hhdr; apply interlocutors_column|].
  exists E, w0. split; [exact Hprep|].
  unfold string_rows. clear Hds Hlen Hfst.
  induction Hsites as [|row x rows sites Hrow _ IH]; cbn [map]; constructor;
    [|exact IH].
  destruct Hrow as (corpus & fs & Hin & Hpar & Hget & (unk0 & wa & unk1 & wb & Hrow)).
  apply build_row_fixed_cells in Hrow; [|exact Htr].
  destruct Hrow as (_ & _ & _ & _ & _ & _ & others & Hrm & Hcell).
  assert (Hfs : fs = PyStr.sorted (PyStr.dedup (names_of U (e_name_regex E) corpus))).
  { rewrite Hsd in Hget.
    rewrite (all_speakers_dict_present U (e_name_regex E) (site_file x) corpus) in Hget.
    - inversion Hget. reflexivity.
    - exact Hkeys.
    - exact Hin.
    - intros ->. contradiction. }
  subst fs.
  destruct (other_speakers_of_file U (e_name_regex E) (e_corpus_dict E)
              (site_file x) corpus (site_paragraph x) Hkeys Hin Hpar)
    as (fs' & others' & Hget' & Hrm' & Hnd' & Hiff).
  rewrite Hsd in Hget.
  rewrite Hget in Hget'. inversion Hget'; subst fs'.
  rewrite Hrm in Hrm'. inversion Hrm'; subst others'.
  exists corpus, others.
  split; [exact Hin|]. split; [exact Hpar|]. split; [exact Hrm|].
  split; [|split; [exact Hnd' | exact Hiff]].
  rewrite nth_error_map, Hcell. reflexivity.
Qed.

End InterlocutorsOfRows.

(** ** The further properties at concrete inputs *)

Section FurtherClosed.

Import Runs.

Lemma sentinel_only_when_flag_observed_witness :
  Sample.run stop_at_main_loop false corpus_mary speakers_john independent dependent
  = ResultNone
  /\ let n := polls_made Sample.re_compile Sample.finditer Sample.utils
                         stop_at_main_loop (Sample.sample_inputs false) corpus_mary
                         independent dependent speakers_john in
     0 < n /\ stop_at_main_loop (pred n) = true
     /\ forall k, k < pred n -> stop_at_main_loop k = false.
Proof.
  split; [vm_compute; reflexivity|].
  apply (sentinel_only_when_flag_observed
           Sample.re_compile Sample.finditer Sample.utils stop_at_main_loop
           (Sample.sample_inputs false) corpus_mary independent dependent
           speakers_john).
  vm_compute. reflexivity.
Defined.

Lemma stopped_before_start_witness :
  Sample.run (fun _ => true) false corpus_john speakers_john independent dependent
  = ResultNone
  /\ polls_made Sample.re_compile Sample.finditer Sample.utils (fun _ => true)
                (Sample.sample_inputs false) corpus_john
                independent dependent speakers_john = 1.
Proof.
  destruct (stopped_before_start
              Sample.re_compile Sample.finditer Sample.utils (fun _ => true)
              (Sample.sample_inputs false) corpus_john independent dependent
              speakers_john eq_refl) as [H | (e & He & _)].
  - exact H.
  - vm_compute in He. discriminate He.
Defined.

Lemma empty_corpus_fails_witness :
  generate_dataset Sample.re_compile Sample.finditer Sample.utils Sample.never
                   (Sample.sample_inputs false) [("f1", "no speaker here")]
                   speakers_john independent dependent fresh_world
  = (Raise (ValueError "The corpus is empty!"),
     {| polls := 0;
        log := [(Info, [PStr "Starting dataset generation"]);
                (Warning,
                 [PStr "f1"; PStr ": paragraphs without a speaker were dropped: ";
                  PStr "no speaker here"]);
                (Error,
                 [PStr "All the paragraphs in the corpus have been deleted! You should review your regex rules"])] |}).
Proof.
  rewrite (empty_corpus_fails
             Sample.pattern Sample.re_compile Sample.finditer Sample.utils
             Sample.never (Sample.sample_inputs false)
             [("f1", "no speaker here")] independent dependent speakers_john
             Sample.SquarePattern Sample.TagPattern Sample.NamePattern fresh_world
             eq_refl eq_refl eq_refl).
  - reflexivity.
  - intros kv [<-|[]]. vm_compute. reflexivity.
Defined.

Lemma resolved_category_has_a_column_witness :
  PyDict.get "male" (inverse_index (variable_dict_of independent dependent))
  = Some "gender"
  /\ exists c,
      list_index "gender" (csv_header_of true independent dependent) = Some c
      /\ c + 6 < length (csv_header_of true independent dependent).
Proof.
  split; [reflexivity|].
  apply (resolved_category_has_a_column true independent dependent "male" "gender").
  reflexivity.
Defined.

Lemma row_fixed_cells_witness :
  exists csv_line unk' w',
    build_row Sample.utils env_female "f1" ["JOHN"; "MARY"]
      "JOHN: I like [$female.animal.cats] and cats" "JOHN"
      "MARY: I like dogs" 13 "female.animal.cats" [] fresh_world
    = (Val (csv_line, unk'), w')
    /\ w' = fresh_world
    /\ length csv_line = 8
    /\ nth_error csv_line 0 = Some "cats"
    /\ nth_error csv_line 3 = Some "JOHN"
    /\ nth_error csv_line 5 = Some "f1"
    /\ nth_error csv_line 6 = Some "like  [$female.animal.cats] and"
    /\ exists speakers,
        PyStr.list_remove "JOHN" ["JOHN"; "MARY"] = Some speakers
        /\ nth_error csv_line 4 = Some (PyStr.join "," speakers).
Proof.
  eexists. eexists. eexists. split; [vm_compute; reflexivity|].
  eapply (row_fixed_cells
            Sample.utils env_female "f1" ["JOHN"; "MARY"]
           "JOHN: I like [$female.animal.cats] and cats" "JOHN"
           "MARY: I like dogs" 13 "female.animal.cats" [] fresh_world).
  - vm_compute. lia.
  - vm_compute. reflexivity.
Defined.

Lemma row_unknown_bucket_witness :
  exists csv_line unk' w',
    build_row Sample.utils env_female "f1" ["JOHN"]
      "JOHN: I like [$loud.animal.soft.cats] and cats" "JOHN"
      "JOHN: I like [$loud.animal.soft.cats] and cats" 13 "loud.animal.soft.cats"
      ["old"] fresh_world
    = (Val (csv_line, unk'), w')
    /\ nth_error csv_line 7 = Some "loud,soft"
    /\ unk' = ["old"; "loud"; "soft"].
Proof.
  eexists. eexists. eexists. split; [vm_compute; reflexivity|].
  eapply (row_unknown_bucket
           Sample.utils env_female "f1" ["JOHN"]
           "JOHN: I like [$loud.animal.soft.cats] and cats" "JOHN"
           "JOHN: I like [$loud.animal.soft.cats] and cats" 13
           "loud.animal.soft.cats" ["old"] fresh_world _ _ _).
  - vm_compute. lia.
  - intros v col Hin Hcol. vm_compute in Hin.
    repeat (destruct Hin as [<-|Hin]; [vm_compute in Hcol; inversion Hcol; vm_compute; lia|]).
    destruct Hin.
  - vm_compute. reflexivity.
Defined.

End FurtherClosed.

Section FurtherClosedTables.

Import Runs.

Lemma dataset_rows_follow_header_witness :
  exists b,
    Sample.run Sample.never true corpus_john speakers_john independent dependent
    = ResultBundle b
    /\ columns (dataset b) = csv_header_of true independent dependent
    /\ rectangular (dataset b)
    /\ exists E w0,
        prepare Sample.re_compile Sample.utils Sample.never
                (Sample.sample_inputs true) corpus_john speakers_john
                independent dependent fresh_world
        = (Val E, w0)
        /\ forall r, In r (data (dataset b)) ->
             exists row, built_row Sample.utils E row /\ r = map CStr row.
Proof.
  eexists. split; [vm_compute; reflexivity|].
  eapply (dataset_rows_follow_header
            Sample.re_compile Sample.finditer Sample.utils Sample.never
            (Sample.sample_inputs true) corpus_john independent dependent
            speakers_john).
  vm_compute. reflexivity.
Defined.

Lemma row_is_built_only_if_witness :
  exists csv_line unk' w',
    build_row Sample.utils env_female "f1" ["JOHN"; "MARY"]
      "JOHN: I like [$female.animal.cats] and cats" "JOHN"
      "MARY: I like dogs" 13 "female.animal.cats" [] fresh_world
    = (Val (csv_line, unk'), w')
    /\ (forall v, In v (speaker_values env_female "JOHN") ->
          exists category,
            PyDict.get v (e_idv env_female) = Some category
            /\ In category (e_csv_header env_female))
    /\ (exists feats text, "female.animal.cats" = (feats ++ "." ++ text)%string)
    /\ In "JOHN" ["JOHN"; "MARY"].
Proof.
  eexists. eexists. eexists. split; [vm_compute; reflexivity|].
  eapply (row_is_built_only_if
            Sample.utils env_female "f1" ["JOHN"; "MARY"]
            "JOHN: I like [$female.animal.cats] and cats" "JOHN"
            "MARY: I like dogs" 13 "female.animal.cats" [] fresh_world).
  vm_compute. reflexivity.
Defined.

Lemma file_without_paragraphs_ends_the_run_witness :
  Sample.run Sample.never false
             [("f1", "JOHN: I like [$animal.cats] and cats"); ("f2", "no speaker")]
             speakers_john independent dependent
  = ResultError (KeyError "f2")
  /\ forall b,
      Sample.run Sample.never false
                 [("f1", "JOHN: I like [$animal.cats] and cats"); ("f2", "no speaker")]
                 speakers_john independent dependent
      <> ResultBundle b.
Proof.
  split; [vm_compute; reflexivity|].
  apply (file_without_paragraphs_ends_the_run
           Sample.re_compile Sample.finditer Sample.utils Sample.never
           (Sample.sample_inputs false)
           [("f1", "JOHN: I like [$animal.cats] and cats"); ("f2", "no speaker")]
           independent dependent speakers_john
           Sample.NamePattern "f2" "no speaker").
  - reflexivity.
  - right. left. reflexivity.
  - intros text' [H|[H|[]]]; inversion H; subst. vm_compute. reflexivity.
Defined.

Lemma returned_annotated_is_the_inventory_count_witness :
  exists b,
    Sample.run Sample.never false corpus_john speakers_john independent dependent
    = ResultBundle b
    /\ exists E w0,
        prepare Sample.re_compile Sample.utils Sample.never
                (Sample.sample_inputs false) corpus_john speakers_john
                independent dependent fresh_world
        = (Val E, w0)
        /\ forall token,
             cell_of token "annotated" (annotation_info b)
             = if (py_count token (validated_tokens Sample.finditer Sample.utils E)
                   =? 0)%Z
               then None
               else Some (CInt (py_count token
                                  (validated_tokens Sample.finditer Sample.utils E))).
Proof.
  eexists. split; [vm_compute; reflexivity|].
  eapply (returned_annotated_is_the_inventory_count
            Sample.re_compile Sample.finditer Sample.utils Sample.never
            (Sample.sample_inputs false) corpus_john independent dependent
            speakers_john).
  vm_compute. reflexivity.
Defined.

Lemma missed_annotations_table_witness :
  exists b w',
    finish one_token_counter
           [("f1", [("cats", ["JOHN: I like cats"; "JOHN: cats"]);
                    ("dogs", ["JOHN: dogs"])]);
            ("f2", [])]
           (one_row_table, []) fresh_world
    = (Val b, w')
    /\ columns (missed_annotations b) = ["file"; "token"; "context 1"; "context 2"]
    /\ data (missed_annotations b)
       = [[CStr "f1"; CStr "cats"; CStr "JOHN: I like cats"; CStr "JOHN: cats"];
          [CStr "f1"; CStr "dogs"; CStr "JOHN: dogs"; CNone]]
    /\ rectangular (missed_annotations b).
Proof.
  eexists. eexists. split; [vm_compute; reflexivity|].
  eapply (missed_annotations_table
            one_token_counter
            [("f1", [("cats", ["JOHN: I like cats"; "JOHN: cats"]);
                     ("dogs", ["JOHN: dogs"])]);
             ("f2", [])]
            (one_row_table, []) fresh_world).
  vm_compute. reflexivity.
Defined.

Lemma per_file_log_contents_witness :
  exists nal w',
    per_file_pass Sample.utils Sample.never env_john one_token_counter fresh_world
    = (Val nal, w')
    /\ nal = map (fun kv =>
                    (fst kv,
                     file_snippets Sample.utils env_john
                                   (PyDict.keys one_token_counter) (snd kv)))
                 (e_corpus_dict env_john).
Proof.
  eexists. eexists. split; [vm_compute; reflexivity|].
  eapply (per_file_log_contents Sample.utils Sample.never env_john
                                one_token_counter fresh_world).
  - repeat constructor. cbn. tauto.
  - repeat constructor. cbn. tauto.
  - vm_compute. reflexivity.
Defined.

End FurtherClosedTables.

Section FurtherClosedRuns.

Import Runs.

Lemma completed_run_checkpoints_witness :
  exists E w0,
    prepare Sample.re_compile Sample.utils Sample.never
            (Sample.sample_inputs false) corpus_john speakers_john
            independent dependent fresh_world
    = (Val E, w0)
    /\ polls_made Sample.re_compile Sample.finditer Sample.utils Sample.never
                  (Sample.sample_inputs false) corpus_john
                  independent dependent speakers_john
       = checkpoints Sample.finditer Sample.utils E.
Proof.
  eapply (completed_run_checkpoints
            Sample.re_compile Sample.finditer Sample.utils Sample.never
            (Sample.sample_inputs false) corpus_john independent dependent
            speakers_john).
  vm_compute. reflexivity.
Defined.

Lemma padded_speaker_key_loses_its_values_witness :
  exists E w',
    prepare Sample.re_compile Sample.utils Sample.never
            (Sample.sample_inputs false) corpus_john [(" JOHN", ["male"])]
            independent dependent fresh_world
    = (Val E, w')
    /\ In "JOHN" (e_speakers_of_interest E)
    /\ forall file_path file_speakers c sp index t unk w1 csv_line unk' w2,
         build_row Sample.utils E file_path file_speakers c "JOHN" sp index t unk w1
         = (Val (csv_line, unk'), w2) ->
         forall j,
           0 < j -> j + trailing_columns E < length (e_csv_header E) ->
           nth_error csv_line j
           = Some match last_in_column E j (tag_components t) with
                  | Some f => f
                  | None => ""
                  end.
Proof.
  eexists. eexists. split; [vm_compute; reflexivity|].
  eapply (padded_speaker_key_loses_its_values
            Sample.re_compile Sample.utils Sample.never
            (Sample.sample_inputs false) corpus_john independent dependent
            [(" JOHN", ["male"])] fresh_world _ _ " JOHN").
  - vm_compute. reflexivity.
  - left. reflexivity.
  - reflexivity.
Defined.

Lemma returned_whole_corpus_counters_witness :
  exists b,
    Sample.run Sample.never false corpus_john speakers_john independent dependent
    = ResultBundle b
    /\ exists E w0,
        prepare Sample.re_compile Sample.utils Sample.never
                (Sample.sample_inputs false) corpus_john speakers_john
                independent dependent fresh_world
        = (Val E, w0)
        /\ forall token a,
             cell_of token "annotated" (annotation_info b) = Some (CInt a) ->
             cell_of token "not_annotated_interest" (annotation_info b)
             = Some (CInt (snd (whole_corpus_counts Sample.utils E token a)))
             /\ (~ In "not" (e_speakers_of_interest E) ->
                 cell_of token "not annotated" (annotation_info b)
                 = Some (CInt (fst (whole_corpus_counts Sample.utils E token a)))).
Proof.
  eexists. split; [vm_compute; reflexivity|].
  eapply (returned_whole_corpus_counters
            Sample.re_compile Sample.finditer Sample.utils Sample.never
            (Sample.sample_inputs false) corpus_john independent dependent
            speakers_john).
  vm_compute. reflexivity.
Defined.

Lemma dataset_has_a_row_for_every_match_witness :
  exists b,
    Sample.run Sample.never false corpus_john speakers_john independent dependent
    = ResultBundle b
    /\ exists E w0,
        prepare Sample.re_compile Sample.utils Sample.never
                (Sample.sample_inputs false) corpus_john speakers_john
                independent dependent fresh_world
        = (Val E, w0)
        /\ Forall2 (fun r x => exists row,
                        built_for Sample.utils E x row /\ r = map CStr row)
                   (data (dataset b)) (interest_matches Sample.finditer Sample.utils E)
        /\ Forall (fun x => In (PyStr.last_component "." (m_group1 (site_match x)))
                               (PyDict.keys
                                  (initial_counter Sample.finditer Sample.utils E)))
                  (interest_matches Sample.finditer Sample.utils E).
Proof.
  eexists. split; [vm_compute; reflexivity|].
  eapply (dataset_has_a_row_for_every_match
            Sample.re_compile Sample.finditer Sample.utils Sample.never
            (Sample.sample_inputs false) corpus_john independent dependent
            speakers_john).
  vm_compute. reflexivity.
Defined.

Lemma interlocutors_are_the_other_speakers_witness :
  exists b,
    Sample.run Sample.never false corpus_john speakers_john independent dependent
    = ResultBundle b
    /\ Pandas.values "interlocutor/s" (dataset b) = Some [CStr "MARY"]
    /\ let n := length (columns (dataset b)) in
       nth_error (columns (dataset b)) (n - 4) = Some "interlocutor/s"
       /\ exists E w0,
           prepare Sample.re_compile Sample.utils Sample.never
                   (Sample.sample_inputs false) corpus_john speakers_john
                   independent dependent fresh_world
           = (Val E, w0)
           /\ Forall2
                (fun r x =>
                   let cur_speaker :=
                     get_name Sample.utils (site_paragraph x) (e_name_regex E) in
                   exists corpus others,
                     In (site_file x, corpus) (e_corpus_dict E)
                     /\ In (site_paragraph x) corpus
                     /\ PyStr.list_remove cur_speaker
                          (PyStr.sorted
                             (PyStr.dedup (names_of Sample.utils (e_name_regex E) corpus)))
                        = Some others
                     /\ nth_error r (n - 4) = Some (CStr (PyStr.join "," others))
                     /\ NoDup others
                     /\ forall s, In s others
                          <-> s <> cur_speaker
                              /\ exists c', In c' corpus
                                            /\ get_name Sample.utils c' (e_name_regex E) = s)
                (data (dataset b)) (interest_matches Sample.finditer Sample.utils E).
Proof.
  eexists. split; [vm_compute; reflexivity|]. split; [reflexivity|].
  eapply (interlocutors_are_the_other_speakers
            Sample.re_compile Sample.finditer Sample.utils Sample.never
            (Sample.sample_inputs false) corpus_john independent dependent
            speakers_john).
  - repeat constructor. cbn. tauto.
  - vm_compute. reflexivity.
Defined.

End FurtherClosedRuns.

(** * Properties of the upload helpers *)

(** ** The text that [re.sub] leaves *)

Section UploadFacts.

Import CUtils CUtilsSpec.

Lemma contains_space_cons a s :
  PyStr.contains " " (String a s) = Ascii.eqb a " " || PyStr.contains " " s.
Proof.
  cbn [PyStr.contains String.prefix].
  destruct (ascii_dec " " a) as [<-|Hne].
  - destruct s; reflexivity.
  - destruct (Ascii.eqb_spec a " "); [congruence | reflexivity].
Qed.

Lemma blank_space : blank " " = true.
Proof. reflexivity. Qed.

Lemma blank_nl : blank (ascii_of_nat 10) = false.
Proof. reflexivity. Qed.

Lemma sub_blanks_from_nl r s :
  sub_blanks_from r (s ++ nl) = (sub_blanks_from r s ++ nl)%string.
Proof.
  revert r. induction s as [|a s IH]; intros r; cbn.
  - reflexivity.
  - destruct (blank a); [destruct r|]; cbn; rewrite IH; reflexivity.
Qed.

Lemma sub_blanks_from_true s :
  sub_blanks_from true s = sub_blanks_from false (PyStr.lstrip_p blank s).
Proof.
  induction s as [|a s IH]; cbn; [reflexivity|].
  destruct (blank a) eqn:Ea; [exact IH|]. cbn. rewrite Ea. reflexivity.
Qed.

(** The text after [re.sub] has a space exactly when the text before it
    has a blank character. *)
Lemma contains_space_sub_blanks s :
  PyStr.contains " " (sub_blanks_from false s)
  = existsb blank (list_ascii_of_string s).
Proof.
  induction s as [|a s IH]; [reflexivity|].
  cbn [sub_blanks_from list_ascii_of_string existsb].
  destruct (blank a) eqn:Ea.
  - rewrite contains_space_cons. reflexivity.
  - rewrite contains_space_cons, IH.
    destruct (Ascii.eqb_spec a " ") as [->|_]; [discriminate | reflexivity].
Qed.

Lemma contains_space_blank s :
  PyStr.contains " " s = true -> existsb blank (list_ascii_of_string s) = true.
Proof.
  induction s as [|a s IH]; [discriminate|].
  rewrite contains_space_cons. cbn [list_ascii_of_string existsb].
  destruct (Ascii.eqb_spec a " ") as [->|_]; [reflexivity|].
  cbn [orb]. intros H. rewrite (IH H). apply orb_true_r.
Qed.

Lemma squeezed_sub_blanks_from s :
  forall r,
    squeezed (sub_blanks_from r s) = true
    /\ (r = true -> match sub_blanks_from r s with
                    | EmptyString => True
                    | String b _ => blank b = false
                    end).
Proof.
  induction s as [|a s IH]; intros r; cbn [sub_blanks_from].
  - cbn. auto.
  - destruct (blank a) eqn:Ea.
    + destruct r.
      * apply IH.
      * destruct (IH true) as [Hs Hh]. specialize (Hh eq_refl).
        split; [|discriminate].
        cbn [squeezed]. rewrite blank_space, Hs.
        destruct (sub_blanks_from true s); [reflexivity|]. rewrite Hh. reflexivity.
    + destruct (IH false) as [Hs _]. split; [|intros _; exact Ea].
      cbn [squeezed]. rewrite Ea, Hs. reflexivity.
Qed.

(** [re.sub] changes nothing in a text that it has already treated. *)
Lemma sub_blanks_squeezed s : squeezed s = true -> sub_blanks s = s.
Proof.
  unfold sub_blanks. induction s as [|a s IH]; [reflexivity|].
  cbn [squeezed sub_blanks_from]. destruct (blank a) eqn:Ea.
  - intros H. apply andb_prop in H. destruct H as [H Hs].
    apply andb_prop in H. destruct H as [Hsp Hnext].
    apply Ascii.eqb_eq in Hsp. subst a. f_equal.
    rewrite sub_blanks_from_true.
    destruct s as [|b s]; [reflexivity|].
    cbn [PyStr.lstrip_p]. apply negb_true_iff in Hnext. rewrite Hnext.
    apply IH, Hs.
  - cbn [andb]. intros Hs. f_equal. apply IH, Hs.
Qed.

Variable bytes_decode : bytes -> string -> decoding.

(** ** The loop of [decode] *)

Lemma decode_loop_spec k to_decode (encodings : list string) :
  forall idx r out,
    decode_loop bytes_decode k to_decode idx encodings = (r, out) ->
    match r with
    | Success dec encoding =>
        exists pre post text,
          encodings = pre ++ encoding :: post
          /\ forallb (unsuitable bytes_decode to_decode) pre = true
          /\ bytes_decode to_decode encoding = Decoded text
          /\ PyStr.contains " " (text ++ nl) = true
          /\ dec = sub_blanks (text ++ nl)
    | NoSuccess => undecodable bytes_decode encodings to_decode = true
    | Uncaught e =>
        exists pre encoding post,
          encodings = pre ++ encoding :: post
          /\ forallb (unsuitable bytes_decode to_decode) pre = true
          /\ bytes_decode to_decode encoding = DecodeRaises e
    end.
Proof.
  induction encodings as [|encoding rest IH]; intros idx r out H; cbn in H.
  - inversion H; subst. reflexivity.
  - destruct (bytes_decode to_decode encoding) as [text|e|e] eqn:Hd.
    + destruct (PyStr.contains " " (text ++ nl)) eqn:Hsp; cbn [negb] in H.
      * inversion H; subst. exists [], rest, text. cbn. auto.
      * destruct (decode_loop bytes_decode k to_decode (S idx) rest) as [r' out'] eqn:Hl.
        inversion H; subst r. specialize (IH _ _ _ Hl).
        assert (Hu : unsuitable bytes_decode to_decode encoding = true)
          by (unfold unsuitable; rewrite Hd, Hsp; reflexivity).
        destruct r' as [dec enc| |e'].
        -- destruct IH as (pre & post & text' & -> & Hpre & Hrest).
           exists (encoding :: pre), post, text'. cbn. rewrite Hu. auto.
        -- unfold undecodable. cbn. rewrite Hu. exact IH.
        -- destruct IH as (pre & enc & post & -> & Hpre & Hrest).
           exists (encoding :: pre), enc, post. cbn. rewrite Hu. auto.
    + destruct (decode_loop bytes_decode k to_decode (S idx) rest) as [r' out'] eqn:Hl.
      inversion H; subst r. specialize (IH _ _ _ Hl).
      assert (Hu : unsuitable bytes_decode to_decode encoding = true)
        by (unfold unsuitable; rewrite Hd; reflexivity).
      destruct r' as [dec enc| |e'].
      * destruct IH as (pre & post & text' & -> & Hpre & Hrest).
        exists (encoding :: pre), post, text'. cbn. rewrite Hu. auto.
      * unfold undecodable. cbn. rewrite Hu. exact IH.
      * destruct IH as (pre & enc & post & -> & Hpre & Hrest).
        exists (encoding :: pre), enc, post. cbn. rewrite Hu. auto.
    + inversion H; subst. exists [], encoding, rest. cbn. auto.
Qed.

Lemma decode_loop_raises k to_decode pre encoding post e :
  forallb (unsuitable bytes_decode to_decode) pre = true ->
  bytes_decode to_decode encoding = DecodeRaises e ->
  forall idx, exists out,
    decode_loop bytes_decode k to_decode idx (pre ++ encoding :: post)
    = (Uncaught e, out).
Proof.
  intros Hpre Hd. induction pre as [|x pre IH]; intros idx; cbn.
  - rewrite Hd. eauto.
  - cbn in Hpre. apply andb_prop in Hpre. destruct Hpre as [Hx Hpre].
    destruct (IH Hpre (S idx)) as [out Hout]. unfold unsuitable in Hx.
    destruct (bytes_decode to_decode x) as [text| |]; [| |discriminate].
    + rewrite Hx, Hout. eauto.
    + rewrite Hout. eauto.
Qed.

Lemma suitable_not_undecodable to_decode pre encoding post text :
  bytes_decode to_decode encoding = Decoded text ->
  PyStr.contains " " (text ++ nl) = true ->
  undecodable bytes_decode (pre ++ encoding :: post) to_decode = false.
Proof.
  intros Hd Hsp. unfold undecodable. rewrite forallb_app. cbn.
  unfold unsuitable at 2. rewrite Hd, Hsp. cbn. apply andb_false_r.
Qed.

(** What [decode] returns. *)
Lemma decode_Returns encodings k to_decode dec err out :
  decode bytes_decode encodings k to_decode = (Returns (dec, err), out) ->
  (undecodable bytes_decode encodings to_decode = true
   /\ dec = "" /\ err = no_encoding_message k encodings)
  \/ (undecodable bytes_decode encodings to_decode = false
      /\ err = []
      /\ exists pre encoding post text,
          encodings = pre ++ encoding :: post
          /\ forallb (unsuitable bytes_decode to_decode) pre = true
          /\ bytes_decode to_decode encoding = Decoded text
          /\ PyStr.contains " " (text ++ nl) = true
          /\ dec = sub_blanks (text ++ nl)).
Proof.
  unfold decode.
  destruct (decode_loop bytes_decode k to_decode 0 encodings) as [r out0] eqn:Hl.
  apply decode_loop_spec in Hl. destruct r as [dec0 enc| |e]; intros H; inversion H; subst.
  - right. destruct Hl as (pre & post & text & -> & Hpre & Hd & Hsp & ->).
    split; [eapply suitable_not_undecodable; eassumption|].
    split; [reflexivity|]. exists pre, enc, post, text. auto.
  - left. auto.
Qed.

(** ** The loop on the files *)

(** The text and the error text of one file. *)
Lemma upload_loop_Returns encodings (items : list (string * bytes)) :
  forall corpus errs corpus' errs' out,
    upload_loop bytes_decode encodings items corpus errs
    = (Returns (corpus', errs'), out) ->
    exists texts : list (string * message),
      Forall2 (fun kv de => exists out1,
                   decode bytes_decode encodings (fst kv) (snd kv)
                   = (Returns de, out1))
              items texts
      /\ corpus' = fold_left (fun c x => PyDict.set (fst (fst x)) (fst (snd x)) c)
                             (combine items texts) corpus
      /\ errs' = errs ++ map snd texts.
Proof.
  induction items as [|[k v] items IH]; intros corpus errs corpus' errs' out H; cbn in H.
  - inversion H; subst. exists []. rewrite app_nil_r. repeat split. constructor.
  - destruct (decode bytes_decode encodings k v) as [[[dec err]|e] out1] eqn:Hd;
      [|discriminate].
    destruct (upload_loop bytes_decode encodings items
                          (PyDict.set k dec corpus) (errs ++ [err]))
      as [r out2] eqn:Hl.
    inversion H; subst r. apply IH in Hl.
    destruct Hl as (texts & Hall & -> & ->).
    exists ((dec, err) :: texts). split; [|split].
    + constructor; [eauto | assumption].
    + reflexivity.
    + cbn. rewrite <- app_assoc. reflexivity.
Qed.

End UploadFacts.

Section UploadTheorems.

Import CUtils CUtilsSpec.

Variable bytes_decode : bytes -> string -> decoding.

Lemma multi_corpus_upload_Returns corpus_list encoding corpus errs out :
  multi_corpus_upload bytes_decode corpus_list encoding
  = (Returns (corpus, errs), out) ->
  exists texts : list (string * message),
    Forall2 (fun kv de => exists out1,
                 decode bytes_decode (alternative_encodings encoding)
                        (fst kv) (snd kv)
                 = (Returns de, out1))
            corpus_list texts
    /\ corpus = fold_left (fun c x => PyDict.set (fst (fst x)) (fst (snd x)) c)
                          (combine corpus_list texts) []
    /\ errs = filter nonempty (map snd texts).
Proof.
  unfold multi_corpus_upload.
  destruct (upload_loop bytes_decode (alternative_encodings encoding) corpus_list [] [])
    as [[[corpus0 errs0]|e] out0] eqn:Hl; intros H; inversion H; subst.
  apply upload_loop_Returns in Hl. destruct Hl as (texts & Hall & -> & ->).
  exists texts. auto.
Qed.

Lemma get_fold_set_other k (items : list (string * bytes)) :
  forall (texts : list (string * message)) (c : dict string),
    ~ In k (PyDict.keys items) ->
    PyDict.get k (fold_left (fun c x => PyDict.set (fst (fst x)) (fst (snd x)) c)
                            (combine items texts) c)
    = PyDict.get k c.
Proof.
  induction items as [|[k0 v0] items IH]; intros texts c Hk; [reflexivity|].
  destruct texts as [|de texts]; [reflexivity|]. cbn [combine fold_left fst snd].
  rewrite IH by (intros Hin; apply Hk; right; exact Hin).
  apply get_set_other. intros ->. apply Hk. left. reflexivity.
Qed.

Lemma get_fold_set_values (P : string -> Prop) (items : list (string * bytes)) :
  forall (texts : list (string * message)) (c : dict string) k text,
    Forall (fun de => P (fst de)) texts ->
    PyDict.get k (fold_left (fun c x => PyDict.set (fst (fst x)) (fst (snd x)) c)
                            (combine items texts) c)
    = Some text ->
    P text \/ PyDict.get k c = Some text.
Proof.
  induction items as [|[k0 v0] items IH]; intros texts c k text Hall H; [auto|].
  destruct texts as [|de texts]; [auto|]. cbn [combine fold_left fst snd] in H.
  inversion Hall as [|? ? Hde Hall']; subst.
  apply IH in H; [|assumption]. destruct H as [H|H]; [auto|].
  rewrite get_set in H. destruct (String.eqb k0 k); [|auto].
  inversion H; subst. auto.
Qed.

(** X19. Lines 38-47 and 67-75: every text that the upload returns is either
    empty (no encoding worked for the file) or a decoded text with its
    final line feed in which [re.sub] has left single spaces as the only
    blank characters; such a text has a space, and [re.sub] would not
    change it again. *)
Theorem upload_normalises_texts :
  forall (corpus_list : dict bytes) (encoding : string)
         (corpus : dict string) (errs out : list message),
    multi_corpus_upload bytes_decode corpus_list encoding
    = (Returns (corpus, errs), out) ->
    forall k text,
      PyDict.get k corpus = Some text ->
      text = ""
      \/ ((exists body, text = (body ++ nl)%string)
          /\ PyStr.contains " " text = true
          /\ squeezed text = true
          /\ sub_blanks text = text).
Proof.
  intros corpus_list encoding corpus errs out H k text Hg.
  apply multi_corpus_upload_Returns in H. destruct H as (texts & Hall & -> & _).
  apply (get_fold_set_values
           (fun text => text = ""
                        \/ ((exists body, text = (body ++ nl)%string)
                            /\ PyStr.contains " " text = true
                            /\ squeezed text = true
                            /\ sub_blanks text = text))) in Hg.
  - destruct Hg as [Hg|Hg]; [exact Hg | discriminate].
  - clear Hg. induction Hall as [|[k0 v0] [dec err] items texts (out1 & Hd) _ IH];
      constructor; [|exact IH].
    cbn [fst snd] in *. apply decode_Returns in Hd.
    destruct Hd as [(_ & -> & _) | (_ & _ & pre & enc & post & body & _ & _ & _ & Hsp & ->)];
      [left; reflexivity|].
    right. unfold sub_blanks. rewrite sub_blanks_from_nl.
    split; [eexists; reflexivity|]. rewrite <- sub_blanks_from_nl.
    destruct (squeezed_sub_blanks_from (body ++ nl) false) as [Hsq _].
    split; [|split; [exact Hsq | apply sub_blanks_squeezed, Hsq]].
    rewrite contains_space_sub_blanks. apply contains_space_blank, Hsp.
Qed.

Lemma keys_fold_set (items : list (string * bytes)) :
  forall (texts : list (string * message)) (c : dict string),
    length texts = length items ->
    NoDup (PyDict.keys c ++ PyDict.keys items) ->
    PyDict.keys (fold_left (fun c x => PyDict.set (fst (fst x)) (fst (snd x)) c)
                           (combine items texts) c)
    = PyDict.keys c ++ PyDict.keys items.
Proof.
  induction items as [|[k0 v0] items IH]; intros texts c Hlen Hnd.
  - cbn. rewrite app_nil_r. reflexivity.
  - destruct texts as [|de texts]; [discriminate|].
    cbn [combine fold_left fst snd]. cbn in Hnd.
    assert (Hk0 : ~ In k0 (PyDict.keys c)).
    { intros Hin. apply NoDup_remove_2 in Hnd. apply Hnd, in_or_app. auto. }
    rewrite (set_absent _ _ _ Hk0), IH.
    + rewrite keys_app, <- app_assoc. reflexivity.
    + cbn in Hlen. lia.
    + rewrite keys_app, <- app_assoc. exact Hnd.
Qed.

Lemma get_fold_set_In (R : string * bytes -> string * message -> Prop)
      (items : list (string * bytes)) (texts : list (string * message)) :
  Forall2 R items texts ->
  NoDup (PyDict.keys items) ->
  forall (c : dict string) k v,
    In (k, v) items ->
    exists de,
      R (k, v) de
      /\ PyDict.get k (fold_left (fun c x => PyDict.set (fst (fst x)) (fst (snd x)) c)
                                 (combine items texts) c)
         = Some (fst de).
Proof.
  induction 1 as [|[k0 v0] de items texts Hr Hall IH]; intros Hnd c k v Hin;
    [contradiction|].
  cbn in Hnd. inversion Hnd as [|? ? Hk0 Hnd']; subst.
  cbn [combine fold_left fst snd]. destruct Hin as [Heq|Hin].
  - inversion Heq; subst k0 v0. exists de. split; [exact Hr|].
    rewrite get_fold_set_other by assumption. apply get_set_same.
  - apply IH; assumption.
Qed.

(** X18. Lines 16-65 and 67-75: the upload returns one text for every file,
    under its name and in the order of the files. The text of a file is
    what the first encoding of the list - the encoding of the caller,
    then the fixed alternatives - that decodes the bytes to a text with
    a space gives, after [re.sub]; the encodings before it either do
    not decode the bytes or give no space. When no encoding of the list
    does, the text is empty. *)
Theorem upload_takes_first_suitable_encoding :
  forall (corpus_list : dict bytes) (encoding : string)
         (corpus : dict string) (errs out : list message),
    NoDup (PyDict.keys corpus_list) ->
    multi_corpus_upload bytes_decode corpus_list encoding
    = (Returns (corpus, errs), out) ->
    PyDict.keys corpus = PyDict.keys corpus_list
    /\ forall k v,
         In (k, v) corpus_list ->
         (exists pre enc post text,
             alternative_encodings encoding = pre ++ enc :: post
             /\ forallb (unsuitable bytes_decode v) pre = true
             /\ bytes_decode v enc = Decoded text
             /\ PyStr.contains " " (text ++ nl) = true
             /\ PyDict.get k corpus = Some (sub_blanks (text ++ nl)))
         \/ (undecodable bytes_decode (alternative_encodings encoding) v = true
             /\ PyDict.get k corpus = Some "").
Proof.
  intros corpus_list encoding corpus errs out Hnd H.
  apply multi_corpus_upload_Returns in H. destruct H as (texts & Hall & -> & _).
  split.
  - rewrite keys_fold_set; [reflexivity | | exact Hnd].
    symmetry. eapply Forall2_length. exact Hall.
  - intros k v Hin.
    destruct (get_fold_set_In _ _ _ Hall Hnd [] k v Hin) as ([dec err] & (out1 & Hd) & Hg).
    cbn [fst snd] in *. apply decode_Returns in Hd.
    destruct Hd as [(Hu & -> & _) | (_ & _ & pre & enc & post & text & He & Hpre & Hdec & Hsp & ->)].
    + right. auto.
    + left. exists pre, enc, post, text. auto.
Qed.

(** X20. Lines 59-62 and 67-75: the errors that the upload returns are the
    texts "Could not decode the corpus <name> with any of the encodings
    <list>." of the files for which no encoding of the list worked, one
    for each such file and in the order of the files. *)
Theorem upload_errors_name_the_failed_files :
  forall (corpus_list : dict bytes) (encoding : string)
         (corpus : dict string) (errs out : list message),
    multi_corpus_upload bytes_decode corpus_list encoding
    = (Returns (corpus, errs), out) ->
    errs
    = map (fun kv => no_encoding_message (fst kv) (alternative_encodings encoding))
          (filter (fun kv => undecodable bytes_decode
                                         (alternative_encodings encoding) (snd kv))
                  corpus_list).
Proof.
  intros corpus_list encoding corpus errs out H.
  apply multi_corpus_upload_Returns in H. destruct H as (texts & Hall & _ & ->).
  induction Hall as [|[k v] [dec err] items texts (out1 & Hd) _ IH]; [reflexivity|].
  cbn [fst snd map filter] in *. apply decode_Returns in Hd.
  destruct Hd as [(-> & _ & ->) | (-> & -> & _)].
  - cbn. rewrite IH. reflexivity.
  - cbn. exact IH.
Qed.

Lemma decode_raises encodings k to_decode pre encoding post e :
  encodings = pre ++ encoding :: post ->
  forallb (unsuitable bytes_decode to_decode) pre = true ->
  bytes_decode to_decode encoding = DecodeRaises e ->
  exists out, decode bytes_decode encodings k to_decode = (Raises e, out).
Proof.
  intros -> Hpre Hd. unfold decode.
  destruct (decode_loop_raises bytes_decode k to_decode pre encoding post e Hpre Hd 0)
    as [out Hout].
  rewrite Hout. eauto.
Qed.

(** X21. Lines 37-55 and 69-70: [decode] catches UnicodeDecodeError only.
    When an encoding that the loop reaches for some file raises another
    exception - LookupError when the encoding of the caller is not the
    name of a codec - the upload does not go on to the alternatives: it
    ends with an exception and returns neither texts nor errors. *)
Theorem upload_raises_on_other_exceptions :
  forall (corpus_list : dict bytes) (encoding : string)
         (k : string) (v : bytes) (pre : list string) (enc : string)
         (post : list string) (e : string),
    In (k, v) corpus_list ->
    alternative_encodings encoding = pre ++ enc :: post ->
    forallb (unsuitable bytes_decode v) pre = true ->
    bytes_decode v enc = DecodeRaises e ->
    exists e' out,
      multi_corpus_upload bytes_decode corpus_list encoding = (Raises e', out).
Proof.
  intros corpus_list encoding k v pre enc post e Hin He Hpre Hd.
  unfold multi_corpus_upload.
  assert (Hloop : forall corpus errs, exists e' out,
             upload_loop bytes_decode (alternative_encodings encoding)
                         corpus_list corpus errs = (Raises e', out)).
  { induction corpus_list as [|[k0 v0] items IH]; intros corpus errs; [contradiction|].
    cbn [upload_loop].
    destruct (decode bytes_decode (alternative_encodings encoding) k0 v0)
      as [[[dec err]|e0] out0] eqn:Hdec.
    - destruct Hin as [Heq|Hin].
      + inversion Heq; subst k0 v0.
        destruct (decode_raises _ k v _ _ _ _ He Hpre Hd) as [out1 Hr]. congruence.
      + destruct (IH Hin (PyDict.set k0 dec corpus) (errs ++ [err])) as (e' & out' & Hr).
        rewrite Hr. eauto.
    - eauto. }
  destruct (Hloop [] []) as (e' & out' & Hr). rewrite Hr. eauto.
Qed.

End UploadTheorems.

(** ** Opening the variable and the post-processing files *)

Section OpenTheorems.

Import CUtils CUtilsSpec.

Context {A : Type}.
Variable basename : string -> string.
Variable read : string -> string -> reading A.

Lemma other_encoding_None encoding :
  other_encoding encoding = None <->
  (encoding =? "utf-8") = false /\ (encoding =? "utf-16") = false.
Proof.
  unfold other_encoding.
  destruct (encoding =? "utf-8"); [split; [discriminate | intros [? _]; discriminate]|].
  destruct (encoding =? "utf-16"); [split; [discriminate | intros [_ ?]; discriminate]|].
  split; auto.
Qed.

(** An entry of the content stays while the loop goes on. *)
Lemma open_loop_keeps name (paths : list string) :
  forall encoding (content content' : dict A) error,
    open_loop basename read paths encoding content = Opened content' error ->
    PyDict.mem name content = true -> PyDict.mem name content' = true.
Proof.
  induction paths as [|path rest IH]; intros encoding content content' error H Hm;
    cbn in H.
  - inversion H; subst. exact Hm.
  - destruct (read path encoding) as [a|repr|repr].
    + eapply IH; [exact H|]. rewrite mem_set, Hm. apply orb_true_r.
    + destruct (encoding =? "utf-8").
      * unfold read_again in H. destruct (read path "utf-16") as [a| |];
          try discriminate.
        eapply IH; [exact H|]. rewrite mem_set, Hm. apply orb_true_r.
      * destruct (encoding =? "utf-16").
        -- unfold read_again in H. destruct (read path "utf-8") as [a| |];
             try discriminate.
           eapply IH; [exact H|]. rewrite mem_set, Hm. apply orb_true_r.
        -- inversion H; subst. exact Hm.
    + inversion H; subst. exact Hm.
Qed.

(** X22. Lines 86-110 and 119-142: when one of the two functions returns an
    error text, the text names a file that could not be read - with an
    exception other than UnicodeError, or with UnicodeError under an
    encoding that is neither utf-8 nor utf-16 - and the content that is
    returned with it has the files before that one and no other: the
    files after it are not opened. *)
Theorem open_error_stops_reading :
  forall (paths : list string) (encoding : string)
         (content content' : dict A) (err : message),
    open_loop basename read paths encoding content = Opened content' (Some err) ->
    exists l1 p l2 repr enc',
      paths = l1 ++ p :: l2
      /\ err = error_message p repr
      /\ (read p enc' = ReadFails repr
          \/ (read p enc' = ReadUnicodeError repr /\ other_encoding enc' = None))
      /\ (forall q, In q l1 -> PyDict.mem (file_name basename q) content' = true)
      /\ (forall name,
             PyDict.mem name content' = true ->
             PyDict.mem name content = true
             \/ exists q, In q l1 /\ file_name basename q = name).
Proof.
  induction paths as [|path rest IH]; intros encoding content content' err H;
    [discriminate|].
  assert (Hstep : forall enc a,
             open_loop basename read rest enc
                       (PyDict.set (file_name basename path) a content)
             = Opened content' (Some err) ->
             exists l1 p l2 repr enc',
               path :: rest = l1 ++ p :: l2
               /\ err = error_message p repr
               /\ (read p enc' = ReadFails repr
                   \/ (read p enc' = ReadUnicodeError repr
                       /\ other_encoding enc' = None))
               /\ (forall q, In q l1 ->
                             PyDict.mem (file_name basename q) content' = true)
               /\ (forall name,
                      PyDict.mem name content' = true ->
                      PyDict.mem name content = true
                      \/ exists q, In q l1 /\ file_name basename q = name)).
  { intros enc a Hrest. pose proof Hrest as Hkeep. apply IH in Hrest.
    destruct Hrest as (l1 & p & l2 & repr & enc' & -> & -> & Hread & Hin & Hmem).
    exists (path :: l1), p, l2, repr, enc'.
    split; [reflexivity|]. split; [reflexivity|]. split; [exact Hread|]. split.
    - intros q [<-|Hq]; [|apply Hin, Hq].
      eapply open_loop_keeps; [exact Hkeep|]. rewrite mem_set, String.eqb_refl.
      reflexivity.
    - intros name Hm. destruct (Hmem name Hm) as [Hc|(q & Hq & Hn)].
      + rewrite mem_set in Hc. apply orb_prop in Hc. destruct Hc as [Hc|Hc].
        * right. exists path. split; [left; reflexivity|].
          apply String.eqb_eq in Hc. exact Hc.
        * left. exact Hc.
      + right. exists q. split; [right; exact Hq | exact Hn]. }
  assert (Hhere : forall repr enc',
             content' = content -> err = error_message path repr ->
             (read path enc' = ReadFails repr
              \/ (read path enc' = ReadUnicodeError repr
                  /\ other_encoding enc' = None)) ->
             exists l1 p l2 repr enc',
               path :: rest = l1 ++ p :: l2
               /\ err = error_message p repr
               /\ (read p enc' = ReadFails repr
                   \/ (read p enc' = ReadUnicodeError repr
                       /\ other_encoding enc' = None))
               /\ (forall q, In q l1 ->
                             PyDict.mem (file_name basename q) content' = true)
               /\ (forall name,
                      PyDict.mem name content' = true ->
                      PyDict.mem name content = true
                      \/ exists q, In q l1 /\ file_name basename q = name)).
  { intros repr enc' -> -> Hread. exists [], path, rest, repr, enc'.
    split; [reflexivity|]. split; [reflexivity|]. split; [exact Hread|].
    split; [intros q [] | auto]. }
  cbn in H. destruct (read path encoding) as [a|repr|repr] eqn:Hr.
  - eapply Hstep. exact H.
  - destruct (encoding =? "utf-8") eqn:E8.
    + unfold read_again in H. destruct (read path "utf-16") as [a| |];
        try discriminate.
      eapply Hstep. exact H.
    + destruct (encoding =? "utf-16") eqn:E16.
      * unfold read_again in H. destruct (read path "utf-8") as [a| |];
          try discriminate.
        eapply Hstep. exact H.
      * inversion H; subst. eapply Hhere; [reflexivity | reflexivity |].
        right. split; [exact Hr|]. apply other_encoding_None. auto.
  - inversion H; subst. eapply Hhere; [reflexivity | reflexivity |].
    left. exact Hr.
Qed.

Lemma read_all_app l1 l2 encoding (content : dict A) :
  read_all basename read (l1 ++ l2) encoding content
  = read_all basename read l2 encoding (read_all basename read l1 encoding content).
Proof. unfold read_all. apply fold_left_app. Qed.

Lemma read_all_cons path paths encoding (content : dict A) :
  read_all basename read (path :: paths) encoding content
  = read_all basename read paths encoding
             (match read path encoding with
              | ReadOk a => PyDict.set (file_name basename path) a content
              | _ => content
              end).
Proof. reflexivity. Qed.

Lemma open_loop_readable (paths : list string) :
  forall encoding (content : dict A) rest,
    (forall p, In p paths -> exists a, read p encoding = ReadOk a) ->
    open_loop basename read (paths ++ rest) encoding content
    = open_loop basename read rest encoding
                (read_all basename read paths encoding content).
Proof.
  induction paths as [|path paths IH]; intros encoding content rest Hok; [reflexivity|].
  destruct (Hok path (or_introl eq_refl)) as [a Ha].
  cbn [app open_loop]. rewrite Ha. rewrite IH by (intros p Hp; apply Hok; right; exact Hp).
  rewrite read_all_cons, Ha. reflexivity.
Qed.

Lemma get_read_all_other name (paths : list string) encoding (content : dict A) :
  (forall q, In q paths -> file_name basename q <> name) ->
  PyDict.get name (read_all basename read paths encoding content)
  = PyDict.get name content.
Proof.
  revert content. induction paths as [|path paths IH]; intros content Hne; [reflexivity|].
  rewrite read_all_cons.
  rewrite IH by (intros q Hq; apply Hne; right; exact Hq).
  destruct (read path encoding); [|reflexivity|reflexivity].
  apply get_set_other. apply Hne. left. reflexivity.
Qed.

(** X23. Lines 86-93, 110, 119-125 and 142: when every file can be read with
    the encoding, the function returns the content without an error
    text. The content is kept under the names of the files up to their
    first dot, so a file replaces an earlier file of the same name: the
    entry of a name is the content of the last file with that name. *)
Theorem readable_files_are_stored_by_name :
  forall (paths : list string) (encoding : string) (content : dict A),
    (forall p, In p paths -> exists a, read p encoding = ReadOk a) ->
    exists content',
      open_loop basename read paths encoding content = Opened content' None
      /\ forall l1 p l2 a,
           paths = l1 ++ p :: l2 ->
           read p encoding = ReadOk a ->
           (forall q, In q l2 -> file_name basename q <> file_name basename p) ->
           PyDict.get (file_name basename p) content' = Some a.
Proof.
  intros paths encoding content Hok.
  exists (read_all basename read paths encoding content). split.
  - rewrite <- (app_nil_r paths) at 1. rewrite open_loop_readable by exact Hok.
    reflexivity.
  - intros l1 p l2 a -> Ha Hlater.
    rewrite read_all_app, read_all_cons, Ha.
    rewrite get_read_all_other by exact Hlater. apply get_set_same.
Qed.

(** X24. Lines 94-105 and 127-137: UnicodeError on a file makes the function
    exchange utf-8 and utf-16 and read the file again. The second
    reading is outside the [try]: when it fails too, the function does
    not return an error text, it raises. When it works, the exchanged
    encoding stays: the files after that one are read with it, not with
    the encoding of the caller. *)
Theorem unicode_error_switches_the_encoding :
  forall (l1 : list string) (p : string) (l2 : list string)
         (encoding encoding' repr : string) (content : dict A),
    (forall q, In q l1 -> exists a, read q encoding = ReadOk a) ->
    read p encoding = ReadUnicodeError repr ->
    other_encoding encoding = Some encoding' ->
    open_loop basename read (l1 ++ p :: l2) encoding content
    = match read p encoding' with
      | ReadOk a =>
          open_loop basename read l2 encoding'
                    (PyDict.set (file_name basename p) a
                                (read_all basename read l1 encoding content))
      | ReadUnicodeError repr' => OpenRaises repr'
      | ReadFails repr' => OpenRaises repr'
      end.
Proof.
  intros l1 p l2 encoding encoding' repr content Hok Hp Hother.
  rewrite open_loop_readable by exact Hok. cbn [open_loop]. rewrite Hp.
  unfold other_encoding in Hother.
  destruct (encoding =? "utf-8").
  - inversion Hother; subst encoding'. unfold read_again.
    destruct (read p "utf-16"); reflexivity.
  - destruct (encoding =? "utf-16"); [|discriminate].
    inversion Hother; subst encoding'. unfold read_again.
    destruct (read p "utf-8"); reflexivity.
Qed.

End OpenTheorems.

Section UploadClosed.

Import CUtils CUtilsSpec SampleFiles.

Lemma upload_normalises_texts_witness :
  exists corpus errs out,
    multi_corpus_upload bytes_decode sample_files "ascii"
    = (Returns (corpus, errs), out)
    /\ PyDict.get "f1" corpus = Some ("JOHN: I like cats." ++ nl)%string
    /\ forall k text,
         PyDict.get k corpus = Some text ->
         text = ""
         \/ ((exists body, text = (body ++ nl)%string)
             /\ PyStr.contains " " text = true
             /\ squeezed text = true
             /\ sub_blanks text = text).
Proof.
  eexists. eexists. eexists. split; [vm_compute; reflexivity|].
  split; [reflexivity|].
  eapply (upload_normalises_texts bytes_decode sample_files "ascii").
  vm_compute. reflexivity.
Defined.

Lemma upload_takes_first_suitable_encoding_witness :
  exists corpus errs out,
    multi_corpus_upload bytes_decode sample_files "ascii"
    = (Returns (corpus, errs), out)
    /\ PyDict.keys corpus = PyDict.keys sample_files
    /\ forall k v,
         In (k, v) sample_files ->
         (exists pre enc post text,
             alternative_encodings "ascii" = pre ++ enc :: post
             /\ forallb (unsuitable bytes_decode v) pre = true
             /\ bytes_decode v enc = Decoded text
             /\ PyStr.contains " " (text ++ nl) = true
             /\ PyDict.get k corpus = Some (sub_blanks (text ++ nl)))
         \/ (undecodable bytes_decode (alternative_encodings "ascii") v = true
             /\ PyDict.get k corpus = Some "").
Proof.
  eexists. eexists. eexists. split; [vm_compute; reflexivity|].
  eapply (upload_takes_first_suitable_encoding bytes_decode sample_files "ascii").
  - repeat constructor; cbn; intros H;
      repeat (destruct H as [H|H]; [discriminate|]); exact H.
  - vm_compute. reflexivity.
Defined.

Lemma upload_errors_name_the_failed_files_witness :
  exists corpus errs out,
    multi_corpus_upload bytes_decode sample_files "ascii"
    = (Returns (corpus, errs), out)
    /\ errs = [no_encoding_message "f3" (alternative_encodings "ascii")].
Proof.
  eexists. eexists. eexists. split; [vm_compute; reflexivity|].
  etransitivity.
  - eapply (upload_errors_name_the_failed_files bytes_decode sample_files "ascii").
    vm_compute. reflexivity.
  - vm_compute. reflexivity.
Defined.

Lemma upload_raises_on_other_exceptions_witness :
  exists e' out,
    multi_corpus_upload bytes_decode sample_files "utf8x" = (Raises e', out).
Proof.
  apply (upload_raises_on_other_exceptions
           bytes_decode sample_files "utf8x" "f1" john_bytes [] "utf8x"
           ["utf-8"; "utf-16"; "latin-1"; "ascii"; "cp1252"; "cp1250"; "cp1251";
            "cp1253"]
           "LookupError: unknown encoding: utf8x").
  - left. reflexivity.
  - reflexivity.
  - reflexivity.
  - reflexivity.
Defined.

Lemma open_error_stops_reading_witness :
  exists content' err,
    open_variables basename json_load
                   ["old/gender.json"; "vars/broken.json"; "vars/kind.json"] "UTF-8"
    = Opened content' (Some err)
    /\ exists l1 p l2 repr enc',
        ["old/gender.json"; "vars/broken.json"; "vars/kind.json"] = l1 ++ p :: l2
        /\ err = error_message p repr
        /\ (json_load p enc' = ReadFails repr
            \/ (json_load p enc' = ReadUnicodeError repr
                /\ other_encoding enc' = None))
        /\ (forall q, In q l1 -> PyDict.mem (file_name basename q) content' = true)
        /\ (forall name,
               PyDict.mem name content' = true ->
               PyDict.mem name (@nil (string * dict var_value)) = true
               \/ exists q, In q l1 /\ file_name basename q = name).
Proof.
  eexists. eexists. split; [vm_compute; reflexivity|].
  eapply (open_error_stops_reading
            basename json_load
            ["old/gender.json"; "vars/broken.json"; "vars/kind.json"] "utf-8" []).
  vm_compute. reflexivity.
Defined.

Lemma readable_files_are_stored_by_name_witness :
  exists content',
    open_variables basename json_load
                   ["old/gender.json"; "vars/gender.v1.json"] "UTF-8"
    = Opened content' None
    /\ forall l1 p l2 a,
         ["old/gender.json"; "vars/gender.v1.json"] = l1 ++ p :: l2 ->
         json_load p "utf-8" = ReadOk a ->
         (forall q, In q l2 -> file_name basename q <> file_name basename p) ->
         PyDict.get (file_name basename p) content' = Some a.
Proof.
  apply (readable_files_are_stored_by_name
           basename json_load ["old/gender.json"; "vars/gender.v1.json"] "utf-8" []).
  intros p [<-|[<-|[]]]; eexists; reflexivity.
Defined.

Lemma unicode_error_switches_the_encoding_witness :
  open_variables basename json_load
                 ["old/gender.json"; "vars/kind.json"; "vars/gender.v1.json"] "UTF-8"
  = open_loop basename json_load ["vars/gender.v1.json"] "utf-16"
              [("gender", [("gender", VList ["m"; "f"])]);
               ("kind", [("kind", VList ["animal"; "plant"])])].
Proof.
  apply (unicode_error_switches_the_encoding
           basename json_load ["old/gender.json"] "vars/kind.json"
           ["vars/gender.v1.json"] "utf-8" "utf-16" "UnicodeDecodeError()" []).
  - intros q [<-|[]]. eexists. reflexivity.
  - reflexivity.
  - reflexivity.
Defined.

End UploadClosed.
